(** * P&ID scanner: text acquisition, pattern extraction and the scan
    orchestrator of [pid_scanner.py], embedded in Rocq.

    The scanner is a Python object with two attributes, [config] and
    [extracted_data], both referring to mutable dictionaries.  The
    embedding keeps that shape: Python values are immediate values or
    references into a store of mutable objects (dictionaries and lists),
    every method is a computation in a state-and-exception monad over the
    store, and the collaborating libraries (pdfplumber, pdf2image, OpenCV,
    pytesseract, [re], the file system) are gathered in one record of
    functions whose calls are logged. *)

From Stdlib Require Import ZArith String Ascii.
From stdpp Require Import gmap strings list.

Open Scope string_scope.
Open Scope list_scope.

(** ** Python values and the object store *)

Definition loc := nat.

(** Immediate values are immutable; [VRef] points at a dictionary or a list
    in the store.  [VTuple] is a tuple of strings: [re.findall] returns such
    tuples for a pattern with two or more groups.  JSON numbers are integers
    here; strings are sequences of characters, one [ascii] standing for one
    character. *)
Inductive val :=
  | VNone
  | VBool (b : bool)
  | VInt (n : Z)
  | VStr (s : string)
  | VTuple (ss : list string)
  | VRef (l : loc).

(** Dictionaries keep their insertion order and are keyed by strings. *)
Inductive obj :=
  | ODict (d : list (string * val))
  | OList (l : list val).

Global Instance val_eq_dec : EqDecision val.
Proof. solve_decision. Defined.

Global Instance obj_eq_dec : EqDecision obj.
Proof. solve_decision. Defined.

(** What one [re.findall] hit looks like: the matched string (or its only
    group), or the tuple of its groups. *)
Inductive rematch :=
  | MStr (s : string)
  | MTuple (ss : list string).

Global Instance rematch_eq_dec : EqDecision rematch.
Proof. solve_decision. Defined.

Global Instance rematch_countable : Countable rematch.
Proof.
  refine (inj_countable'
            (fun m => match m with MStr s => inl s | MTuple ss => inr ss end)
            (fun x => match x with inl s => MStr s | inr ss => MTuple ss end) _).
  by intros [].
Defined.

Definition val_of_match (m : rematch) : val :=
  match m with MStr s => VStr s | MTuple ss => VTuple ss end.

Global Instance val_of_match_inj : Inj (=) (=) val_of_match.
Proof. intros [] [] ?; simplify_eq/=; done. Qed.

(** Calls made to the collaborating libraries, in the order they happen.
    The [print] diagnostics of the source are not recorded. *)
Inductive call :=
  | PdfplumberOpen (pdf_path : string)
  | ConvertFromPath (pdf_path : string) (dpi : val)
  | ImageToString (ocr_config : val)
  | ToCsv (output_path : string) (rows : list (string * val * val))
  | JsonDump (output_path : string) (doc : val).

(** The scanner ([self]) and the world around it. *)
Record state := mkState {
  heap : list obj;
  config : val;
  extracted_data : val;
  calls : list call
}.

(** ** Exceptions and the monad *)

(** The subclasses of [Exception] that can arise.  [ReError] is [re.error];
    [ValueError] stands for its subclass [json.JSONDecodeError] too;
    [OSError] is [OSError] or a subclass of it that is not told apart
    here;
    [LibraryError] is whatever a collaborating library raises.

    [NotEmbedded] is no exception of Python.  The dictionaries of this
    store are keyed by strings; a step that would give a dictionary a key
    that is [None], a truth value, a number or a tuple, which Python
    carries out, ends here with [NotEmbedded], and what follows such a
    step is outside this development. *)
Inductive exn :=
  | FileNotFoundError
  | KeyError
  | TypeError
  | AttributeError
  | ValueError
  | ReError
  | OSError
  | LibraryError
  | NotEmbedded.

Global Instance exn_eq_dec : EqDecision exn.
Proof. solve_decision. Defined.

Inductive outcome (A : Type) :=
  | Ok (a : A)
  | Raise (e : exn).
Arguments Ok {A} a.
Arguments Raise {A} e.

Definition M (A : Type) : Type := state -> outcome A * state.

Definition ret {A} (a : A) : M A := fun s => (Ok a, s).

Definition raise {A} (e : exn) : M A := fun s => (Raise e, s).

Definition bind {A B} (m : M A) (k : A -> M B) : M B :=
  fun s => match m s with
           | (Ok a, s') => k a s'
           | (Raise e, s') => (Raise e, s')
           end.

Declare Scope py_scope.
Notation "x ← y ; z" := (bind y (fun x => z))
  (at level 20, y at level 100, z at level 200, only parsing) : py_scope.
Notation "x ;; z" := (bind x (fun _ => z))
  (at level 100, z at level 200, only parsing, right associativity) : py_scope.
Open Scope py_scope.

(** [try: m  except Exception: handler] *)
Definition try_except {A} (m handler : M A) : M A :=
  fun s => match m s with
           | (Ok a, s') => (Ok a, s')
           | (Raise _, s') => handler s'
           end.

(** A [for] loop that updates a local variable and sits last in a [try]
    block whose handler only reports: at the first exception the loop
    stops and the local keeps what it had. *)
Fixpoint for_try {A L} (xs : list A) (acc : L) (body : A -> L -> M L) : M L :=
  match xs with
  | [] => ret acc
  | x :: xs' =>
      fun s => match body x acc s with
               | (Ok acc', s') => for_try xs' acc' body s'
               | (Raise _, s') => (Ok acc, s')
               end
  end.

(** A plain [for] loop: the first exception leaves the loop and propagates. *)
Fixpoint for_each {A} (xs : list A) (body : A -> M unit) : M unit :=
  match xs with
  | [] => ret tt
  | x :: xs' => body x;; for_each xs' body
  end.

(** A plain [for] loop that updates a local variable. *)
Fixpoint for_acc {A L} (xs : list A) (acc : L) (body : A -> L -> M L) : M L :=
  match xs with
  | [] => ret acc
  | x :: xs' => acc' ← body x acc; for_acc xs' acc' body
  end.

(** A library function that returns or raises. *)
Definition lib {A} (r : option A) : M A :=
  match r with Some a => ret a | None => raise LibraryError end.

Definition log (c : call) : M unit :=
  fun s => (Ok tt, mkState (heap s) (config s) (extracted_data s) (calls s ++ [c])).

Definition self_config : M val := fun s => (Ok (config s), s).

Definition self_extracted_data : M val := fun s => (Ok (extracted_data s), s).

Definition set_extracted_data (v : val) : M unit :=
  fun s => (Ok tt, mkState (heap s) (config s) v (calls s)).

Definition set_config (v : val) : M unit :=
  fun s => (Ok tt, mkState (heap s) v (extracted_data s) (calls s)).

(** ** Reading and writing the store *)

Definition deref (h : list obj) (v : val) : option obj :=
  match v with VRef l => h !! l | _ => None end.

(** The value a dictionary's entries hold for key [k]. *)
Fixpoint dict_lookup {V} (d : list (string * V)) (k : string) : option V :=
  match d with
  | [] => None
  | (k', v) :: d' => if bool_decide (k' = k) then Some v else dict_lookup d' k
  end.

(** [v[k]] for a string key. *)
Definition h_getitem (h : list obj) (v : val) (k : string) : outcome val :=
  match deref h v with
  | Some (ODict d) =>
      match dict_lookup d k with
      | Some x => Ok x
      | None => Raise KeyError
      end
  | _ => Raise TypeError
  end.

(** [v[k1][k2]...] *)
Fixpoint h_subscript (h : list obj) (v : val) (ks : list string) : outcome val :=
  match ks with
  | [] => Ok v
  | k :: ks' =>
      match h_getitem h v k with
      | Ok v' => h_subscript h v' ks'
      | Raise e => Raise e
      end
  end.

(** [v.get(k, default)] *)
Definition h_dict_get (h : list obj) (v : val) (k : string) (default : val)
  : outcome val :=
  match deref h v with
  | Some (ODict d) =>
      match dict_lookup d k with
      | Some x => Ok x
      | None => Ok default
      end
  | _ => Raise AttributeError
  end.

(** [v.items()], as the list a loop over it runs through. *)
Definition h_items (h : list obj) (v : val) : outcome (list (string * val)) :=
  match deref h v with
  | Some (ODict d) => Ok d
  | _ => Raise AttributeError
  end.

(** Truth value of [v] in a condition. *)
Definition h_truthy (h : list obj) (v : val) : bool :=
  match v with
  | VNone => false
  | VBool b => b
  | VInt n => negb (n =? 0)%Z
  | VStr s => negb (bool_decide (s = ""))
  | VTuple ss => negb (bool_decide (ss = []))
  | VRef l =>
      match h !! l with
      | Some (ODict d) => negb (bool_decide (d = []))
      | Some (OList l) => negb (bool_decide (l = []))
      | None => false
      end
  end.

Definition chars (s : string) : list val :=
  (fun c => VStr (String c "")) <$> list_ascii_of_string s.

(** What [for x in v] runs through. *)
Definition h_iter (h : list obj) (v : val) : outcome (list val) :=
  match v with
  | VStr s => Ok (chars s)
  | VTuple ss => Ok (VStr <$> ss)
  | VRef l =>
      match h !! l with
      | Some (OList xs) => Ok xs
      | Some (ODict d) => Ok ((fun kv => VStr kv.1) <$> d)
      | None => Raise TypeError
      end
  | _ => Raise TypeError
  end.

(** [d[k] = v] on the entries of a dictionary: an existing key keeps its
    place, a new key goes last. *)
Fixpoint dict_set {V} (d : list (string * V)) (k : string) (v : V)
  : list (string * V) :=
  match d with
  | [] => [(k, v)]
  | (k', v') :: d' =>
      if bool_decide (k' = k) then (k, v) :: d' else (k', v') :: dict_set d' k v
  end.

Arguments h_subscript : simpl never.

Definition lift {A} (f : list obj -> outcome A) : M A :=
  fun s => (f (heap s), s).

Definition getitem (v : val) (k : string) : M val := lift (fun h => h_getitem h v k).
Definition subscript (v : val) (ks : list string) : M val :=
  lift (fun h => h_subscript h v ks).
Definition dict_get (v : val) (k : string) (default : val) : M val :=
  lift (fun h => h_dict_get h v k default).
Definition items (v : val) : M (list (string * val)) := lift (fun h => h_items h v).
Definition truthy (v : val) : M bool := lift (fun h => Ok (h_truthy h v)).

(** [self.config[k1][k2]...], as a value and as a condition. *)
Definition config_at (ks : list string) : M val :=
  cfg ← self_config;
  subscript cfg ks.

Definition config_flag (ks : list string) : M bool :=
  v ← config_at ks;
  truthy v.
Definition iter (v : val) : M (list val) := lift (fun h => h_iter h v).

(** A new object: [{...}] or [[...]]. *)
Definition alloc (o : obj) : M val :=
  fun s => (Ok (VRef (length (heap s))),
            mkState (heap s ++ [o]) (config s) (extracted_data s) (calls s)).

(** [v[k] = x] *)
Definition setitem (v : val) (k : string) (x : val) : M unit :=
  fun s => match v with
           | VRef l =>
               match heap s !! l with
               | Some (ODict d) =>
                   (Ok tt, mkState (<[l := ODict (dict_set d k x)]> (heap s))
                                   (config s) (extracted_data s) (calls s))
               | _ => (Raise TypeError, s)
               end
           | _ => (Raise TypeError, s)
           end.

(** [v.append(x)] *)
Definition append (v : val) (x : val) : M unit :=
  fun s => match v with
           | VRef l =>
               match heap s !! l with
               | Some (OList xs) =>
                   (Ok tt, mkState (<[l := OList (xs ++ [x])]> (heap s))
                                   (config s) (extracted_data s) (calls s))
               | _ => (Raise AttributeError, s)
               end
           | _ => (Raise AttributeError, s)
           end.

(** [len(v)] *)
Definition h_len (h : list obj) (v : val) : outcome Z :=
  match v with
  | VStr s => Ok (Z.of_nat (String.length s))
  | VTuple ss => Ok (Z.of_nat (length ss))
  | VRef l =>
      match h !! l with
      | Some (OList xs) => Ok (Z.of_nat (length xs))
      | Some (ODict d) => Ok (Z.of_nat (length d))
      | None => Raise TypeError
      end
  | _ => Raise TypeError
  end.

Definition py_len (v : val) : M Z := lift (fun h => h_len h v).

(** [v >= n] for an integer [n]. *)
Definition py_ge (v : val) (n : Z) : M bool :=
  match v with
  | VInt a => ret (n <=? a)%Z
  | VBool b => ret (n <=? (if b then 1 else 0))%Z
  | _ => raise TypeError
  end.

(** Whether [sub] occurs in [s]. *)
Fixpoint is_substring (sub s : string) : bool :=
  String.prefix sub s ||
  match s with
  | String _ s' => is_substring sub s'
  | EmptyString => false
  end.

(** [k in v] for a string [k]. *)
Definition h_contains (h : list obj) (v : val) (k : string) : outcome bool :=
  match v with
  | VStr s => Ok (is_substring k s)
  | VTuple ss => Ok (bool_decide (k ∈ ss))
  | VRef l =>
      match h !! l with
      | Some (ODict d) => Ok (bool_decide (is_Some (dict_lookup d k)))
      | Some (OList xs) => Ok (bool_decide (VStr k ∈ xs))
      | None => Raise TypeError
      end
  | _ => Raise TypeError
  end.

Definition contains (v : val) (k : string) : M bool := lift (fun h => h_contains h v k).

(** One element of the sequence handed to [v.update]: any iterable of
    exactly two elements, a key and a value ([ValueError] for another
    length, [TypeError] for an element that cannot be iterated).  A list
    or a dictionary cannot be a key ([TypeError]: unhashable); a string is
    a key of this store; for the other keys see [NotEmbedded]. *)
Definition update_pair (v item : val) : M unit :=
  kv ← iter item;
  match kv with
  | [VStr k; x] => setitem v k x
  | [VRef _; _] => raise TypeError
  | [_; _] => raise NotEmbedded
  | _ => raise ValueError
  end.

(** [v.update(new)] on a dictionary [v]: the entries of [new] when it is a
    dictionary; otherwise [new] is iterated and each element is a pair, set
    as it is met, so that the pairs before a faulty element stay set. *)
Definition dict_update (v new : val) : M unit :=
  _ ← lift (fun h => match deref h v with
                     | Some (ODict d) => Ok d
                     | _ => Raise AttributeError
                     end);
  entries ← lift (fun h => match deref h new with
                           | Some (ODict d) => Ok (Some d)
                           | _ => Ok None
                           end);
  match entries with
  | Some entries => for_each entries (fun kv => setitem v kv.1 kv.2)
  | None =>
      pairs ← iter new;
      for_each pairs (update_pair v)
  end.

(** Dictionary and list displays, and what [json.load] builds from a
    document: leaves are values, every display makes a new object, a key
    written twice keeps its last value. *)
#[local] Set Warnings "-register-all".
Inductive literal :=
  | LVal (v : val)
  | LDict (kvs : list (string * literal))
  | LList (xs : list literal).

Fixpoint build (x : literal) : M val :=
  match x with
  | LVal v => ret v
  | LDict kvs =>
      d ← (fix go (kvs : list (string * literal)) (d : list (string * val))
             : M (list (string * val)) :=
             match kvs with
             | [] => ret d
             | (k, e) :: kvs' => v ← build e; go kvs' (dict_set d k v)
             end) kvs [];
      alloc (ODict d)
  | LList xs =>
      l ← (fix go (xs : list literal) (l : list val) : M (list val) :=
             match xs with
             | [] => ret l
             | e :: xs' => v ← build e; go xs' (l ++ [v])%list
             end) xs [];
      alloc (OList l)
  end.

(** ** Strings *)

(** [str.isspace] on the characters below 256. *)
Definition isspace (c : ascii) : bool :=
  let n := nat_of_ascii c in
  ((9 <=? n) && (n <=? 13) || (28 <=? n) && (n <=? 32) || (n =? 133) || (n =? 160))%nat.

Fixpoint lstrip (s : string) : string :=
  match s with
  | String c s' => if isspace c then lstrip s' else s
  | EmptyString => EmptyString
  end.

(** [s.strip()] *)
Definition strip (s : string) : string :=
  String.rev (lstrip (String.rev (lstrip s))).

(** [" ".join(l)] *)
Definition join (sep : string) (l : list string) : string := String.concat sep l.

(** [len(s)] *)
Definition len (s : string) : nat := String.length s.

(** [s[:n]] *)
Definition prefix_of (n : nat) (s : string) : string := String.substring 0 n s.

(** ** The collaborating libraries *)

Inductive color_conversion := COLOR_BGR2LAB | COLOR_LAB2BGR.

(** What [open(path, 'r')] followed by [json.load] finds at a path: no
    file, a file that cannot be opened, a file that is not JSON, or the
    document the file holds. *)
Inductive json_source :=
  | NoSuchFile
  | Unreadable
  | NotJson
  | JsonDocument (doc : literal).

(** Every library function the scanner calls, as a function that returns
    ([Some]) or raises ([None]).  Pages, PIL images and pixel arrays are
    opaque.  [clahe_apply] is the equalizer built by
    [cv2.createCLAHE(clipLimit=2.0, tileGridSize=(8,8))]; [re_findall] is
    [re.findall] under [re.IGNORECASE] and raises for a pattern that does
    not compile; [json_file] is what reading a JSON file finds;
    [open_write] tells whether a file can be opened for writing. *)
Record backend := {
  page : Type;
  pil_image : Type;
  ndarray : Type;
  os_path_exists : string -> bool;
  pdfplumber_open : string -> option (list page);
  page_extract_text : page -> option (option string);
  convert_from_path : string -> val -> option (list pil_image);
  np_array : pil_image -> ndarray;
  shape_len : ndarray -> nat;
  cv2_medianBlur : ndarray -> Z -> option ndarray;
  cv2_cvtColor : ndarray -> color_conversion -> option ndarray;
  cv2_split : ndarray -> option (list ndarray);
  clahe_apply : ndarray -> option ndarray;
  cv2_merge : list ndarray -> option ndarray;
  cv2_filter2D : ndarray -> list (list Z) -> option ndarray;
  image_to_string : ndarray -> val -> option string;
  re_findall : string -> string -> option (list rematch);
  json_file : string -> json_source;
  open_write : string -> bool
}.

Section Scanner.

Context (B : backend).

(** ** Text acquisition *)

Definition sharpen_kernel : list (list Z) :=
  [[-1; -1; -1]; [-1; 9; -1]; [-1; -1; -1]]%Z.

Definition preprocess_image (image : ndarray B) : M (ndarray B) :=
  denoise ← config_flag ["ocr_settings"; "preprocessing"; "denoise"];
  image ← (if denoise then lib (cv2_medianBlur B image 3) else ret image);
  enhance_contrast ← config_flag ["ocr_settings"; "preprocessing"; "enhance_contrast"];
  image ← (if enhance_contrast then
             lab ← lib (cv2_cvtColor B image COLOR_BGR2LAB);
             channels ← lib (cv2_split B lab);
             match channels with
             | [l_channel; a; b] =>
                 cl ← lib (clahe_apply B l_channel);
                 image ← lib (cv2_merge B [cl; a; b]);
                 lib (cv2_cvtColor B image COLOR_LAB2BGR)
             | _ => raise ValueError
             end
           else ret image);
  sharpen ← config_flag ["ocr_settings"; "preprocessing"; "sharpen"];
  image ← (if sharpen then lib (cv2_filter2D B image sharpen_kernel) else ret image);
  ret image.

(** The body of the pdfplumber loop: [if text: text_content.append(text)]. *)
Definition plumber_page (pg : page B) (text_content : list string) : M (list string) :=
  text ← lib (page_extract_text B pg);
  match text with
  | Some (String c t) => ret (text_content ++ [String c t])%list
  | _ => ret text_content
  end.

(** The OCR loop, up to the recognized text of one page image. *)
Definition recognize (image : pil_image B) : M string :=
  let img_array := np_array B image in
  img_array ← (if (shape_len B img_array =? 3)%nat
               then preprocess_image img_array else ret img_array);
  ocr_config ← config_at ["ocr_settings"; "tesseract_config"];
  log (ImageToString ocr_config);;
  lib (image_to_string B img_array ocr_config).

(** The body of the OCR loop: [if text.strip(): text_content.append(text)]. *)
Definition ocr_page (image : pil_image B) (text_content : list string) : M (list string) :=
  text ← recognize image;
  if bool_decide (strip text = "") then ret text_content
  else ret (text_content ++ [text]).

(** Method 1: the text layer, read with pdfplumber. *)
Definition text_layer (pdf_path : string) (text_content : list string) : M (list string) :=
  try_except
    (log (PdfplumberOpen pdf_path);;
     pages ← lib (pdfplumber_open B pdf_path);
     for_try pages text_content plumber_page)
    (ret text_content).

(** Method 2: rasterize and recognize. *)
Definition ocr_fallback (pdf_path : string) (text_content : list string) : M (list string) :=
  try_except
    (dpi ← config_at ["ocr_settings"; "dpi"];
     log (ConvertFromPath pdf_path dpi);;
     images ← lib (convert_from_path B pdf_path dpi);
     for_try images text_content ocr_page)
    (ret text_content).

Definition extract_text_from_pdf (pdf_path : string) : M (list string) :=
  let text_content := [] in
  text_content ← text_layer pdf_path text_content;
  match text_content with
  | _ :: _ =>
      let combined_text := join " " text_content in
      if (50 <? len (strip combined_text))%nat then ret text_content
      else
        let text_content := [] in
        ocr_fallback pdf_path text_content
  | [] => ocr_fallback pdf_path text_content
  end.

(** ** Pattern extraction *)

(** [re.findall(pattern, text, re.IGNORECASE)] *)
Definition findall (pattern : val) (text : string) : M (list rematch) :=
  match pattern with
  | VStr p =>
      match re_findall B p text with
      | Some found => ret found
      | None => raise ReError
      end
  | _ => raise TypeError
  end.

(** [list(set(matches))]: the order of the result is the set's own. *)
Definition list_set (matches : list rematch) : list val :=
  val_of_match <$> elements (list_to_set matches : gset rematch).

Definition extract_patterns (text : string) (patterns : val) : M val :=
  let matches := [] in
  pats ← iter patterns;
  matches ← for_acc pats matches (fun pattern matches =>
               found ← findall pattern text;
               ret (matches ++ found)%list);
  alloc (OList (list_set matches)).

(** ** The scan orchestrator *)

(** The body of the loop over the categories. *)
Definition scan_category (combined_text : string) (results : val)
    (category : string) (settings : val) : M unit :=
  enabled ← dict_get settings "enabled" (VBool true);
  t ← truthy enabled;
  if t then
    default ← alloc (OList []);
    patterns ← dict_get settings "patterns" default;
    matches ← extract_patterns combined_text patterns;
    n ← py_len matches;
    entry ← alloc (ODict [("count", VInt n); ("items", matches)]);
    setitem results category entry
  else ret tt.

Definition raw_text_preview (combined_text : string) : string :=
  if (500 <? len combined_text)%nat
  then prefix_of 500 combined_text +:+ "..."
  else combined_text.

Definition scan_pdf (pdf_path : string) : M val :=
  if negb (os_path_exists B pdf_path) then raise FileNotFoundError else
  text_content ← extract_text_from_pdf pdf_path;
  let combined_text := join " " text_content in
  cfg ← self_config;
  extraction_settings ← getitem cfg "extraction_settings";
  results ← alloc (ODict []);
  categories ← items extraction_settings;
  for_each categories (fun cs => scan_category combined_text results cs.1 cs.2);;
  record ← alloc (ODict [("pdf_path", VStr pdf_path);
                         ("extraction_results", results);
                         ("total_pages", VInt (Z.of_nat (length text_content)));
                         ("raw_text_preview", VStr (raw_text_preview combined_text))]);
  set_extracted_data record;;
  self_extracted_data.

Definition get_summary : M val :=
  data ← self_extracted_data;
  t ← truthy data;
  if negb t then alloc (ODict []) else
  summary ← alloc (ODict []);
  data ← self_extracted_data;
  results ← getitem data "extraction_results";
  entries ← items results;
  for_each entries (fun cd =>
    count ← getitem cd.2 "count";
    setitem summary cd.1 count);;
  ret summary.

Definition export_to_csv (output_path : string) : M unit :=
  data ← self_extracted_data;
  t ← truthy data;
  if negb t then raise ValueError else
  let rows := [] in
  data ← self_extracted_data;
  results ← getitem data "extraction_results";
  entries ← items results;
  rows ← for_acc entries rows (fun cd rows =>
            its ← getitem cd.2 "items";
            its ← iter its;
            for_acc its rows (fun item rows =>
              data ← self_extracted_data;
              source ← getitem data "pdf_path";
              ret (rows ++ [(cd.1, item, source)])));
  if open_write B output_path then log (ToCsv output_path rows)
  else raise OSError.

Definition export_to_json (output_path : string) : M unit :=
  data ← self_extracted_data;
  t ← truthy data;
  if negb t then raise ValueError else
  if open_write B output_path then
    data ← self_extracted_data;
    log (JsonDump output_path data)
  else raise OSError.

(** [category] is [None] when the argument is left out. *)
Definition filter_results (category : option string) (min_count : Z) : M val :=
  data ← self_extracted_data;
  t ← truthy data;
  if negb t then alloc (ODict []) else
  filtered ← alloc (ODict []);
  data ← self_extracted_data;
  results ← getitem data "extraction_results";
  entries ← items results;
  for_each entries (fun cd =>
    if match category with
       | Some name => negb (bool_decide (name = "")) && negb (bool_decide (cd.1 = name))
       | None => false
       end
    then ret tt
    else
      count ← getitem cd.2 "count";
      enough ← py_ge count min_count;
      if enough then setitem filtered cd.1 cd.2 else ret tt);;
  ret filtered.

Definition update_config (new_config : val) : M unit :=
  cfg ← self_config;
  dict_update cfg new_config.

Definition add_custom_pattern (category pattern : string) : M unit :=
  cfg ← self_config;
  extraction_settings ← getitem cfg "extraction_settings";
  present ← contains extraction_settings category;
  (if negb present then
     patterns ← alloc (OList []);
     entry ← alloc (ODict [("enabled", VBool true); ("patterns", patterns)]);
     cfg ← self_config;
     extraction_settings ← getitem cfg "extraction_settings";
     setitem extraction_settings category entry
   else ret tt);;
  cfg ← self_config;
  patterns ← subscript cfg ["extraction_settings"; category; "patterns"];
  append patterns (VStr pattern).

(** [open] raises [FileNotFoundError] when there is no such file and
    another [OSError] when the file is there and cannot be opened;
    [json.load] raises [json.JSONDecodeError], a [ValueError], when the
    file is not JSON. *)
Definition load_config (config_path : string) : M val :=
  match json_file B config_path with
  | JsonDocument doc => build doc
  | NoSuchFile => raise FileNotFoundError
  | Unreadable => raise OSError
  | NotJson => raise ValueError
  end.

(** [PIDScanner(config_path)] *)
Definition init (config_path : string) : M unit :=
  cfg ← load_config config_path;
  set_config cfg;;
  data ← alloc (ODict []);
  set_extracted_data data.

End Scanner.

(** ** A small world to run the scanner in

    Documents are given by what the two acquisition methods see in them,
    JSON files by what reading them finds (a path that is not listed has
    no file);
    images are recognized as the text they carry; the OpenCV steps leave an
    image as it is.  The pattern engine reads a pattern as a literal string
    and matches it without regard to case, left to right and without
    overlap, as [re.findall] does for a pattern free of special characters;
    a pattern with unbalanced parentheses does not compile. *)
Module World.

Record document := {
  layer : option (list (option (option string)));
  raster : option (list (option string))
}.

Definition lower (c : ascii) : ascii :=
  let n := nat_of_ascii c in
  if ((65 <=? n) && (n <=? 90))%nat then ascii_of_nat (n + 32) else c.

Fixpoint prefix_ci (p t : string) : bool :=
  match p, t with
  | EmptyString, _ => true
  | String a p', String b t' => bool_decide (lower a = lower b) && prefix_ci p' t'
  | String _ _, EmptyString => false
  end.

Fixpoint occurrences (p : string) (skip : nat) (t : string) : list rematch :=
  match t with
  | EmptyString => []
  | String c t' =>
      match skip with
      | S k => occurrences p k t'
      | O =>
          if prefix_ci p t
          then MStr (String.substring 0 (String.length p) t)
                 :: occurrences p (String.length p - 1) t'
          else occurrences p 0 t'
      end
  end.

Fixpoint depth (p : string) (open : nat) : option nat :=
  match p with
  | EmptyString => Some open
  | String c p' =>
      if bool_decide (c = "("%char) then depth p' (S open)
      else if bool_decide (c = ")"%char)
           then match open with S k => depth p' k | O => None end
           else depth p' open
  end.

Definition literal_findall (p t : string) : option (list rematch) :=
  match depth p 0 with
  | Some O =>
      if bool_decide (p = "")
      then Some (replicate (S (String.length t)) (MStr ""))
      else Some (occurrences p 0 t)
  | _ => None
  end.

Fixpoint lookup_file {A} (fs : list (string * A)) (path : string) : option A :=
  match fs with
  | [] => None
  | (p, x) :: fs' => if bool_decide (p = path) then Some x else lookup_file fs' path
  end.

Definition world (docs : list (string * document)) (jsons : list (string * json_source))
  : backend := {|
  page := option (option string);
  pil_image := option string;
  ndarray := option string;
  os_path_exists := fun path => bool_decide (is_Some (lookup_file docs path));
  pdfplumber_open := fun path => lookup_file docs path ≫= layer;
  page_extract_text := fun pg => pg;
  convert_from_path := fun path _ => lookup_file docs path ≫= raster;
  np_array := fun image => image;
  shape_len := fun _ => 3;
  cv2_medianBlur := fun image _ => Some image;
  cv2_cvtColor := fun image _ => Some image;
  cv2_split := fun image => Some [image; image; image];
  clahe_apply := fun image => Some image;
  cv2_merge := fun channels => head channels;
  cv2_filter2D := fun image _ => Some image;
  image_to_string := fun image _ => image;
  re_findall := literal_findall;
  json_file := fun path => default NoSuchFile (lookup_file jsons path);
  open_write := fun _ => true
|}.

(** The state before [PIDScanner(...)] has run. *)
Definition blank : state := mkState [] VNone VNone [].

(** A configuration file with two categories. *)
Definition config_json : literal :=
  LDict
    [("extraction_settings",
      LDict
        [("equipment_tags",
          LDict [("enabled", LVal (VBool true));
                 ("patterns", LList [LVal (VStr "P-101"); LVal (VStr "p-101")])]);
         ("valves",
          LDict [("enabled", LVal (VBool true));
                 ("patterns", LList [LVal (VStr "HV-202")])])]);
     ("ocr_settings",
      LDict
        [("dpi", LVal (VInt 300));
         ("preprocessing",
          LDict [("denoise", LVal (VBool true));
                 ("enhance_contrast", LVal (VBool true));
                 ("sharpen", LVal (VBool false))]);
         ("tesseract_config", LVal (VStr "--psm 6"))]);
     ("output_format", LVal (VStr "json"))].

(** The state after [PIDScanner("config.json")] when that file holds [doc]. *)
Definition scanner_with (doc : literal) : state :=
  (init (world [] [("config.json", JsonDocument doc)]) "config.json" blank).2.

Definition scanner : state := scanner_with config_json.

(** A document of 26 pages, each with the one-letter text layer "a", which
    is also what recognition reads on each page image. *)
Definition sparse_pdf : document :=
  {| layer := Some (replicate 26 (Some (Some "a")));
     raster := Some (replicate 26 (Some "a")) |}.

Definition sparse_world : backend := world [("sparse.pdf", sparse_pdf)] [].

(** A one-page drawing without a text layer. *)
Definition pid_pdf : document :=
  {| layer := Some [Some None];
     raster := Some [Some "P-101 FEED PUMP HV-202 ISOLATION VALVE"] |}.

Definition pid_world : backend := world [("pid.pdf", pid_pdf)] [].

(** A configuration whose valve pattern does not compile. *)
Definition unbalanced_json : literal :=
  LDict
    [("extraction_settings",
      LDict
        [("valves",
          LDict [("enabled", LVal (VBool true));
                 ("patterns", LList [LVal (VStr "(")])])])].

(** A one-page document whose text layer has 501 characters. *)
Definition long_pdf : document :=
  {| layer := Some [Some (Some (string_of_list_ascii (replicate 501 "a"%char)))];
     raster := None |}.

Definition long_world : backend := world [("long.pdf", long_pdf)] [].



(** A configuration whose only category leaves both keys out. *)
Definition bare_json : literal :=
  LDict [("extraction_settings", LDict [("valves", LDict [])])].

End World.

(** ** Descriptions used in the statements *)

(** [s] after the calls [cs] were made and nothing else changed. *)
Definition logged (s : state) (cs : list call) : state :=
  mkState (heap s) (config s) (extracted_data s) (calls s ++ cs).

(** The measure the specification names for the threshold: how many
    characters of [s] are not whitespace. *)
Fixpoint non_whitespace (s : string) : nat :=
  match s with
  | EmptyString => 0
  | String c s' => (if isspace c then 0 else 1) + non_whitespace s'
  end.

Section Descriptions.

Context (B : backend).

(** What the pdfplumber loop leaves in [text_content]: the non-empty texts
    of the pages, in page order, up to the first page that fails. *)
Fixpoint plumber_texts (pages : list (page B)) (text_content : list string)
  : list string :=
  match pages with
  | [] => text_content
  | pg :: pages' =>
      match page_extract_text B pg with
      | Some (Some (String c t)) => plumber_texts pages' (text_content ++ [String c t])
      | Some _ => plumber_texts pages' text_content
      | None => text_content
      end
  end.

Definition layer_texts (pdf_path : string) : list string :=
  match pdfplumber_open B pdf_path with
  | Some pages => plumber_texts pages []
  | None => []
  end.

(** The text layers of the pages pdfplumber reads before the first page
    that fails. *)
Fixpoint read_pages (pages : list (page B)) : list (option string) :=
  match pages with
  | [] => []
  | pg :: pages' =>
      match page_extract_text B pg with
      | Some text => text :: read_pages pages'
      | None => []
      end
  end.

Definition layer_pages (pdf_path : string) : list (option string) :=
  match pdfplumber_open B pdf_path with
  | Some pages => read_pages pages
  | None => []
  end.

(** The texts recognized on the page images before the first image that
    fails, with the configuration of state [s]. *)
Fixpoint recognized (s : state) (images : list (pil_image B)) : list string :=
  match images with
  | [] => []
  | image :: images' =>
      match (recognize B image s).1 with
      | Ok text => text :: recognized s images'
      | Raise _ => []
      end
  end.

Definition ocr_pages (pdf_path : string) (s : state) : list string :=
  match h_subscript (heap s) (config s) ["ocr_settings"; "dpi"] with
  | Ok dpi =>
      match convert_from_path B pdf_path dpi with
      | Some images => recognized s images
      | None => []
      end
  | Raise _ => []
  end.

(** A page text that the pdfplumber loop keeps, and one the OCR loop keeps. *)
Definition nonempty (text : option string) : option string :=
  match text with
  | Some (String c t) => Some (String c t)
  | _ => None
  end.

Definition nonblank (text : string) : bool := negb (bool_decide (strip text = "")).

(** The texts a scan of [pdf_path] works on in state [s]. *)
Definition acquired (pdf_path : string) (s : state) : list string :=
  match (extract_text_from_pdf B pdf_path s).1 with
  | Ok text_content => text_content
  | Raise _ => []
  end.

End Descriptions.

(** Two states in which the scanner reads the same configuration. *)
Definition reads_agree (s s' : state) : Prop :=
  config s' = config s
  /\ (forall ks, h_subscript (heap s') (config s) ks = h_subscript (heap s) (config s) ks)
  /\ (forall ks v, h_subscript (heap s) (config s) ks = Ok v ->
                   h_truthy (heap s') v = h_truthy (heap s) v).

(** *** Well-formed stores

    No reference dangles, and the keys of a dictionary are distinct. *)

Definition val_ok (n : nat) (v : val) : Prop :=
  match v with VRef l => l < n | _ => True end.

Definition obj_ok (n : nat) (o : obj) : Prop :=
  match o with
  | ODict d => NoDup d.*1 /\ Forall (val_ok n) d.*2
  | OList xs => Forall (val_ok n) xs
  end.

(** The objects below [n] refer only to objects below [n]. *)
Definition closed_below (n : nat) (h : list obj) : Prop :=
  forall l o, l < n -> h !! l = Some o -> obj_ok n o.

Definition heap_ok (h : list obj) : Prop := closed_below (length h) h.

Definition wf (s : state) : Prop :=
  heap_ok (heap s)
  /\ val_ok (length (heap s)) (config s)
  /\ val_ok (length (heap s)) (extracted_data s).

(** [h'] has the objects of [h] below [n] as they are in [h]. *)
Definition agree_below (n : nat) (h h' : list obj) : Prop :=
  forall l, l < n -> h' !! l = h !! l.

Global Instance val_ok_dec n v : Decision (val_ok n v).
Proof. destruct v; simpl; apply _. Defined.

Global Instance obj_ok_dec n o : Decision (obj_ok n o).
Proof. destruct o; simpl; apply _. Defined.

(** The values an object holds. *)
Definition children (o : obj) : list val :=
  match o with ODict d => d.*2 | OList xs => xs end.

(** Regions of the store: [v] is no reference or refers into [a, n); the
    objects of [a, n) refer only into [a, n); [h'] has the objects of
    [a, n) as they are in [h]. *)
Definition val_in (a n : nat) (v : val) : Prop :=
  match v with VRef l => a <= l < n | _ => True end.

Definition closed_in (a n : nat) (h : list obj) : Prop :=
  forall l o, a <= l < n -> h !! l = Some o -> Forall (val_in a n) (children o).

Definition agree_in (a n : nat) (h h' : list obj) : Prop :=
  forall l, a <= l < n -> h' !! l = h !! l.

(** [v] is no reference into [a, n), and no object outside [a, n) refers
    into it. *)
Definition val_out (a n : nat) (v : val) : Prop :=
  match v with VRef l => l < a \/ n <= l | _ => True end.

Definition sealed (a n : nat) (h : list obj) : Prop :=
  forall l o, l < a \/ n <= l -> h !! l = Some o -> Forall (val_out a n) (children o).

Definition with_heap (s : state) (h : list obj) : state :=
  mkState h (config s) (extracted_data s) (calls s).

(** *** Reading a Scan Record back from the store *)

(** One category's entry: its [count] and the elements of its [items]. *)
Definition read_entry (h : list obj) (data : val) : option (val * list val) :=
  match h_getitem h data "count", h_getitem h data "items" with
  | Ok count, Ok its =>
      match deref h its with
      | Some (OList xs) => Some (count, xs)
      | _ => None
      end
  | _, _ => None
  end.

Definition read_results (h : list obj) (results : val)
  : option (list (string * (val * list val))) :=
  match deref h results with
  | Some (ODict d) => mapM (fun kv => (fun e => (kv.1, e)) <$> read_entry h kv.2) d
  | _ => None
  end.

Record scan_record := mk_record {
  record_pdf_path : val;
  record_extraction_results : list (string * (val * list val));
  record_total_pages : val;
  record_raw_text_preview : val
}.

Definition read_record (h : list obj) (data : val) : option scan_record :=
  match h_getitem h data "pdf_path", h_getitem h data "extraction_results",
        h_getitem h data "total_pages", h_getitem h data "raw_text_preview" with
  | Ok path, Ok results, Ok pages, Ok preview =>
      (fun rs => mk_record path rs pages preview) <$> read_results h results
  | _, _, _, _ => None
  end.

(** The results dictionary at [r] while the loop over the categories runs:
    it holds one entry per category of [results], each a new dictionary
    with the category's items and their number. *)
Definition entry_rep (h : list obj) (r : loc) (kv : string * val)
    (ci : string * list val) : Prop :=
  kv.1 = ci.1
  /\ exists e i,
       kv.2 = VRef e /\ e <> r /\ i <> r
       /\ h !! e = Some (ODict [("count", VInt (Z.of_nat (length ci.2)));
                                ("items", VRef i)])
       /\ h !! i = Some (OList ci.2).

Definition results_rep (h : list obj) (r : loc) (results : list (string * list val))
  : Prop :=
  exists d, h !! r = Some (ODict d) /\ Forall2 (entry_rep h r) d results.

(** *** What a scan computes, read off the configuration *)

Section ScanDescription.

Context (B : backend).

(** The patterns a category's settings hold. *)
Definition settings_patterns (h : list obj) (settings : val) : outcome (list val) :=
  match deref h settings with
  | Some (ODict d) =>
      match dict_lookup d "patterns" with
      | Some v => h_iter h v
      | None => Ok []
      end
  | _ => Raise AttributeError
  end.

(** All matches of the patterns, pattern after pattern. *)
Fixpoint all_matches (pats : list val) (text : string) (matches : list rematch)
  : outcome (list rematch) :=
  match pats with
  | [] => Ok matches
  | VStr p :: pats' =>
      match re_findall B p text with
      | Some found => all_matches pats' text (matches ++ found)
      | None => Raise ReError
      end
  | _ :: _ => Raise TypeError
  end.

(** The items of one category: [None] when it is not enabled. *)
Definition category_items (h : list obj) (text : string) (settings : val)
  : outcome (option (list val)) :=
  match h_dict_get h settings "enabled" (VBool true) with
  | Ok enabled =>
      if h_truthy h enabled then
        match settings_patterns h settings with
        | Ok pats =>
            match all_matches pats text [] with
            | Ok matches => Ok (Some (list_set matches))
            | Raise e => Raise e
            end
        | Raise e => Raise e
        end
      else Ok None
  | Raise e => Raise e
  end.

(** The items of every category, in the order the loop meets them. *)
Fixpoint scan_results (h : list obj) (text : string)
    (categories : list (string * val)) (results : list (string * list val))
  : outcome (list (string * list val)) :=
  match categories with
  | [] => Ok results
  | (category, settings) :: categories' =>
      match category_items h text settings with
      | Ok (Some its) => scan_results h text categories' (dict_set results category its)
      | Ok None => scan_results h text categories' results
      | Raise e => Raise e
      end
  end.

Definition scan_outcome (h : list obj) (cfg : val) (text : string)
  : outcome (list (string * list val)) :=
  match h_getitem h cfg "extraction_settings" with
  | Ok extraction_settings =>
      match h_items h extraction_settings with
      | Ok categories => scan_results h text categories []
      | Raise e => Raise e
      end
  | Raise e => Raise e
  end.

(** The Scan Record of a scan of [pdf_path] that worked on [text_content]
    and found [results]. *)
Definition expected_record (pdf_path : string) (text_content : list string)
    (results : list (string * list val)) : scan_record :=
  mk_record (VStr pdf_path)
            ((fun ci => (ci.1, (VInt (Z.of_nat (length ci.2)), ci.2))) <$> results)
            (VInt (Z.of_nat (length text_content)))
            (VStr (raw_text_preview (join " " text_content))).

End ScanDescription.

(** A computation that only reads the configuration and makes calls: run
    in two states that agree on the configuration, it has the same outcome
    and makes the same calls. *)
Definition reader {A} (m : M A) : Prop :=
  forall s s', reads_agree s s' ->
    exists o cs, m s = (o, logged s cs) /\ m s' = (o, logged s' cs).

(** The same, for a computation that never raises. *)
Definition reader_ok {A} (m : M A) : Prop :=
  forall s s', reads_agree s s' ->
    exists a cs, m s = (Ok a, logged s cs) /\ m s' = (Ok a, logged s' cs).

(** *** Changing the configuration after a scan *)

(** The values a display mentions. *)
Fixpoint leaves (x : literal) : list val :=
  match x with
  | LVal v => [v]
  | LDict kvs =>
      (fix go (kvs : list (string * literal)) : list val :=
         match kvs with
         | [] => []
         | (_, e) :: kvs' => leaves e ++ go kvs'
         end) kvs
  | LList xs =>
      (fix go (xs : list literal) : list val :=
         match xs with
         | [] => []
         | e :: xs' => leaves e ++ go xs'
         end) xs
  end.

(** A call of one of the two methods that change the configuration; the
    argument of [update_config] is written as the caller writes it, a
    display or a value at hand. *)
Inductive config_call :=
  | UpdateConfig (new_config : literal)
  | AddCustomPattern (category pattern : string).

Definition run_call (c : config_call) : M unit :=
  match c with
  | UpdateConfig x => new_config ← build x; update_config new_config
  | AddCustomPattern category pattern => add_custom_pattern category pattern
  end.

(** The state after the calls, whether they return or raise. *)
Fixpoint run_calls (cs : list config_call) (s : state) : state :=
  match cs with
  | [] => s
  | c :: cs' => run_calls cs' (run_call c s).2
  end.

(** Every call of the run is one this embedding follows to its end (see
    [NotEmbedded]). *)
Fixpoint embedded (cs : list config_call) (s : state) : Prop :=
  match cs with
  | [] => True
  | c :: cs' => (run_call c s).1 <> Raise NotEmbedded /\ embedded cs' (run_call c s).2
  end.

(** The caller hands over nothing that the scan made in [a, n). *)
Definition foreign (a n : nat) (c : config_call) : Prop :=
  match c with
  | UpdateConfig x => Forall (val_out a n) (leaves x)
  | AddCustomPattern _ _ => True
  end.

(** State [s] after a scan that ended in [s1] and made the objects of
    [a, n): they are as the scan left them, nothing outside refers to
    them, and [extracted_data] is the scan's. *)
Definition record_kept (a n : nat) (s1 s : state) : Prop :=
  agree_in a n (heap s1) (heap s)
  /\ n <= length (heap s)
  /\ sealed a n (heap s)
  /\ val_out a n (config s)
  /\ extracted_data s = extracted_data s1.

(** [m] keeps the record, and what it returns satisfies [Q]. *)
Definition keeps_record (a n : nat) (s1 : state) {A} (m : M A) (Q : A -> Prop)
  : Prop :=
  forall s, record_kept a n s1 s ->
    record_kept a n s1 (m s).2 /\ forall x, (m s).1 = Ok x -> Q x.

(** The state after scanning the drawing of [World.pid_world] with the
    scanner of [World.scanner], and calls that change the configuration. *)
Definition scanned : state :=
  (scan_pdf World.pid_world "pid.pdf" World.scanner).2.

Definition reconfigure : list config_call :=
  [UpdateConfig (LDict [("ocr_settings", LDict [("dpi", LVal (VInt 150))])]);
   AddCustomPattern "valves" "XV-1";
   AddCustomPattern "pumps" "P-2"].

(** The caller reads the results out of the record of that scan,
    [scanned.extracted_data['extraction_results']], the object at 9, hands
    them to [update_config] as the extraction settings, and then adds a
    pattern for a category that the drawing does not have. *)
Definition hand_back_results : config_call :=
  UpdateConfig (LDict [("extraction_settings", LVal (VRef 9))]).

Definition hand_back : list config_call :=
  [hand_back_results; AddCustomPattern "pumps" "P-2"].

(** The same before any scan, with the dictionary that the constructor
    put in [extracted_data]. *)
Definition share_data_call : config_call :=
  UpdateConfig (LDict [("extraction_settings", LVal (extracted_data World.scanner))]).

Definition share_data : list config_call :=
  [share_data_call; AddCustomPattern "x" "y"].

(** *** Filtering

    Whether [filter_results] looks at a category, and whether it keeps an
    entry of the extraction results (given as read back from the store). *)
Definition selected (category : option string) (c : string) : bool :=
  match category with
  | Some name => bool_decide (name = "") || bool_decide (c = name)
  | None => true
  end.

Definition passes (category : option string) (min_count : Z)
    (e : string * (val * list val)) : bool :=
  selected category e.1
  && match e.2.1 with VInt a => (min_count <=? a)%Z | _ => false end.

(** The same on the entries of the results dictionary in store [h]. *)
Definition keeps (h : list obj) (category : option string) (min_count : Z)
    (cd : string * val) : bool :=
  selected category cd.1
  && match h_getitem h cd.2 "count" with
     | Ok (VInt a) => (min_count <=? a)%Z
     | _ => false
     end.

(** The exceptions that reading the configuration during a scan can raise. *)
Definition config_error (e : exn) : Prop :=
  e = KeyError \/ e = TypeError \/ e = AttributeError \/ e = ReError.

(** A configuration that a scan can read: [extraction_settings] is a
    dictionary, the settings of every category are a dictionary, and the
    patterns of every enabled category, if it has any, can be run through
    and are strings that compile. *)
Definition compiles (B : backend) (pattern : val) : Prop :=
  exists p, pattern = VStr p /\ forall text, is_Some (re_findall B p text).

Definition category_usable (B : backend) (h : list obj) (settings : val) : Prop :=
  exists d,
    deref h settings = Some (ODict d)
    /\ (h_truthy h (default (VBool true) (dict_lookup d "enabled")) = true ->
        match dict_lookup d "patterns" with
        | Some v => exists pats, h_iter h v = Ok pats /\ Forall (compiles B) pats
        | None => True
        end).

Definition config_usable (B : backend) (h : list obj) (cfg : val) : Prop :=
  exists es categories,
    h_getitem h cfg "extraction_settings" = Ok es
    /\ h_items h es = Ok categories
    /\ Forall (fun cs => category_usable B h cs.2) categories.

(** Every exception [m] can raise satisfies [P]. *)
Definition raises_only {A} (P : exn -> Prop) (m : M A) : Prop :=
  forall s e s', m s = (Raise e, s') -> P e.

(** ** Further descriptions

    What the remaining statements need to speak about the calls made, the
    preprocessing steps, the configuration and the exports. *)

(** A call of the OCR engine. *)
Definition is_ocr_call (c : call) : bool :=
  match c with ImageToString _ => true | _ => false end.

(** [self.config['ocr_settings']['tesseract_config']] in state [s] ([None]
    where the configuration has none). *)
Definition ocr_config (s : state) : val :=
  match h_subscript (heap s) (config s) ["ocr_settings"; "tesseract_config"] with
  | Ok v => v
  | Raise _ => VNone
  end.

Definition is_ok {A} (o : outcome A) : Prop :=
  match o with Ok _ => True | Raise _ => False end.

(** [self.config['ocr_settings']['preprocessing'][name]] as a condition. *)
Definition preprocessing_flag (s : state) (name : string) : outcome bool :=
  match h_subscript (heap s) (config s) ["ocr_settings"; "preprocessing"; name] with
  | Ok v => Ok (h_truthy (heap s) v)
  | Raise e => Raise e
  end.

Section Preprocessing.

Context (B : backend).

(** The contrast step on its own: to LAB, equalize the first of the three
    channels, merge, and back to BGR. *)
Definition enhanced (image : ndarray B) : option (ndarray B) :=
  match cv2_cvtColor B image COLOR_BGR2LAB with
  | Some lab =>
      match cv2_split B lab with
      | Some [l_channel; a; b] =>
          match clahe_apply B l_channel with
          | Some cl =>
              match cv2_merge B [cl; a; b] with
              | Some merged => cv2_cvtColor B merged COLOR_LAB2BGR
              | None => None
              end
          | None => None
          end
      | _ => None
      end
  | None => None
  end.

(** The three steps in the order of [preprocess_image], each applied to the
    result of the one before it when its flag is set. *)
Definition preprocessed (denoise enhance_contrast sharpen : bool) (image : ndarray B)
  : option (ndarray B) :=
  match (if denoise then cv2_medianBlur B image 3 else Some image) with
  | Some image =>
      match (if enhance_contrast then enhanced image else Some image) with
      | Some image => if sharpen then cv2_filter2D B image sharpen_kernel else Some image
      | None => None
      end
  | None => None
  end.

End Preprocessing.

(** Whether a scan looks at a category: [settings.get('enabled', True)] as
    a condition. *)
Definition category_enabled (h : list obj) (settings : val) : bool :=
  match h_dict_get h settings "enabled" (VBool true) with
  | Ok enabled => h_truthy h enabled
  | Raise _ => false
  end.

(** The rows of the CSV export of a record: one per item, category by
    category, each with the record's path. *)
Definition csv_rows (record : scan_record) : list (string * val * val) :=
  record_extraction_results record
    ≫= fun e => (fun item => (e.1, item, record_pdf_path record)) <$> e.2.2.

(** The entries of dictionary [d] after [d.update(new)]. *)
Definition dict_merge (d new : list (string * val)) : list (string * val) :=
  foldl (fun d kv => dict_set d kv.1 kv.2) d new.

(** *** Further documents and states for the examples *)

(** A three-page scan whose second page image cannot be recognized. *)
Definition torn_pdf : World.document :=
  {| World.layer := Some [Some None; Some None; Some None];
     World.raster := Some [Some "P-101 FEED PUMP"; None; Some "HV-202 VALVE"] |}.

Definition torn_world : backend := World.world [("torn.pdf", torn_pdf)] [].

(** A three-page document whose first page has a text layer of 55
    characters and whose second page cannot be read. *)
Definition half_pdf : World.document :=
  {| World.layer :=
       Some [Some (Some "P-101 FEED PUMP AND HV-202 ISOLATION VALVE ON LINE 6-A1");
             None; Some (Some "PAGE THREE")];
     World.raster := None |}.

Definition half_world : backend := World.world [("half.pdf", half_pdf)] [].

(** The scanner of [World.scanner] after
    [update_config({'ocr_settings': {'dpi': 150}})]. *)
Definition dpi_only : state :=
  (run_call (UpdateConfig (LDict [("ocr_settings", LDict [("dpi", LVal (VInt 150))])]))
            World.scanner).2.

(** A world whose page images have two dimensions and in which every
    OpenCV call fails. *)
Definition gray_world : backend := {|
  page := option (option string);
  pil_image := option string;
  ndarray := option string;
  os_path_exists := fun _ => true;
  pdfplumber_open := fun _ => Some [];
  page_extract_text := fun pg => pg;
  convert_from_path := fun _ _ => Some [Some "HV-202 VALVE"];
  np_array := fun image => image;
  shape_len := fun _ => 2;
  cv2_medianBlur := fun _ _ => None;
  cv2_cvtColor := fun _ _ => None;
  cv2_split := fun _ => None;
  clahe_apply := fun _ => None;
  cv2_merge := fun _ => None;
  cv2_filter2D := fun _ _ => None;
  image_to_string := fun image _ => image;
  re_findall := World.literal_findall;
  json_file := fun _ => NoSuchFile;
  open_write := fun _ => true
|}.

(** A configuration with a category that is switched off and one that
    leaves [enabled] out. *)
Definition partly_json : literal :=
  LDict
    [("extraction_settings",
      LDict
        [("equipment_tags",
          LDict [("enabled", LVal (VBool true));
                 ("patterns", LList [LVal (VStr "P-101")])]);
         ("valves",
          LDict [("enabled", LVal (VBool false));
                 ("patterns", LList [LVal (VStr "HV-202")])]);
         ("instruments", LDict [("patterns", LList [LVal (VStr "FT-1")])])])].

(** The scanner of [World.scanner] with one more list in the store, the
    patterns P-101, HV-202 and p-101. *)
Definition more_patterns : state :=
  (build (LList [LVal (VStr "P-101"); LVal (VStr "HV-202"); LVal (VStr "p-101")])
         World.scanner).2.

(** The scanner of [World.scanner] with a display in the store that is not
    yet handed to [update_config]: new OCR settings that hold the dpi
    only, and new extraction settings with one category. *)
Definition with_new_ocr : state :=
  (build (LDict [("ocr_settings", LDict [("dpi", LVal (VInt 150))])]) World.scanner).2.

Definition with_new_config : state :=
  (build (LDict [("extraction_settings",
                  LDict [("instruments",
                          LDict [("enabled", LVal (VBool true));
                                 ("patterns", LList [LVal (VStr "FEED")])])])])
         World.scanner).2.

(** A directory with the configuration file, a file that is not JSON and
    a file that cannot be opened. *)
Definition config_world : backend :=
  World.world [] [("config.json", JsonDocument World.config_json);
                  ("notes.txt", NotJson);
                  ("locked.json", Unreadable)].

(** ** The application

    [streamlit_app.py] is one script, [main], that Streamlit runs from top
    to bottom after every interaction.  The scanner and the record of the
    last scan live in [st.session_state] and so survive from run to run;
    what the widgets of the sidebar return is an input of a run.  The parts
    of the script that use the scanner are embedded here: the handler of
    the Update Configuration button, the handler of the Scan PDF button,
    and the calls of the results column. *)

Module App.

(** What the widgets of the sidebar return, under the names of the local
    variables that hold it.  The text area of a category is only shown,
    and its variable only bound, when the checkbox of the category is
    ticked; the handler reads it in that case only. *)
Record widgets := {
  equipment_enabled : bool;
  equipment_patterns : string;
  valves_enabled : bool;
  valve_patterns : string;
  instruments_enabled : bool;
  instrument_patterns : string;
  pipes_enabled : bool;
  pipe_patterns : string;
  pressure_enabled : bool;
  pressure_patterns : string;
  materials_enabled : bool;
  material_patterns : string;
  dpi : Z;
  denoise : bool;
  enhance_contrast : bool;
  sharpen : bool
}.

Definition newline : ascii := "010"%char.

(** [s.split(sep)] for a separator of one character: the pieces between
    the separators, so one piece more than there are separators. *)
Fixpoint str_split (sep : ascii) (s : string) : list string :=
  match s with
  | EmptyString => [EmptyString]
  | String c s' =>
      if Ascii.eqb c sep then EmptyString :: str_split sep s'
      else match str_split sep s' with
           | piece :: pieces => String c piece :: pieces
           | [] => [String c EmptyString]
           end
  end.

(** [{'enabled': enabled, 'patterns': patterns.split('\n') if enabled else []}] *)
Definition category_settings (enabled : bool) (patterns : string) : literal :=
  LDict [("enabled", LVal (VBool enabled));
         ("patterns",
          LList (if enabled
                 then (fun p => LVal (VStr p)) <$> str_split newline patterns
                 else []))].

(** The body of [if st.button("Update Configuration")]; [config] is the
    scanner's configuration, bound at the top of the sidebar. *)
Definition update_configuration (w : widgets) : M unit :=
  config ← self_config;
  extraction_settings ←
    build (LDict
      [("equipment_tags",
        category_settings (equipment_enabled w) (equipment_patterns w));
       ("valves", category_settings (valves_enabled w) (valve_patterns w));
       ("instruments",
        category_settings (instruments_enabled w) (instrument_patterns w));
       ("pipe_specifications",
        category_settings (pipes_enabled w) (pipe_patterns w));
       ("pressure_ratings",
        category_settings (pressure_enabled w) (pressure_patterns w));
       ("material_specifications",
        category_settings (materials_enabled w) (material_patterns w))]);
  preprocessing ←
    build (LDict [("denoise", LVal (VBool (denoise w)));
                  ("enhance_contrast", LVal (VBool (enhance_contrast w)));
                  ("sharpen", LVal (VBool (sharpen w)))]);
  tesseract_config ← subscript config ["ocr_settings"; "tesseract_config"];
  ocr_settings ← alloc (ODict [("dpi", VInt (dpi w));
                               ("preprocessing", preprocessing);
                               ("tesseract_config", tesseract_config)]);
  output_format ← getitem config "output_format";
  new_config ← alloc (ODict [("extraction_settings", extraction_settings);
                             ("ocr_settings", ocr_settings);
                             ("output_format", output_format)]);
  update_config new_config.

(** [st.session_state]: the scanner, and the [results] key once a scan has
    returned. *)
Record session := {
  scanner : state;
  results : option val
}.

(** A call on the scanner of the session.  An exception that the script
    does not catch ends the run; the scanner stays as the call left it. *)
Definition on_scanner {A} (m : M A) (ss : session) : session :=
  {| scanner := (m (scanner ss)).2; results := results ss |}.

Section Handlers.

Context (B : backend).

(** The body of [if st.button("Scan PDF")]: the record goes to
    [st.session_state.results] when the scan returns, and an exception is
    reported and dropped.  Removing the temporary file in the [finally]
    clause is not recorded. *)
Definition scan_button (tmp_file_path : string) (ss : session) : session :=
  match scan_pdf B tmp_file_path (scanner ss) with
  | (Ok r, s) => {| scanner := s; results := Some r |}
  | (Raise _, s) => {| scanner := s; results := results ss |}
  end.

(** What a run of the script does with the scanner: one of the two
    handlers, or one of the calls of the results column, which are made
    only under [if 'results' in st.session_state].  A run that raises
    before it gets to any of them does nothing with the scanner. *)
Inductive event :=
  | UpdateConfiguration (w : widgets)
  | ScanPDF (tmp_file_path : string)
  | Summary
  | ExportCSV
  | ExportJSON.

Definition handle (ss : session) (e : event) : session :=
  match e with
  | UpdateConfiguration w => on_scanner (update_configuration w) ss
  | ScanPDF tmp_file_path => scan_button tmp_file_path ss
  | Summary =>
      match results ss with
      | Some _ => on_scanner get_summary ss
      | None => ss
      end
  | ExportCSV =>
      match results ss with
      | Some _ => on_scanner (export_to_csv B "extracted_data.csv") ss
      | None => ss
      end
  | ExportJSON =>
      match results ss with
      | Some _ => on_scanner (export_to_json B "extracted_data.json") ss
      | None => ss
      end
  end.

(** The session after the events of [es], from left to right. *)
Definition run (es : list event) (ss : session) : session := foldl handle ss es.

End Handlers.

(** The session at the [if 'scanner' not in st.session_state] of a first
    run, after [PIDScanner()] has returned: no results, and
    [extracted_data] an empty dictionary of its own. *)
Definition fresh (ss : session) : Prop :=
  wf (scanner ss)
  /\ results ss = None
  /\ deref (heap (scanner ss)) (extracted_data (scanner ss)) = Some (ODict [])
  /\ extracted_data (scanner ss) <> config (scanner ss).

(** What holds of the session between two runs of the script.  Before
    the first scan that returns, [extracted_data] is the empty dictionary
    the constructor made.  Afterwards [results] is the record of the last
    scan that returned: [extracted_data] refers to it as well, and the
    objects that scan made, those of [a, n), are as the scan left them in
    [s1], with nothing outside referring to them. *)
Definition session_inv (ss : session) : Prop :=
  wf (scanner ss)
  /\ match results ss with
     | None =>
         deref (heap (scanner ss)) (extracted_data (scanner ss)) = Some (ODict [])
         /\ extracted_data (scanner ss) <> config (scanner ss)
     | Some r =>
         exists a n s1 pdf_path text_content found,
           record_kept a n s1 (scanner ss)
           /\ closed_in a n (heap s1)
           /\ val_in a n r
           /\ extracted_data s1 = r
           /\ read_record (heap s1) r
              = Some (expected_record pdf_path text_content found)
     end.

(** The categories of the sidebar in the order of the display, each with
    its checkbox and its text area. *)
Definition categories (w : widgets) : list (string * (bool * string)) :=
  [("equipment_tags", (equipment_enabled w, equipment_patterns w));
   ("valves", (valves_enabled w, valve_patterns w));
   ("instruments", (instruments_enabled w, instrument_patterns w));
   ("pipe_specifications", (pipes_enabled w, pipe_patterns w));
   ("pressure_ratings", (pressure_enabled w, pressure_patterns w));
   ("material_specifications", (materials_enabled w, material_patterns w))].

(** The patterns the handler gives a category. *)
Definition category_patterns (c : bool * string) : list val :=
  if c.1 then VStr <$> str_split newline c.2 else [].

(** The objects the handler makes in a store of [n] objects.  First, for
    every category, its pattern list and its settings, then the extraction
    settings and the preprocessing flags; and once
    [config['ocr_settings']['tesseract_config']] and
    [config['output_format']] are read, the OCR settings and
    [new_config]. *)
Definition settings_objects (n : nat) (c : bool * string) : list obj :=
  [OList (category_patterns c);
   ODict [("enabled", VBool c.1); ("patterns", VRef n)]].

Definition built_objects (w : widgets) (n : nat) : list obj :=
  settings_objects n (equipment_enabled w, equipment_patterns w)
  ++ settings_objects (n + 2) (valves_enabled w, valve_patterns w)
  ++ settings_objects (n + 4) (instruments_enabled w, instrument_patterns w)
  ++ settings_objects (n + 6) (pipes_enabled w, pipe_patterns w)
  ++ settings_objects (n + 8) (pressure_enabled w, pressure_patterns w)
  ++ settings_objects (n + 10) (materials_enabled w, material_patterns w)
  ++ [ODict [("equipment_tags", VRef (n + 1));
             ("valves", VRef (n + 3));
             ("instruments", VRef (n + 5));
             ("pipe_specifications", VRef (n + 7));
             ("pressure_ratings", VRef (n + 9));
             ("material_specifications", VRef (n + 11))];
      ODict [("denoise", VBool (denoise w));
             ("enhance_contrast", VBool (enhance_contrast w));
             ("sharpen", VBool (sharpen w))]].

Definition ocr_settings_object (w : widgets) (n : nat) (tesseract_config : val) : obj :=
  ODict [("dpi", VInt (dpi w));
         ("preprocessing", VRef (n + 13));
         ("tesseract_config", tesseract_config)].

Definition new_config_entries (n : nat) (output_format : val) : list (string * val) :=
  [("extraction_settings", VRef (n + 12));
   ("ocr_settings", VRef (n + 14));
   ("output_format", output_format)].

Definition new_objects (w : widgets) (n : nat) (tesseract_config output_format : val)
  : list obj :=
  built_objects w n
  ++ [ocr_settings_object w n tesseract_config;
      ODict (new_config_entries n output_format)].

End App.

(** ** The debug page

    [streamlit_debug.py] makes a scanner, acquires the text of the
    uploaded document and, when there is text, tests the patterns of every
    category on it before it runs the full scan.  The pattern test is
    embedded here.  (The other branch, a manual OCR test of the first
    page, calls the libraries directly and does not use the scanner.) *)

Module Debug.

Section Debug.

Context (B : backend).

(** [v[:n]] of a list, a string or a tuple; the page slices the list that
    [extract_patterns] returns. *)
Definition slice_to (v : val) (n : nat) : M val :=
  match v with
  | VStr s => ret (VStr (prefix_of n s))
  | VTuple ss => ret (VTuple (take n ss))
  | VRef l =>
      fun s => match heap s !! l with
               | Some (OList xs) => alloc (OList (take n xs)) s
               | _ => (Raise TypeError, s)
               end
  | _ => raise TypeError
  end.

(** The loop under "Test pattern matching"; what it writes to the page is
    the category, [len(matches)] and [matches[:5]]. *)
Definition pattern_test (combined_text : string) : M unit :=
  cfg ← self_config;
  config ← getitem cfg "extraction_settings";
  categories ← items config;
  for_each categories (fun cs =>
    enabled ← getitem cs.2 "enabled";
    t ← truthy enabled;
    if t then
      patterns ← getitem cs.2 "patterns";
      matches ← extract_patterns B combined_text patterns;
      _ ← py_len matches;
      _ ← slice_to matches 5;
      ret tt
    else ret tt).

End Debug.

End Debug.

(** *** A session for the examples *)

(** The sidebar with two categories ticked: two lines for the equipment
    tags, an empty text area for the instruments. *)
Definition sidebar : App.widgets := {|
  App.equipment_enabled := true;
  App.equipment_patterns := "P-101" +:+ String App.newline "FEED";
  App.valves_enabled := false;
  App.valve_patterns := "HV-202";
  App.instruments_enabled := true;
  App.instrument_patterns := "";
  App.pipes_enabled := false;
  App.pipe_patterns := "";
  App.pressure_enabled := false;
  App.pressure_patterns := "";
  App.materials_enabled := false;
  App.material_patterns := "";
  App.dpi := 200;
  App.denoise := false;
  App.enhance_contrast := true;
  App.sharpen := false
|}.

(** The same sidebar with a valve pattern that does not compile. *)
Definition mistyped_sidebar : App.widgets := {|
  App.equipment_enabled := true;
  App.equipment_patterns := "P-101";
  App.valves_enabled := true;
  App.valve_patterns := "HV-(";
  App.instruments_enabled := false;
  App.instrument_patterns := "";
  App.pipes_enabled := false;
  App.pipe_patterns := "";
  App.pressure_enabled := false;
  App.pressure_patterns := "";
  App.materials_enabled := false;
  App.material_patterns := "";
  App.dpi := 200;
  App.denoise := false;
  App.enhance_contrast := true;
  App.sharpen := false
|}.

(** The session of a first run, and an afternoon at the application: a
    scan, a look at the summary, a mistyped pattern, a scan that fails on
    it, and an export. *)
Definition first_session : App.session :=
  {| App.scanner := World.scanner; App.results := None |}.

Definition clicks : list App.event :=
  [App.UpdateConfiguration sidebar; App.ScanPDF "pid.pdf"; App.Summary;
   App.UpdateConfiguration mistyped_sidebar; App.ScanPDF "pid.pdf"; App.ExportCSV].

(** The scanner of [World.scanner] after the pattern test of the debug
    page on the text of the drawing. *)
Definition tested : state :=
  (Debug.pattern_test World.pid_world
     (join " " (acquired World.pid_world "pid.pdf" World.scanner)) World.scanner).2.

(** * Proofs *)

Ltac run :=
  repeat (progress (unfold bind, ret, raise, lift, lib, log, self_config,
                           self_extracted_data, set_extracted_data, set_config,
                           try_except, getitem, subscript, dict_get, items,
                           truthy, iter, py_len, contains, config_at,
                           config_flag in *; simpl in *)).

Lemma bind_run {A B} (m : M A) (k : A -> M B) s :
  bind m k s = match m s with
               | (Ok a, s') => k a s'
               | (Raise e, s') => (Raise e, s')
               end.
Proof. reflexivity. Qed.

Lemma lift_run {A} (f : list obj -> outcome A) s : lift f s = (f (heap s), s).
Proof. reflexivity. Qed.

Lemma getitem_run v k s : getitem v k s = (h_getitem (heap s) v k, s).
Proof. reflexivity. Qed.

Lemma subscript_run v ks s : subscript v ks s = (h_subscript (heap s) v ks, s).
Proof. reflexivity. Qed.

Lemma dict_get_run v k x s : dict_get v k x s = (h_dict_get (heap s) v k x, s).
Proof. reflexivity. Qed.

Lemma items_run v s : items v s = (h_items (heap s) v, s).
Proof. reflexivity. Qed.

Lemma truthy_run v s : truthy v s = (Ok (h_truthy (heap s) v), s).
Proof. reflexivity. Qed.

Lemma py_len_run v s : py_len v s = (h_len (heap s) v, s).
Proof. reflexivity. Qed.

Lemma alloc_run o s :
  alloc o s = (Ok (VRef (length (heap s))), with_heap s (heap s ++ [o])).
Proof. reflexivity. Qed.

Lemma self_config_run s : self_config s = (Ok (config s), s).
Proof. reflexivity. Qed.

Lemma self_extracted_data_run s : self_extracted_data s = (Ok (extracted_data s), s).
Proof. reflexivity. Qed.

Lemma ret_run {A} (a : A) s : ret a s = (Ok a, s).
Proof. reflexivity. Qed.

Lemma raise_run {A} e s : @raise A e s = (Raise e, s).
Proof. reflexivity. Qed.

Lemma setitem_run l d k x s :
  heap s !! l = Some (ODict d) ->
  setitem (VRef l) k x s = (Ok tt, with_heap s (<[l := ODict (dict_set d k x)]> (heap s))).
Proof. intros H. unfold setitem. by rewrite H. Qed.

Lemma with_heap_id s : with_heap s (heap s) = s.
Proof. by destruct s. Qed.

Lemma with_heap_with_heap s h h' : with_heap (with_heap s h) h' = with_heap s h'.
Proof. reflexivity. Qed.

Lemma heap_with_heap s h : heap (with_heap s h) = h.
Proof. reflexivity. Qed.

Create Rewrite HintDb run.
Hint Rewrite @bind_run @lift_run getitem_run subscript_run dict_get_run items_run truthy_run
  py_len_run alloc_run self_config_run self_extracted_data_run @ret_run
  @raise_run with_heap_with_heap heap_with_heap : run.

Lemma logged_nil s : logged s [] = s.
Proof. destruct s; unfold logged; simpl. by rewrite app_nil_r. Qed.

Lemma logged_logged s cs cs' : logged (logged s cs) cs' = logged s (cs ++ cs').
Proof. unfold logged; simpl. by rewrite app_assoc. Qed.

Lemma reads_agree_refl s : reads_agree s s.
Proof. by repeat split. Qed.

Lemma reads_agree_logged s s' cs cs' :
  reads_agree s s' -> reads_agree (logged s cs) (logged s' cs').
Proof. intros (? & ? & ?); by repeat split. Qed.

Section Readers.

Context {A B : Type}.

Lemma reader_ok_reader (m : M A) : reader_ok m -> reader m.
Proof. intros H s s' Hs. destruct (H s s' Hs) as (a & cs & ? & ?). eauto. Qed.

Lemma reader_ok_ret (a : A) : reader_ok (ret a).
Proof. intros s s' _. exists a, []. by rewrite !logged_nil. Qed.

Lemma reader_raise (e : exn) : reader (raise e : M A).
Proof. intros s s' _. exists (Raise e), []. by rewrite !logged_nil. Qed.

Lemma reader_lib (r : option A) : reader (lib r).
Proof. destruct r; [apply reader_ok_reader, reader_ok_ret | apply reader_raise]. Qed.

Lemma reader_bind (m : M A) (k : A -> M B) :
  reader m -> (forall a, reader (k a)) -> reader (bind m k).
Proof.
  intros Hm Hk s s' Hs. unfold bind.
  destruct (Hm s s' Hs) as ([a|e] & cs & -> & ->); [|eauto].
  destruct (Hk a _ _ (reads_agree_logged _ _ cs cs Hs)) as (o & cs' & -> & ->).
  exists o, (cs ++ cs')%list. by rewrite !logged_logged.
Qed.

Lemma reader_ok_bind (m : M A) (k : A -> M B) :
  reader_ok m -> (forall a, reader_ok (k a)) -> reader_ok (bind m k).
Proof.
  intros Hm Hk s s' Hs. unfold bind.
  destruct (Hm s s' Hs) as (a & cs & -> & ->).
  destruct (Hk a _ _ (reads_agree_logged _ _ cs cs Hs)) as (o & cs' & -> & ->).
  exists o, (cs ++ cs')%list. by rewrite !logged_logged.
Qed.

Lemma reader_ok_try_except (m handler : M A) :
  reader m -> reader_ok handler -> reader_ok (try_except m handler).
Proof.
  intros Hm Hh s s' Hs. unfold try_except.
  destruct (Hm s s' Hs) as ([a|e] & cs & -> & ->); [eauto|].
  destruct (Hh _ _ (reads_agree_logged _ _ cs cs Hs)) as (o & cs' & -> & ->).
  exists o, (cs ++ cs')%list. by rewrite !logged_logged.
Qed.

Lemma reader_ok_for_try (xs : list B) (acc : A) (body : B -> A -> M A) :
  (forall x a, reader (body x a)) -> reader_ok (for_try xs acc body).
Proof.
  intros Hb. revert acc.
  induction xs as [|x xs IH]; intros acc s s' Hs; simpl.
  - by apply reader_ok_ret.
  - destruct (Hb x acc s s' Hs) as ([a|e] & cs & -> & ->).
    + destruct (IH a _ _ (reads_agree_logged _ _ cs cs Hs)) as (o & cs' & -> & ->).
      exists o, (cs ++ cs')%list. by rewrite !logged_logged.
    + eauto.
Qed.

End Readers.

Lemma reader_ok_log c : reader_ok (log c).
Proof. intros s s' _. by exists tt, [c]. Qed.

Lemma reader_config_at ks : reader (config_at ks).
Proof.
  intros s s' (Hc & Hs & _). run. rewrite Hc, Hs.
  exists (h_subscript (heap s) (config s) ks), []. by rewrite !logged_nil.
Qed.

Lemma reader_config_flag ks : reader (config_flag ks).
Proof.
  intros s s' (Hc & Hs & Ht). run. rewrite Hc, Hs.
  destruct (h_subscript (heap s) (config s) ks) as [v|e] eqn:E.
  - rewrite (Ht _ _ E). exists (Ok (h_truthy (heap s) v)), []. by rewrite !logged_nil.
  - exists (Raise e), []. by rewrite !logged_nil.
Qed.

Create HintDb readers.
#[export] Hint Resolve reader_ok_ret reader_raise reader_lib reader_ok_log
  reader_config_at reader_config_flag : readers.

Ltac reader_step :=
  match goal with
  | |- reader_ok (bind _ _) => apply reader_ok_bind; [|intros]
  | |- reader (bind _ _) => apply reader_bind; [|intros]
  | |- reader_ok (try_except _ _) => apply reader_ok_try_except
  | |- reader_ok (for_try _ _ _) => apply reader_ok_for_try; intros
  | |- reader (for_try _ _ _) => apply reader_ok_reader, reader_ok_for_try; intros
  | |- reader (if ?b then _ else _) => destruct b
  | |- reader_ok (if ?b then _ else _) => destruct b
  | |- reader (match ?x with _ => _ end) => destruct x
  | |- reader_ok (match ?x with _ => _ end) => destruct x
  | |- reader (ret _) => apply reader_ok_reader, reader_ok_ret
  | |- reader (log _) => apply reader_ok_reader, reader_ok_log
  | |- _ => solve [auto with readers]
  end.

Section Acquisition.

Context (B : backend).

Lemma for_try_plumber pages text_content s :
  for_try pages text_content (plumber_page B) s
  = (Ok (plumber_texts B pages text_content), s).
Proof.
  revert text_content.
  induction pages as [|pg pages IH]; intros text_content; simpl; [done|].
  unfold plumber_page at 1. run.
  destruct (page_extract_text B pg) as [[[|c t]|]|]; simpl; auto.
Qed.

Lemma text_layer_run pdf_path s :
  text_layer B pdf_path [] s
  = (Ok (layer_texts B pdf_path), logged s [PdfplumberOpen pdf_path]).
Proof.
  unfold text_layer, layer_texts. run.
  destruct (pdfplumber_open B pdf_path) as [pages|]; simpl; [|done].
  by rewrite for_try_plumber.
Qed.

Lemma preprocess_image_reader image : reader (preprocess_image B image).
Proof. unfold preprocess_image. repeat reader_step. Qed.

Lemma recognize_reader image : reader (recognize B image).
Proof.
  unfold recognize. apply reader_bind.
  - destruct (shape_len B (np_array B image) =? 3)%nat;
      [apply preprocess_image_reader | repeat reader_step].
  - intros. repeat reader_step.
Qed.

Lemma ocr_page_reader image text_content : reader (ocr_page B image text_content).
Proof.
  unfold ocr_page. apply reader_bind; [apply recognize_reader|].
  intros. repeat reader_step.
Qed.

Lemma plumber_page_reader pg text_content : reader (plumber_page B pg text_content).
Proof. unfold plumber_page. repeat reader_step. Qed.

Lemma text_layer_reader pdf_path text_content :
  reader_ok (text_layer B pdf_path text_content).
Proof.
  unfold text_layer. reader_step; [|reader_step].
  repeat reader_step. apply plumber_page_reader.
Qed.

Lemma ocr_fallback_reader pdf_path text_content :
  reader_ok (ocr_fallback B pdf_path text_content).
Proof.
  unfold ocr_fallback. reader_step; [|reader_step].
  repeat reader_step. apply ocr_page_reader.
Qed.

Lemma extract_text_from_pdf_reader pdf_path :
  reader_ok (extract_text_from_pdf B pdf_path).
Proof.
  unfold extract_text_from_pdf. apply reader_ok_bind; [apply text_layer_reader|].
  intros [|t ts]; [apply ocr_fallback_reader|].
  destruct (50 <? _)%nat; [apply reader_ok_ret | apply ocr_fallback_reader].
Qed.

Lemma plumber_texts_read pages text_content :
  plumber_texts B pages text_content = text_content ++ omap nonempty (read_pages B pages).
Proof.
  revert text_content. induction pages as [|pg pages IH]; intros acc; simpl.
  - by rewrite app_nil_r.
  - destruct (page_extract_text B pg) as [[[|c t]|]|]; simpl; rewrite ?IH, ?app_nil_r;
      try done.
    by rewrite <- app_assoc.
Qed.

Lemma layer_texts_read pdf_path :
  layer_texts B pdf_path = omap nonempty (layer_pages B pdf_path).
Proof.
  unfold layer_texts, layer_pages. destruct (pdfplumber_open B pdf_path); [|done].
  apply plumber_texts_read.
Qed.

Lemma recognize_logged image s cs :
  exists cs', recognize B image (logged s cs)
              = ((recognize B image s).1, logged s (cs ++ cs')).
Proof.
  destruct (recognize_reader image s (logged s cs)) as (o & cs' & H1 & H2).
  { rewrite <- (logged_nil s) at 1. apply reads_agree_logged, reads_agree_refl. }
  exists cs'. by rewrite H1, H2, logged_logged.
Qed.

Lemma ocr_loop_run images s :
  forall text_content cs,
    exists cs',
      for_try images text_content (ocr_page B) (logged s cs)
      = (Ok (text_content ++ filter nonblank (recognized B s images)),
         logged s (cs ++ cs')).
Proof.
  induction images as [|image images IH]; intros acc cs; simpl.
  - exists []. by rewrite !app_nil_r.
  - unfold ocr_page at 1. rewrite bind_run.
    destruct (recognize_logged image s cs) as [cs1 ->].
    destruct (recognize B image s).1 as [text|e]; simpl.
    + destruct (bool_decide (strip text = "")) eqn:E; simpl.
      * destruct (IH acc (cs ++ cs1)) as [cs2 ->]. exists (cs1 ++ cs2).
        rewrite filter_cons_False by (unfold nonblank; rewrite E; simpl; tauto).
        by rewrite app_assoc.
      * destruct (IH (acc ++ [text]) (cs ++ cs1)) as [cs2 ->]. exists (cs1 ++ cs2).
        rewrite filter_cons_True by (unfold nonblank; by rewrite E).
        by rewrite <- !app_assoc.
    + exists cs1. by rewrite app_nil_r.
Qed.

Lemma ocr_fallback_run pdf_path text_content s cs :
  exists cs',
    ocr_fallback B pdf_path text_content (logged s cs)
    = (Ok (text_content ++ filter nonblank (ocr_pages B pdf_path s)),
       logged s (cs ++ cs')).
Proof.
  unfold ocr_fallback, ocr_pages, try_except. rewrite bind_run.
  unfold config_at. autorewrite with run. cbn [heap config logged].
  destruct (h_subscript (heap s) (config s) ["ocr_settings"; "dpi"]) as [dpi|e].
  2: { exists []. by rewrite !app_nil_r. }
  rewrite bind_run. unfold log at 1. cbn [heap config logged extracted_data calls].
  rewrite bind_run.
  destruct (convert_from_path B pdf_path dpi) as [images|]; simpl.
  - destruct (ocr_loop_run images s text_content (cs ++ [ConvertFromPath pdf_path dpi]))
      as [cs' Hrun].
    unfold logged in Hrun. simpl in Hrun. rewrite app_assoc in Hrun.
    exists (ConvertFromPath pdf_path dpi :: cs'). rewrite Hrun. unfold logged; simpl.
    by rewrite <- !app_assoc.
  - exists [ConvertFromPath pdf_path dpi]. unfold logged, ret; simpl.
    by rewrite app_nil_r, app_assoc.
Qed.

(** The texts a scan works on: the non-empty text layers of the pages when
    their join, stripped, is longer than 50 characters, and otherwise the
    recognized texts that are not blank. *)
Lemma acquired_cases pdf_path s :
  acquired B pdf_path s
  = (if (50 <? len (strip (join " " (omap nonempty (layer_pages B pdf_path)))))%nat
     then omap nonempty (layer_pages B pdf_path)
     else filter nonblank (ocr_pages B pdf_path s)).
Proof.
  unfold acquired, extract_text_from_pdf. rewrite bind_run, text_layer_run.
  rewrite layer_texts_read.
  destruct (ocr_fallback_run pdf_path [] s [PdfplumberOpen pdf_path]) as [cs Hocr].
  destruct (omap nonempty (layer_pages B pdf_path)) as [|t ts] eqn:E.
  - by rewrite Hocr.
  - destruct (50 <? _)%nat; [done|]. by rewrite Hocr.
Qed.

(** C1, as amended.  Text acquisition keeps the pdfplumber texts exactly
    when their join with single spaces, stripped of leading and trailing
    whitespace, is longer than 50 characters (whitespace inside the text,
    the joining spaces included, counts); it then returns them and makes no
    call besides opening the document with pdfplumber, so the rasterizer is
    not invoked.  Otherwise the pdfplumber texts are dropped and the result
    is that of the OCR fallback started from an empty list; the fallback
    calls the rasterizer with the configured dpi whenever the configuration
    has one, and returns nothing without calling it when it has none. *)
Theorem text_layer_threshold (pdf_path : string) (s : state) :
  let s1 := logged s [PdfplumberOpen pdf_path] in
  let text_content := layer_texts B pdf_path in
  extract_text_from_pdf B pdf_path s
  = (if (50 <? len (strip (join " " text_content)))%nat
     then (Ok text_content, s1)
     else ocr_fallback B pdf_path [] s1)
  /\ match h_subscript (heap s) (config s) ["ocr_settings"; "dpi"] with
     | Ok dpi =>
         exists text_content' cs,
           ocr_fallback B pdf_path [] s1
           = (Ok text_content', logged s1 (ConvertFromPath pdf_path dpi :: cs))
     | Raise _ => ocr_fallback B pdf_path [] s1 = (Ok [], s1)
     end.
Proof.
  intros s1 text_content. split.
  - unfold extract_text_from_pdf, bind. rewrite text_layer_run.
    fold s1 text_content. destruct text_content as [|t ts]; [done|].
    by destruct (50 <? _)%nat.
  - unfold ocr_fallback. run.
    destruct (h_subscript (heap s) (config s) ["ocr_settings"; "dpi"]) as [dpi|e];
      [|done].
    destruct (convert_from_path B pdf_path dpi) as [images|]; simpl.
    + set (s2 := mkState _ _ _ _).
      destruct (reader_ok_for_try images [] (ocr_page B)
                  (ocr_page_reader) s2 s2 (reads_agree_refl _))
        as (texts & cs & -> & _).
      exists texts, cs. f_equal. unfold logged, s2; simpl. by rewrite <- app_assoc.
    + exists [], []. done.
Qed.

End Acquisition.

(** C1, as the specification states it, fails: the 26 one-letter pages of
    [sparse_pdf] join to a text with 26 characters that are not whitespace,
    which does not exceed 50, and yet acquisition keeps the pdfplumber
    texts and never calls the rasterizer. *)
Lemma threshold_counts_inner_whitespace :
  non_whitespace (join " " (layer_texts World.sparse_world "sparse.pdf")) = 26
  /\ extract_text_from_pdf World.sparse_world "sparse.pdf" World.scanner
     = (Ok (replicate 26 "a"), logged World.scanner [PdfplumberOpen "sparse.pdf"]).
Proof. split; reflexivity. Qed.

(** ** Dictionaries *)

Section Dict.

Context {V : Type}.
Implicit Types (d : list (string * V)) (k : string) (v : V).

Lemma dict_lookup_set_eq d k v : dict_lookup (dict_set d k v) k = Some v.
Proof.
  induction d as [|[k' v'] d IH]; simpl.
  - by rewrite bool_decide_eq_true_2.
  - case_bool_decide; simpl.
    + by rewrite bool_decide_eq_true_2.
    + by rewrite bool_decide_eq_false_2.
Qed.

Lemma dict_lookup_set_ne d k k' v :
  k <> k' -> dict_lookup (dict_set d k v) k' = dict_lookup d k'.
Proof.
  intros Hne. induction d as [|[k0 v0] d IH]; simpl.
  - by rewrite bool_decide_eq_false_2.
  - case_bool_decide; simpl; subst.
    + by rewrite !bool_decide_eq_false_2.
    + by rewrite IH.
Qed.

Lemma dict_set_keys d k v :
  (dict_set d k v).*1 = if bool_decide (k ∈ d.*1) then d.*1 else d.*1 ++ [k].
Proof.
  induction d as [|[k0 v0] d IH]; csimpl; [done|].
  destruct (decide (k0 = k)) as [->|Hne].
  - rewrite bool_decide_eq_true_2 by done.
    rewrite bool_decide_eq_true_2 by (apply elem_of_cons; auto). done.
  - rewrite bool_decide_eq_false_2 by done. csimpl. rewrite IH.
    destruct (decide (k ∈ d.*1)) as [Hin|Hout].
    + rewrite !bool_decide_eq_true_2; [done| |done]. apply elem_of_cons; auto.
    + rewrite !bool_decide_eq_false_2; [done| |done].
      rewrite not_elem_of_cons. auto.
Qed.

Lemma dict_set_NoDup d k v : NoDup d.*1 -> NoDup (dict_set d k v).*1.
Proof.
  intros Hd. rewrite dict_set_keys. case_bool_decide; [done|].
  apply NoDup_app; split_and!; [done| |apply NoDup_singleton].
  intros x Hx Hk. apply list_elem_of_singleton in Hk. by subst.
Qed.

Lemma dict_set_values d k v x : x ∈ (dict_set d k v).*2 -> x = v \/ x ∈ d.*2.
Proof.
  induction d as [|[k0 v0] d IH]; simpl.
  - intros ?%list_elem_of_singleton. auto.
  - case_bool_decide; simpl; rewrite !elem_of_cons; intuition.
Qed.

Lemma dict_lookup_Some d k v : dict_lookup d k = Some v -> (k, v) ∈ d.
Proof.
  induction d as [|[k0 v0] d IH]; simpl; [done|].
  case_bool_decide; subst.
  - intros [= ->]. apply elem_of_cons; auto.
  - intros ?. apply elem_of_cons; auto.
Qed.

Lemma dict_lookup_NoDup d k v : NoDup d.*1 -> (k, v) ∈ d -> dict_lookup d k = Some v.
Proof.
  induction d as [|[k0 v0] d IH]; simpl; [by intros _ ?%elem_of_nil|].
  intros [Hk Hd]%NoDup_cons [[= -> ->]|Hin]%elem_of_cons.
  - by rewrite bool_decide_eq_true_2.
  - rewrite bool_decide_eq_false_2; [auto|].
    intros ->. apply Hk. apply list_elem_of_fmap. by exists (k, v).
Qed.

Lemma dict_lookup_None d k : dict_lookup d k = None <-> k ∉ d.*1.
Proof.
  induction d as [|[k0 v0] d IH]; simpl.
  - split; [intros _; apply not_elem_of_nil | done].
  - case_bool_decide; subst.
    + split; [done|]. intros []. apply elem_of_cons; auto.
    + rewrite IH, not_elem_of_cons. intuition congruence.
Qed.

End Dict.

(** ** Stores *)

Lemma val_ok_mono n m v : n <= m -> val_ok n v -> val_ok m v.
Proof. destruct v; simpl; lia. Qed.

Lemma obj_ok_mono n m o : n <= m -> obj_ok n o -> obj_ok m o.
Proof.
  intros Hnm. destruct o; simpl.
  - intros [? H]; split; [done|]. eapply Forall_impl; [done|]. eauto using val_ok_mono.
  - intros H. eapply Forall_impl; [done|]. eauto using val_ok_mono.
Qed.

Lemma agree_below_refl n h : agree_below n h h.
Proof. done. Qed.

Lemma agree_below_trans n h1 h2 h3 :
  agree_below n h1 h2 -> agree_below n h2 h3 -> agree_below n h1 h3.
Proof. intros H1 H2 l Hl. by rewrite H2, H1. Qed.

Lemma agree_below_weaken n m h h' : n <= m -> agree_below m h h' -> agree_below n h h'.
Proof. intros ? H l Hl. apply H. lia. Qed.

Lemma agree_below_app h g : agree_below (length h) h (h ++ g).
Proof. intros l Hl. by apply lookup_app_l. Qed.

Lemma agree_below_insert n h l o : n <= l -> agree_below n h (<[l := o]> h).
Proof. intros ? l' Hl'. apply list_lookup_insert_ne. lia. Qed.

Lemma closed_below_agree n h h' :
  agree_below n h h' -> closed_below n h -> closed_below n h'.
Proof. intros Ha Hc l o Hl Ho. rewrite Ha in Ho; eauto. Qed.

Lemma heap_ok_app h o : heap_ok h -> obj_ok (S (length h)) o -> heap_ok (h ++ [o]).
Proof.
  intros Hh Ho l o'. rewrite length_app; simpl. intros Hl Hlook.
  destruct (decide (l < length h)) as [Hlt|Hge].
  - rewrite lookup_app_l in Hlook by done.
    eapply obj_ok_mono; [|eapply Hh; eauto]. lia.
  - assert (l = length h) as -> by lia.
    rewrite list_lookup_middle in Hlook by done. simplify_eq.
    eapply obj_ok_mono; [|done]. lia.
Qed.

Lemma heap_ok_insert h l o : heap_ok h -> obj_ok (length h) o -> heap_ok (<[l := o]> h).
Proof.
  intros Hh Ho l' o'. rewrite length_insert. intros Hl Hlook.
  destruct (decide (l = l')) as [->|Hne].
  - rewrite list_lookup_insert_eq in Hlook by done. by simplify_eq.
  - rewrite list_lookup_insert_ne in Hlook by done. eauto.
Qed.

Lemma heap_ok_closed n h : heap_ok h -> n = length h -> closed_below n h.
Proof. by intros ? ->. Qed.

(** Reading through a well-formed reference gives well-formed values. *)
Lemma deref_ok n h v o :
  closed_below n h -> val_ok n v -> deref h v = Some o -> obj_ok n o.
Proof. destruct v; simpl; try done. eauto. Qed.

Lemma deref_agree n h h' v : agree_below n h h' -> val_ok n v -> deref h' v = deref h v.
Proof. destruct v; simpl; auto. Qed.

Lemma dict_value_ok n (d : list (string * val)) k v :
  obj_ok n (ODict d) -> dict_lookup d k = Some v -> val_ok n v.
Proof.
  intros [_ Hd] Hk%dict_lookup_Some. rewrite Forall_forall in Hd. apply Hd.
  apply list_elem_of_fmap. by exists (k, v).
Qed.

Section Agree.

Context (n : nat) (h h' : list obj).
Context (Ha : agree_below n h h') (Hc : closed_below n h).

Lemma h_getitem_agree v k : val_ok n v -> h_getitem h' v k = h_getitem h v k.
Proof. intros Hv. unfold h_getitem. by rewrite (deref_agree n h). Qed.

Lemma h_getitem_ok v k x : val_ok n v -> h_getitem h v k = Ok x -> val_ok n x.
Proof.
  intros Hv. unfold h_getitem.
  destruct (deref h v) as [[d|]|] eqn:E; try done.
  destruct (dict_lookup d k) eqn:E'; [|done]. intros [= <-].
  eapply dict_value_ok; [|done]. by eapply (deref_ok n h v).
Qed.

Lemma h_dict_get_agree v k x : val_ok n v -> h_dict_get h' v k x = h_dict_get h v k x.
Proof. intros Hv. unfold h_dict_get. by rewrite (deref_agree n h). Qed.

Lemma h_dict_get_ok v k x y :
  val_ok n v -> val_ok n x -> h_dict_get h v k x = Ok y -> val_ok n y.
Proof.
  intros Hv Hx. unfold h_dict_get.
  destruct (deref h v) as [[d|]|] eqn:E; try done.
  destruct (dict_lookup d k) eqn:E'; [|by intros [= <-]]. intros [= <-].
  eapply dict_value_ok; [|done]. by eapply (deref_ok n h v).
Qed.

Lemma h_items_agree v : val_ok n v -> h_items h' v = h_items h v.
Proof. intros Hv. unfold h_items. by rewrite (deref_agree n h). Qed.

Lemma h_items_ok v d : val_ok n v -> h_items h v = Ok d -> obj_ok n (ODict d).
Proof.
  intros Hv. unfold h_items.
  destruct (deref h v) as [[d'|]|] eqn:E; try done. intros [= <-].
  eapply deref_ok; eauto.
Qed.

Lemma h_truthy_agree v : val_ok n v -> h_truthy h' v = h_truthy h v.
Proof. destruct v; simpl; try done. intros Hl. by rewrite Ha. Qed.

Lemma h_iter_agree v : val_ok n v -> h_iter h' v = h_iter h v.
Proof. destruct v; simpl; try done. intros Hl. by rewrite Ha. Qed.

Lemma h_subscript_agree ks v :
  val_ok n v -> h_subscript h' v ks = h_subscript h v ks.
Proof.
  revert v. induction ks as [|k ks IH]; intros v Hv; [done|].
  unfold h_subscript; fold h_subscript. rewrite h_getitem_agree by done.
  destruct (h_getitem h v k) eqn:E; [|done]. eauto using h_getitem_ok.
Qed.

Lemma h_subscript_ok ks v x :
  val_ok n v -> h_subscript h v ks = Ok x -> val_ok n x.
Proof.
  revert v. induction ks as [|k ks IH]; intros v Hv.
  - by intros [= <-].
  - unfold h_subscript; fold h_subscript.
    destruct (h_getitem h v k) eqn:E; [|done]. eauto using h_getitem_ok.
Qed.

End Agree.

Lemma reads_agree_below n s s' :
  config s' = config s -> agree_below n (heap s) (heap s') ->
  closed_below n (heap s) -> val_ok n (config s) -> reads_agree s s'.
Proof.
  intros Hcfg Ha Hc Hv. split_and!; [done| |].
  - intros ks. eapply h_subscript_agree; eauto.
  - intros ks v Hks. eapply h_truthy_agree; eauto. eapply h_subscript_ok; eauto.
Qed.

(** ** Pattern extraction and the loop over the categories *)

Section Scan.

Context (B : backend).

Lemma for_acc_findall pats text matches s :
  for_acc pats matches
    (fun pattern matches => found ← findall B pattern text; ret (matches ++ found)) s
  = (all_matches B pats text matches, s).
Proof.
  revert matches. induction pats as [|p pats IH]; intros matches; simpl; [done|].
  rewrite !bind_run.
  destruct p as [| | |p| |]; simpl; try done.
  destruct (re_findall B p text); simpl; [|done]. apply IH.
Qed.

Lemma extract_patterns_spec text patterns s :
  extract_patterns B text patterns s
  = match h_iter (heap s) patterns with
    | Ok pats =>
        match all_matches B pats text [] with
        | Ok matches =>
            (Ok (VRef (length (heap s))), with_heap s (heap s ++ [OList (list_set matches)]))
        | Raise e => (Raise e, s)
        end
    | Raise e => (Raise e, s)
    end.
Proof.
  unfold extract_patterns. rewrite bind_run. unfold iter, lift.
  destruct (h_iter (heap s) patterns) as [pats|e]; [|done].
  rewrite bind_run, for_acc_findall.
  by destruct (all_matches B pats text []).
Qed.

Lemma scan_category_spec text r d category settings s :
  heap s !! r = Some (ODict d) ->
  heap_ok (heap s) ->
  val_ok (length (heap s)) settings ->
  match category_items B (heap s) text settings with
  | Ok (Some its) =>
      scan_category B text (VRef r) category settings s
      = (Ok tt,
         with_heap s
           (<[r := ODict (dict_set d category (VRef (length (heap s) + 2)))]>
              (heap s ++ [OList []; OList its;
                          ODict [("count", VInt (Z.of_nat (length its)));
                                 ("items", VRef (length (heap s) + 1))]])))
  | Ok None => scan_category B text (VRef r) category settings s = (Ok tt, s)
  | Raise e =>
      exists g, scan_category B text (VRef r) category settings s
                = (Raise e, with_heap s (heap s ++ g))
  end.
Proof.
  intros Hr Hok Hs. unfold scan_category, category_items.
  autorewrite with run.
  destruct (h_dict_get (heap s) settings "enabled" (VBool true)) as [enabled|e] eqn:Een;
    [|exists []; by rewrite app_nil_r, with_heap_id].
  autorewrite with run.
  destruct (h_truthy (heap s) enabled); [|done].
  autorewrite with run.
  assert (Hag : agree_below (length (heap s)) (heap s) (heap s ++ [OList []]))
    by apply agree_below_app.
  rewrite (h_dict_get_agree _ _ _ Hag) by done.
  assert (exists sd, deref (heap s) settings = Some (ODict sd)) as [sd Hsd].
  { unfold h_dict_get in Een. destruct (deref (heap s) settings) as [[|]|]; eauto; done. }
  unfold h_dict_get, settings_patterns. rewrite Hsd.
  assert (exists pv, match dict_lookup sd "patterns" with
                     | Some x => Ok x
                     | None => Ok (VRef (length (heap s)))
                     end = Ok pv
                     /\ h_iter (heap s ++ [OList []]) pv
                        = match dict_lookup sd "patterns" with
                          | Some v => h_iter (heap s) v
                          | None => Ok []
                          end) as (pv & -> & Hpv).
  { destruct (dict_lookup sd "patterns") as [v|] eqn:Ev; eexists; (split; [done|]).
    - apply (h_iter_agree _ _ _ Hag). eapply dict_value_ok; [|done].
      by eapply (deref_ok _ _ settings).
    - simpl. by rewrite list_lookup_middle. }
  rewrite bind_run, extract_patterns_spec, heap_with_heap, Hpv.
  destruct (match dict_lookup sd "patterns" with
            | Some v => h_iter (heap s) v
            | None => Ok []
            end) as [pats|e]; [|by exists [OList []]].
  destruct (all_matches B pats text []) as [matches|e]; [|by exists [OList []]].
  autorewrite with run.
  assert (h_len ((heap s ++ [OList []]) ++ [OList (list_set matches)])
            (VRef (length (heap s ++ [OList []])))
          = Ok (Z.of_nat (length (list_set matches)))) as ->.
  { simpl. by rewrite list_lookup_middle. }
  autorewrite with run.
  rewrite (setitem_run _ d).
  2: { rewrite heap_with_heap, <- !app_assoc, lookup_app_l; [done|].
       by eapply lookup_lt_Some. }
  rewrite with_heap_with_heap, heap_with_heap, <- !app_assoc. simpl.
  rewrite !length_app. simpl. by rewrite !Nat.add_1_r, Nat.add_comm.
Qed.

Lemma settings_patterns_agree n h h' settings :
  agree_below n h h' -> closed_below n h -> val_ok n settings ->
  settings_patterns h' settings = settings_patterns h settings.
Proof.
  intros Ha Hc Hs. unfold settings_patterns. rewrite (deref_agree n h) by done.
  destruct (deref h settings) as [[d|]|] eqn:E; try done.
  destruct (dict_lookup d "patterns") eqn:E'; [|done].
  eapply h_iter_agree; [done|]. eapply dict_value_ok; [|done].
  by eapply (deref_ok n h settings).
Qed.

Lemma category_items_agree n h h' text settings :
  agree_below n h h' -> closed_below n h -> val_ok n settings ->
  category_items B h' text settings = category_items B h text settings.
Proof.
  intros Ha Hc Hs. unfold category_items.
  rewrite (h_dict_get_agree n h h') by done.
  destruct (h_dict_get h settings "enabled" (VBool true)) as [enabled|] eqn:E; [|done].
  rewrite (h_truthy_agree n h h'), (settings_patterns_agree n h h'); try done.
  by apply (h_dict_get_ok n h Hc settings "enabled" (VBool true)).
Qed.

Lemma scan_results_agree n h h' text categories results :
  agree_below n h h' -> closed_below n h ->
  Forall (fun cs => val_ok n cs.2) categories ->
  scan_results B h' text categories results = scan_results B h text categories results.
Proof.
  intros Ha Hc Hcs. revert results.
  induction Hcs as [|[c st] cs Hst Hcs IH]; intros results; simpl; [done|].
  rewrite (category_items_agree n h h') by done.
  destruct (category_items B h text st) as [[its|]|]; auto.
Qed.

Lemma list_set_ok n matches : Forall (val_ok n) (list_set matches).
Proof.
  unfold list_set. rewrite Forall_fmap. apply Forall_forall. by intros [] _.
Qed.

Lemma category_items_ok h text settings its n :
  category_items B h text settings = Ok (Some its) -> Forall (val_ok n) its.
Proof.
  unfold category_items. intros H. repeat case_match; simplify_eq.
  apply list_set_ok.
Qed.

Lemma entry_rep_frame h r kv ci o g :
  entry_rep h r kv ci -> entry_rep (<[r := o]> (h ++ g)) r kv ci.
Proof.
  intros (Hk & e & i & Hv & He & Hi & Hle & Hli). split; [done|].
  exists e, i. split_and!; try done.
  - rewrite list_lookup_insert_ne by done. rewrite lookup_app_l; [done|].
    by eapply lookup_lt_Some.
  - rewrite list_lookup_insert_ne by done. rewrite lookup_app_l; [done|].
    by eapply lookup_lt_Some.
Qed.

Lemma Forall2_dict_set {V W} (R : string * V -> string * W -> Prop) d m k v w :
  (forall x y, R x y -> x.1 = y.1) ->
  Forall2 R d m -> R (k, v) (k, w) -> Forall2 R (dict_set d k v) (dict_set m k w).
Proof.
  intros Hkey Hdm Hkv. induction Hdm as [|[k1 v1] [k2 w2] d m Hx Hdm IH]; simpl.
  - by constructor.
  - pose proof (Hkey _ _ Hx) as Hk; simpl in Hk; subst k2.
    case_bool_decide; constructor; auto.
Qed.

Lemma scan_loop_spec text r n0 categories :
  forall s results,
    heap_ok (heap s) -> n0 <= r -> n0 <= length (heap s) ->
    closed_below n0 (heap s) ->
    Forall (fun cs => val_ok n0 cs.2) categories ->
    results_rep (heap s) r results ->
    closed_in n0 (length (heap s)) (heap s) ->
    exists h',
      match scan_results B (heap s) text categories results with
      | Ok results' =>
          for_each categories
            (fun cs => scan_category B text (VRef r) cs.1 cs.2) s
          = (Ok tt, with_heap s h')
          /\ results_rep h' r results' /\ heap_ok h'
          /\ closed_in n0 (length h') h'
      | Raise e =>
          for_each categories
            (fun cs => scan_category B text (VRef r) cs.1 cs.2) s
          = (Raise e, with_heap s h')
      end
      /\ agree_below n0 (heap s) h' /\ length (heap s) <= length h'.
Proof.
  induction categories as [|[c st] cs IH];
    intros s results Hok Hr Hn Hc Hcs Hrep Hnew.
  - exists (heap s). simpl. rewrite with_heap_id. by split_and!.
  - apply Forall_cons in Hcs as [Hst Hcs]. simpl in Hst.
    destruct Hrep as (d & Hd & Hrep).
    assert (Hst' : val_ok (length (heap s)) st) by eauto using val_ok_mono.
    pose proof (scan_category_spec text r d c st s Hd Hok Hst') as Hstep.
    cbn [for_each scan_results]. rewrite bind_run. cbn [fst snd].
    destruct (category_items B (heap s) text st) as [[its|]|e] eqn:Eci.
    + set (h1 := <[r := ODict (dict_set d c (VRef (length (heap s) + 2)))]>
                   (heap s ++ [OList []; OList its;
                               ODict [("count", VInt (Z.of_nat (length its)));
                                      ("items", VRef (length (heap s) + 1))]])) in *.
      assert (Hlen : length h1 = length (heap s) + 3).
      { unfold h1. by rewrite length_insert, length_app. }
      assert (Hrlt : r < length (heap s)) by by eapply lookup_lt_Some.
      assert (Hag : agree_below n0 (heap s) h1).
      { unfold h1. eapply agree_below_trans; [|by apply agree_below_insert].
        eapply agree_below_weaken; [|apply agree_below_app]. done. }
      assert (Hok1 : heap_ok h1).
      { unfold h1. apply heap_ok_insert.
        - change [OList []; OList its; ?x] with ([OList []] ++ [OList its] ++ [x]).
          rewrite !app_assoc. repeat apply heap_ok_app; try done.
          + constructor.
          + simpl. eapply category_items_ok, Eci.
          + rewrite !length_app. simpl. split.
            * compute_done.
            * repeat constructor. simpl. lia.
        - rewrite length_app. simpl.
          pose proof (Hok r _ Hrlt Hd) as [Hnd Hvals]. split.
          + by apply dict_set_NoDup.
          + apply Forall_forall. intros x [->|Hx]%dict_set_values.
            * simpl. lia.
            * rewrite Forall_forall in Hvals. eapply val_ok_mono; [|by apply Hvals]. lia. }
      assert (Hrep1 : results_rep h1 r (dict_set results c its)).
      { exists (dict_set d c (VRef (length (heap s) + 2))). split.
        - unfold h1. apply list_lookup_insert_eq. rewrite length_app. lia.
        - apply Forall2_dict_set.
          + by intros ? ? [? _].
          + eapply Forall2_impl; [done|]. intros ? ? ?. by apply entry_rep_frame.
          + split; [done|]. exists (length (heap s) + 2), (length (heap s) + 1).
            unfold h1. split_and!; [done|lia|lia| |].
            * rewrite list_lookup_insert_ne by lia.
              rewrite lookup_app_r by lia.
              by replace (length (heap s) + 2 - length (heap s)) with 2 by lia.
            * rewrite list_lookup_insert_ne by lia.
              rewrite lookup_app_r by lia.
              by replace (length (heap s) + 1 - length (heap s)) with 1 by lia. }
      assert (Hnew1 : closed_in n0 (length h1) h1).
      { intros l o Hl Hlo. unfold h1 in Hlo.
        destruct (decide (l = r)) as [->|Hlr].
        - rewrite list_lookup_insert_eq in Hlo by (rewrite length_app; simpl; lia).
          simplify_eq. simpl. apply Forall_forall. intros x [->|Hx]%dict_set_values.
          + simpl. lia.
          + pose proof (Hnew r _ (conj Hr Hrlt) Hd) as Hch. simpl in Hch.
            rewrite Forall_forall in Hch. specialize (Hch x Hx).
            destruct x; simpl in *; try done. lia.
        - rewrite list_lookup_insert_ne in Hlo by done.
          destruct (decide (l < length (heap s))) as [Hlt|Hge].
          + rewrite lookup_app_l in Hlo by done.
            pose proof (Hnew l o (conj (proj1 Hl) Hlt) Hlo) as Hch.
            eapply Forall_impl; [done|]. intros [] ?; simpl in *; try done. lia.
          + rewrite lookup_app_r in Hlo by lia.
            destruct (l - length (heap s)) as [|[|[|k]]] eqn:El; simpl in Hlo;
              simplify_eq; simpl.
            * constructor.
            * pose proof (category_items_ok _ _ _ _ 0 Eci) as Hits.
              eapply Forall_impl; [done|]. intros [] ?; simpl in *; try done. lia.
            * repeat constructor; simpl; lia. }
      destruct (IH (with_heap s h1) (dict_set results c its))
        as (h' & Hrun & Hag' & Hlen'); try done.
      { rewrite heap_with_heap. lia. }
      { rewrite heap_with_heap. by eapply closed_below_agree. }
      rewrite heap_with_heap in *.
      rewrite (scan_results_agree n0 (heap s) h1) in Hrun by done.
      exists h'. rewrite Hstep. split_and!.
      * done.
      * by eapply agree_below_trans.
      * lia.
    + destruct (IH s results Hok Hr Hn Hc Hcs) as (h' & Hrun); [by exists d|done|].
      exists h'. by rewrite Hstep.
    + destruct Hstep as [g Hg]. exists (heap s ++ g). rewrite Hg.
      split_and!; [done| |].
      * eapply agree_below_weaken; [|apply agree_below_app]. done.
      * rewrite length_app. lia.
Qed.

Lemma results_rep_app h g r results :
  results_rep h r results -> results_rep (h ++ g) r results.
Proof.
  intros (d & Hd & Hrep). exists d. split.
  - rewrite lookup_app_l; [done|]. by eapply lookup_lt_Some.
  - eapply Forall2_impl; [done|].
    intros kv ci (Hk & e & i & Hv & He & Hi & Hle & Hli). split; [done|].
    exists e, i. split_and!; try done.
    + rewrite lookup_app_l; [done|]. by eapply lookup_lt_Some.
    + rewrite lookup_app_l; [done|]. by eapply lookup_lt_Some.
Qed.

Lemma read_results_rep h r results :
  results_rep h r results ->
  read_results h (VRef r)
  = Some ((fun ci => (ci.1, (VInt (Z.of_nat (length ci.2)), ci.2))) <$> results).
Proof.
  intros (d & Hd & Hrep). unfold read_results. simpl. rewrite Hd.
  apply mapM_Some. apply Forall2_fmap_r.
  eapply Forall2_impl; [done|].
  intros [k v] [c its] (Hk & e & i & Hv & He & Hi & Hle & Hli). simpl in *. subst.
  unfold read_entry, h_getitem. simpl. rewrite Hle. simpl. by rewrite Hli.
Qed.

Lemma acquired_run pdf_path s :
  exists cs,
    extract_text_from_pdf B pdf_path s = (Ok (acquired B pdf_path s), logged s cs).
Proof.
  destruct (extract_text_from_pdf_reader B pdf_path s s (reads_agree_refl s))
    as (texts & cs & H & _).
  exists cs. unfold acquired. by rewrite H.
Qed.

(** What a scan of an existing document does, in a well-formed state: it
    fails exactly as reading the configuration fails, and otherwise stores
    and returns a new Scan Record made of new objects. *)
Lemma scan_pdf_spec pdf_path s :
  wf s -> os_path_exists B pdf_path = true ->
  exists o s',
    scan_pdf B pdf_path s = (o, s')
    /\ config s' = config s
    /\ agree_below (length (heap s)) (heap s) (heap s')
    /\ length (heap s) <= length (heap s')
    /\ calls s' = calls (extract_text_from_pdf B pdf_path s).2
    /\ match scan_outcome B (heap s) (config s)
                (join " " (acquired B pdf_path s)) with
       | Ok results =>
           exists r,
             o = Ok (VRef r) /\ extracted_data s' = VRef r
             /\ length (heap s) <= r
             /\ read_record (heap s') (VRef r)
                = Some (expected_record pdf_path (acquired B pdf_path s) results)
             /\ wf s'
             /\ closed_in (length (heap s)) (length (heap s')) (heap s')
       | Raise e => o = Raise e /\ extracted_data s' = extracted_data s
       end.
Proof.
  intros (Hok & Hcfg & Hdata) Hex. unfold scan_pdf, scan_outcome. rewrite Hex. simpl.
  destruct (acquired_run pdf_path s) as [cs Hacq].
  rewrite bind_run, Hacq. simpl.
  set (texts := acquired B pdf_path s). set (text := join " " texts).
  autorewrite with run. cbn [heap config logged].
  destruct (h_getitem (heap s) (config s) "extraction_settings") as [es|e] eqn:Ees.
  2: { eexists _, _. split; [done|]. by split_and!. }
  assert (Hes : val_ok (length (heap s)) es) by by eapply (h_getitem_ok _ _ Hok (config s)).
  autorewrite with run. cbn [heap config logged with_heap].
  pose proof (agree_below_app (heap s) [ODict []]) as Hag0.
  rewrite (h_items_agree _ _ _ Hag0) by done.
  destruct (h_items (heap s) es) as [categories|e] eqn:Ecs.
  2: { eexists _, _. split; [done|]. cbn. split_and!; try done. rewrite length_app. lia. }
  rewrite bind_run.
  set (s1 := with_heap (logged s cs) (heap s ++ [ODict []])).
  destruct (scan_loop_spec text (length (heap s)) (length (heap s)) categories s1 [])
    as (h' & Hloop & Hag & Hlen).
  { apply heap_ok_app; [done|]. split; [apply NoDup_nil_2|constructor]. }
  { done. }
  { unfold s1; simpl. rewrite length_app. lia. }
  { unfold s1; simpl. eapply closed_below_agree; [apply Hag0|done]. }
  { pose proof (h_items_ok _ _ Hok es categories Hes Ecs) as [_ Hvals].
    rewrite Forall_fmap in Hvals. done. }
  { exists []. split; [|constructor]. unfold s1; simpl. by apply list_lookup_middle. }
  { unfold s1; simpl. intros l o Hl Hlo. rewrite length_app in Hl. simpl in Hl.
    assert (l = length (heap s)) as -> by lia.
    rewrite list_lookup_middle in Hlo by done. simplify_eq. constructor. }
  change (heap s1) with (heap s ++ [ODict []]) in *.
  rewrite (scan_results_agree (length (heap s)) (heap s)) in Hloop; try done.
  2: { pose proof (h_items_ok _ _ Hok es categories Hes Ecs) as [_ Hvals].
       rewrite Forall_fmap in Hvals. done. }
  assert (Hag1 : agree_below (length (heap s)) (heap s) h')
    by by eapply agree_below_trans.
  rewrite length_app in Hlen. simpl in Hlen.
  destruct (scan_results B (heap s) text categories []) as [results|e].
  - destruct Hloop as (Hrun & Hrep & Hok' & Hnew).
    eexists _, _. split.
    { rewrite Hrun. autorewrite with run. unfold set_extracted_data. reflexivity. }
    cbn [heap config extracted_data calls with_heap logged s1].
    split_and!; try done.
    + eapply agree_below_trans; [done|].
      eapply agree_below_weaken; [|apply agree_below_app]. lia.
    + rewrite length_app. lia.
    + exists (length h'). split_and!; try done; [lia| | |].
      * unfold read_record, h_getitem. simpl. rewrite list_lookup_middle by done.
        simpl. rewrite (read_results_rep _ _ results); [done|].
        by apply results_rep_app.
      * split_and!; simpl.
        -- apply heap_ok_app; [done|]. split.
           ++ compute_done.
           ++ repeat constructor. simpl. lia.
        -- eapply val_ok_mono; [|done]. rewrite length_app. lia.
        -- rewrite length_app. simpl. lia.
      * intros l o Hl Hlo. rewrite length_app in Hl. simpl in Hl.
        destruct (decide (l < length h')) as [Hlt|Hge].
        -- rewrite lookup_app_l in Hlo by done.
           pose proof (Hnew l o (conj (proj1 Hl) Hlt) Hlo) as Hch.
           eapply Forall_impl; [done|].
           intros [] ?; simpl in *; try done. rewrite length_app. simpl. lia.
        -- assert (l = length h') as -> by lia.
           rewrite list_lookup_middle in Hlo by done. simplify_eq. simpl.
           repeat constructor. simpl. rewrite length_app. simpl. lia.
  - eexists _, _. split; [by rewrite Hloop|].
    cbn [heap config extracted_data calls with_heap logged s1].
    split_and!; try done. lia.
Qed.

End Scan.

(** ** Which exceptions a method can raise *)

Section Raises.

Context (P : exn -> Prop).

Lemma raises_only_ret {A} (a : A) : raises_only P (ret a).
Proof. by intros s e s' [=]. Qed.

Lemma raises_only_raise {A} e : P e -> raises_only P (raise e : M A).
Proof. by intros He s e' s' [= <- _]. Qed.

Lemma raises_only_bind {A B} (m : M A) (k : A -> M B) :
  raises_only P m -> (forall a, raises_only P (k a)) -> raises_only P (bind m k).
Proof.
  intros Hm Hk s e s'. rewrite bind_run.
  destruct (m s) as [[a|e0] s0] eqn:E.
  - apply Hk.
  - intros [= <- _]. by eapply Hm.
Qed.

Lemma raises_only_lift {A} (f : list obj -> outcome A) :
  (forall h e, f h = Raise e -> P e) -> raises_only P (lift f).
Proof. intros Hf s e s'. unfold lift. intros [= H _]. by eapply Hf. Qed.

Lemma raises_only_for_each {A} (xs : list A) body :
  (forall x, raises_only P (body x)) -> raises_only P (for_each xs body).
Proof.
  intros Hb. induction xs as [|x xs IH]; simpl.
  - apply raises_only_ret.
  - apply raises_only_bind; auto.
Qed.

Lemma raises_only_for_acc {A L} (xs : list A) (acc : L) body :
  (forall x a, raises_only P (body x a)) -> raises_only P (for_acc xs acc body).
Proof.
  intros Hb. revert acc. induction xs as [|x xs IH]; intros acc; simpl.
  - apply raises_only_ret.
  - apply raises_only_bind; auto.
Qed.

Lemma raises_only_reader_ok {A} (m : M A) : reader_ok m -> raises_only P m.
Proof.
  intros Hm s e s' H. destruct (Hm s s (reads_agree_refl s)) as (a & cs & H1 & _).
  congruence.
Qed.

Lemma raises_only_getitem v k : P KeyError -> P TypeError -> raises_only P (getitem v k).
Proof.
  intros ? ?. apply raises_only_lift. intros h e. unfold h_getitem.
  repeat case_match; by intros [= <-].
Qed.

Lemma raises_only_subscript v ks :
  P KeyError -> P TypeError -> raises_only P (subscript v ks).
Proof.
  intros HK HT. apply raises_only_lift. intros h. revert v.
  induction ks as [|k ks IH]; intros v e; [done|].
  unfold h_subscript; fold h_subscript.
  destruct (h_getitem h v k) as [x|e0] eqn:E; [apply IH|].
  intros [= <-]. unfold h_getitem in E. repeat case_match; by simplify_eq.
Qed.

Lemma raises_only_dict_get v k x : P AttributeError -> raises_only P (dict_get v k x).
Proof.
  intros ?. apply raises_only_lift. intros h e. unfold h_dict_get.
  repeat case_match; by intros [= <-].
Qed.

Lemma raises_only_items v : P AttributeError -> raises_only P (items v).
Proof.
  intros ?. apply raises_only_lift. intros h e. unfold h_items.
  repeat case_match; by intros [= <-].
Qed.

Lemma raises_only_truthy v : raises_only P (truthy v).
Proof. by apply raises_only_lift. Qed.

Lemma raises_only_iter v : P TypeError -> raises_only P (iter v).
Proof.
  intros ?. apply raises_only_lift. intros h e. unfold h_iter.
  repeat case_match; by intros [= <-].
Qed.

Lemma raises_only_py_len v : P TypeError -> raises_only P (py_len v).
Proof.
  intros ?. apply raises_only_lift. intros h e. unfold h_len.
  repeat case_match; by intros [= <-].
Qed.

Lemma raises_only_py_ge v n : P TypeError -> raises_only P (py_ge v n).
Proof.
  intros ?. destruct v; simpl; (apply raises_only_ret || by apply raises_only_raise).
Qed.

Lemma raises_only_alloc o : raises_only P (alloc o).
Proof. by intros s e s' [=]. Qed.

Lemma raises_only_log c : raises_only P (log c).
Proof. by intros s e s' [=]. Qed.

Lemma raises_only_self_config : raises_only P self_config.
Proof. by intros s e s' [=]. Qed.

Lemma raises_only_self_extracted_data : raises_only P self_extracted_data.
Proof. by intros s e s' [=]. Qed.

Lemma raises_only_set_extracted_data v : raises_only P (set_extracted_data v).
Proof. by intros s e s' [=]. Qed.

Lemma raises_only_setitem v k x : P TypeError -> raises_only P (setitem v k x).
Proof.
  intros ? s e s'. unfold setitem. repeat case_match; by intros [= <- _].
Qed.

Lemma raises_only_append v x : P AttributeError -> raises_only P (append v x).
Proof.
  intros ? s e s'. unfold append. repeat case_match; by intros [= <- _].
Qed.

Lemma raises_only_findall B pattern text :
  P ReError -> P TypeError -> raises_only P (findall B pattern text).
Proof.
  intros ? ?. unfold findall.
  repeat case_match; (apply raises_only_ret || by apply raises_only_raise).
Qed.

End Raises.

Ltac raises_step :=
  match goal with
  | |- raises_only _ (bind _ _) => apply raises_only_bind; [|intros]
  | |- raises_only _ (for_each _ _) => apply raises_only_for_each; intros
  | |- raises_only _ (for_acc _ _ _) => apply raises_only_for_acc; intros
  | |- raises_only _ (ret _) => apply raises_only_ret
  | |- raises_only _ (raise _) => apply raises_only_raise
  | |- raises_only _ (getitem _ _) => apply raises_only_getitem
  | |- raises_only _ (subscript _ _) => apply raises_only_subscript
  | |- raises_only _ (dict_get _ _ _) => apply raises_only_dict_get
  | |- raises_only _ (items _) => apply raises_only_items
  | |- raises_only _ (truthy _) => apply raises_only_truthy
  | |- raises_only _ (iter _) => apply raises_only_iter
  | |- raises_only _ (py_len _) => apply raises_only_py_len
  | |- raises_only _ (py_ge _ _) => apply raises_only_py_ge
  | |- raises_only _ (alloc _) => apply raises_only_alloc
  | |- raises_only _ (log _) => apply raises_only_log
  | |- raises_only _ self_config => apply raises_only_self_config
  | |- raises_only _ self_extracted_data => apply raises_only_self_extracted_data
  | |- raises_only _ (set_extracted_data _) => apply raises_only_set_extracted_data
  | |- raises_only _ (setitem _ _ _) => apply raises_only_setitem
  | |- raises_only _ (append _ _) => apply raises_only_append
  | |- raises_only _ (findall _ _ _) => apply raises_only_findall
  | |- raises_only _ (if ?b then _ else _) => destruct b
  | |- raises_only _ (match ?x with _ => _ end) => destruct x
  end.

Lemma scan_pdf_raises B pdf_path :
  os_path_exists B pdf_path = true -> raises_only config_error (scan_pdf B pdf_path).
Proof.
  intros Hex. unfold scan_pdf. rewrite Hex. simpl.
  apply raises_only_bind;
    [apply raises_only_reader_ok, extract_text_from_pdf_reader|intros].
  unfold scan_category, extract_patterns.
  repeat raises_step; unfold config_error; auto.
Qed.

(** A well-formedness check that computes. *)
Lemma wf_check s :
  Forall (obj_ok (length (heap s))) (heap s) ->
  val_ok (length (heap s)) (config s) ->
  val_ok (length (heap s)) (extracted_data s) ->
  wf s.
Proof.
  intros Hh Hc Hd. split_and!; [|done|done].
  intros l o _ Hl. rewrite Forall_forall in Hh. apply Hh.
  by eapply list_elem_of_lookup_2.
Qed.

(** ** Strings *)

Lemma len_append s t : len (s +:+ t) = len s + len t.
Proof. unfold len. induction s; simpl; auto. Qed.

Lemma len_prefix_of n s : n <= len s -> len (prefix_of n s) = n.
Proof.
  unfold len, prefix_of. revert s.
  induction n as [|n IH]; intros [|c s]; simpl; try lia; try done.
  intros Hn. rewrite IH; lia.
Qed.

Lemma prefix_of_append n s t : n <= len s -> prefix_of n (s +:+ t) = prefix_of n s.
Proof.
  unfold len, prefix_of. revert s.
  induction n as [|n IH]; intros [|c s]; simpl; try lia; try done.
  - by destruct (_ +:+ _).
  - intros Hn. rewrite IH; [done|lia].
Qed.

Lemma prefix_of_prefix_of n s : prefix_of n (prefix_of n s) = prefix_of n s.
Proof.
  unfold prefix_of. revert s.
  induction n as [|n IH]; intros [|c s]; simpl; try done. by rewrite IH.
Qed.

Lemma len_prefix_of_le n s : len (prefix_of n s) <= n.
Proof.
  unfold len, prefix_of. revert s.
  induction n as [|n IH]; intros [|c s]; simpl; try lia.
  specialize (IH s). lia.
Qed.

(** ** The scan orchestrator *)

Section Orchestrator.

Context (B : backend).

Lemma all_matches_compiles pats text matches :
  Forall (compiles B) pats -> exists matches', all_matches B pats text matches = Ok matches'.
Proof.
  intros Hp. revert matches.
  induction Hp as [|p pats (pat & -> & Hc) Hp IH]; intros matches; simpl; [eauto|].
  destruct (Hc text) as [found ->]. apply IH.
Qed.

Lemma category_usable_items h text settings :
  category_usable B h settings -> exists its, category_items B h text settings = Ok its.
Proof.
  intros (d & Hd & Hpats). unfold category_items, h_dict_get, settings_patterns.
  rewrite Hd.
  assert (exists enabled,
    match dict_lookup d "enabled" with Some x => Ok x | None => Ok (VBool true) end
    = Ok enabled /\ enabled = default (VBool true) (dict_lookup d "enabled"))
    as (enabled & -> & ->) by (destruct (dict_lookup d "enabled"); eauto).
  destruct (h_truthy h _); [|eauto].
  specialize (Hpats eq_refl).
  destruct (dict_lookup d "patterns") as [v|].
  - destruct Hpats as (pats & -> & Hc).
    destruct (all_matches_compiles pats text [] Hc) as [ms ->]. eauto.
  - simpl. eauto.
Qed.

Lemma scan_results_usable h text categories results :
  Forall (fun cs => category_usable B h cs.2) categories ->
  exists results', scan_results B h text categories results = Ok results'.
Proof.
  intros Hall. revert results.
  induction Hall as [|[c st] cs Hst Hall IH]; intros acc; simpl; [eauto|].
  destruct (category_usable_items h text st Hst) as [[its|] Hits];
    rewrite Hits; apply IH.
Qed.

Lemma config_usable_outcome h cfg text :
  config_usable B h cfg -> exists results, scan_outcome B h cfg text = Ok results.
Proof.
  intros (es & categories & Hes & Hcs & Hall). unfold scan_outcome. rewrite Hes, Hcs.
  by apply scan_results_usable.
Qed.

(** C3, as amended.  A scan raises FileNotFoundError exactly when the path
    does not exist, and then it has called no library and changed nothing.
    For an existing path the scan succeeds, storing and returning a
    well-formed Scan Record (also when no text was acquired), whenever the
    configuration can be read: [extraction_settings] is a dictionary of
    dictionaries and the patterns of the enabled categories are strings
    that compile.  (What an unreadable configuration leads to is left
    open.) *)
Theorem scan_not_found_iff (pdf_path : string) (s : state) :
  wf s ->
  (os_path_exists B pdf_path = false ->
     scan_pdf B pdf_path s = (Raise FileNotFoundError, s))
  /\ ((scan_pdf B pdf_path s).1 = Raise FileNotFoundError ->
      os_path_exists B pdf_path = false)
  /\ (os_path_exists B pdf_path = true ->
      config_usable B (heap s) (config s) ->
      exists r s' results,
        scan_pdf B pdf_path s = (Ok r, s')
        /\ extracted_data s' = r
        /\ read_record (heap s') r
           = Some (expected_record pdf_path (acquired B pdf_path s) results)
        /\ wf s').
Proof.
  intros Hwf. split_and!.
  - intros Hex. unfold scan_pdf. by rewrite Hex.
  - destruct (os_path_exists B pdf_path) eqn:Hex; [|done].
    destruct (scan_pdf B pdf_path s) as [o s'] eqn:Hscan. simpl. intros ->.
    apply (scan_pdf_raises B pdf_path Hex) in Hscan.
    destruct Hscan as [|[|[|]]]; done.
  - intros Hex Hcfg.
    destruct (scan_pdf_spec B pdf_path s Hwf Hex)
      as (o & s' & Hscan & _ & _ & _ & _ & Hout).
    destruct (config_usable_outcome _ _ (join " " (acquired B pdf_path s)) Hcfg)
      as [results Hres].
    rewrite Hres in Hout. destruct Hout as (r & -> & Hd & _ & Hrec & Hwf' & _).
    exists (VRef r), s', results. by split_and!.
Qed.

(** What a scan that returned has done. *)
Lemma scan_pdf_ok pdf_path s r s' :
  wf s -> scan_pdf B pdf_path s = (Ok r, s') ->
  exists results,
    scan_outcome B (heap s) (config s) (join " " (acquired B pdf_path s)) = Ok results
    /\ os_path_exists B pdf_path = true
    /\ extracted_data s' = r
    /\ read_record (heap s') r
       = Some (expected_record pdf_path (acquired B pdf_path s) results)
    /\ wf s' /\ config s' = config s
    /\ agree_below (length (heap s)) (heap s) (heap s')
    /\ length (heap s) <= length (heap s')
    /\ (exists l, r = VRef l /\ length (heap s) <= l)
    /\ closed_in (length (heap s)) (length (heap s')) (heap s').
Proof.
  intros Hwf Hscan.
  destruct (os_path_exists B pdf_path) eqn:Hex.
  2: { unfold scan_pdf in Hscan. by rewrite Hex in Hscan. }
  destruct (scan_pdf_spec B pdf_path s Hwf Hex)
    as (o & s0 & Hscan' & Hcfg & Hag & Hlen & _ & Hout).
  rewrite Hscan in Hscan'. simplify_eq.
  destruct (scan_outcome B (heap s) (config s) (join " " (acquired B pdf_path s)))
    as [results|e]; [|by destruct Hout].
  destruct Hout as (l & [= ->] & Hd & Hl & Hrec & Hwf' & Hnew).
  exists results. split_and!; eauto.
Qed.

Lemma scan_outcome_agree n h h' cfg text :
  agree_below n h h' -> closed_below n h -> val_ok n cfg ->
  scan_outcome B h' cfg text = scan_outcome B h cfg text.
Proof.
  intros Ha Hc Hcfg. unfold scan_outcome. rewrite (h_getitem_agree n h h') by done.
  destruct (h_getitem h cfg "extraction_settings") as [es|] eqn:Ees; [|done].
  assert (Hes : val_ok n es) by by eapply (h_getitem_ok n h Hc cfg).
  rewrite (h_items_agree n h h') by done.
  destruct (h_items h es) as [categories|] eqn:Ecs; [|done].
  eapply scan_results_agree; eauto.
  pose proof (h_items_ok n h Hc es categories Hes Ecs) as [_ Hvals].
  by rewrite Forall_fmap in Hvals.
Qed.

Lemma acquired_agree pdf_path s s' :
  reads_agree s s' -> acquired B pdf_path s' = acquired B pdf_path s.
Proof.
  intros Hs. unfold acquired.
  destruct (extract_text_from_pdf_reader B pdf_path s s' Hs) as (a & cs & -> & ->).
  done.
Qed.

(** C6.  A second scan of the same document, right after a scan that
    returned and with the configuration untouched, returns too, and its
    Scan Record reads the same as the first: the same extraction results
    (and the same page count and preview). *)
Theorem rescan_same_results (pdf_path : string) (s s1 : state) (r1 : val) :
  wf s -> scan_pdf B pdf_path s = (Ok r1, s1) ->
  exists r2 s2 record,
    scan_pdf B pdf_path s1 = (Ok r2, s2)
    /\ read_record (heap s1) r1 = Some record
    /\ read_record (heap s2) r2 = Some record.
Proof.
  intros Hwf Hscan.
  destruct (scan_pdf_ok pdf_path s r1 s1 Hwf Hscan)
    as (results & Hout & Hex & _ & Hrec & Hwf1 & Hcfg & Hag & Hlen & _ & _).
  destruct Hwf as (Hok & Hc & Hd).
  assert (Hreads : reads_agree s s1) by by eapply reads_agree_below.
  destruct (scan_pdf_spec B pdf_path s1 Hwf1 Hex)
    as (o & s2 & Hscan2 & _ & _ & _ & _ & Hout2).
  rewrite (acquired_agree pdf_path s s1 Hreads), Hcfg in Hout2.
  rewrite (scan_outcome_agree (length (heap s)) (heap s)), Hout in Hout2 by done.
  destruct Hout2 as (r2 & -> & _ & _ & Hrec2 & _).
  eexists _, _, _. by split_and!.
Qed.

Lemma list_set_NoDup matches : NoDup (list_set matches).
Proof. unfold list_set. apply (NoDup_fmap_2 _), NoDup_elements. Qed.

Lemma elem_of_list_set matches v :
  v ∈ list_set matches <-> exists m, v = val_of_match m /\ m ∈ matches.
Proof.
  unfold list_set. rewrite list_elem_of_fmap.
  by setoid_rewrite elem_of_elements; setoid_rewrite elem_of_list_to_set.
Qed.

Lemma all_matches_elem pats text matches matches' m :
  all_matches B pats text matches = Ok matches' ->
  m ∈ matches' <->
  m ∈ matches \/ exists pattern found,
                   VStr pattern ∈ pats /\ re_findall B pattern text = Some found
                   /\ m ∈ found.
Proof.
  revert matches. induction pats as [|p pats IH]; intros matches; simpl.
  - intros [= <-]. split; [auto|]. intros [|(? & ? & []%elem_of_nil & _)]; done.
  - destruct p as [| | |pat| |]; try done.
    destruct (re_findall B pat text) as [found|] eqn:Ef; [|done].
    intros H. rewrite (IH _ H), elem_of_app. split.
    + intros [[|]|(pat' & found' & ? & ? & ?)]; [by left| |].
      * right. exists pat, found. split_and!; [apply elem_of_cons; auto|done|done].
      * right. exists pat', found'. split_and!; [apply elem_of_cons; auto|done|done].
    + intros [|(pat' & found' & [[= ->]|]%elem_of_cons & Hf & ?)]; [by left; left| |].
      * rewrite Ef in Hf. simplify_eq. by left; right.
      * right. by exists pat', found'.
Qed.

Lemma scan_results_NoDup h text categories results results' :
  NoDup results.*1 -> scan_results B h text categories results = Ok results' ->
  NoDup results'.*1.
Proof.
  revert results. induction categories as [|[c st] cs IH]; intros acc Hacc; simpl.
  - by intros [= <-].
  - destruct (category_items B h text st) as [[its|]|]; [| |done]; apply IH; [|done].
    by apply dict_set_NoDup.
Qed.

Lemma scan_results_lookup h text categories results results' c :
  NoDup categories.*1 -> scan_results B h text categories results = Ok results' ->
  dict_lookup results' c
  = match dict_lookup categories c with
    | Some st =>
        match category_items B h text st with
        | Ok (Some its) => Some its
        | _ => dict_lookup results c
        end
    | None => dict_lookup results c
    end.
Proof.
  revert results. induction categories as [|[c0 st0] cs IH]; intros acc; simpl.
  - by intros _ [= <-].
  - intros [Hc0 Hcs]%NoDup_cons.
    destruct (category_items B h text st0) as [[its0|]|] eqn:E0; [| |done];
      intros Hres; rewrite (IH _ Hcs Hres); clear IH Hres.
    + case_bool_decide as Hc; subst.
      * apply dict_lookup_None in Hc0. rewrite Hc0, E0. apply dict_lookup_set_eq.
      * rewrite dict_lookup_set_ne by done. done.
    + case_bool_decide as Hc; subst; [|done].
      apply dict_lookup_None in Hc0. by rewrite Hc0, E0.
Qed.

(** The entry a scan made for a category comes from that category's
    settings in the configuration. *)
Lemma scan_outcome_entry h cfg text results c its :
  closed_below (length h) h -> val_ok (length h) cfg ->
  scan_outcome B h cfg text = Ok results -> (c, its) ∈ results ->
  exists settings,
    h_subscript h cfg ["extraction_settings"; c] = Ok settings
    /\ category_items B h text settings = Ok (Some its).
Proof.
  intros Hok Hcfg. unfold scan_outcome.
  destruct (h_getitem h cfg "extraction_settings") as [es|] eqn:Ees; [|done].
  destruct (h_items h es) as [categories|] eqn:Ecs; [|done].
  assert (Hes : val_ok (length h) es) by by eapply (h_getitem_ok _ h Hok cfg).
  pose proof (h_items_ok _ h Hok es categories Hes Ecs) as [Hnd _].
  intros Hres Hin.
  assert (Hnd' : NoDup results.*1).
  { eapply scan_results_NoDup; [|done]. apply NoDup_nil_2. }
  apply (dict_lookup_NoDup _ _ _ Hnd') in Hin.
  rewrite (scan_results_lookup _ _ _ _ _ c Hnd Hres) in Hin. simpl in Hin.
  destruct (dict_lookup categories c) as [st|] eqn:Est; [|done].
  destruct (category_items B h text st) as [[its'|]|] eqn:Eits; try done.
  simplify_eq. exists st. split; [|done].
  unfold h_subscript. rewrite Ees. unfold h_getitem, h_items in *.
  destruct (deref h es) as [[d|]|]; try done. simplify_eq. by rewrite Est.
Qed.

Lemma scan_outcome_lookup h cfg text results c settings :
  closed_below (length h) h -> val_ok (length h) cfg ->
  scan_outcome B h cfg text = Ok results ->
  h_subscript h cfg ["extraction_settings"; c] = Ok settings ->
  exists its,
    category_items B h text settings = Ok its
    /\ forall x, its = Some x -> (c, x) ∈ results.
Proof.
  intros Hok Hcfg. unfold scan_outcome, h_subscript.
  destruct (h_getitem h cfg "extraction_settings") as [es|] eqn:Ees; [|done].
  destruct (h_items h es) as [categories|] eqn:Ecs; [|done].
  assert (Hes : val_ok (length h) es) by by eapply (h_getitem_ok _ h Hok cfg).
  pose proof (h_items_ok _ h Hok es categories Hes Ecs) as [Hnd _].
  intros Hres Hst.
  assert (dict_lookup categories c = Some settings) as Hc.
  { unfold h_getitem, h_items in *. destruct (deref h es) as [[d|]|]; try done.
    simplify_eq. destruct (dict_lookup categories c); by simplify_eq. }
  pose proof (scan_results_lookup _ _ _ _ _ c Hnd Hres) as Hlook. rewrite Hc in Hlook.
  assert (exists its, category_items B h text settings = Ok its) as [its Hits].
  { clear Hlook. revert Hres. generalize (@nil (string * list val)).
    apply dict_lookup_Some in Hc. clear Hnd Ecs.
    induction categories as [|[c0 st0] cs IH]; intros acc; [by apply elem_of_nil in Hc|].
    apply elem_of_cons in Hc as [[= <- <-]|Hc]; simpl.
    - destruct (category_items B h text settings); [eauto|done].
    - destruct (category_items B h text st0) as [[|]|]; eauto; done. }
  exists its. split; [done|]. intros x ->. rewrite Hits in Hlook.
  by apply dict_lookup_Some.
Qed.

(** C2.  After a scan, every enabled category has an entry in the
    extraction results; the items of every entry hold no value twice, the
    count is the number of items, and the items are exactly the matches of
    the category's patterns in the combined text: a match found by two
    patterns, or twice by one, is there once. *)
Theorem items_deduplicated (pdf_path : string) (s s' : state) (r : val) :
  wf s -> scan_pdf B pdf_path s = (Ok r, s') ->
  exists record,
    read_record (heap s') r = Some record
    /\ (forall category settings enabled,
          h_subscript (heap s) (config s) ["extraction_settings"; category]
          = Ok settings ->
          h_dict_get (heap s) settings "enabled" (VBool true) = Ok enabled ->
          h_truthy (heap s) enabled = true ->
          exists entry, (category, entry) ∈ record_extraction_results record)
    /\ forall category count its,
         (category, (count, its)) ∈ record_extraction_results record ->
         NoDup its
         /\ count = VInt (Z.of_nat (length its))
         /\ exists settings pats,
              h_subscript (heap s) (config s) ["extraction_settings"; category]
              = Ok settings
              /\ settings_patterns (heap s) settings = Ok pats
              /\ forall v,
                   v ∈ its <->
                   exists pattern found m,
                     VStr pattern ∈ pats
                     /\ re_findall B pattern (join " " (acquired B pdf_path s))
                        = Some found
                     /\ m ∈ found /\ v = val_of_match m.
Proof.
  intros Hwf Hscan.
  destruct (scan_pdf_ok pdf_path s r s' Hwf Hscan) as (results & Hout & _ & _ & Hrec & _).
  destruct Hwf as (Hok & Hcfg & _).
  eexists. split; [exact Hrec|]. simpl. split.
  { intros category settings enabled Hst Hen Ht.
    destruct (scan_outcome_lookup _ _ _ _ _ _ Hok Hcfg Hout Hst) as (its & Hits & Hin).
    unfold category_items in Hits. rewrite Hen, Ht in Hits.
    destruct (settings_patterns (heap s) settings) as [pats|]; [|done].
    destruct (all_matches B pats _ []) as [ms|]; [|done]. simplify_eq.
    eexists. apply list_elem_of_fmap. eexists (category, _). split; [done|].
    by apply Hin. }
  intros category count its ([c its'] & [= -> -> ->] & Hin)%list_elem_of_fmap.
  simpl in *.
  destruct (scan_outcome_entry _ _ _ _ _ _ Hok Hcfg Hout Hin) as (st & Hst & Hits).
  unfold category_items in Hits.
  destruct (h_dict_get (heap s) st "enabled" (VBool true)); [|done].
  destruct (h_truthy (heap s) _); [|done].
  destruct (settings_patterns (heap s) st) as [pats|] eqn:Epats; [|done].
  destruct (all_matches B pats _ []) as [matches|] eqn:Em; [|done].
  simplify_eq. split_and!; [apply list_set_NoDup|done|].
  exists st, pats. split_and!; [done|done|].
  intros v. rewrite elem_of_list_set.
  setoid_rewrite (all_matches_elem _ _ _ _ _ Em). split.
  - intros (m & -> & [[]%elem_of_nil|(pat & found & ? & ? & ?)]).
    by exists pat, found, m.
  - intros (pat & found & m & ? & ? & ? & ->). exists m. split; [done|].
    right. by exists pat, found.
Qed.

(** C10.  Leaving keys out of a category's settings is no error: a
    configuration whose categories all omit [patterns] never makes the scan
    of an existing document fail.  After a scan, a category whose settings
    omit [enabled] has an entry in the extraction results, and a category
    whose settings omit [patterns] (and is enabled, by omission or by a
    true value) has the entry with count 0 and no items. *)
Theorem omitted_keys (pdf_path : string) (s : state) :
  wf s ->
  (os_path_exists B pdf_path = true ->
   (exists es categories,
      h_getitem (heap s) (config s) "extraction_settings" = Ok es
      /\ h_items (heap s) es = Ok categories
      /\ Forall (fun cs => exists d, deref (heap s) cs.2 = Some (ODict d)
                                     /\ dict_lookup d "patterns" = None)
                categories) ->
   exists r s', scan_pdf B pdf_path s = (Ok r, s'))
  /\ (forall r s' category settings d,
        scan_pdf B pdf_path s = (Ok r, s') ->
        h_subscript (heap s) (config s) ["extraction_settings"; category] = Ok settings ->
        deref (heap s) settings = Some (ODict d) ->
        exists record,
          read_record (heap s') r = Some record
          /\ (dict_lookup d "enabled" = None ->
              exists entry, (category, entry) ∈ record_extraction_results record)
          /\ (dict_lookup d "patterns" = None ->
              h_truthy (heap s) (default (VBool true) (dict_lookup d "enabled")) = true ->
              (category, (VInt 0, [])) ∈ record_extraction_results record)).
Proof.
  intros Hwf. split.
  - intros Hex (es & categories & Hes & Hcs & Hall).
    destruct (scan_pdf_spec B pdf_path s Hwf Hex)
      as (o & s' & Hscan & _ & _ & _ & _ & Hout).
    destruct (config_usable_outcome (heap s) (config s)
                (join " " (acquired B pdf_path s))) as [results Hres].
    { exists es, categories. split_and!; [done|done|].
      eapply Forall_impl; [done|]. intros cs (d & Hd & Hp). exists d.
      split; [done|]. by rewrite Hp. }
    rewrite Hres in Hout. destruct Hout as (r & -> & _). eauto.
  - intros r s' category settings d Hscan Hst Hd.
    destruct (scan_pdf_ok pdf_path s r s' Hwf Hscan)
      as (results & Hout & _ & _ & Hrec & _).
    destruct Hwf as (Hok & Hcfg & _).
    destruct (scan_outcome_lookup _ _ _ _ _ _ Hok Hcfg Hout Hst) as (its & Hits & Hin).
    eexists. split; [exact Hrec|]. simpl.
    unfold category_items, h_dict_get, settings_patterns in Hits. rewrite Hd in Hits.
    split.
    + intros Hen. rewrite Hen in Hits. simpl in Hits.
      destruct (dict_lookup d "patterns") as [v|].
      * destruct (h_iter (heap s) v) as [pats|]; [|done].
        destruct (all_matches B pats _ []) as [ms|]; [|done]. simplify_eq.
        eexists. apply list_elem_of_fmap. eexists (category, _). split; [done|].
        by apply Hin.
      * simpl in Hits. simplify_eq.
        eexists. apply list_elem_of_fmap. eexists (category, _). split; [done|].
        by apply Hin.
    + intros Hp Hen. rewrite Hp in Hits.
      assert (its = Some []) as ->.
      { destruct (dict_lookup d "enabled"); simpl in *; rewrite ?Hen in Hits;
          simplify_eq; unfold list_set; by rewrite list_to_set_nil, elements_empty. }
      apply list_elem_of_fmap. exists (category, []). split; [done|]. by apply Hin.
Qed.

(** C7, as amended.  The preview stored by a scan is the whole combined
    text when that has at most 500 characters; when it is longer, the
    preview is its first 500 characters followed by three dots, 503
    characters in all. *)
Theorem preview_ellipsis (pdf_path : string) (s s' : state) (r : val) :
  wf s -> scan_pdf B pdf_path s = (Ok r, s') ->
  exists record preview,
    read_record (heap s') r = Some record
    /\ record_raw_text_preview record = VStr preview
    /\ (len (join " " (acquired B pdf_path s)) <= 500 ->
        preview = join " " (acquired B pdf_path s))
    /\ (500 < len (join " " (acquired B pdf_path s)) ->
        preview = prefix_of 500 (join " " (acquired B pdf_path s)) +:+ "..."
        /\ len preview = 503
        /\ prefix_of 500 preview = prefix_of 500 (join " " (acquired B pdf_path s))).
Proof.
  intros Hwf Hscan.
  destruct (scan_pdf_ok pdf_path s r s' Hwf Hscan) as (results & _ & _ & _ & Hrec & _).
  eexists _, _. split; [exact Hrec|]. split; [reflexivity|].
  set (text := join " " (acquired B pdf_path s)). unfold raw_text_preview.
  split.
  - intros Hle. apply Nat.ltb_ge in Hle. by rewrite Hle.
  - intros Hlt. pose proof Hlt as Hlt'. apply Nat.ltb_lt in Hlt'. rewrite Hlt'.
    split_and!; [done| |].
    + rewrite len_append, len_prefix_of by lia. done.
    + rewrite prefix_of_append by (rewrite len_prefix_of; lia).
      apply prefix_of_prefix_of.
Qed.


(** ** Reading a record from a region that did not change *)

Section Frame.

Context (a n : nat) (h h' : list obj).
Context (Ha : agree_in a n h h') (Hc : closed_in a n h).

Lemma deref_frame v : val_in a n v -> deref h' v = deref h v.
Proof. destruct v; simpl; auto. Qed.

Lemma h_getitem_frame v k : val_in a n v -> h_getitem h' v k = h_getitem h v k.
Proof. intros Hv. unfold h_getitem. by rewrite deref_frame. Qed.

Lemma h_getitem_in v k x : val_in a n v -> h_getitem h v k = Ok x -> val_in a n x.
Proof.
  intros Hv. unfold h_getitem. destruct v as [| | | | |l]; simpl; try done.
  destruct (h !! l) as [[d|]|] eqn:E; try done.
  destruct (dict_lookup d k) as [y|] eqn:E'; [|done]. intros [= <-].
  pose proof (Hc l _ Hv E) as Hch. simpl in Hch. rewrite Forall_forall in Hch.
  apply Hch. apply dict_lookup_Some in E'. apply list_elem_of_fmap. by exists (k, y).
Qed.

Lemma read_entry_frame data : val_in a n data -> read_entry h' data = read_entry h data.
Proof.
  intros Hd. unfold read_entry. rewrite !h_getitem_frame by done.
  destruct (h_getitem h data "count"); [|done].
  destruct (h_getitem h data "items") as [its|] eqn:Eits; [|done].
  rewrite deref_frame; [done|]. by eapply h_getitem_in.
Qed.

Lemma read_results_frame results :
  val_in a n results -> read_results h' results = read_results h results.
Proof.
  intros Hr. unfold read_results. rewrite deref_frame by done.
  destruct results as [| | | | |l]; simpl; try done.
  destruct (h !! l) as [[d|]|] eqn:E; try done.
  apply Forall_mapM_ext. pose proof (Hc l _ Hr E) as Hch. simpl in Hch.
  rewrite Forall_fmap in Hch. eapply Forall_impl; [done|].
  intros [k v] Hv. simpl in *. by rewrite read_entry_frame.
Qed.

Lemma read_record_frame data :
  val_in a n data -> read_record h' data = read_record h data.
Proof.
  intros Hd. unfold read_record. rewrite !h_getitem_frame by done.
  destruct (h_getitem h data "pdf_path"); [|done].
  destruct (h_getitem h data "extraction_results") as [results|] eqn:E; [|done].
  destruct (h_getitem h data "total_pages"); [|done].
  destruct (h_getitem h data "raw_text_preview"); [|done].
  rewrite read_results_frame; [done|]. by eapply h_getitem_in.
Qed.

End Frame.

Lemma heap_ok_closed_in h : heap_ok h -> closed_in 0 (length h) h.
Proof.
  intros Hok l o [_ Hl] Hlo. specialize (Hok l o Hl Hlo).
  destruct o as [d|xs]; simpl in *; [destruct Hok as [_ Hok]|];
    (eapply Forall_impl; [done|]); intros [] ?; simpl in *; try done; lia.
Qed.

Lemma val_ok_in n v : val_ok n v -> val_in 0 n v.
Proof. destruct v; simpl; try done. lia. Qed.

(** ** Filtering *)

Lemma dict_set_fresh {V} (d : list (string * V)) k v :
  k ∉ d.*1 -> dict_set d k v = d ++ [(k, v)].
Proof.
  induction d as [|[k0 v0] d IH]; csimpl; [done|].
  rewrite not_elem_of_cons. intros [Hne Hk].
  rewrite bool_decide_eq_false_2 by done. by rewrite IH.
Qed.

Lemma foldl_keep_filter {V} (keep : string * V -> bool) entries acc :
  NoDup (acc.*1 ++ entries.*1) ->
  foldl (fun acc cd => if keep cd then dict_set acc cd.1 cd.2 else acc) acc entries
  = acc ++ filter keep entries.
Proof.
  revert acc. induction entries as [|[k v] entries IH]; intros acc; csimpl.
  - intros _. by rewrite filter_nil, app_nil_r.
  - intros Hnd. destruct (keep (k, v)) eqn:Ek.
    + rewrite filter_cons_True by by rewrite Ek.
      apply NoDup_app in Hnd as (Hacc & Hdis & [Hk He]%NoDup_cons).
      rewrite dict_set_fresh; simpl.
      2: { intros Hin. apply (Hdis _ Hin). apply elem_of_cons; auto. }
      rewrite IH, <- app_assoc; [done|].
      rewrite fmap_app. simpl. rewrite <- app_assoc. simpl.
      apply NoDup_app. split_and!; [done| |by apply NoDup_cons].
      intros x Hx. apply Hdis in Hx. done.
    + rewrite filter_cons_False by (rewrite Ek; simpl; tauto).
      apply IH. apply NoDup_app in Hnd as (Hacc & Hdis & [Hk He]%NoDup_cons).
      apply NoDup_app. split_and!; [done| |done].
      intros x Hx Hin. apply (Hdis _ Hx). apply elem_of_cons; auto.
Qed.

Lemma h_getitem_insert_ne h f o v k :
  v <> VRef f -> h_getitem (<[f := o]> h) v k = h_getitem h v k.
Proof.
  intros Hv. unfold h_getitem. destruct v; simpl; try done.
  rewrite list_lookup_insert_ne; [done|]. congruence.
Qed.

Lemma filter_loop category min_count f hb entries :
  forall s acc,
    heap s = <[f := ODict acc]> hb -> f < length hb ->
    Forall (fun cd => cd.2 <> VRef f
                      /\ exists n, h_getitem hb cd.2 "count" = Ok (VInt n)) entries ->
    for_each entries
      (fun cd =>
         if match category with
            | Some name => negb (bool_decide (name = "")) && negb (bool_decide (cd.1 = name))
            | None => false
            end
         then ret tt
         else
           count ← getitem cd.2 "count";
           enough ← py_ge count min_count;
           if enough then setitem (VRef f) cd.1 cd.2 else ret tt) s
    = (Ok tt,
       with_heap s
         (<[f := ODict (foldl (fun acc cd =>
                                 if keeps hb category min_count cd
                                 then dict_set acc cd.1 cd.2 else acc) acc entries)]> hb)).
Proof.
  induction entries as [|[k data] entries IH]; intros s acc Hs Hf Hall.
  - simpl. rewrite <- Hs. by rewrite with_heap_id.
  - apply Forall_cons in Hall as [(Hdata & n & Hn) Hall]. simpl in Hdata, Hn.
    cbn [for_each foldl]. rewrite bind_run. cbn [fst snd].
    unfold keeps at 2. cbn [fst snd]. rewrite Hn.
    assert (match category with
            | Some name => negb (bool_decide (name = "")) && negb (bool_decide (k = name))
            | None => false
            end = negb (selected category k)) as ->.
    { unfold selected. destruct category; [|done]. by rewrite negb_orb. }
    destruct (selected category k); simpl.
    + autorewrite with run. rewrite Hs, h_getitem_insert_ne, Hn by done. simpl.
      autorewrite with run. destruct (min_count <=? n)%Z.
      * rewrite (setitem_run _ acc).
        2: { rewrite Hs. by apply list_lookup_insert_eq. }
        rewrite (IH _ (dict_set acc k data)); [done| |done|done].
        rewrite heap_with_heap, Hs. by rewrite list_insert_insert_eq.
      * autorewrite with run. by apply IH.
    + autorewrite with run. by apply IH.
Qed.

Lemma Forall2_strengthen_l {X Y} (Q : X -> Prop) (P : X -> Y -> Prop) l k :
  Forall Q l -> Forall2 P l k -> Forall2 (fun x y => Q x /\ P x y) l k.
Proof.
  intros HQ HP. induction HP; [constructor|].
  apply Forall_cons in HQ as [? ?]. constructor; auto.
Qed.

Lemma read_results_inv h results view :
  read_results h results = Some view ->
  exists d,
    deref h results = Some (ODict d)
    /\ Forall2 (fun kv e => (fun x => (kv.1, x)) <$> read_entry h kv.2 = Some e) d view.
Proof.
  unfold read_results. destruct (deref h results) as [[d|]|]; try done.
  intros Hm%mapM_Some. eauto.
Qed.



(** ** Export *)

Lemma export_to_csv_raises output_path s :
  h_truthy (heap s) (extracted_data s) = true ->
  (export_to_csv B output_path s).1 <> Raise ValueError.
Proof.
  intros Ht. unfold export_to_csv. autorewrite with run. rewrite Ht. simpl.
  match goal with |- (?m s).1 <> _ => assert (raises_only (fun e => e <> ValueError) m) as Hm end.
  { repeat raises_step; done. }
  destruct (bind _ _ s) as [[a|e] s'] eqn:E; [done|]. simpl. intros [= ->].
  by eapply Hm.
Qed.

Lemma export_to_json_raises output_path s :
  h_truthy (heap s) (extracted_data s) = true ->
  (export_to_json B output_path s).1 <> Raise ValueError.
Proof.
  intros Ht. unfold export_to_json. autorewrite with run. rewrite Ht. simpl.
  destruct (open_write B output_path); simpl; [|done].
  by autorewrite with run.
Qed.

End Orchestrator.

Lemma scanner_wf : wf World.scanner.
Proof. apply wf_check; compute_done. Qed.

(** C3, as the specification states it, fails: with a valve pattern that
    does not compile, the scan of an existing document raises [re.error]. *)
Lemma scan_fails_on_pattern :
  os_path_exists World.pid_world "pid.pdf" = true
  /\ (scan_pdf World.pid_world "pid.pdf" (World.scanner_with World.unbalanced_json)).1
     = Raise ReError.
Proof. split; reflexivity. Qed.

(** ** Changing the configuration after a scan *)

Section Kept.

Context (a n : nat) (s1 : state).

Lemma keeps_record_ret {A} (x : A) (Q : A -> Prop) : Q x -> keeps_record a n s1 (ret x) Q.
Proof. intros HQ s Hs. split; [done|]. by intros ? [= <-]. Qed.

Lemma keeps_record_raise {A} e (Q : A -> Prop) : keeps_record a n s1 (raise e) Q.
Proof. intros s Hs. by split. Qed.

Lemma keeps_record_bind {A C} (m : M A) (k : A -> M C) Q1 Q :
  keeps_record a n s1 m Q1 ->
  (forall x, Q1 x -> keeps_record a n s1 (k x) Q) ->
  keeps_record a n s1 (bind m k) Q.
Proof.
  intros Hm Hk s Hs. rewrite bind_run. destruct (Hm s Hs) as [Hs' HQ].
  destruct (m s) as [[x|e] s']; simpl in *; [|by split].
  by apply Hk; [apply HQ|].
Qed.

Lemma keeps_record_weaken {A} (m : M A) (Q Q' : A -> Prop) :
  keeps_record a n s1 m Q -> (forall x, Q x -> Q' x) -> keeps_record a n s1 m Q'.
Proof. intros Hm HQ s Hs. destruct (Hm s Hs). split; auto. Qed.

Lemma keeps_record_for_each {A} (xs : list A) body (P : A -> Prop) :
  Forall P xs ->
  (forall x, P x -> keeps_record a n s1 (body x) (fun _ => True)) ->
  keeps_record a n s1 (for_each xs body) (fun _ => True).
Proof.
  intros Hxs Hb. induction Hxs as [|x xs Hx Hxs IH]; simpl.
  - by apply keeps_record_ret.
  - eapply keeps_record_bind; [by apply Hb|]. by intros _ _.
Qed.

Lemma keeps_record_lift {A} (f : list obj -> outcome A) (Q : A -> Prop) :
  (forall h x, sealed a n h -> f h = Ok x -> Q x) ->
  keeps_record a n s1 (lift f) Q.
Proof.
  intros Hf s Hs. unfold lift. simpl. split; [done|]. intros x Hx.
  destruct Hs as (_ & _ & Hsealed & _). eauto.
Qed.

Lemma sealed_child h v o x :
  sealed a n h -> val_out a n v -> deref h v = Some o -> x ∈ children o -> val_out a n x.
Proof.
  intros Hs Hv Hd Hx. destruct v as [| | | | |l]; simpl in *; try done.
  pose proof (Hs l o Hv Hd) as Hch. rewrite Forall_forall in Hch. auto.
Qed.

Lemma keeps_record_getitem v k :
  val_out a n v -> keeps_record a n s1 (getitem v k) (val_out a n).
Proof.
  intros Hv. apply keeps_record_lift. intros h x Hs. unfold h_getitem.
  destruct (deref h v) as [[d|]|] eqn:E; try done.
  destruct (dict_lookup d k) as [y|] eqn:E'; [|done]. intros [= <-].
  eapply sealed_child; eauto. simpl. apply dict_lookup_Some in E'.
  apply list_elem_of_fmap. by exists (k, y).
Qed.

Lemma keeps_record_subscript ks :
  forall v, val_out a n v -> keeps_record a n s1 (subscript v ks) (val_out a n).
Proof.
  intros v Hv. apply keeps_record_lift. intros h x Hs. revert v Hv.
  induction ks as [|k ks IH]; intros v Hv.
  - by intros [= <-].
  - unfold h_subscript; fold h_subscript.
    destruct (h_getitem h v k) as [y|] eqn:E; [|done]. apply IH.
    unfold h_getitem in E. destruct (deref h v) as [[d|]|] eqn:E1; try done.
    destruct (dict_lookup d k) as [z|] eqn:E'; [|done]. simplify_eq.
    eapply sealed_child; eauto. simpl. apply dict_lookup_Some in E'.
    apply list_elem_of_fmap. by exists (k, y).
Qed.

Lemma keeps_record_contains v k : keeps_record a n s1 (contains v k) (fun _ => True).
Proof. by apply keeps_record_lift. Qed.

Lemma keeps_record_self_config : keeps_record a n s1 self_config (val_out a n).
Proof.
  intros s Hs. split; [done|]. intros x [= <-]. by destruct Hs as (_ & _ & _ & ? & _).
Qed.

Lemma keeps_record_alloc o :
  Forall (val_out a n) (children o) -> keeps_record a n s1 (alloc o) (val_out a n).
Proof.
  intros Ho s (Hag & Hn & Hsealed & Hcfg & Hdata). rewrite alloc_run. simpl. split.
  - split_and!; simpl; try done.
    + intros l Hl. rewrite lookup_app_l by lia. by apply Hag.
    + rewrite length_app. lia.
    + intros l o' Hl Hlo. destruct (decide (l < length (heap s))) as [Hlt|Hge].
      * rewrite lookup_app_l in Hlo by done. eauto.
      * rewrite lookup_app_r in Hlo by lia.
        destruct (l - length (heap s)) as [|i]; simpl in Hlo; by simplify_eq.
  - intros x [= <-]. simpl. lia.
Qed.

Lemma record_kept_insert s l o :
  record_kept a n s1 s -> l < a \/ n <= l -> Forall (val_out a n) (children o) ->
  record_kept a n s1 (with_heap s (<[l := o]> (heap s))).
Proof.
  intros (Hag & Hn & Hsealed & Hcfg & Hdata) Hl Ho. split_and!; simpl; try done.
  - intros l' Hl'. rewrite list_lookup_insert_ne by lia. by apply Hag.
  - by rewrite length_insert.
  - intros l' o' Hl' Hlo. destruct (decide (l = l')) as [->|Hne].
    + apply list_lookup_insert_Some in Hlo as [(_ & <- & _)|[? _]]; done.
    + rewrite list_lookup_insert_ne in Hlo by done. eauto.
Qed.

Lemma keeps_record_setitem v k x :
  val_out a n v -> val_out a n x ->
  keeps_record a n s1 (setitem v k x) (fun _ => True).
Proof.
  intros Hv Hx s Hs. split; [|done]. unfold setitem.
  destruct v as [| | | | |l]; try done.
  destruct (heap s !! l) as [[d|]|] eqn:E; try done. simpl.
  apply (record_kept_insert s l); [done|done|]. simpl.
  apply Forall_forall. intros y [->|Hy]%dict_set_values; [done|].
  destruct Hs as (_ & _ & Hsealed & _).
  pose proof (Hsealed l _ Hv E) as Hch. simpl in Hch. rewrite Forall_forall in Hch. auto.
Qed.

Lemma keeps_record_append v x :
  val_out a n v -> val_out a n x ->
  keeps_record a n s1 (append v x) (fun _ => True).
Proof.
  intros Hv Hx s Hs. split; [|done]. unfold append.
  destruct v as [| | | | |l]; try done.
  destruct (heap s !! l) as [[|xs]|] eqn:E; try done. simpl.
  apply (record_kept_insert s l); [done|done|]. simpl.
  apply Forall_app. split; [|by repeat constructor].
  destruct Hs as (_ & _ & Hsealed & _). apply (Hsealed l _ Hv E).
Qed.

Lemma keeps_record_iter v :
  val_out a n v -> keeps_record a n s1 (iter v) (Forall (val_out a n)).
Proof.
  intros Hv. apply keeps_record_lift. intros h xs Hs. unfold h_iter.
  destruct v as [| | |s|ss|l]; try done.
  - intros [= <-]. unfold chars. by apply Forall_fmap, Forall_true.
  - intros [= <-]. by apply Forall_fmap, Forall_true.
  - destruct (h !! l) as [[d|ys]|] eqn:E; try done; intros [= <-].
    + by apply Forall_fmap, Forall_true.
    + exact (Hs l _ Hv E).
Qed.

Lemma keeps_record_update_pair v item :
  val_out a n v -> val_out a n item ->
  keeps_record a n s1 (update_pair v item) (fun _ => True).
Proof.
  intros Hv Hi. unfold update_pair.
  eapply keeps_record_bind; [by apply keeps_record_iter|]. intros kv Hkv.
  destruct kv as [|k [|x [|y kv]]]; try apply keeps_record_raise.
  - destruct k; apply keeps_record_raise.
  - apply Forall_cons in Hkv as [_ [Hx _]%Forall_cons].
    destruct k; try apply keeps_record_raise. by apply keeps_record_setitem.
  - destruct k; apply keeps_record_raise.
Qed.

Lemma keeps_record_dict_update v new :
  val_out a n v -> val_out a n new ->
  keeps_record a n s1 (dict_update v new) (fun _ => True).
Proof.
  intros Hv Hnew. unfold dict_update.
  eapply keeps_record_bind;
    [apply (keeps_record_lift _ (fun _ => True)); by intros|]. intros _ _.
  eapply keeps_record_bind.
  - apply (keeps_record_lift _
             (fun d => from_option (Forall (fun kv => val_out a n kv.2)) True d)).
    intros h d Hs. destruct (deref h new) as [[d'|]|] eqn:E; intros [= <-]; try done.
    apply Forall_forall. intros [k x] Hin. simpl. eapply sealed_child; eauto.
    simpl. apply list_elem_of_fmap. by exists (k, x).
  - intros [d|] Hd; simpl in Hd.
    + eapply keeps_record_for_each; [exact Hd|].
      intros [k x] Hx. by apply keeps_record_setitem.
    + eapply keeps_record_bind; [by apply keeps_record_iter|]. intros pairs Hp.
      eapply keeps_record_for_each; [exact Hp|].
      intros item Hi. by apply keeps_record_update_pair.
Qed.

Lemma keeps_record_update_config new_config :
  val_out a n new_config ->
  keeps_record a n s1 (update_config new_config) (fun _ => True).
Proof.
  intros Hnew. unfold update_config.
  eapply keeps_record_bind; [apply keeps_record_self_config|].
  intros cfg Hcfg. by apply keeps_record_dict_update.
Qed.

Lemma keeps_record_add_custom_pattern category pattern :
  keeps_record a n s1 (add_custom_pattern category pattern) (fun _ => True).
Proof.
  unfold add_custom_pattern.
  eapply keeps_record_bind; [apply keeps_record_self_config|]. intros cfg Hcfg.
  eapply keeps_record_bind; [by apply keeps_record_getitem|]. intros es Hes.
  eapply keeps_record_bind; [apply keeps_record_contains|]. intros present _.
  eapply keeps_record_bind.
  - instantiate (1 := fun _ => True). destruct (negb present); [|by apply keeps_record_ret].
    eapply keeps_record_bind; [by apply keeps_record_alloc|]. intros patterns Hp.
    eapply keeps_record_bind; [apply keeps_record_alloc; by repeat constructor|].
    intros entry He.
    eapply keeps_record_bind; [apply keeps_record_self_config|]. intros cfg' Hcfg'.
    eapply keeps_record_bind; [by apply keeps_record_getitem|]. intros es' Hes'.
    by apply keeps_record_setitem.
  - intros _ _.
    eapply keeps_record_bind; [apply keeps_record_self_config|]. intros cfg' Hcfg'.
    eapply keeps_record_bind; [by apply keeps_record_subscript|]. intros patterns Hp.
    by apply keeps_record_append.
Qed.

Lemma literal_induction (P : literal -> Prop) :
  (forall v, P (LVal v)) ->
  (forall kvs, Forall (fun kv => P kv.2) kvs -> P (LDict kvs)) ->
  (forall xs, Forall P xs -> P (LList xs)) ->
  forall x, P x.
Proof.
  intros HV HD HL. fix IH 1. intros [v|kvs|xs].
  - apply HV.
  - apply HD. induction kvs as [|[k e] kvs IHk]; constructor; [apply IH|apply IHk].
  - apply HL. induction xs as [|e xs IHx]; constructor; [apply IH|apply IHx].
Qed.

Lemma keeps_record_build x :
  Forall (val_out a n) (leaves x) -> keeps_record a n s1 (build x) (val_out a n).
Proof.
  induction x as [v|kvs IH|xs IH] using literal_induction; intros Hl.
  - simpl in *. apply keeps_record_ret. by apply Forall_inv in Hl.
  - cbn [build]. eapply keeps_record_bind.
    + instantiate (1 := fun d => Forall (val_out a n) d.*2).
      assert (Forall (val_out a n) (@nil (string * val)).*2) as Hd by constructor.
      revert Hd. generalize (@nil (string * val)).
      induction kvs as [|[k e] kvs IHk]; intros d Hd.
      * by apply keeps_record_ret.
      * apply Forall_cons in IH as [He IH]. cbn [leaves] in Hl.
        apply Forall_app in Hl as [Hle Hl].
        eapply keeps_record_bind; [by apply He|]. intros v Hv.
        apply IHk; [done|done|]. apply Forall_forall.
        intros y [->|Hy]%dict_set_values; [done|]. rewrite Forall_forall in Hd. auto.
    + intros d Hd. by apply keeps_record_alloc.
  - cbn [build]. eapply keeps_record_bind.
    + instantiate (1 := fun l => Forall (val_out a n) l).
      assert (Forall (val_out a n) (@nil val)) as Hd by constructor.
      revert Hd. generalize (@nil val) at 1 3.
      induction xs as [|e xs IHx]; intros l Hd.
      * by apply keeps_record_ret.
      * apply Forall_cons in IH as [He IH]. cbn [leaves] in Hl.
        apply Forall_app in Hl as [Hle Hl].
        eapply keeps_record_bind; [by apply He|]. intros v Hv.
        apply IHx; [done|done|]. apply Forall_app. split; [done|by repeat constructor].
    + intros l Hd. by apply keeps_record_alloc.
Qed.

Lemma keeps_record_run_call c :
  foreign a n c -> keeps_record a n s1 (run_call c) (fun _ => True).
Proof.
  destruct c as [x|category pattern]; simpl; intros Hc.
  - eapply keeps_record_bind; [by apply keeps_record_build|].
    intros new Hnew. by apply keeps_record_update_config.
  - apply keeps_record_add_custom_pattern.
Qed.

Lemma record_kept_run_calls cs s :
  Forall (foreign a n) cs -> record_kept a n s1 s -> record_kept a n s1 (run_calls cs s).
Proof.
  intros Hcs. revert s. induction Hcs as [|c cs Hc Hcs IH]; intros s Hs; simpl; [done|].
  apply IH. by apply (keeps_record_run_call c Hc s).
Qed.

End Kept.

Section AfterScan.

Context (B : backend).

(** Right after a scan, the objects it made are sealed off from the rest
    of the store. *)
Lemma record_kept_after_scan pdf_path s0 r s1 :
  wf s0 -> scan_pdf B pdf_path s0 = (Ok r, s1) ->
  record_kept (length (heap s0)) (length (heap s1)) s1 s1.
Proof.
  intros Hwf Hscan.
  destruct (scan_pdf_ok B pdf_path s0 r s1 Hwf Hscan)
    as (results & _ & _ & _ & _ & _ & Hcfg & Hag & Hlen & _ & _).
  destruct Hwf as (Hok & Hc & _).
  split_and!; try done.
  - intros l o [Hl|Hl] Hlo.
    + rewrite Hag in Hlo by done. specialize (Hok l o Hl Hlo).
      destruct o as [d|xs]; simpl in *; [destruct Hok as [_ Hok]|];
        (eapply Forall_impl; [done|]); intros [] ?; simpl in *; try done; lia.
    + apply lookup_lt_Some in Hlo. lia.
  - rewrite Hcfg. destruct (config s0); simpl in *; try done. lia.
Qed.

(** C8.  After a scan, a sequence of [update_config] and
    [add_custom_pattern] calls, returning or raising, in which the caller
    hands [update_config] none of the objects the scan made (the record,
    its results, an entry, a list of items), leaves [extracted_data]
    referring to the scan's record and leaves every object the scan made as
    it was, so the record reads the same: its extraction results, page
    count and preview.  The argument of [update_config] is a dictionary or
    a sequence of pairs; keys are strings (see [NotEmbedded]). *)
Theorem config_calls_keep_record (pdf_path : string) (s0 s1 : state) (r : val)
    (cs : list config_call) :
  wf s0 -> scan_pdf B pdf_path s0 = (Ok r, s1) ->
  Forall (foreign (length (heap s0)) (length (heap s1))) cs ->
  embedded cs s1 ->
  extracted_data (run_calls cs s1) = r
  /\ is_Some (read_record (heap s1) r)
  /\ read_record (heap (run_calls cs s1)) r = read_record (heap s1) r
  /\ agree_in (length (heap s0)) (length (heap s1)) (heap s1) (heap (run_calls cs s1)).
Proof.
  intros Hwf Hscan Hcs _.
  pose proof (record_kept_after_scan pdf_path s0 r s1 Hwf Hscan) as Hkept.
  apply (record_kept_run_calls _ _ _ cs s1 Hcs) in Hkept.
  destruct Hkept as (Hag & _ & _ & _ & Hdata).
  destruct (scan_pdf_ok B pdf_path s0 r s1 Hwf Hscan)
    as (results & _ & _ & Hd & Hrec & Hwf1 & _ & _ & _ & (l & -> & Hl) & Hclosed).
  split_and!; [congruence|by rewrite Hrec| |done].
  apply (read_record_frame _ _ _ _ Hag Hclosed). simpl. split; [done|].
  destruct Hwf1 as (_ & _ & Hr). by rewrite Hd in Hr.
Qed.

End AfterScan.

(** ** More about acquisition, the orchestrator and the configuration *)

Section More.

Context (B : backend).


Lemma config_flag_run ks s :
  config_flag ks s
  = (match h_subscript (heap s) (config s) ks with
     | Ok v => Ok (h_truthy (heap s) v)
     | Raise e => Raise e
     end, s).
Proof.
  unfold config_flag, config_at. autorewrite with run.
  by destruct (h_subscript (heap s) (config s) ks).
Qed.

Lemma config_at_run ks s : config_at ks s = (h_subscript (heap s) (config s) ks, s).
Proof. unfold config_at. by autorewrite with run. Qed.

Lemma lib_run {A} (r : option A) s :
  lib r s = (match r with Some a => Ok a | None => Raise LibraryError end, s).
Proof. by destruct r. Qed.

Lemma preprocess_image_state image s : (preprocess_image B image s).2 = s.
Proof.
  unfold preprocess_image. rewrite !bind_run, config_flag_run.
  repeat (case_match; simplify_eq/=; rewrite ?bind_run, ?config_flag_run, ?lib_run, ?ret_run, ?raise_run in *; try done).
Qed.


Lemma preprocess_image_run image s d e sh :
  preprocessing_flag s "denoise" = Ok d ->
  preprocessing_flag s "enhance_contrast" = Ok e ->
  preprocessing_flag s "sharpen" = Ok sh ->
  exists o,
    preprocess_image B image s = (o, s)
    /\ forall img, o = Ok img <-> preprocessed B d e sh image = Some img.
Proof.
  unfold preprocessing_flag. intros Hd He Hsh.
  unfold preprocess_image, preprocessed, enhanced.
  rewrite !bind_run, config_flag_run.
  destruct (h_subscript _ _ ["ocr_settings"; "preprocessing"; "denoise"]) as [vd|]; [|done].
  destruct (h_subscript _ _ ["ocr_settings"; "preprocessing"; "enhance_contrast"])
    as [ve|] eqn:Ee; [|done].
  destruct (h_subscript _ _ ["ocr_settings"; "preprocessing"; "sharpen"])
    as [vs|] eqn:Es; [|done].
  simplify_eq.
  repeat (case_match; simplify_eq/=;
          rewrite ?bind_run, ?config_flag_run, ?lib_run, ?ret_run, ?raise_run, ?Ee, ?Es in *;
          simplify_eq/=; try done);
    try (eexists; split; [reflexivity|]; intros img; split; intros; simplify_eq/=; done).
Qed.

Lemma recognize_calls image s :
  (exists e, recognize B image s = (Raise e, s))
  \/ exists o, recognize B image s = (o, logged s [ImageToString (ocr_config s)])
               /\ is_ok (h_subscript (heap s) (config s) ["ocr_settings"; "tesseract_config"]).
Proof.
  unfold recognize. rewrite bind_run.
  set (m := if (_ =? 3)%nat then _ else _).
  assert (Hm : exists o, m s = (o, s)).
  { unfold m. destruct (_ =? 3)%nat; [|by eexists].
    exists (preprocess_image B (np_array B image) s).1.
    rewrite <- (preprocess_image_state (np_array B image) s) at 3.
    by destruct (preprocess_image B (np_array B image) s). }
  destruct Hm as [[img|e] ->]; [|left; by eexists].
  rewrite bind_run, config_at_run. unfold ocr_config.
  destruct (h_subscript (heap s) (config s) ["ocr_settings"; "tesseract_config"])
    as [tc|e]; [|left; by eexists].
  right. rewrite bind_run. unfold log at 1. rewrite lib_run. by eexists.
Qed.

Lemma ocr_loop_calls images :
  forall text_content s cs,
    exists texts k,
      k <= length images
      /\ for_try images text_content (ocr_page B) (logged s cs)
         = (Ok texts, logged s (cs ++ replicate k (ImageToString (ocr_config s)))).
Proof.
  induction images as [|image images IH]; intros acc s cs; simpl.
  - exists acc, 0. by rewrite app_nil_r.
  - unfold ocr_page at 1. rewrite bind_run.
    destruct (recognize_calls image (logged s cs)) as [[e ->]|(o & -> & _)].
    + exists acc, 0. rewrite app_nil_r. split; [lia|done].
    + rewrite logged_logged. change (ocr_config (logged s cs)) with (ocr_config s).
      destruct o as [text|e].
      * assert (Hnext : forall acc', exists texts k,
                  k <= S (length images)
                  /\ for_try images acc' (ocr_page B) (logged s (cs ++ [ImageToString (ocr_config s)]))
                     = (Ok texts, logged s (cs ++ replicate k (ImageToString (ocr_config s))))).
        { intros acc'.
          destruct (IH acc' s (cs ++ [ImageToString (ocr_config s)])) as (texts & k & Hk & ->).
          exists texts, (S k). split; [lia|]. simpl. by rewrite <- app_assoc. }
        destruct (bool_decide (strip text = "")); rewrite ret_run; apply Hnext.
      * exists acc, 1. split; [lia|done].
Qed.

(** X1.  Text acquisition never raises and never changes the scanner,
    whatever the libraries do: it returns a list of page texts, and all it
    leaves behind are the library calls.  The document is opened with
    pdfplumber exactly once; after that either nothing is called, or the
    rasterizer is called once, with the configured dpi, followed only by
    OCR calls, all with the configured [tesseract_config] and at most one
    per page image. *)
Theorem acquisition_never_raises (pdf_path : string) (s : state) :
  exists text_content cs,
    extract_text_from_pdf B pdf_path s
    = (Ok text_content, logged s (PdfplumberOpen pdf_path :: cs))
    /\ (cs = []
        \/ exists dpi k,
             h_subscript (heap s) (config s) ["ocr_settings"; "dpi"] = Ok dpi
             /\ k <= length (default [] (convert_from_path B pdf_path dpi))
             /\ cs = ConvertFromPath pdf_path dpi :: replicate k (ImageToString (ocr_config s))).
Proof.
  assert (Hocr : exists texts cs,
             ocr_fallback B pdf_path [] (logged s [PdfplumberOpen pdf_path])
             = (Ok texts, logged s (PdfplumberOpen pdf_path :: cs))
             /\ (cs = []
                 \/ exists dpi k,
                      h_subscript (heap s) (config s) ["ocr_settings"; "dpi"] = Ok dpi
                      /\ k <= length (default [] (convert_from_path B pdf_path dpi))
                      /\ cs = ConvertFromPath pdf_path dpi
                              :: replicate k (ImageToString (ocr_config s)))).
  { unfold ocr_fallback, try_except. rewrite bind_run, config_at_run.
    cbn [heap config logged].
    destruct (h_subscript (heap s) (config s) ["ocr_settings"; "dpi"]) as [dpi|e] eqn:E.
    2: { exists [], []. split; [done|by left]. }
    rewrite bind_run. unfold log at 1. cbn [heap config logged extracted_data calls].
    rewrite bind_run, lib_run.
    destruct (convert_from_path B pdf_path dpi) as [images|] eqn:Ec.
    - destruct (ocr_loop_calls images [] s [PdfplumberOpen pdf_path; ConvertFromPath pdf_path dpi])
        as (texts & k & Hk & Hrun).
      unfold logged in Hrun at 1. simpl in Hrun. unfold logged at 1. simpl.
      rewrite <- app_assoc. simpl. rewrite Hrun.
      exists texts, (ConvertFromPath pdf_path dpi :: replicate k (ImageToString (ocr_config s))).
      split; [done|]. right. exists dpi, k. split_and!; [done|by rewrite Ec|done].
    - exists [], [ConvertFromPath pdf_path dpi]. split.
      + unfold logged; simpl. by rewrite <- app_assoc.
      + right. exists dpi, 0. split_and!; [done|lia|done]. }
  unfold extract_text_from_pdf. rewrite bind_run, text_layer_run.
  destruct (layer_texts B pdf_path) as [|t ts]; [done|].
  destruct (50 <? _)%nat; [|done].
  exists (t :: ts), []. split; [done|by left].
Qed.

Lemma recognize_at_logged image s cs :
  exists k,
    k <= 1
    /\ recognize B image (logged s cs)
       = ((recognize B image s).1, logged s (cs ++ replicate k (ImageToString (ocr_config s)))).
Proof.
  destruct (recognize_logged B image s cs) as [cs' H].
  destruct (recognize_calls image (logged s cs)) as [[e He]|(o & Ho & _)].
  - exists 0. split; [lia|]. rewrite app_nil_r. rewrite He in H. rewrite He.
    by injection H as -> _.
  - exists 1. split; [lia|]. rewrite Ho in H. rewrite Ho, logged_logged.
    by injection H as -> _.
Qed.

Lemma ocr_loop_failure image after e s :
  (recognize B image s).1 = Raise e ->
  forall before texts,
    Forall2 (fun im text => (recognize B im s).1 = Ok text) before texts ->
    forall text_content cs,
      exists k,
        k <= S (length before)
        /\ for_try (before ++ image :: after) text_content (ocr_page B) (logged s cs)
           = (Ok (text_content ++ filter nonblank texts),
              logged s (cs ++ replicate k (ImageToString (ocr_config s)))).
Proof.
  intros He before texts Hall.
  induction Hall as [|im text before texts Him Hall IH]; intros acc cs; simpl.
  - unfold ocr_page at 1. rewrite bind_run.
    destruct (recognize_at_logged image s cs) as (k & Hk & ->). rewrite He.
    exists k. split; [lia|]. by rewrite app_nil_r.
  - unfold ocr_page at 1. rewrite bind_run.
    destruct (recognize_at_logged im s cs) as (k & Hk & ->). rewrite Him.
    destruct (bool_decide (strip text = "")) eqn:E; rewrite ret_run.
    + destruct (IH acc (cs ++ replicate k (ImageToString (ocr_config s)))) as (k' & Hk' & ->).
      exists (k + k'). split; [lia|].
      rewrite filter_cons_False by (unfold nonblank; rewrite E; simpl; tauto).
      by rewrite replicate_add, app_assoc.
    + destruct (IH (acc ++ [text]) (cs ++ replicate k (ImageToString (ocr_config s))))
        as (k' & Hk' & ->).
      exists (k + k'). split; [lia|].
      rewrite filter_cons_True by (unfold nonblank; by rewrite E).
      by rewrite replicate_add, <- !app_assoc.
Qed.

Lemma filter_is_ocr_call_replicate k tc :
  length (filter (fun c => is_ocr_call c = true) (replicate k (ImageToString tc))) = k.
Proof.
  induction k as [|k IH]; simpl; [done|]. by rewrite IH.
Qed.

(** X3.  When processing a page image raises in the OCR loop, the loop
    ends there: the fallback returns the recognized texts of the pages
    before it that are not blank, and no later page is handed to the OCR
    engine. *)
Theorem ocr_failure_ends_fallback (pdf_path : string) (s : state) (dpi : val)
    (before after : list (pil_image B)) (image : pil_image B)
    (texts : list string) (e : exn) :
  h_subscript (heap s) (config s) ["ocr_settings"; "dpi"] = Ok dpi ->
  convert_from_path B pdf_path dpi = Some (before ++ image :: after) ->
  Forall2 (fun im text => (recognize B im s).1 = Ok text) before texts ->
  (recognize B image s).1 = Raise e ->
  exists cs,
    ocr_fallback B pdf_path [] s = (Ok (filter nonblank texts), logged s cs)
    /\ length (filter (fun c => is_ocr_call c = true) cs) <= S (length before).
Proof.
  intros Hdpi Hconv Hbefore He.
  unfold ocr_fallback, try_except. rewrite bind_run, config_at_run, Hdpi.
  rewrite bind_run. unfold log at 1. rewrite bind_run, lib_run, Hconv.
  destruct (ocr_loop_failure image after e s He before texts Hbefore []
              [ConvertFromPath pdf_path dpi]) as (k & Hk & Hrun).
  unfold logged in Hrun at 1. rewrite Hrun. simpl.
  eexists. split; [reflexivity|].
  rewrite filter_cons_False by (simpl; congruence).
  by rewrite filter_is_ocr_call_replicate.
Qed.

Lemma plumber_texts_failure pg after :
  page_extract_text B pg = None ->
  forall before texts,
    Forall2 (fun p text => page_extract_text B p = Some text) before texts ->
    forall text_content,
      plumber_texts B (before ++ pg :: after) text_content
      = text_content ++ omap nonempty texts.
Proof.
  intros Hpg before texts Hall.
  induction Hall as [|p text before texts Hp Hall IH]; intros acc; simpl.
  - by rewrite Hpg, app_nil_r.
  - rewrite Hp. destruct text as [[|c t]|]; simpl; rewrite IH; try done.
    by rewrite <- app_assoc.
Qed.

(** X2.  When pdfplumber raises on a page, the loop over the pages ends
    there, but the texts of the pages read before it stay in
    [text_content]: they are what the threshold test judges, and what is
    returned if they pass it; the pages after the failing one are never
    read. *)
Theorem text_layer_failure_keeps_pages (pdf_path : string) (s : state)
    (before after : list (page B)) (pg : page B) (texts : list (option string)) :
  pdfplumber_open B pdf_path = Some (before ++ pg :: after) ->
  Forall2 (fun p text => page_extract_text B p = Some text) before texts ->
  page_extract_text B pg = None ->
  extract_text_from_pdf B pdf_path s
  = if (50 <? len (strip (join " " (omap nonempty texts))))%nat
    then (Ok (omap nonempty texts), logged s [PdfplumberOpen pdf_path])
    else ocr_fallback B pdf_path [] (logged s [PdfplumberOpen pdf_path]).
Proof.
  intros Hopen Hbefore Hpg.
  unfold extract_text_from_pdf. rewrite bind_run, text_layer_run.
  unfold layer_texts. rewrite Hopen.
  rewrite (plumber_texts_failure pg after Hpg before texts Hbefore). simpl.
  destruct (omap nonempty texts) as [|t ts]; [done|].
  by destruct (50 <? _)%nat.
Qed.

(** X4.  If the configuration has no [ocr_settings.dpi] or no
    [ocr_settings.tesseract_config], the KeyError is swallowed inside the
    fallback: the OCR engine is never called, and acquisition returns
    either the accepted text layer or no text at all. *)
Theorem ocr_needs_settings (pdf_path : string) (s : state) :
  ~ is_ok (h_subscript (heap s) (config s) ["ocr_settings"; "dpi"])
  \/ ~ is_ok (h_subscript (heap s) (config s) ["ocr_settings"; "tesseract_config"]) ->
  exists text_content cs,
    extract_text_from_pdf B pdf_path s = (Ok text_content, logged s cs)
    /\ Forall (fun c => is_ocr_call c = false) cs
    /\ (text_content = []
        \/ text_content = layer_texts B pdf_path
           /\ 50 < len (strip (join " " text_content))).
Proof.
  intros Hmissing.
  assert (Hocr : exists cs,
             ocr_fallback B pdf_path [] (logged s [PdfplumberOpen pdf_path])
             = (Ok [], logged s (PdfplumberOpen pdf_path :: cs))
             /\ Forall (fun c => is_ocr_call c = false) cs).
  { unfold ocr_fallback, try_except. rewrite bind_run, config_at_run.
    cbn [heap config logged].
    destruct (h_subscript (heap s) (config s) ["ocr_settings"; "dpi"]) as [dpi|e] eqn:E.
    2: { by exists []. }
    destruct Hmissing as [H|Htc]; [by destruct H|].
    rewrite bind_run. unfold log at 1. cbn [heap config logged extracted_data calls].
    rewrite bind_run, lib_run.
    exists [ConvertFromPath pdf_path dpi]. split; [|by repeat constructor].
    destruct (convert_from_path B pdf_path dpi) as [[|image images]|]; cbn [for_try].
    - rewrite ret_run. unfold logged; simpl. by rewrite <- app_assoc.
    - unfold ocr_page at 1. rewrite bind_run.
      match goal with |- context [recognize B image ?st] =>
        destruct (recognize_calls image st) as [[e ->]|(o & _ & Hok)] end.
      + unfold logged; simpl. by rewrite <- app_assoc.
      + by destruct Htc.
    - unfold logged; simpl. by rewrite <- app_assoc. }
  destruct Hocr as (cs & Hocr & Hcs).
  unfold extract_text_from_pdf. rewrite bind_run, text_layer_run.
  destruct (layer_texts B pdf_path) as [|t ts] eqn:El.
  - rewrite Hocr. eexists _, _. split; [reflexivity|]. split; [|by left].
    by constructor.
  - destruct (50 <? _)%nat eqn:E50.
    + eexists _, _. split; [reflexivity|]. split; [by repeat constructor|].
      right. split; [done|]. by apply Nat.ltb_lt.
    + rewrite Hocr. eexists _, _. split; [reflexivity|]. split; [|by left].
      by constructor.
Qed.

(** X5.  With its three flags readable, [preprocess_image] returns an
    image exactly when the steps that are switched on, applied in the
    order denoise, contrast, sharpen, each to the result of the one
    before, all succeed, and it returns the result of the last; it never
    changes the scanner.  With all three flags off it returns the image it
    was given. *)
Theorem preprocess_image_steps (image : ndarray B) (s : state)
    (denoise enhance_contrast sharpen : bool) :
  preprocessing_flag s "denoise" = Ok denoise ->
  preprocessing_flag s "enhance_contrast" = Ok enhance_contrast ->
  preprocessing_flag s "sharpen" = Ok sharpen ->
  exists o,
    preprocess_image B image s = (o, s)
    /\ (forall img, o = Ok img
                    <-> preprocessed B denoise enhance_contrast sharpen image = Some img)
    /\ (denoise = false -> enhance_contrast = false -> sharpen = false -> o = Ok image).
Proof.
  intros Hd He Hsh.
  destruct (preprocess_image_run image s _ _ _ Hd He Hsh) as (o & Hrun & Ho).
  exists o. split_and!; [done..|].
  intros -> -> ->. by apply Ho.
Qed.

(** X6.  What the OCR engine is given for a page.  A page image whose
    array does not have three dimensions goes to the engine as it is,
    whatever the preprocessing flags say (they are not even read); an
    image with three dimensions goes through [preprocess_image] first, and
    its text is recognized exactly when the preprocessing and the engine
    both succeed. *)
Theorem page_recognition (image : pil_image B) (s : state) (ocr_cfg : val) :
  h_subscript (heap s) (config s) ["ocr_settings"; "tesseract_config"] = Ok ocr_cfg ->
  (shape_len B (np_array B image) <> 3 ->
   recognize B image s
   = (match image_to_string B (np_array B image) ocr_cfg with
      | Some text => Ok text
      | None => Raise LibraryError
      end, logged s [ImageToString ocr_cfg]))
  /\ (shape_len B (np_array B image) = 3 ->
      forall denoise enhance_contrast sharpen,
        preprocessing_flag s "denoise" = Ok denoise ->
        preprocessing_flag s "enhance_contrast" = Ok enhance_contrast ->
        preprocessing_flag s "sharpen" = Ok sharpen ->
        forall text,
          (recognize B image s).1 = Ok text
          <-> exists img,
                preprocessed B denoise enhance_contrast sharpen (np_array B image)
                = Some img
                /\ image_to_string B img ocr_cfg = Some text).
Proof.
  intros Htc. split.
  - intros Hshape. unfold recognize. apply Nat.eqb_neq in Hshape. rewrite Hshape.
    rewrite bind_run, ret_run, bind_run, config_at_run, Htc, bind_run.
    unfold log at 1. by rewrite lib_run.
  - intros Hshape d e sh Hd He Hsh text. unfold recognize.
    apply Nat.eqb_eq in Hshape. rewrite Hshape. rewrite bind_run.
    destruct (preprocess_image_run (np_array B image) s _ _ _ Hd He Hsh)
      as (o & -> & Ho).
    destruct o as [img|err].
    + rewrite bind_run, config_at_run, Htc, bind_run. unfold log at 1.
      rewrite lib_run. simpl. pose proof (proj1 (Ho img) eq_refl) as Himg. split.
      * destruct (image_to_string B img ocr_cfg) eqn:E; [|done].
        intros [= <-]. by exists img.
      * intros (img' & Himg' & Htext). rewrite Himg in Himg'. simplify_eq.
        by rewrite Htext.
    + simpl. split; [done|]. intros (img & Himg & _).
      by apply Ho in Himg.
Qed.

Lemma category_items_enabled h text settings o :
  category_items B h text settings = Ok o ->
  category_enabled h settings = bool_decide (is_Some o).
Proof.
  unfold category_items, category_enabled.
  destruct (h_dict_get h settings "enabled" (VBool true)) as [v|]; [|done].
  destruct (h_truthy h v); [|by intros [= <-]].
  destruct (settings_patterns h settings) as [pats|]; [|done].
  destruct (all_matches B pats text []); [|done]. by intros [= <-].
Qed.

Lemma scan_results_keys h text categories :
  forall results results',
    NoDup (results.*1 ++ categories.*1) ->
    scan_results B h text categories results = Ok results' ->
    results'.*1
    = results.*1 ++ (filter (fun cs => category_enabled h cs.2 = true) categories).*1.
Proof.
  induction categories as [|[c st] cs IH]; intros acc res Hnd; simpl.
  - intros [= <-]. by rewrite app_nil_r.
  - simpl in Hnd. apply NoDup_app in Hnd as (Hacc & Hdisj & Hcs).
    apply NoDup_cons in Hcs as [Hc Hcs].
    destruct (category_items B h text st) as [o|] eqn:E; [|done].
    pose proof (category_items_enabled _ _ _ _ E) as Hen.
    assert (Hfresh : c ∉ acc.*1).
    { intros Hin. apply (Hdisj c Hin). by left. }
    destruct o as [its|]; intros Hres.
    + rewrite filter_cons_True by (simpl; by rewrite Hen).
      apply IH in Hres.
      * rewrite Hres, dict_set_fresh by done. rewrite fmap_app. simpl.
        by rewrite <- app_assoc.
      * rewrite dict_set_fresh by done. rewrite fmap_app. simpl.
        rewrite <- app_assoc. simpl. apply NoDup_app. split_and!; [done| |by constructor].
        intros x Hx Hin. apply (Hdisj x Hx). done.
    + rewrite filter_cons_False by (simpl; by rewrite Hen).
      apply IH in Hres; [done|]. apply NoDup_app. split_and!; [done| |done].
      intros x Hx Hin. apply (Hdisj x Hx). by right.
Qed.

Lemma scan_outcome_keys h cfg text results :
  closed_below (length h) h -> val_ok (length h) cfg ->
  scan_outcome B h cfg text = Ok results ->
  exists extraction_settings categories,
    h_getitem h cfg "extraction_settings" = Ok extraction_settings
    /\ h_items h extraction_settings = Ok categories
    /\ results.*1 = (filter (fun cs => category_enabled h cs.2 = true) categories).*1.
Proof.
  intros Hok Hcfg Hout. unfold scan_outcome in Hout.
  destruct (h_getitem h cfg "extraction_settings") as [es|] eqn:Ees; [|done].
  destruct (h_items h es) as [categories|] eqn:Ecs; [|done].
  assert (Hes : val_ok (length h) es) by by eapply (h_getitem_ok _ _ Hok cfg).
  pose proof (h_items_ok _ _ Hok es categories Hes Ecs) as [Hnd _].
  exists es, categories. split_and!; [done..|].
  by apply (scan_results_keys _ _ _ [] results Hnd) in Hout.
Qed.

Lemma expected_record_keys pdf_path texts (results : list (string * list val)) :
  (record_extraction_results (expected_record pdf_path texts results)).*1 = results.*1.
Proof. simpl. rewrite <- list_fmap_compose. by apply list_fmap_ext. Qed.

(** X9.  The categories of a Scan Record are exactly the categories that
    are enabled in the configuration the scan started with (those whose
    [enabled] is true or left out), in the order of the configuration. *)
Theorem record_keys_are_enabled_categories (pdf_path : string) (s s' : state) (r : val) :
  wf s -> scan_pdf B pdf_path s = (Ok r, s') ->
  exists record extraction_settings categories,
    read_record (heap s') r = Some record
    /\ h_getitem (heap s) (config s) "extraction_settings" = Ok extraction_settings
    /\ h_items (heap s) extraction_settings = Ok categories
    /\ (record_extraction_results record).*1
       = (filter (fun cs => category_enabled (heap s) cs.2 = true) categories).*1.
Proof.
  intros Hwf Hscan.
  destruct (scan_pdf_ok B pdf_path s r s' Hwf Hscan) as (results & Hout & _ & _ & Hrec & _).
  destruct Hwf as (Hok & Hcfg & _).
  destruct (scan_outcome_keys _ _ _ _ Hok Hcfg Hout) as (es & categories & ? & ? & Hkeys).
  eexists _, es, categories. split_and!; [done..|].
  by rewrite expected_record_keys.
Qed.

(** X10.  A scan, whether it returns or raises, changes no object that
    existed before it: the configuration is as it was, and every record an
    earlier scan returned reads as before.  A scan that returns makes
    [extracted_data] refer to a new object, its record; a scan that raises
    leaves [extracted_data] referring to the record of the last scan that
    returned, and a scan that raises FileNotFoundError changes nothing at
    all. *)
Theorem scan_keeps_earlier_objects (pdf_path : string) (s s' : state) (o : outcome val) :
  wf s -> scan_pdf B pdf_path s = (o, s') ->
  config s' = config s
  /\ agree_below (length (heap s)) (heap s) (heap s')
  /\ (forall v, val_ok (length (heap s)) v ->
                read_record (heap s') v = read_record (heap s) v)
  /\ match o with
     | Ok r => extracted_data s' = r /\ exists l, r = VRef l /\ length (heap s) <= l
     | Raise e =>
         extracted_data s' = extracted_data s
         /\ (e = FileNotFoundError -> s' = s)
     end.
Proof.
  intros Hwf Hscan.
  assert (Hframe : agree_below (length (heap s)) (heap s) (heap s') ->
                   forall v, val_ok (length (heap s)) v ->
                             read_record (heap s') v = read_record (heap s) v).
  { intros Hag v Hv. destruct Hwf as (Hok & _).
    apply (read_record_frame 0 (length (heap s)) (heap s) (heap s')).
    - intros l Hl. apply Hag. lia.
    - by apply heap_ok_closed_in.
    - by apply val_ok_in. }
  destruct (os_path_exists B pdf_path) eqn:Hex.
  - destruct (scan_pdf_spec B pdf_path s Hwf Hex)
      as (o' & s1 & Hrun & Hcfg & Hag & Hlen & _ & Hout).
    rewrite Hscan in Hrun. injection Hrun as <- <-.
    split_and!; [done|done|by apply Hframe|].
    destruct (scan_outcome B (heap s) (config s) (join " " (acquired B pdf_path s))).
    + destruct Hout as (l & -> & Hd & Hl & _). split; [done|]. by exists l.
    + destruct Hout as [-> Hd]. split; [done|].
      intros ->. exfalso.
      pose proof (scan_pdf_raises B pdf_path Hex s _ _ Hscan) as Herr.
      destruct Herr as [?|[?|[?|?]]]; done.
  - unfold scan_pdf in Hscan. rewrite Hex in Hscan. simpl in Hscan.
    injection Hscan as <- <-. split_and!; [done|done|by apply Hframe|done|done].
Qed.

Lemma read_record_inv h data record :
  read_record h data = Some record ->
  exists l res d,
    data = VRef l
    /\ h_getitem h data "pdf_path" = Ok (record_pdf_path record)
    /\ h_getitem h data "extraction_results" = Ok res
    /\ deref h res = Some (ODict d)
    /\ Forall2 (fun kv e => (fun x => (kv.1, x)) <$> read_entry h kv.2 = Some e)
               d (record_extraction_results record)
    /\ h_truthy h data = true.
Proof.
  intros Hrec. unfold read_record in Hrec.
  destruct (h_getitem h data "pdf_path") as [path|] eqn:E1; [|done].
  destruct (h_getitem h data "extraction_results") as [res|] eqn:E2; [|done].
  destruct (h_getitem h data "total_pages") as [pages|] eqn:E3; [|done].
  destruct (h_getitem h data "raw_text_preview") as [prev|] eqn:E4; [|done].
  destruct (read_results h res) as [view|] eqn:Eview; [|done].
  simpl in Hrec. injection Hrec as <-. simpl.
  destruct (read_results_inv _ _ _ Eview) as (d & Hres & Hd2).
  destruct data as [| | | | |l]; try done.
  exists l, res, d. split_and!; try done.
  unfold h_getitem in E1. simpl in *. destruct (h !! l) as [[[|kv rd]|]|]; done.
Qed.

Lemma read_entry_inv h data count xs :
  read_entry h data = Some (count, xs) ->
  h_getitem h data "count" = Ok count
  /\ exists its, h_getitem h data "items" = Ok its /\ deref h its = Some (OList xs).
Proof.
  unfold read_entry.
  destruct (h_getitem h data "count") as [count'|]; [|done].
  destruct (h_getitem h data "items") as [its'|]; [|done].
  destruct (deref h its') as [[|xs']|] eqn:E; try done.
  intros [= <- <-]. split; [done|]. by exists its'.
Qed.

(** *** The summary *)

Lemma summary_loop f hb entries (view : list (string * (val * list val))) :
  Forall2 (fun kv e => kv.2 <> VRef f
                       /\ (fun x => (kv.1, x)) <$> read_entry hb kv.2 = Some e)
          entries view ->
  f < length hb ->
  forall s acc,
    heap s = <[f := ODict acc]> hb ->
    for_each entries
      (fun cd => count ← getitem cd.2 "count"; setitem (VRef f) cd.1 count) s
    = (Ok tt,
       with_heap s
         (<[f := ODict (foldl (fun acc e => dict_set acc e.1 e.2.1) acc view)]> hb)).
Proof.
  intros Hall Hf.
  induction Hall as [|[k data] [c [count xs]] entries view [Hne Hread] Hall IH];
    intros s acc Hs.
  - simpl. rewrite <- Hs. by rewrite with_heap_id.
  - simpl in Hne, Hread. cbn [for_each foldl fst snd].
    destruct (read_entry hb data) as [[count' xs']|] eqn:E; [|done].
    simpl in Hread. simplify_eq.
    destruct (read_entry_inv _ _ _ _ E) as [Hcount _].
    rewrite bind_run, bind_run, getitem_run, Hs, h_getitem_insert_ne, Hcount by done.
    rewrite (setitem_run _ acc).
    2: { rewrite Hs. by apply list_lookup_insert_eq. }
    rewrite (IH _ (dict_set acc c count)); [done|].
    rewrite heap_with_heap, Hs. by rewrite list_insert_insert_eq.
Qed.

Lemma foldl_dict_set_fresh {V W} (g : string * V -> W) (view : list (string * V)) :
  forall acc,
    NoDup (acc.*1 ++ view.*1) ->
    foldl (fun acc e => dict_set acc e.1 (g e)) acc view
    = acc ++ ((fun e => (e.1, g e)) <$> view).
Proof.
  induction view as [|[k v] view IH]; intros acc Hnd; csimpl.
  - by rewrite app_nil_r.
  - apply NoDup_app in Hnd as (Hacc & Hdis & [Hk He]%NoDup_cons).
    rewrite dict_set_fresh.
    2: { intros Hin. apply (Hdis _ Hin). apply elem_of_cons; auto. }
    rewrite IH, <- app_assoc; [done|].
    rewrite fmap_app. simpl. rewrite <- app_assoc. simpl.
    apply NoDup_app. split_and!; [done| |by apply NoDup_cons].
    intros x Hx. apply Hdis in Hx. done.
Qed.

Lemma Forall2_keys {V W} (d : list (string * V))
    (view : list (string * W)) (rd : V -> option W) :
  Forall2 (fun kv e => (fun x => (kv.1, x)) <$> rd kv.2 = Some e) d view ->
  view.*1 = d.*1.
Proof.
  induction 1 as [|[k v] [c e] d view Hread Hall IH]; [done|].
  simpl in *. destruct (rd v); simplify_eq/=. by f_equal.
Qed.

Lemma get_summary_run s record :
  heap_ok (heap s) ->
  read_record (heap s) (extracted_data s) = Some record ->
  get_summary s
  = (Ok (VRef (length (heap s))),
     with_heap s
       (heap s ++ [ODict ((fun e => (e.1, e.2.1))
                            <$> record_extraction_results record)])).
Proof.
  intros Hok Hrec.
  destruct (read_record_inv _ _ _ Hrec) as (l & res & d & Hd & _ & Eres & Hres & Hd2 & Ht).
  set (f := length (heap s)). set (hb := heap s ++ [ODict []]).
  assert (Hagb : agree_below f (heap s) hb) by apply agree_below_app.
  assert (Hl : val_ok f (extracted_data s)).
  { rewrite Hd. unfold h_getitem in Eres. rewrite Hd in Eres. simpl in *.
    destruct (heap s !! l) eqn:El; [|done]. by eapply lookup_lt_Some. }
  assert (Hresok : val_ok f res) by by eapply (h_getitem_ok _ _ Hok (extracted_data s)).
  assert (Hdok : obj_ok f (ODict d)) by by eapply deref_ok.
  destruct Hdok as [Hnd Hvals].
  assert (Hall : Forall2 (fun kv e => kv.2 <> VRef f
                   /\ (fun x => (kv.1, x)) <$> read_entry hb kv.2 = Some e)
                   d (record_extraction_results record)).
  { eapply Forall2_impl.
    - apply (Forall2_strengthen_l (fun kv => val_ok f kv.2)); [|exact Hd2].
      by rewrite Forall_fmap in Hvals.
    - intros [k data] e [Hdata Hread]. simpl in *. split.
      + intros ->. simpl in Hdata. lia.
      + rewrite (read_entry_frame 0 f (heap s)); try done.
        * intros i [_ Hi]. by apply Hagb.
        * by apply heap_ok_closed_in.
        * by apply val_ok_in. }
  unfold get_summary.
  rewrite bind_run, self_extracted_data_run, bind_run, truthy_run, Ht. simpl.
  rewrite bind_run, alloc_run. fold f hb.
  rewrite bind_run, self_extracted_data_run. cbn [extracted_data with_heap].
  rewrite bind_run, getitem_run, heap_with_heap.
  rewrite (h_getitem_agree _ _ _ Hagb) by done. rewrite Eres.
  rewrite bind_run, items_run, heap_with_heap.
  rewrite (h_items_agree _ _ _ Hagb) by done. unfold h_items. rewrite Hres.
  rewrite bind_run.
  rewrite (summary_loop f hb d _ Hall) with (acc := []).
  2: { unfold hb. rewrite length_app. simpl. lia. }
  2: { rewrite heap_with_heap. symmetry. apply list_insert_id.
       by apply list_lookup_middle. }
  rewrite ret_run, with_heap_with_heap. do 2 f_equal.
  rewrite (foldl_dict_set_fresh (fun e => e.2.1)).
  2: { simpl. by rewrite (Forall2_keys d _ (read_entry (heap s))). }
  simpl. unfold hb, f.
  replace (length (heap s)) with (length (heap s) + 0) at 1 by lia.
  by rewrite insert_app_r.
Qed.


(** *** The CSV export *)

Lemma csv_item_loop (c : string) source xs s :
  h_getitem (heap s) (extracted_data s) "pdf_path" = Ok source ->
  forall rows : list (string * val * val),
    for_acc xs rows
      (fun item rows =>
         data ← self_extracted_data;
         source ← getitem data "pdf_path";
         ret (rows ++ [(c, item, source)])) s
    = (Ok (rows ++ ((fun item => (c, item, source)) <$> xs)), s).
Proof.
  intros Hsrc. induction xs as [|x xs IH]; intros rows; simpl.
  - by rewrite app_nil_r.
  - rewrite bind_run, bind_run, self_extracted_data_run, bind_run, getitem_run, Hsrc.
    rewrite ret_run, IH. by rewrite <- app_assoc.
Qed.

Lemma csv_category_loop source s d (view : list (string * (val * list val))) :
  h_getitem (heap s) (extracted_data s) "pdf_path" = Ok source ->
  Forall2 (fun kv e => (fun x => (kv.1, x)) <$> read_entry (heap s) kv.2 = Some e)
          d view ->
  forall rows : list (string * val * val),
    for_acc d rows
      (fun cd rows =>
         its ← getitem cd.2 "items";
         its ← iter its;
         for_acc its rows
           (fun item rows =>
              data ← self_extracted_data;
              source ← getitem data "pdf_path";
              ret (rows ++ [(cd.1, item, source)]))) s
    = (Ok (rows ++ (view ≫= fun e => (fun item => (e.1, item, source)) <$> e.2.2)),
       s).
Proof.
  intros Hsrc Hall.
  induction Hall as [|[k data] [c [count xs]] d view Hread Hall IH]; intros rows; csimpl.
  - by rewrite app_nil_r.
  - simpl in Hread.
    destruct (read_entry (heap s) data) as [[count' xs']|] eqn:E; [|done].
    simpl in Hread. simplify_eq.
    destruct (read_entry_inv _ _ _ _ E) as (_ & its & Hits & Hxs).
    rewrite bind_run, bind_run, getitem_run, Hits.
    rewrite bind_run. unfold iter. rewrite lift_run.
    assert (h_iter (heap s) its = Ok xs) as ->.
    { destruct its; try done. simpl in *. by rewrite Hxs. }
    rewrite (csv_item_loop c source xs s Hsrc), IH. by rewrite <- app_assoc.
Qed.

Lemma export_to_csv_run output_path s record :
  read_record (heap s) (extracted_data s) = Some record ->
  export_to_csv B output_path s
  = (if open_write B output_path
     then (Ok tt, logged s [ToCsv output_path (csv_rows record)])
     else (Raise OSError, s)).
Proof.
  intros Hrec.
  destruct (read_record_inv _ _ _ Hrec) as (l & res & d & Hd & Hsrc & Eres & Hres & Hd2 & Ht).
  unfold export_to_csv.
  rewrite bind_run, self_extracted_data_run, bind_run, truthy_run, Ht. simpl.
  rewrite bind_run, self_extracted_data_run, bind_run, getitem_run, Eres.
  rewrite bind_run, items_run. unfold h_items. rewrite Hres.
  rewrite bind_run.
  rewrite (csv_category_loop _ s d _ Hsrc Hd2). simpl.
  by destruct (open_write B output_path).
Qed.

(** X12.  On a scanner that holds a record, [export_to_csv] hands
    [to_csv] one row per item, category by category in the record's order,
    each row with its category, the item and the record's path, and
    changes nothing else; it raises OSError, handing over nothing, when
    the file cannot be written.  The number of rows is the sum of the
    numbers of items of the categories. *)
Theorem csv_has_one_row_per_item (output_path : string) (s : state)
    (record : scan_record) :
  read_record (heap s) (extracted_data s) = Some record ->
  export_to_csv B output_path s
  = (if open_write B output_path
     then (Ok tt, logged s [ToCsv output_path (csv_rows record)])
     else (Raise OSError, s))
  /\ length (csv_rows record)
     = sum_list ((fun e => length e.2.2) <$> record_extraction_results record)
  /\ forall c item source,
       (c, item, source) ∈ csv_rows record <->
       source = record_pdf_path record
       /\ exists count its,
            (c, (count, its)) ∈ record_extraction_results record /\ item ∈ its.
Proof.
  intros Hrec. split_and!.
  - by apply export_to_csv_run.
  - unfold csv_rows. generalize (record_pdf_path record).
    generalize (record_extraction_results record). clear. intros es path.
    induction es as [|e es IH]; [done|].
    csimpl. by rewrite length_app, length_fmap, IH.
  - intros c item source. unfold csv_rows. rewrite list_elem_of_bind. split.
    + intros ([c' [count its]] & Hrow & Hin). simpl in Hrow.
      apply list_elem_of_fmap in Hrow as (item' & [= -> -> ->] & Hitem).
      split; [done|]. by exists count, its.
    + intros (-> & count & its & Hin & Hitem). exists (c, (count, its)). split; [|done].
      simpl. apply list_elem_of_fmap. by exists item.
Qed.

(** *** More on filtering *)

Lemma filter_ext_Forall {A} (P Q : A -> Prop) `{!forall x, Decision (P x)}
    `{!forall x, Decision (Q x)} (l : list A) :
  Forall (fun x => P x <-> Q x) l -> filter P l = filter Q l.
Proof.
  induction 1 as [|x l Hx Hl IH]; [done|].
  destruct (decide (P x)) as [HP|HP].
  - rewrite !filter_cons_True by tauto. by rewrite IH.
  - rewrite !filter_cons_False by tauto. done.
Qed.

Lemma filter_results_run category min_count s record :
  heap_ok (heap s) ->
  read_record (heap s) (extracted_data s) = Some record ->
  Forall (fun e => exists n, e.2.1 = VInt n) (record_extraction_results record) ->
  exists results d,
    h_getitem (heap s) (extracted_data s) "extraction_results" = Ok results
    /\ deref (heap s) results = Some (ODict d)
    /\ Forall (fun cd => val_ok (length (heap s)) cd.2) d
    /\ Forall2 (fun kv e => (fun x => (kv.1, x)) <$> read_entry (heap s) kv.2 = Some e)
               d (record_extraction_results record)
    /\ filter_results category min_count s
       = (Ok (VRef (length (heap s))),
          with_heap s
            (heap s ++ [ODict (filter (fun cd => keeps (heap s) category min_count cd = true)
                                      d)])).
Proof.
  intros Hok Hrec Hints.
  destruct (read_record_inv _ _ _ Hrec) as (l & res & d & Hd & _ & Eres & Hres & Hd2 & Ht).
  set (f := length (heap s)). set (hb := heap s ++ [ODict []]).
  assert (Hagb : agree_below f (heap s) hb) by apply agree_below_app.
  assert (Hl : val_ok f (extracted_data s)).
  { rewrite Hd. unfold h_getitem in Eres. rewrite Hd in Eres. simpl in *.
    destruct (heap s !! l) eqn:El; [|done]. by eapply lookup_lt_Some. }
  assert (Hresok : val_ok f res) by by eapply (h_getitem_ok _ _ Hok (extracted_data s)).
  assert (Hdok : obj_ok f (ODict d)) by by eapply deref_ok.
  destruct Hdok as [Hnd Hvals]. rewrite Forall_fmap in Hvals.
  assert (Hcounts : Forall (fun cd => exists n, h_getitem (heap s) cd.2 "count" = Ok (VInt n)) d).
  { apply Forall_forall. intros [k data] Hin.
    destruct (proj1 (list_elem_of_lookup _ _) Hin) as [i Hi].
    destruct (Forall2_lookup_l _ _ _ _ _ Hd2 Hi) as (e & He & Hread). simpl in Hread.
    rewrite Forall_forall in Hints.
    destruct (Hints e) as [n Hn]; [by eapply list_elem_of_lookup_2|].
    destruct (read_entry (heap s) data) as [[count xs]|] eqn:E; [|done].
    destruct (read_entry_inv _ _ _ _ E) as [Hcount _].
    simpl in Hread. simplify_eq. simpl in Hn. subst. eauto. }
  assert (Hall : Forall (fun cd => cd.2 <> VRef f
                   /\ exists n, h_getitem hb cd.2 "count" = Ok (VInt n)) d).
  { apply Forall_forall. intros [k data] Hin.
    rewrite Forall_forall in Hvals, Hcounts.
    specialize (Hvals _ Hin). destruct (Hcounts _ Hin) as [n Hn]. simpl in *.
    split; [intros ->; simpl in Hvals; unfold f in Hvals; lia|].
    rewrite (h_getitem_agree _ _ _ Hagb) by done. eauto. }
  exists res, d. split_and!; try done.
  unfold filter_results.
  rewrite bind_run, self_extracted_data_run, bind_run, truthy_run, Ht. simpl.
  rewrite bind_run, alloc_run. fold f hb.
  rewrite bind_run, self_extracted_data_run. cbn [extracted_data with_heap].
  rewrite bind_run, getitem_run, heap_with_heap.
  rewrite (h_getitem_agree _ _ _ Hagb) by done. rewrite Eres.
  rewrite bind_run, items_run, heap_with_heap.
  rewrite (h_items_agree _ _ _ Hagb) by done. unfold h_items. rewrite Hres.
  rewrite bind_run.
  rewrite (filter_loop category min_count f hb d _ []); [| | |done].
  2: { rewrite heap_with_heap. symmetry. apply list_insert_id.
       by apply list_lookup_middle. }
  2: { unfold hb. rewrite length_app. simpl. lia. }
  rewrite ret_run, with_heap_with_heap. do 2 f_equal.
  rewrite foldl_keep_filter; [|done]. simpl.
  unfold hb.
  replace f with (length (heap s) + 0) at 1 by (unfold f; lia).
  rewrite insert_app_r. simpl. do 3 f_equal.
  trans (filter (fun cd => keeps hb category min_count cd = true) d);
    [apply list_filter_iff|apply filter_ext_Forall].
  - intros x. unfold hb. destruct (keeps _ category min_count x); simpl; split; (done || tauto).
  - apply Forall_forall. intros [k data] Hin. rewrite Forall_forall in Hvals.
    specialize (Hvals _ Hin). simpl in Hvals. unfold keeps. simpl.
    fold hb. by rewrite (h_getitem_agree _ _ _ Hagb).
Qed.

(** X13.  [filter_results] makes one new dictionary and changes nothing
    else.  The values of that dictionary are the record's own entry
    objects, the same references in the record's order and not copies, so
    a change made to a returned entry is a change of the record. *)
Theorem filter_results_shares_entries (category : option string) (min_count : Z)
    (s : state) (record : scan_record) :
  heap_ok (heap s) ->
  read_record (heap s) (extracted_data s) = Some record ->
  Forall (fun e => exists n, e.2.1 = VInt n) (record_extraction_results record) ->
  exists results d,
    h_getitem (heap s) (extracted_data s) "extraction_results" = Ok results
    /\ deref (heap s) results = Some (ODict d)
    /\ filter_results category min_count s
       = (Ok (VRef (length (heap s))),
          with_heap s
            (heap s ++ [ODict (filter (fun cd => keeps (heap s) category min_count cd = true)
                                      d)])).
Proof.
  intros Hok Hrec Hints.
  destruct (filter_results_run category min_count s record Hok Hrec Hints)
    as (res & d & ? & ? & _ & _ & ?).
  by exists res, d.
Qed.

Lemma filtered_view category min_count h d (view : list (string * (val * list val))) :
  heap_ok h ->
  Forall (fun cd => val_ok (length h) cd.2) d ->
  Forall2 (fun kv e => (fun x => (kv.1, x)) <$> read_entry h kv.2 = Some e) d view ->
  read_results (h ++ [ODict (filter (fun cd => keeps h category min_count cd = true) d)])
               (VRef (length h))
  = Some (filter (fun e => passes category min_count e = true) view).
Proof.
  intros Hok Hvals Hd2. unfold read_results. simpl.
  rewrite list_lookup_middle by done. apply mapM_Some.
  eapply Forall2_impl.
  - apply (Forall2_filter
             (fun kv e => val_ok (length h) kv.2
                          /\ (fun x => (kv.1, x)) <$> read_entry h kv.2 = Some e)
             (fun cd => keeps h category min_count cd = true)
             (fun e => passes category min_count e = true)) with (k := view).
    + intros [k data] [c [count its]] [Hdata Hread]. simpl in *.
      unfold keeps, passes. simpl.
      destruct (read_entry h data) as [[count' xs']|] eqn:E; [|done].
      destruct (read_entry_inv _ _ _ _ E) as [-> _]. simpl in Hread. by simplify_eq.
    + by apply (Forall2_strengthen_l (fun kv => val_ok (length h) kv.2)).
  - intros [k data] e [Hdata Hread]. simpl in *.
    rewrite (read_entry_frame 0 (length h) h); try done.
    + intros i [_ Hi]. by apply lookup_app_l.
    + by apply heap_ok_closed_in.
    + by apply val_ok_in.
Qed.

(** X14.  Called with its default arguments (no category, [min_count]
    1) after a scan, [filter_results] returns exactly the categories of
    the record that have at least one item. *)
Theorem default_filter_keeps_nonempty (pdf_path : string) (s s1 : state) (r : val) :
  wf s -> scan_pdf B pdf_path s = (Ok r, s1) ->
  exists record f s2 kept,
    read_record (heap s1) r = Some record
    /\ filter_results None 1 s1 = (Ok f, s2)
    /\ read_results (heap s2) f = Some kept
    /\ kept = filter (fun e => e.2.2 <> []) (record_extraction_results record).
Proof.
  intros Hwf Hscan.
  destruct (scan_pdf_ok B pdf_path s r s1 Hwf Hscan)
    as (results & _ & _ & Hd & Hrec & (Hok1 & _) & _).
  rewrite <- Hd in Hrec.
  assert (Hints : Forall (fun e => exists n, e.2.1 = VInt n)
                         (record_extraction_results
                            (expected_record pdf_path (acquired B pdf_path s) results))).
  { simpl. apply Forall_fmap, Forall_forall. intros ci _. simpl. eauto. }
  destruct (filter_results_run None 1 s1 _ Hok1 Hrec Hints)
    as (res & d & _ & _ & Hvals & Hd2 & Hrun).
  eexists _, _, _, _. split; [by rewrite <- Hd|]. split; [exact Hrun|].
  rewrite heap_with_heap. split; [by apply filtered_view|].
  simpl. apply filter_ext_Forall. apply Forall_fmap, Forall_forall.
  intros [c its] _. unfold passes, selected. simpl.
  destruct its as [|x its]; simpl; [split; [done|congruence]|].
  split; [done|]. intros _. apply Z.leb_le. lia.
Qed.

(** *** No empty page text *)

Lemma strip_empty : strip "" = "".
Proof. reflexivity. Qed.

Lemma acquired_nonempty pdf_path s :
  Forall (fun text => text <> "") (acquired B pdf_path s).
Proof.
  rewrite acquired_cases. destruct (50 <? _)%nat.
  - apply Forall_forall. intros text Hin.
    apply list_elem_of_omap in Hin as (x & _ & Hx).
    destruct x as [[|c t]|]; simpl in Hx; by simplify_eq.
  - apply Forall_forall. intros text Hin.
    apply list_elem_of_filter in Hin as [Hnb _]. unfold nonblank in Hnb.
    intros ->. by rewrite strip_empty in Hnb.
Qed.

Lemma join_empty sep texts :
  Forall (fun text => text <> "") texts -> join sep texts = "" -> texts = [].
Proof.
  intros Hall. destruct Hall as [|t ts Ht Hts]; [done|].
  unfold join. simpl. destruct t as [|c t]; [done|].
  by destruct ts.
Qed.

Lemma raw_text_preview_empty text : raw_text_preview text = "" <-> text = "".
Proof.
  unfold raw_text_preview. destruct (500 <? len text)%nat eqn:E; [|done].
  split.
  - intros H. apply (f_equal len) in H. rewrite len_append in H.
    change (len "...") with 3 in H. change (len "") with 0 in H. lia.
  - intros ->. done.
Qed.

(** X7.  No page text that acquisition returns is empty.  So in a Scan
    Record [total_pages], the number of those texts, is 0 exactly when the
    text preview is empty. *)
Theorem no_pages_iff_no_text (pdf_path : string) (s s' : state) (r : val) :
  wf s -> scan_pdf B pdf_path s = (Ok r, s') ->
  exists text_content cs record,
    extract_text_from_pdf B pdf_path s = (Ok text_content, logged s cs)
    /\ Forall (fun text => text <> "") text_content
    /\ read_record (heap s') r = Some record
    /\ record_total_pages record = VInt (Z.of_nat (length text_content))
    /\ (record_total_pages record = VInt 0
        <-> record_raw_text_preview record = VStr "").
Proof.
  intros Hwf Hscan.
  destruct (scan_pdf_ok B pdf_path s r s' Hwf Hscan) as (results & _ & _ & _ & Hrec & _).
  destruct (acquired_run B pdf_path s) as [cs Hacq].
  pose proof (acquired_nonempty pdf_path s) as Hne.
  eexists _, cs, _. split_and!; [done|done|done|done|simpl; split].
  - intros [= Hlen]. f_equal. apply raw_text_preview_empty.
    destruct (acquired B pdf_path s); [done|simpl in Hlen; lia].
  - intros [= Hprev]. apply (proj1 (raw_text_preview_empty _)) in Hprev.
    by rewrite (join_empty _ _ Hne Hprev).
Qed.

(** *** Changing the configuration *)


Lemma update_loop l entries :
  forall s d,
    heap s !! l = Some (ODict d) ->
    for_each entries (fun kv => setitem (VRef l) kv.1 kv.2) s
    = (Ok tt, with_heap s (<[l := ODict (dict_merge d entries)]> (heap s))).
Proof.
  induction entries as [|[k v] entries IH]; intros s d Hl.
  - simpl. rewrite list_insert_id by done. by rewrite with_heap_id.
  - cbn [for_each fst snd]. rewrite bind_run, (setitem_run _ d) by done.
    rewrite (IH _ (dict_set d k v)).
    + rewrite with_heap_with_heap, heap_with_heap. by rewrite list_insert_insert_eq.
    + rewrite heap_with_heap. apply list_lookup_insert_eq. by eapply lookup_lt_Some.
Qed.

Lemma dict_update_run l d new dn s :
  heap s !! l = Some (ODict d) -> deref (heap s) new = Some (ODict dn) ->
  dict_update (VRef l) new s
  = (Ok tt, with_heap s (<[l := ODict (dict_merge d dn)]> (heap s))).
Proof.
  intros Hl Hnew. unfold dict_update.
  rewrite bind_run, lift_run. simpl. rewrite Hl.
  rewrite bind_run, lift_run, Hnew. by apply update_loop.
Qed.

Lemma dict_merge_lookup d new k :
  NoDup new.*1 ->
  dict_lookup (dict_merge d new) k
  = match dict_lookup new k with
    | Some v => Some v
    | None => dict_lookup d k
    end.
Proof.
  unfold dict_merge. revert d.
  induction new as [|[k0 v0] new IH]; intros d Hnd; [done|].
  apply NoDup_cons in Hnd as [Hk0 Hnd]. cbn [foldl fst snd].
  rewrite IH by done. simpl. destruct (decide (k0 = k)) as [->|Hne].
  - rewrite bool_decide_eq_true_2 by done.
    rewrite (proj2 (dict_lookup_None new k)) by done.
    apply dict_lookup_set_eq.
  - rewrite bool_decide_eq_false_2 by done.
    destruct (dict_lookup new k); [done|]. by apply dict_lookup_set_ne.
Qed.

Lemma dict_merge_ok n d new :
  obj_ok n (ODict d) -> obj_ok n (ODict new) -> obj_ok n (ODict (dict_merge d new)).
Proof.
  unfold dict_merge. intros Hd [_ Hnew]. revert d Hd.
  induction new as [|[k v] new IH]; intros d Hd; [done|].
  cbn [foldl fst snd]. apply Forall_cons in Hnew as [Hv Hnew]. apply IH; [done|].
  destruct Hd as [Hnd Hvals]. split; [by apply dict_set_NoDup|].
  apply Forall_forall. intros x Hx. apply dict_set_values in Hx as [->|Hx]; [done|].
  rewrite Forall_forall in Hvals. auto.
Qed.

Lemma update_config_run new_config s l d dn :
  config s = VRef l -> heap s !! l = Some (ODict d) ->
  deref (heap s) new_config = Some (ODict dn) ->
  update_config new_config s
  = (Ok tt, with_heap s (<[l := ODict (dict_merge d dn)]> (heap s))).
Proof.
  intros Hc Hl Hn. unfold update_config. rewrite bind_run, self_config_run, Hc.
  by apply dict_update_run.
Qed.

Lemma update_config_wf new_config s l d dn :
  wf s -> config s = VRef l -> heap s !! l = Some (ODict d) ->
  deref (heap s) new_config = Some (ODict dn) ->
  val_ok (length (heap s)) new_config ->
  wf (with_heap s (<[l := ODict (dict_merge d dn)]> (heap s))).
Proof.
  intros (Hok & Hcfg & Hdata) Hc Hl Hn Hnew.
  split_and!; simpl; rewrite ?length_insert; try done.
  apply heap_ok_insert; [done|]. apply dict_merge_ok.
  - apply (Hok l); [by eapply lookup_lt_Some|done].
  - by eapply deref_ok.
Qed.

(** X15.  [update_config] merges at the top level only.  It changes the
    configuration dictionary in place and nothing else; a top-level key of
    [new_config] afterwards refers to the very object [new_config] has
    there, so every path below it reads what it reads in [new_config] (and
    raises where [new_config] has nothing, whatever the old configuration
    had); a top-level key that [new_config] does not have keeps its
    value. *)
Theorem update_config_is_shallow (new_config : val) (s : state)
    (d dn : list (string * val)) :
  wf s ->
  deref (heap s) (config s) = Some (ODict d) ->
  deref (heap s) new_config = Some (ODict dn) ->
  exists s',
    update_config new_config s = (Ok tt, s')
    /\ config s' = config s
    /\ extracted_data s' = extracted_data s
    /\ length (heap s') = length (heap s)
    /\ (forall v, v <> config s -> deref (heap s') v = deref (heap s) v)
    /\ (forall k,
          h_getitem (heap s') (config s') k
          = match dict_lookup dn k with
            | Some v => Ok v
            | None => h_getitem (heap s) (config s) k
            end)
    /\ (forall k ks,
          is_Some (dict_lookup dn k) ->
          h_subscript (heap s') (config s') (k :: ks)
          = h_subscript (heap s') new_config (k :: ks))
    /\ wf s'.
Proof.
  intros Hwf Hd Hn.
  assert (Hnew : val_ok (length (heap s)) new_config).
  { destruct new_config; try done. simpl in *. by eapply lookup_lt_Some. }
  destruct (config s) as [| | | | |l] eqn:Hc; try done. simpl in Hd.
  pose proof (lookup_lt_Some _ _ _ Hd) as Hl.
  assert (Hnd : NoDup dn.*1).
  { destruct Hwf as (Hok & _). by destruct (deref_ok _ _ _ _ Hok Hnew Hn). }
  assert (Hget : forall k,
             h_getitem (<[l := ODict (dict_merge d dn)]> (heap s)) (VRef l) k
             = match dict_lookup dn k with
               | Some v => Ok v
               | None => h_getitem (heap s) (VRef l) k
               end).
  { intros k. unfold h_getitem. simpl. rewrite list_lookup_insert_eq by done.
    rewrite Hd, dict_merge_lookup by done. by destruct (dict_lookup dn k). }
  eexists. split; [by apply (update_config_run _ _ l d dn)|].
  cbn [config extracted_data heap with_heap]. rewrite Hc.
  split_and!; try done.
  - by rewrite length_insert.
  - intros [| | | | |l'] Hne; try done. simpl.
    apply list_lookup_insert_ne. congruence.
  - intros k ks [v Hv]. unfold h_subscript; fold h_subscript.
    rewrite Hget, Hv.
    assert (h_getitem (<[l := ODict (dict_merge d dn)]> (heap s)) new_config k = Ok v) as ->;
      [|done].
    destruct (decide (new_config = VRef l)) as [->|Hne].
    + by rewrite Hget, Hv.
    + rewrite h_getitem_insert_ne by done. unfold h_getitem. by rewrite Hn, Hv.
  - by eapply update_config_wf.
Qed.

Lemma update_config_inv new_config s s1 dn :
  deref (heap s) new_config = Some (ODict dn) ->
  update_config new_config s = (Ok tt, s1) ->
  exists l d,
    config s = VRef l /\ heap s !! l = Some (ODict d)
    /\ s1 = with_heap s (<[l := ODict (dict_merge d dn)]> (heap s)).
Proof.
  intros Hn Hrun.
  destruct (config s) as [| | | | |l] eqn:Hc;
    try (unfold update_config, dict_update in Hrun;
         rewrite bind_run, self_config_run, Hc, bind_run, lift_run in Hrun; done).
  destruct (heap s !! l) as [[d|xs]|] eqn:Hl;
    try (unfold update_config, dict_update in Hrun;
         rewrite bind_run, self_config_run, Hc, bind_run, lift_run in Hrun;
         simpl in Hrun; rewrite Hl in Hrun; done).
  rewrite (update_config_run _ _ l d dn) in Hrun by done.
  injection Hrun as <-. by exists l, d.
Qed.

Lemma scan_outcome_same_settings h cfg cfg' text :
  h_getitem h cfg' "extraction_settings" = h_getitem h cfg "extraction_settings" ->
  scan_outcome B h cfg' text = scan_outcome B h cfg text.
Proof. intros H. unfold scan_outcome. by rewrite H. Qed.

(** X16.  [update_config] takes effect on the next scan: after
    [update_config(new_config)] with a [new_config] that has
    [extraction_settings], a scan that returns produces the record that
    the extraction settings of [new_config] describe, and its categories
    are the enabled categories of [new_config], in order. *)
Theorem update_config_takes_effect (new_config : val) (pdf_path : string)
    (s s1 s2 : state) (r : val) :
  wf s ->
  is_ok (h_getitem (heap s) new_config "extraction_settings") ->
  update_config new_config s = (Ok tt, s1) ->
  scan_pdf B pdf_path s1 = (Ok r, s2) ->
  exists results extraction_settings categories,
    read_record (heap s2) r
    = Some (expected_record pdf_path (acquired B pdf_path s1) results)
    /\ scan_outcome B (heap s1) new_config (join " " (acquired B pdf_path s1)) = Ok results
    /\ h_getitem (heap s1) new_config "extraction_settings" = Ok extraction_settings
    /\ h_items (heap s1) extraction_settings = Ok categories
    /\ results.*1
       = (filter (fun cs => category_enabled (heap s1) cs.2 = true) categories).*1.
Proof.
  intros Hwf Hes Hupd Hscan.
  assert (exists dn, deref (heap s) new_config = Some (ODict dn)) as [dn Hn].
  { unfold is_ok, h_getitem in Hes.
    destruct (deref (heap s) new_config) as [[dn|]|]; try done. by exists dn. }
  destruct (update_config_inv _ _ _ _ Hn Hupd) as (l & d & Hc & Hl & ->).
  assert (Hnew : val_ok (length (heap s)) new_config).
  { destruct new_config; try done. simpl in *. by eapply lookup_lt_Some. }
  pose proof (update_config_wf _ _ _ _ _ Hwf Hc Hl Hn Hnew) as Hwf1.
  set (s1 := with_heap s _) in *.
  destruct (scan_pdf_ok B pdf_path s1 r s2 Hwf1 Hscan) as (results & Hout & _ & _ & Hrec & _).
  assert (Hsame : h_getitem (heap s1) (config s1) "extraction_settings"
                  = h_getitem (heap s1) new_config "extraction_settings").
  { unfold h_getitem in Hes. rewrite Hn in Hes.
    destruct (dict_lookup dn "extraction_settings") as [es|] eqn:E; [|done].
    assert (Hnd : NoDup dn.*1).
    { destruct Hwf as (Hok & _). by destruct (deref_ok _ _ _ _ Hok Hnew Hn). }
    assert (h_getitem (heap s1) (config s1) "extraction_settings" = Ok es) as ->.
    { unfold s1, h_getitem. simpl. rewrite Hc. simpl.
      rewrite list_lookup_insert_eq by by eapply lookup_lt_Some.
      by rewrite dict_merge_lookup, E. }
    destruct (decide (new_config = VRef l)) as [->|Hne].
    - unfold s1, h_getitem. simpl.
      rewrite list_lookup_insert_eq by by eapply lookup_lt_Some.
      by rewrite dict_merge_lookup, E.
    - unfold s1. simpl. rewrite h_getitem_insert_ne by done.
      unfold h_getitem. by rewrite Hn, E. }
  rewrite (scan_outcome_same_settings _ new_config (config s1)) in Hout by done.
  destruct Hwf1 as (Hok1 & _).
  assert (Hnew1 : val_ok (length (heap s1)) new_config).
  { unfold s1. simpl. by rewrite length_insert. }
  destruct (scan_outcome_keys _ _ _ _ Hok1 Hnew1 Hout) as (es & categories & ? & ? & ?).
  by exists results, es, categories.
Qed.

(** *** add_custom_pattern *)

Lemma append_run l xs x s :
  heap s !! l = Some (OList xs) ->
  append (VRef l) x s = (Ok tt, with_heap s (<[l := OList (xs ++ [x])]> (heap s))).
Proof. intros H. unfold append. by rewrite H. Qed.

Lemma contains_run v k s : contains v k s = (h_contains (heap s) v k, s).
Proof. reflexivity. Qed.

Lemma add_custom_pattern_old_run category pattern s lp xs :
  h_subscript (heap s) (config s) ["extraction_settings"; category; "patterns"]
  = Ok (VRef lp) ->
  heap s !! lp = Some (OList xs) ->
  add_custom_pattern category pattern s
  = (Ok tt, with_heap s (<[lp := OList (xs ++ [VStr pattern])]> (heap s))).
Proof.
  intros Hsub Hlp. unfold add_custom_pattern.
  rewrite bind_run, self_config_run, bind_run, getitem_run.
  pose proof Hsub as Hsub'. unfold h_subscript in Hsub'.
  destruct (h_getitem (heap s) (config s) "extraction_settings") as [es|] eqn:Ees; [|done].
  destruct (h_getitem (heap s) es category) as [settings|] eqn:Est; [|done].
  rewrite bind_run, contains_run.
  assert (h_contains (heap s) es category = Ok true) as ->.
  { unfold h_getitem in Est. destruct es as [| | | | |le]; try done. simpl in *.
    destruct (heap s !! le) as [[des|]|]; try done.
    destruct (dict_lookup des category); [|done]. by rewrite bool_decide_eq_true_2. }
  simpl. rewrite bind_run, ret_run, bind_run, self_config_run, bind_run, subscript_run, Hsub.
  by apply append_run.
Qed.

Lemma add_custom_pattern_new_run category pattern s le des :
  wf s ->
  h_getitem (heap s) (config s) "extraction_settings" = Ok (VRef le) ->
  heap s !! le = Some (ODict des) ->
  dict_lookup des category = None ->
  add_custom_pattern category pattern s
  = (Ok tt,
     with_heap s
       (<[le := ODict (des ++ [(category, VRef (S (length (heap s))))])]> (heap s)
        ++ [OList [VStr pattern];
            ODict [("enabled", VBool true); ("patterns", VRef (length (heap s)))]])).
Proof.
  intros (Hok & Hcfg & _) Hes Hle Hc.
  set (n := length (heap s)).
  pose proof (lookup_lt_Some _ _ _ Hle) as Hlt. fold n in Hlt.
  set (entry := ODict [("enabled", VBool true); ("patterns", VRef n)]).
  set (h1 := heap s ++ [OList []; entry]).
  set (h2 := <[le := ODict (dict_set des category (VRef (S n)))]> h1).
  assert (Hag1 : agree_below n (heap s) h1) by apply agree_below_app.
  assert (Hes1 : h_getitem h1 (config s) "extraction_settings" = Ok (VRef le)).
  { by rewrite (h_getitem_agree _ _ _ Hag1). }
  assert (Hes2 : h_getitem h2 (config s) "extraction_settings" = Ok (VRef le)).
  { unfold h2. destruct (decide (config s = VRef le)) as [Heq|Hne].
    - rewrite Heq in *. unfold h_getitem in *. simpl in *.
      rewrite list_lookup_insert_eq by (unfold h1; rewrite length_app; simpl; lia).
      rewrite Hle in Hes.
      destruct (dict_lookup des "extraction_settings") as [v|] eqn:E; [|done].
      rewrite dict_lookup_set_ne by (intros ->; congruence). rewrite E. done.
    - by rewrite h_getitem_insert_ne. }
  unfold add_custom_pattern.
  rewrite bind_run, self_config_run, bind_run, getitem_run, Hes.
  rewrite bind_run, contains_run. simpl. rewrite Hle, Hc.
  rewrite bool_decide_eq_false_2 by by intros [? ?]. simpl.
  rewrite bind_run, bind_run, alloc_run, bind_run, alloc_run.
  rewrite !heap_with_heap, with_heap_with_heap. rewrite <- app_assoc. simpl.
  rewrite length_app. simpl. replace (length (heap s) + 1) with (S n) by (unfold n; lia).
  fold n entry h1.
  rewrite bind_run, self_config_run. cbn [config with_heap].
  rewrite bind_run, getitem_run, heap_with_heap, Hes1.
  rewrite (setitem_run le des).
  2: { rewrite heap_with_heap. unfold h1. by rewrite lookup_app_l. }
  rewrite with_heap_with_heap, heap_with_heap. fold h2.
  rewrite bind_run, self_config_run. cbn [config with_heap].
  rewrite bind_run, subscript_run, heap_with_heap.
  assert (h_subscript h2 (config s) ["extraction_settings"; category; "patterns"]
          = Ok (VRef n)) as ->.
  { assert (Hcat : h_getitem h2 (VRef le) category = Ok (VRef (S n))).
    { unfold h_getitem, h2. simpl.
      rewrite list_lookup_insert_eq by (unfold h1; rewrite length_app; simpl; lia).
      by rewrite dict_lookup_set_eq. }
    assert (Hpat : h_getitem h2 (VRef (S n)) "patterns" = Ok (VRef n)).
    { unfold h_getitem, h2. simpl. rewrite list_lookup_insert_ne by lia. unfold h1.
      rewrite lookup_app_r by (fold n; lia). fold n.
      replace (S n - n) with 1 by lia. done. }
    unfold h_subscript. by rewrite Hes2, Hcat, Hpat. }
  rewrite (append_run n []).
  2: { rewrite heap_with_heap. unfold h2. rewrite list_lookup_insert_ne by lia.
       unfold h1. by rewrite list_lookup_middle. }
  rewrite with_heap_with_heap, heap_with_heap. do 2 f_equal.
  unfold h2, h1. rewrite dict_set_fresh by by apply dict_lookup_None.
  rewrite insert_app_l by done.
  replace n with (length (<[le := ODict (des ++ [(category, VRef (S n))])]> (heap s)) + 0)
    at 1 by (rewrite length_insert; unfold n; lia).
  by rewrite insert_app_r.
Qed.

Lemma add_custom_pattern_present category pattern s es :
  h_getitem (heap s) (config s) "extraction_settings" = Ok es ->
  h_contains (heap s) es category = Ok true ->
  add_custom_pattern category pattern s
  = match h_subscript (heap s) (config s) ["extraction_settings"; category; "patterns"] with
    | Ok patterns => append patterns (VStr pattern) s
    | Raise e => (Raise e, s)
    end.
Proof.
  intros Hes Hin. unfold add_custom_pattern.
  rewrite bind_run, self_config_run, bind_run, getitem_run, Hes.
  rewrite bind_run, contains_run, Hin. simpl.
  rewrite bind_run, ret_run, bind_run, self_config_run, bind_run, subscript_run.
  by destruct (h_subscript _ _ _).
Qed.

Lemma h_subscript_contains h cfg category settings :
  h_subscript h cfg ["extraction_settings"; category] = Ok settings ->
  exists es,
    h_getitem h cfg "extraction_settings" = Ok es
    /\ h_contains h es category = Ok true
    /\ h_getitem h es category = Ok settings.
Proof.
  unfold h_subscript.
  destruct (h_getitem h cfg "extraction_settings") as [es|] eqn:Ees; [|done].
  destruct (h_getitem h es category) as [st|] eqn:Est; [|done].
  intros [= <-]. exists es. split_and!; [done| |done].
  unfold h_getitem in Est. destruct es as [| | | | |le]; try done. simpl in *.
  destruct (h !! le) as [[des|]|]; try done.
  destruct (dict_lookup des category); [|done]. by rewrite bool_decide_eq_true_2.
Qed.

(** X17.  For a category that the extraction settings do not have,
    [add_custom_pattern] adds it after the categories that are there, as a
    new dictionary with [enabled] true and a new pattern list that holds
    the given pattern only; nothing else changes. *)
Theorem add_custom_pattern_creates_category (category pattern : string) (s : state)
    (le : loc) (des : list (string * val)) :
  wf s ->
  h_getitem (heap s) (config s) "extraction_settings" = Ok (VRef le) ->
  heap s !! le = Some (ODict des) ->
  dict_lookup des category = None ->
  add_custom_pattern category pattern s
  = (Ok tt,
     with_heap s
       (<[le := ODict (des ++ [(category, VRef (S (length (heap s))))])]> (heap s)
        ++ [OList [VStr pattern];
            ODict [("enabled", VBool true); ("patterns", VRef (length (heap s)))]])).
Proof. apply add_custom_pattern_new_run. Qed.

(** X18.  For a category that the extraction settings have,
    [add_custom_pattern] appends the pattern to the end of that category's
    pattern list, in place, and changes nothing else: the [enabled] flag
    of the category stays as it is, and a pattern that is already in the
    list is added once more. *)
Theorem add_custom_pattern_appends (category pattern : string) (s : state)
    (lp : loc) (xs : list val) :
  h_subscript (heap s) (config s) ["extraction_settings"; category; "patterns"]
  = Ok (VRef lp) ->
  heap s !! lp = Some (OList xs) ->
  add_custom_pattern category pattern s
  = (Ok tt, with_heap s (<[lp := OList (xs ++ [VStr pattern])]> (heap s))).
Proof. apply add_custom_pattern_old_run. Qed.

(** X19.  When [add_custom_pattern] raises before it changes anything:
    with the error of reading [extraction_settings] when the configuration
    does not have it; with the error of reading [patterns] when the
    category is there but its settings have no [patterns] (a KeyError,
    although a scan reads such a category as one without patterns); and
    with AttributeError when [patterns] is not a list. *)
Theorem add_custom_pattern_errors (category pattern : string) (s : state) :
  (forall e,
     h_getitem (heap s) (config s) "extraction_settings" = Raise e ->
     add_custom_pattern category pattern s = (Raise e, s))
  /\ (forall settings e,
        h_subscript (heap s) (config s) ["extraction_settings"; category] = Ok settings ->
        h_getitem (heap s) settings "patterns" = Raise e ->
        add_custom_pattern category pattern s = (Raise e, s))
  /\ (forall patterns,
        h_subscript (heap s) (config s) ["extraction_settings"; category; "patterns"]
        = Ok patterns ->
        (forall xs, deref (heap s) patterns <> Some (OList xs)) ->
        add_custom_pattern category pattern s = (Raise AttributeError, s)).
Proof.
  split_and!.
  - intros e He. unfold add_custom_pattern.
    by rewrite bind_run, self_config_run, bind_run, getitem_run, He.
  - intros settings e Hst He.
    destruct (h_subscript_contains _ _ _ _ Hst) as (es & Hes & Hin & Hget).
    rewrite (add_custom_pattern_present _ _ _ es) by done.
    unfold h_subscript. by rewrite Hes, Hget, He.
  - intros patterns Hsub Hnot.
    assert (exists settings,
               h_subscript (heap s) (config s) ["extraction_settings"; category]
               = Ok settings) as [settings Hst].
    { unfold h_subscript in *.
      destruct (h_getitem (heap s) (config s) "extraction_settings") as [es0|]; [|done].
      destruct (h_getitem (heap s) es0 category); [|done]. eauto. }
    destruct (h_subscript_contains _ _ _ _ Hst) as (es & Hes & Hin & Hget).
    rewrite (add_custom_pattern_present _ _ _ es), Hsub by done.
    unfold append. destruct patterns as [| | | | |lp]; try done.
    destruct (heap s !! lp) as [[|xs]|] eqn:E; try done.
    simpl in Hnot. rewrite E in Hnot. by destruct (Hnot xs).
Qed.


Lemma h_getitem_insert_list h (lp : loc) xs ys v k :
  h !! lp = Some (OList xs) ->
  h_getitem (<[lp := OList ys]> h) v k = h_getitem h v k.
Proof.
  intros Hlp. destruct (decide (v = VRef lp)) as [->|Hne].
  - unfold h_getitem. simpl.
    rewrite list_lookup_insert_eq by by eapply lookup_lt_Some. by rewrite Hlp.
  - by apply h_getitem_insert_ne.
Qed.

Lemma h_subscript_insert_list h (lp : loc) xs ys ks :
  h !! lp = Some (OList xs) ->
  forall v, h_subscript (<[lp := OList ys]> h) v ks = h_subscript h v ks.
Proof.
  intros Hlp. induction ks as [|k ks IH]; intros v; [done|].
  unfold h_subscript; fold h_subscript.
  rewrite (h_getitem_insert_list _ _ xs) by done.
  destruct (h_getitem h v k); [apply IH|done].
Qed.

Lemma dict_lookup_app_l {V} (d d' : list (string * V)) k v :
  dict_lookup d k = Some v -> dict_lookup (d ++ d') k = Some v.
Proof.
  induction d as [|[k0 v0] d IH]; simpl; [done|].
  destruct (bool_decide (k0 = k)); [done|apply IH].
Qed.

Lemma dict_lookup_app_r {V} (d : list (string * V)) k v :
  dict_lookup d k = None -> dict_lookup (d ++ [(k, v)]) k = Some v.
Proof.
  induction d as [|[k0 v0] d IH]; simpl.
  - by rewrite bool_decide_eq_true_2.
  - destruct (bool_decide (k0 = k)); [done|apply IH].
Qed.

Lemma add_custom_pattern_absent category pattern s es :
  wf s ->
  h_getitem (heap s) (config s) "extraction_settings" = Ok es ->
  h_contains (heap s) es category = Ok false ->
  (forall le des, es = VRef le -> heap s !! le <> Some (ODict des)) ->
  exists s', add_custom_pattern category pattern s = (Raise TypeError, s').
Proof.
  intros (Hok & Hcfg & _) Hes Hin Hnot.
  assert (Hesok : val_ok (length (heap s)) es) by by eapply (h_getitem_ok _ _ Hok (config s)).
  pose proof (agree_below_app (heap s)
                [OList []; ODict [("enabled", VBool true);
                                  ("patterns", VRef (length (heap s)))]]) as Hag.
  unfold add_custom_pattern.
  rewrite bind_run, self_config_run, bind_run, getitem_run, Hes.
  rewrite bind_run, contains_run, Hin. simpl.
  rewrite bind_run, bind_run, alloc_run, bind_run, alloc_run.
  rewrite !heap_with_heap, with_heap_with_heap. rewrite <- app_assoc. simpl.
  rewrite bind_run, self_config_run. cbn [config with_heap].
  rewrite bind_run, getitem_run, heap_with_heap.
  rewrite (h_getitem_agree _ _ _ Hag) by done. rewrite Hes.
  unfold setitem. destruct es as [| | | | |le]; try by eexists.
  rewrite heap_with_heap. simpl in Hesok. rewrite lookup_app_l by done.
  match goal with
  | |- context [match ?x with Some _ => _ | None => _ end] =>
      destruct x as [[des|xs]|] eqn:E
  end; try by eexists.
  by destruct (Hnot le des).
Qed.

(** What a call of [add_custom_pattern] that returns leaves behind. *)
Lemma add_custom_pattern_post category pattern s s1 :
  wf s -> add_custom_pattern category pattern s = (Ok tt, s1) ->
  wf s1
  /\ exists lp xs,
       h_subscript (heap s1) (config s1) ["extraction_settings"; category; "patterns"]
       = Ok (VRef lp)
       /\ heap s1 !! lp = Some (OList (xs ++ [VStr pattern]))
       /\ (~ is_ok (h_subscript (heap s) (config s) ["extraction_settings"; category]) ->
           xs = []
           /\ h_subscript (heap s1) (config s1) ["extraction_settings"; category; "enabled"]
              = Ok (VBool true)).
Proof.
  intros Hwf Hrun. pose proof Hwf as (Hok & Hcfg & Hdata).
  destruct (h_getitem (heap s) (config s) "extraction_settings") as [es|e] eqn:Hes.
  2: { unfold add_custom_pattern in Hrun.
       by rewrite bind_run, self_config_run, bind_run, getitem_run, Hes in Hrun. }
  destruct (h_contains (heap s) es category) as [[|]|e] eqn:Hin.
  - (* the category is there *)
    rewrite (add_custom_pattern_present _ _ _ es) in Hrun by done.
    destruct (h_subscript (heap s) (config s) ["extraction_settings"; category; "patterns"])
      as [patterns|] eqn:Hsub; [|done].
    unfold append in Hrun. destruct patterns as [| | | | |lp]; try done.
    destruct (heap s !! lp) as [[|xs]|] eqn:Hlp; try done.
    injection Hrun as <-. split.
    + split_and!; simpl; rewrite ?length_insert; try done.
      apply heap_ok_insert; [done|].
      pose proof (Hok lp _ (lookup_lt_Some _ _ _ Hlp) Hlp) as Hxs. simpl in *.
      apply Forall_app. split; [done|by repeat constructor].
    + exists lp, xs. simpl. split_and!.
      * by rewrite (h_subscript_insert_list _ _ xs).
      * apply list_lookup_insert_eq. by eapply lookup_lt_Some.
      * intros Hno. exfalso. apply Hno. unfold h_subscript in *.
        rewrite Hes in *. by destruct (h_getitem (heap s) es category).
  - (* the category is new *)
    assert (exists le des, es = VRef le /\ heap s !! le = Some (ODict des))
      as (le & des & -> & Hle).
    { destruct es as [| | | | |le];
        try (destruct (add_custom_pattern_absent category pattern s _ Hwf Hes Hin)
               as [s' Hs']; [done|by rewrite Hs' in Hrun]).
      destruct (heap s !! le) as [[des|xs]|] eqn:Hle; [by exists le, des| |];
        (destruct (add_custom_pattern_absent category pattern s _ Hwf Hes Hin)
           as [s' Hs']; [intros ? ? [= <-]; by rewrite Hle|by rewrite Hs' in Hrun]). }
    assert (Hc : dict_lookup des category = None).
    { simpl in Hin. rewrite Hle in Hin. injection Hin as Hin.
      apply bool_decide_eq_false in Hin.
      destruct (dict_lookup des category); [|done]. by destruct Hin. }
    rewrite (add_custom_pattern_new_run _ _ _ le des) in Hrun by done.
    injection Hrun as <-.
    set (n := length (heap s)).
    pose proof (lookup_lt_Some _ _ _ Hle) as Hlt. fold n in Hlt.
    set (entry := ODict [("enabled", VBool true); ("patterns", VRef n)]).
    set (d' := des ++ [(category, VRef (S n))]).
    set (hf := <[le := ODict d']> (heap s) ++ [OList [VStr pattern]; entry]).
    assert (Hlen : length (<[le := ODict d']> (heap s)) = n) by by rewrite length_insert.
    assert (Hget_es : h_getitem hf (config s) "extraction_settings" = Ok (VRef le)).
    { unfold h_getitem in *. destruct (config s) as [| | | | |lc]; try done.
      simpl in *. unfold hf. rewrite lookup_app_l by (rewrite Hlen; done).
      destruct (decide (lc = le)) as [->|Hne].
      - rewrite list_lookup_insert_eq by done. rewrite Hle in Hes.
        destruct (dict_lookup des "extraction_settings") as [v|] eqn:E; [|done].
        unfold d'. by rewrite (dict_lookup_app_l _ _ _ v).
      - by rewrite list_lookup_insert_ne. }
    assert (Hget_c : h_getitem hf (VRef le) category = Ok (VRef (S n))).
    { unfold h_getitem, hf. simpl. rewrite lookup_app_l by (rewrite Hlen; done).
      rewrite list_lookup_insert_eq by done. unfold d'. by rewrite dict_lookup_app_r. }
    assert (Hentry : forall k, h_getitem hf (VRef (S n)) k
                                = match dict_lookup [("enabled", VBool true);
                                                     ("patterns", VRef n)] k with
                                  | Some x => Ok x
                                  | None => Raise KeyError
                                  end).
    { intros k. unfold h_getitem, hf. simpl.
      rewrite lookup_app_r by (rewrite Hlen; lia). rewrite Hlen.
      by replace (S n - n) with 1 by lia. }
    unfold with_heap. cbn [heap config extracted_data]. fold n entry d' hf. split.
    + split_and!; cbn [heap config extracted_data].
      * assert (hf = <[le := ODict d']> (heap s ++ [OList [VStr pattern]; entry])) as ->.
        { unfold hf. by rewrite insert_app_l. }
        apply heap_ok_insert.
        -- change (heap s ++ [OList [VStr pattern]; entry])
             with (heap s ++ [OList [VStr pattern]] ++ [entry]).
           rewrite app_assoc. apply heap_ok_app.
           ++ apply heap_ok_app; [done|]. by repeat constructor.
           ++ rewrite length_app. simpl. split; [compute_done|].
              repeat constructor. simpl. fold n. lia.
        -- rewrite length_app. simpl. fold n.
           pose proof (Hok le _ Hlt Hle) as [Hnd Hvals]. split.
           ++ unfold d'. rewrite fmap_app. simpl. apply NoDup_app. split_and!; [done| |].
              ** intros x Hx Hx'. apply list_elem_of_singleton in Hx' as ->.
                 by apply dict_lookup_None in Hc.
              ** apply NoDup_singleton.
           ++ unfold d'. rewrite fmap_app. apply Forall_app. split.
              ** eapply Forall_impl; [done|]. intros v Hv. eapply val_ok_mono; [|done]. lia.
              ** repeat constructor. simpl. lia.
      * eapply val_ok_mono; [|done]. unfold hf. rewrite length_app. lia.
      * eapply val_ok_mono; [|done]. unfold hf. rewrite length_app. lia.
    + exists n, []. split_and!.
      * unfold h_subscript. by rewrite Hget_es, Hget_c, Hentry.
      * unfold hf. rewrite <- Hlen. by rewrite list_lookup_middle.
      * intros _. split; [done|].
        unfold h_subscript. by rewrite Hget_es, Hget_c, Hentry.
  - unfold add_custom_pattern in Hrun.
    by rewrite bind_run, self_config_run, bind_run, getitem_run, Hes, bind_run,
      contains_run, Hin in Hrun.
Qed.


Lemma all_matches_each pats text :
  forall matches matches' p,
    all_matches B pats text matches = Ok matches' ->
    VStr p ∈ pats ->
    exists found, re_findall B p text = Some found.
Proof.
  induction pats as [|pat pats IH]; intros matches matches' p Hall Hin.
  - by apply elem_of_nil in Hin.
  - simpl in Hall. destruct pat as [| | |q| |]; try done.
    destruct (re_findall B q text) as [found|] eqn:E; [|done].
    apply elem_of_cons in Hin as [[= ->]|Hin]; [by exists found|].
    by eapply IH.
Qed.

Lemma entry_of_expected pdf_path texts (results : list (string * list val)) c count its :
  (c, (count, its)) ∈ record_extraction_results (expected_record pdf_path texts results)
  <-> (c, its) ∈ results /\ count = VInt (Z.of_nat (length its)).
Proof.
  simpl. rewrite list_elem_of_fmap. split.
  - intros ([c' its'] & [= -> -> ->] & Hin). done.
  - intros [Hin ->]. by exists (c, its).
Qed.

Lemma settings_patterns_subscript h cfg category settings (lp : loc) xs :
  h_subscript h cfg ["extraction_settings"; category] = Ok settings ->
  h_subscript h cfg ["extraction_settings"; category; "patterns"] = Ok (VRef lp) ->
  h !! lp = Some (OList xs) ->
  settings_patterns h settings = Ok xs.
Proof.
  unfold h_subscript.
  destruct (h_getitem h cfg "extraction_settings") as [es|]; [|done].
  destruct (h_getitem h es category) as [st|]; [|done].
  intros [= ->]. unfold h_getitem, settings_patterns.
  destruct (deref h settings) as [[d|]|]; try done.
  destruct (dict_lookup d "patterns") as [v|]; [|done].
  intros [= ->] Hlp. simpl. by rewrite Hlp.
Qed.

(** X20.  A pattern added with [add_custom_pattern] is used by the next
    scan: if the record of that scan has an entry for the category, every
    match of the pattern in the scanned text is among its items; and if
    the category was new, the record has an entry for it whose items are
    exactly the distinct matches of the pattern. *)
Theorem added_pattern_is_scanned (category pattern pdf_path : string)
    (s s1 s2 : state) (r : val) :
  wf s ->
  add_custom_pattern category pattern s = (Ok tt, s1) ->
  scan_pdf B pdf_path s1 = (Ok r, s2) ->
  exists record,
    read_record (heap s2) r = Some record
    /\ (forall count its,
          (category, (count, its)) ∈ record_extraction_results record ->
          exists found,
            re_findall B pattern (join " " (acquired B pdf_path s1)) = Some found
            /\ forall m, m ∈ found -> val_of_match m ∈ its)
    /\ (~ is_ok (h_subscript (heap s) (config s) ["extraction_settings"; category]) ->
        exists found,
          re_findall B pattern (join " " (acquired B pdf_path s1)) = Some found
          /\ (category, (VInt (Z.of_nat (length (list_set found))), list_set found))
             ∈ record_extraction_results record).
Proof.
  intros Hwf Hadd Hscan.
  destruct (add_custom_pattern_post _ _ _ _ Hwf Hadd)
    as (Hwf1 & lp & xs & Hsub & Hlp & Hnew).
  destruct (scan_pdf_ok B pdf_path s1 r s2 Hwf1 Hscan) as (results & Hout & _ & _ & Hrec & _).
  destruct Hwf1 as (Hok1 & Hcfg1 & _).
  set (text := join " " (acquired B pdf_path s1)) in *.
  assert (exists settings,
             h_subscript (heap s1) (config s1) ["extraction_settings"; category]
             = Ok settings) as [settings Hst].
  { unfold h_subscript in *.
    destruct (h_getitem (heap s1) (config s1) "extraction_settings") as [es0|]; [|done].
    destruct (h_getitem (heap s1) es0 category); [|done]. eauto. }
  pose proof (settings_patterns_subscript _ _ _ _ _ _ Hst Hsub Hlp) as Hpats.
  eexists. split; [exact Hrec|]. split.
  - intros count its Hin. apply entry_of_expected in Hin as [Hin _].
    destruct (scan_outcome_entry B _ _ _ _ _ _ Hok1 Hcfg1 Hout Hin) as (st & Hst' & Hits).
    rewrite Hst in Hst'. injection Hst' as <-.
    unfold category_items in Hits.
    destruct (h_dict_get (heap s1) settings "enabled" (VBool true)) as [en|]; [|done].
    destruct (h_truthy (heap s1) en); [|done].
    rewrite Hpats in Hits.
    destruct (all_matches B (xs ++ [VStr pattern]) text []) as [matches|] eqn:Hall; [|done].
    injection Hits as <-.
    destruct (all_matches_each _ _ _ _ pattern Hall) as [found Hfound].
    { apply elem_of_app. right. by apply list_elem_of_singleton. }
    exists found. split; [done|]. intros m Hm.
    apply elem_of_list_set. exists m. split; [done|].
    apply (all_matches_elem B _ _ _ _ m Hall). right. exists pattern, found.
    split_and!; [|done|done]. apply elem_of_app. right. by apply list_elem_of_singleton.
  - intros Hno. destruct (Hnew Hno) as [-> Hen]. simpl in Hpats.
    destruct (scan_outcome_lookup B _ _ _ _ _ _ Hok1 Hcfg1 Hout Hst) as (its & Hits & Hin).
    unfold category_items in Hits. rewrite Hpats in Hits.
    assert (h_dict_get (heap s1) settings "enabled" (VBool true) = Ok (VBool true)) as Hget.
    { unfold h_subscript in Hen, Hst.
      destruct (h_getitem (heap s1) (config s1) "extraction_settings") as [es0|]; [|done].
      destruct (h_getitem (heap s1) es0 category) as [st|]; [|done].
      injection Hst as ->. unfold h_getitem in Hen. unfold h_dict_get.
      destruct (deref (heap s1) settings) as [[d|]|]; try done.
      by destruct (dict_lookup d "enabled"). }
    rewrite Hget in Hits. simpl in Hits.
    destruct (re_findall B pattern text) as [found|] eqn:Hfound; [|done].
    injection Hits as <-. exists found. split; [done|].
    apply entry_of_expected. split; [|done]. by apply Hin.
Qed.


(** *** Pattern extraction depends on the set of patterns only *)

Lemma all_matches_sub pats1 pats2 text :
  (forall x, x ∈ pats1 -> x ∈ pats2) ->
  forall acc2 matches2,
    all_matches B pats2 text acc2 = Ok matches2 ->
    forall acc1, exists matches1, all_matches B pats1 text acc1 = Ok matches1.
Proof.
  intros Hsub acc2 matches2 Hall2.
  induction pats1 as [|pat pats1 IH]; intros acc1; simpl; [by eexists|].
  assert (Hin : pat ∈ pats2) by (apply Hsub; by left).
  assert (exists p found, pat = VStr p /\ re_findall B p text = Some found)
    as (p & found & -> & Hfound).
  { clear IH Hsub. revert acc2 Hall2.
    induction pats2 as [|q pats2 IH2]; intros acc2 Hall2; [by apply elem_of_nil in Hin|].
    simpl in Hall2. destruct q as [| | |q| |]; try done.
    destruct (re_findall B q text) as [found|] eqn:E; [|done].
    apply elem_of_cons in Hin as [->|Hin]; [by exists q, found|].
    by eapply IH2. }
  rewrite Hfound. apply IH. intros x Hx. apply Hsub. by right.
Qed.

(** X8.  Pattern extraction depends on the set of patterns only.  If
    every pattern of one list is also in another for which
    [extract_patterns] returns, then it returns for the first list too and
    every item it finds there is among the items of the second; if the two
    lists hold the same patterns, in whatever order and however often,
    the items are the same up to their order.  Neither result holds an
    item twice. *)
Theorem extract_patterns_set_of_patterns (text : string) (s : state)
    (patterns1 patterns2 : val) (pats1 pats2 : list val) (r2 : val) (s2 : state) :
  h_iter (heap s) patterns1 = Ok pats1 ->
  h_iter (heap s) patterns2 = Ok pats2 ->
  (forall x, x ∈ pats1 -> x ∈ pats2) ->
  extract_patterns B text patterns2 s = (Ok r2, s2) ->
  exists r1 s1 items1 items2,
    extract_patterns B text patterns1 s = (Ok r1, s1)
    /\ deref (heap s1) r1 = Some (OList items1)
    /\ deref (heap s2) r2 = Some (OList items2)
    /\ NoDup items1 /\ NoDup items2
    /\ items1 ⊆ items2
    /\ ((forall x, x ∈ pats2 -> x ∈ pats1) -> items1 ≡ₚ items2).
Proof.
  intros H1 H2 Hsub Hrun2.
  rewrite extract_patterns_spec, H2 in Hrun2.
  destruct (all_matches B pats2 text []) as [matches2|] eqn:Hall2; [|done].
  injection Hrun2 as <- <-.
  destruct (all_matches_sub _ _ _ Hsub _ _ Hall2 []) as [matches1 Hall1].
  rewrite extract_patterns_spec, H1, Hall1.
  eexists _, _, (list_set matches1), (list_set matches2).
  split; [reflexivity|]. simpl. rewrite !list_lookup_middle by done.
  assert (Hin : forall pats pats' ms ms',
             (forall x, x ∈ pats -> x ∈ pats') ->
             all_matches B pats text [] = Ok ms -> all_matches B pats' text [] = Ok ms' ->
             list_set ms ⊆ list_set ms').
  { intros pats pats' ms ms' Hs Hms Hms' v Hv.
    apply elem_of_list_set in Hv as (m & -> & Hm). apply elem_of_list_set.
    exists m. split; [done|].
    apply (all_matches_elem B _ _ _ _ m Hms) in Hm as [Hm|(p & found & Hp & Hf & Hm)];
      [by apply elem_of_nil in Hm|].
    apply (all_matches_elem B _ _ _ _ m Hms'). right. exists p, found. auto. }
  split_and!; [done|done|apply list_set_NoDup|apply list_set_NoDup|by eapply Hin|].
  intros Hsup. apply NoDup_Permutation; [apply list_set_NoDup..|].
  intros v. split; [apply (Hin pats1 pats2)|apply (Hin pats2 pats1)]; done.
Qed.

(** *** The constructor *)

Lemma build_ok x :
  forall s,
    heap_ok (heap s) ->
    Forall (val_ok (length (heap s))) (leaves x) ->
    exists v h',
      build x s = (Ok v, with_heap s h')
      /\ heap_ok h' /\ val_ok (length h') v
      /\ length (heap s) <= length h'
      /\ agree_below (length (heap s)) (heap s) h'.
Proof.
  induction x as [v|kvs IH|xs IH] using literal_induction; intros s Hok Hl.
  - exists v, (heap s). rewrite with_heap_id. simpl in *.
    split_and!; [done|done|by apply Forall_inv in Hl|done|done].
  - cbn [build]. rewrite bind_run.
    assert (Hgo : forall s d,
               heap_ok (heap s) -> NoDup d.*1 ->
               Forall (val_ok (length (heap s))) d.*2 ->
               Forall (val_ok (length (heap s))) (leaves (LDict kvs)) ->
               exists d' h',
                 (fix go (kvs : list (string * literal)) (d : list (string * val))
                    : M (list (string * val)) :=
                    match kvs with
                    | [] => ret d
                    | (k, e) :: kvs' => v ← build e; go kvs' (dict_set d k v)
                    end) kvs d s = (Ok d', with_heap s h')
                 /\ heap_ok h' /\ NoDup d'.*1 /\ Forall (val_ok (length h')) d'.*2
                 /\ length (heap s) <= length h'
                 /\ agree_below (length (heap s)) (heap s) h').
    { clear s Hok Hl.
      induction kvs as [|[k e] kvs IHk]; intros s d Hok Hnd Hd Hl.
      - exists d, (heap s). rewrite with_heap_id. by split_and!.
      - apply Forall_cons in IH as [He IH]. cbn [leaves] in Hl.
        apply Forall_app in Hl as [Hle Hl]. simpl in He.
        destruct (He s Hok Hle) as (v & h1 & Hrun & Hok1 & Hv & Hlen1 & Hag1).
        rewrite bind_run, Hrun.
        destruct (IHk IH (with_heap s h1) (dict_set d k v)) as (d' & h' & Hrun' & ?).
        + done.
        + by apply dict_set_NoDup.
        + simpl. apply Forall_forall. intros y [->|Hy]%dict_set_values; [done|].
          rewrite Forall_forall in Hd. eapply val_ok_mono; [|by apply Hd]. done.
        + simpl. eapply Forall_impl; [exact Hl|]. intros y Hy.
          by eapply val_ok_mono.
        + exists d', h'. rewrite Hrun'. simpl in *. destruct_and!.
          split_and!; try done; [lia|].
          eapply agree_below_trans; [done|]. by eapply agree_below_weaken. }
    destruct (Hgo s [] Hok) as (d' & h' & -> & Hok' & Hnd & Hd & Hlen & Hag);
      [apply NoDup_nil_2|constructor|done|].
    rewrite alloc_run, with_heap_with_heap, heap_with_heap.
    eexists _, _. split; [reflexivity|]. rewrite length_app. simpl.
    split_and!; [|lia|lia|].
    + apply heap_ok_app; [done|]. split; [done|].
      eapply Forall_impl; [done|]. intros y Hy. eapply val_ok_mono; [|done]. lia.
    + eapply agree_below_trans; [done|].
      eapply agree_below_weaken; [|apply agree_below_app]. done.
  - cbn [build]. rewrite bind_run.
    assert (Hgo : forall s l,
               heap_ok (heap s) ->
               Forall (val_ok (length (heap s))) l ->
               Forall (val_ok (length (heap s))) (leaves (LList xs)) ->
               exists l' h',
                 (fix go (xs : list literal) (l : list val) : M (list val) :=
                    match xs with
                    | [] => ret l
                    | e :: xs' => v ← build e; go xs' (l ++ [v])
                    end) xs l s = (Ok l', with_heap s h')
                 /\ heap_ok h' /\ Forall (val_ok (length h')) l'
                 /\ length (heap s) <= length h'
                 /\ agree_below (length (heap s)) (heap s) h').
    { clear s Hok Hl.
      induction xs as [|e xs IHx]; intros s l Hok Hd Hl.
      - exists l, (heap s). rewrite with_heap_id. by split_and!.
      - apply Forall_cons in IH as [He IH]. cbn [leaves] in Hl.
        apply Forall_app in Hl as [Hle Hl].
        destruct (He s Hok Hle) as (v & h1 & Hrun & Hok1 & Hv & Hlen1 & Hag1).
        rewrite bind_run, Hrun.
        destruct (IHx IH (with_heap s h1) (l ++ [v])) as (l' & h' & Hrun' & ?).
        + done.
        + simpl. apply Forall_app. split; [|by repeat constructor].
          eapply Forall_impl; [exact Hd|]. intros y Hy. by eapply val_ok_mono.
        + simpl. eapply Forall_impl; [exact Hl|]. intros y Hy.
          by eapply val_ok_mono.
        + exists l', h'. rewrite Hrun'. simpl in *. destruct_and!.
          split_and!; try done; [lia|].
          eapply agree_below_trans; [done|]. by eapply agree_below_weaken. }
    destruct (Hgo s [] Hok) as (l' & h' & -> & Hok' & Hd & Hlen & Hag);
      [constructor|done|].
    rewrite alloc_run, with_heap_with_heap, heap_with_heap.
    eexists _, _. split; [reflexivity|]. rewrite length_app. simpl.
    split_and!; [|lia|lia|].
    + apply heap_ok_app; [done|]. simpl.
      eapply Forall_impl; [done|]. intros y Hy. eapply val_ok_mono; [|done]. lia.
    + eapply agree_below_trans; [done|].
      eapply agree_below_weaken; [|apply agree_below_app]. done.
Qed.

(** X21.  The constructor.  It raises and changes nothing when the
    configuration file cannot be loaded: FileNotFoundError when there is
    no such file, another OSError when the file cannot be opened, and
    ValueError (json.JSONDecodeError) when the file is not JSON.
    Otherwise it returns a scanner whose store is well formed, that has
    made no library call, whose [extracted_data] is an empty dictionary,
    and whose [get_summary] accordingly returns an empty dictionary. *)
Theorem init_gives_fresh_scanner (config_path : string) (s0 : state) :
  wf s0 ->
  match json_file B config_path with
  | NoSuchFile => init B config_path s0 = (Raise FileNotFoundError, s0)
  | Unreadable => init B config_path s0 = (Raise OSError, s0)
  | NotJson => init B config_path s0 = (Raise ValueError, s0)
  | JsonDocument doc =>
      Forall (val_ok (length (heap s0))) (leaves doc) ->
      exists s,
        init B config_path s0 = (Ok tt, s)
        /\ wf s
        /\ calls s = calls s0
        /\ agree_below (length (heap s0)) (heap s0) (heap s)
        /\ deref (heap s) (extracted_data s) = Some (ODict [])
        /\ exists summary s',
             get_summary s = (Ok summary, s')
             /\ deref (heap s') summary = Some (ODict [])
  end.
Proof.
  intros (Hok & _). unfold init, load_config.
  destruct (json_file B config_path) as [| | |doc]; [done..|].
  intros Hl. destruct (build_ok doc s0 Hok Hl) as (v & h' & Hrun & Hok' & Hv & Hlen & Hag).
  rewrite bind_run, Hrun. unfold set_config, set_extracted_data.
  rewrite !bind_run, alloc_run. simpl.
  eexists. split; [reflexivity|]. simpl. split_and!.
  - split_and!; simpl.
    + apply heap_ok_app; [done|]. split; [apply NoDup_nil_2|constructor].
    + eapply val_ok_mono; [|done]. rewrite length_app. lia.
    + rewrite length_app. simpl. lia.
  - done.
  - eapply agree_below_trans; [done|].
    eapply agree_below_weaken; [|apply agree_below_app]. done.
  - by apply list_lookup_middle.
  - unfold get_summary. rewrite bind_run, self_extracted_data_run. simpl.
    rewrite bind_run, truthy_run. simpl. rewrite list_lookup_middle by done. simpl.
    rewrite alloc_run. eexists _, _. split; [reflexivity|]. simpl.
    by apply list_lookup_middle.
Qed.

End More.

(** ** Exports before a scan *)

Section BeforeScan.

Context (B : backend).

Lemma export_without_data output_path s :
  h_truthy (heap s) (extracted_data s) = false ->
  export_to_csv B output_path s = (Raise ValueError, s)
  /\ export_to_json B output_path s = (Raise ValueError, s).
Proof.
  intros Ht. unfold export_to_csv, export_to_json. autorewrite with run.
  by rewrite Ht.
Qed.

(** Right after the constructor, the empty dictionary of [extracted_data]
    is sealed off from the rest of the store. *)
Lemma record_kept_after_init config_path s0 s :
  heap_ok (heap s0) ->
  (forall doc, json_file B config_path = JsonDocument doc ->
               Forall (val_ok (length (heap s0))) (leaves doc)) ->
  init B config_path s0 = (Ok tt, s) ->
  exists l : loc,
    extracted_data s = VRef l /\ heap s !! l = Some (ODict [])
    /\ record_kept l (S l) s s.
Proof.
  intros Hok Hl. unfold init, load_config.
  destruct (json_file B config_path) as [| | |doc]; [done..|].
  destruct (build_ok doc s0 Hok (Hl doc eq_refl)) as (v & h' & Hrun & Hok' & Hv & Hlen & Hag).
  rewrite bind_run, Hrun. unfold set_config, set_extracted_data.
  rewrite !bind_run, alloc_run. simpl. intros [= <-]. simpl.
  exists (length h'). split; [done|]. split; [by apply list_lookup_middle|].
  split_and!; simpl; try done.
  - rewrite length_app. simpl. lia.
  - intros l o [Hlt|Hge] Hlo.
    + rewrite lookup_app_l in Hlo by done. specialize (Hok' l o Hlt Hlo).
      destruct o as [d|xs]; simpl in *; [destruct Hok' as [_ Hok']|];
        (eapply Forall_impl; [done|]); intros [] ?; simpl in *; try done; lia.
    + apply lookup_lt_Some in Hlo. rewrite length_app in Hlo. simpl in Hlo. lia.
  - destruct v; simpl in *; try done. lia.
Qed.

(** C4.  Both exports raise ValueError, and then change nothing (no file
    is written), exactly when [extracted_data] is empty.  It is the empty
    dictionary from the constructor on, through any calls of
    [update_config] and [add_custom_pattern], returning or raising, in
    which the caller does not hand [update_config] that dictionary itself
    (keys are strings, see [NotEmbedded]).  After a scan that returned,
    neither export raises ValueError. *)
Theorem export_needs_scan (output_path : string) :
  (forall s,
     if h_truthy (heap s) (extracted_data s)
     then (export_to_csv B output_path s).1 <> Raise ValueError
          /\ (export_to_json B output_path s).1 <> Raise ValueError
     else export_to_csv B output_path s = (Raise ValueError, s)
          /\ export_to_json B output_path s = (Raise ValueError, s))
  /\ (forall config_path s0 s,
        wf s0 ->
        (forall doc, json_file B config_path = JsonDocument doc ->
                     Forall (val_ok (length (heap s0))) (leaves doc)) ->
        init B config_path s0 = (Ok tt, s) ->
        exists l : loc,
          extracted_data s = VRef l
          /\ forall cs,
               Forall (foreign l (S l)) cs -> embedded cs s ->
               deref (heap (run_calls cs s)) (extracted_data (run_calls cs s))
               = Some (ODict [])
               /\ export_to_csv B output_path (run_calls cs s)
                  = (Raise ValueError, run_calls cs s)
               /\ export_to_json B output_path (run_calls cs s)
                  = (Raise ValueError, run_calls cs s))
  /\ (forall pdf_path s r s',
        wf s -> scan_pdf B pdf_path s = (Ok r, s') ->
        (export_to_csv B output_path s').1 <> Raise ValueError
        /\ (export_to_json B output_path s').1 <> Raise ValueError).
Proof.
  split_and!.
  - intros s. destruct (h_truthy (heap s) (extracted_data s)) eqn:Ht.
    + split; [by apply export_to_csv_raises | by apply export_to_json_raises].
    + by apply export_without_data.
  - intros config_path s0 s (Hok & _) Hdoc Hinit.
    destruct (record_kept_after_init config_path s0 s Hok Hdoc Hinit)
      as (l & Hd & Hl & Hkept).
    exists l. split; [done|]. intros cs Hcs _.
    apply (record_kept_run_calls _ _ _ cs s Hcs) in Hkept.
    destruct Hkept as (Hag & _ & _ & _ & Hdata).
    assert (deref (heap (run_calls cs s)) (extracted_data (run_calls cs s))
            = Some (ODict [])) as Hempty.
    { rewrite Hdata, Hd. simpl. rewrite Hag by lia. done. }
    split; [done|]. apply export_without_data.
    rewrite Hdata, Hd in Hempty |- *. simpl in *. by rewrite Hempty.
  - intros pdf_path s r s' Hwf Hscan.
    destruct (scan_pdf_ok B pdf_path s r s' Hwf Hscan)
      as (results & _ & _ & Hd & Hrec & _ & _ & _ & _ & (l & -> & _) & _).
    assert (h_truthy (heap s') (extracted_data s') = true) as Ht.
    { rewrite Hd. unfold read_record, h_getitem in Hrec. simpl in *.
      destruct (heap s' !! l) as [[[|kv d]|]|]; done. }
    split; [by apply export_to_csv_raises | by apply export_to_json_raises].
Qed.

End BeforeScan.

(** ** The application *)

Section Application.

Context (B : backend).

Lemma build_values (vs : list val) s :
  build (LList (LVal <$> vs)) s
  = (Ok (VRef (length (heap s))), with_heap s (heap s ++ [OList vs])).
Proof.
  cbn [build]. rewrite bind_run.
  match goal with
  | |- context [(fix go (xs : list literal) (l : list val) {struct xs} := _) _ []] =>
      set (go := (fix go (xs : list literal) (l : list val) {struct xs} : M (list val) :=
                    match xs with
                    | [] => ret l
                    | e :: xs' => v ← build e; go xs' (l ++ [v])
                    end))
  end.
  assert (forall l, go (LVal <$> vs) l s = (Ok (l ++ vs), s)) as ->.
  { induction vs as [|v vs IH]; intros l; simpl.
    - by rewrite app_nil_r.
    - rewrite bind_run. simpl. rewrite IH. by rewrite <- app_assoc. }
  by rewrite alloc_run.
Qed.

Lemma build_category_settings enabled patterns s h n :
  length h = n ->
  build (App.category_settings enabled patterns) (with_heap s h)
  = (Ok (VRef (n + 1)), with_heap s (h ++ App.settings_objects n (enabled, patterns))).
Proof.
  intros <-.
  unfold App.category_settings, App.settings_objects, App.category_patterns.
  assert ((if enabled
           then (fun p => LVal (VStr p)) <$> App.str_split App.newline patterns
           else [])
          = LVal <$> (if enabled then VStr <$> App.str_split App.newline patterns else []))
    as ->.
  { destruct enabled; [|done]. by rewrite <- list_fmap_compose. }
  set (vs := if enabled then _ else _).
  change (build (LDict [("enabled", LVal (VBool enabled));
                        ("patterns", LList (LVal <$> vs))]) (with_heap s h))
    with ((d ← (v ← ret (VBool enabled);
                v' ← build (LList (LVal <$> vs));
                ret (dict_set (dict_set [] "enabled" v) "patterns" v'));
           alloc (ODict d)) (with_heap s h)).
  rewrite !bind_run, ret_run, bind_run, build_values. rewrite ret_run, alloc_run.
  simpl. rewrite length_app. simpl. by rewrite <- app_assoc.
Qed.

Lemma update_configuration_builds w s :
  App.update_configuration w s
  = (tesseract_config ← subscript (config s) ["ocr_settings"; "tesseract_config"];
     ocr_settings ← alloc (App.ocr_settings_object w (length (heap s)) tesseract_config);
     output_format ← getitem (config s) "output_format";
     new_config ← alloc (ODict [("extraction_settings", VRef (length (heap s) + 12));
                                ("ocr_settings", ocr_settings);
                                ("output_format", output_format)]);
     update_config new_config)
      (with_heap s (heap s ++ App.built_objects w (length (heap s)))).
Proof.
  unfold App.update_configuration.
  rewrite bind_run, self_config_run.
  cbn [build]. remember (length (heap s)) as n eqn:Hn.
  rewrite <- (with_heap_id s) at 1.
  assert (forall (g : list obj) k, length g = k -> length (heap s ++ g) = n + k) as Hlen.
  { intros g k <-. by rewrite length_app, Hn. }
  rewrite !bind_run.
  rewrite (build_category_settings _ _ s _ n) by done. cbn beta iota.
  rewrite !bind_run.
  rewrite (build_category_settings _ _ s _ (n + 2)) by by apply Hlen.
  cbn beta iota. rewrite !bind_run.
  rewrite <- (app_assoc (heap s)).
  rewrite (build_category_settings _ _ s _ (n + 4)) by by apply Hlen.
  cbn beta iota. rewrite !bind_run.
  rewrite <- (app_assoc (heap s)).
  rewrite (build_category_settings _ _ s _ (n + 6)) by by apply Hlen.
  cbn beta iota. rewrite !bind_run.
  rewrite <- (app_assoc (heap s)).
  rewrite (build_category_settings _ _ s _ (n + 8)) by by apply Hlen.
  cbn beta iota. rewrite !bind_run.
  rewrite <- (app_assoc (heap s)).
  rewrite (build_category_settings _ _ s _ (n + 10)) by by apply Hlen.
  cbn beta iota. rewrite <- (app_assoc (heap s)).
  rewrite ret_run, alloc_run. cbn beta iota.
  rewrite heap_with_heap, with_heap_with_heap.
  rewrite (Hlen _ 12) by reflexivity.
  repeat match goal with
         | |- context [dict_set ?d ?k ?v] =>
             let r := eval simpl in (dict_set d k v) in
             change (dict_set d k v) with r
         end.
  rewrite <- (app_assoc (heap s)).
  repeat (rewrite ?bind_run, ?ret_run; cbn beta iota).
  rewrite alloc_run. cbn beta iota. rewrite heap_with_heap, with_heap_with_heap.
  rewrite (Hlen _ 13) by reflexivity. rewrite <- (app_assoc (heap s)).
  repeat match goal with
         | |- context [dict_set ?d ?k ?v] =>
             let r := eval simpl in (dict_set d k v) in
             change (dict_set d k v) with r
         end.
  match goal with
  | |- context [heap s ++ ?g] => assert (g = App.built_objects w n) as ->
  end.
  { unfold App.built_objects. rewrite <- !Nat.add_assoc. simpl (_ + _)%nat.
    by rewrite <- !app_assoc. }
  reflexivity.
Qed.

Lemma update_configuration_raise_tc w s e :
  wf s ->
  h_subscript (heap s) (config s) ["ocr_settings"; "tesseract_config"] = Raise e ->
  App.update_configuration w s
  = (Raise e, with_heap s (heap s ++ App.built_objects w (length (heap s)))).
Proof.
  intros (Hok & Hcfg & _) Htc. rewrite update_configuration_builds.
  rewrite bind_run, subscript_run, heap_with_heap.
  rewrite (h_subscript_agree (length (heap s)) (heap s)), Htc; try done.
  apply agree_below_app.
Qed.

Lemma update_configuration_raise_of w s tesseract_config e :
  wf s ->
  h_subscript (heap s) (config s) ["ocr_settings"; "tesseract_config"]
  = Ok tesseract_config ->
  h_getitem (heap s) (config s) "output_format" = Raise e ->
  App.update_configuration w s
  = (Raise e,
     with_heap s (heap s ++ App.built_objects w (length (heap s))
                  ++ [App.ocr_settings_object w (length (heap s)) tesseract_config])).
Proof.
  intros (Hok & Hcfg & _) Htc Hof. rewrite update_configuration_builds.
  rewrite bind_run, subscript_run, heap_with_heap.
  rewrite (h_subscript_agree (length (heap s)) (heap s)), Htc;
    try done; [|apply agree_below_app].
  cbn beta iota. rewrite bind_run, alloc_run. cbn beta iota.
  rewrite bind_run, getitem_run, !heap_with_heap, with_heap_with_heap.
  rewrite <- (app_assoc (heap s)).
  rewrite (h_getitem_agree (length (heap s)) (heap s)), Hof; try done.
  apply agree_below_app.
Qed.

Lemma update_configuration_run w s (lc : loc) d tesseract_config output_format :
  wf s ->
  config s = VRef lc -> heap s !! lc = Some (ODict d) ->
  h_subscript (heap s) (config s) ["ocr_settings"; "tesseract_config"]
  = Ok tesseract_config ->
  h_getitem (heap s) (config s) "output_format" = Ok output_format ->
  App.update_configuration w s
  = (Ok tt,
     with_heap s
       (<[lc := ODict (dict_merge d (App.new_config_entries (length (heap s))
                                                            output_format))]>
          (heap s ++ App.new_objects w (length (heap s)) tesseract_config output_format))).
Proof.
  intros (Hok & Hcfg & _) Hc Hd Htc Hof. rewrite update_configuration_builds.
  rewrite bind_run, subscript_run, heap_with_heap.
  rewrite (h_subscript_agree (length (heap s)) (heap s)), Htc;
    try done; [|apply agree_below_app].
  cbn beta iota. rewrite bind_run, alloc_run. cbn beta iota.
  rewrite bind_run, getitem_run, !heap_with_heap, with_heap_with_heap.
  rewrite <- (app_assoc (heap s)).
  rewrite (h_getitem_agree (length (heap s)) (heap s)), Hof;
    try done; [|apply agree_below_app].
  cbn beta iota. rewrite bind_run, alloc_run. cbn beta iota.
  rewrite !heap_with_heap, with_heap_with_heap.
  rewrite <- (app_assoc (heap s)).
  assert (length (heap s ++ App.built_objects w (length (heap s)))
          = length (heap s) + 14) as -> by (by rewrite length_app).
  assert (length (heap s ++ App.built_objects w (length (heap s))
                  ++ [App.ocr_settings_object w (length (heap s)) tesseract_config])
          = length (heap s) + 15) as -> by (by rewrite !length_app).
  rewrite <- app_assoc.
  change (heap s ++ App.built_objects w (length (heap s)) ++ _)
    with (heap s ++ App.new_objects w (length (heap s)) tesseract_config output_format).
  erewrite update_config_run; [reflexivity|exact Hc| |].
  - rewrite heap_with_heap. apply lookup_app_l_Some. exact Hd.
  - rewrite heap_with_heap. simpl. rewrite lookup_app_r by lia.
    replace (length (heap s) + 15 - length (heap s)) with 15 by lia. reflexivity.
Qed.

Lemma heap_ok_app_list h g :
  heap_ok h -> Forall (obj_ok (length h + length g)) g -> heap_ok (h ++ g).
Proof.
  unfold heap_ok, closed_below. intros Hh Hg l o Hl Hlo. rewrite length_app.
  destruct (decide (l < length h)) as [Hlt|Hge].
  - rewrite lookup_app_l in Hlo by done.
    eapply obj_ok_mono; [|by apply (Hh l o)]. lia.
  - rewrite lookup_app_r in Hlo by lia. by eapply Forall_lookup_1 in Hg.
Qed.

Lemma category_patterns_ok m c : Forall (val_ok m) (App.category_patterns c).
Proof.
  unfold App.category_patterns. destruct (c.1); [|constructor].
  apply Forall_fmap, Forall_true. done.
Qed.

Lemma built_objects_ok w n m : n + 14 <= m -> Forall (obj_ok m) (App.built_objects w n).
Proof.
  intros Hm. unfold App.built_objects, App.settings_objects. simpl.
  repeat apply Forall_cons_2; try apply Forall_nil_2;
    try apply category_patterns_ok;
    (split; [compute_done|repeat constructor; simpl; lia]).
Qed.

Lemma new_objects_ok w n m tesseract_config output_format :
  n + 16 <= m -> val_ok m tesseract_config -> val_ok m output_format ->
  Forall (obj_ok m) (App.new_objects w n tesseract_config output_format).
Proof.
  intros Hm Htc Hof. unfold App.new_objects. apply Forall_app. split.
  - apply built_objects_ok. lia.
  - repeat apply Forall_cons_2; try apply Forall_nil_2;
      (split; [compute_done|repeat constructor; simpl; try done; lia]).
Qed.

Lemma wf_grown s g :
  wf s -> Forall (obj_ok (length (heap s) + length g)) g ->
  wf (with_heap s (heap s ++ g)).
Proof.
  intros (Hok & Hc & Hd) Hg. split_and!; simpl.
  - by apply heap_ok_app_list.
  - eapply val_ok_mono; [|done]. rewrite length_app. lia.
  - eapply val_ok_mono; [|done]. rewrite length_app. lia.
Qed.

Lemma update_configuration_cases w s :
  wf s ->
  (exists e g,
     (h_subscript (heap s) (config s) ["ocr_settings"; "tesseract_config"] = Raise e
      \/ is_ok (h_subscript (heap s) (config s) ["ocr_settings"; "tesseract_config"])
         /\ h_getitem (heap s) (config s) "output_format" = Raise e)
     /\ App.update_configuration w s = (Raise e, with_heap s (heap s ++ g))
     /\ wf (with_heap s (heap s ++ g)))
  \/ (exists (lc : loc) d tesseract_config output_format,
        config s = VRef lc /\ heap s !! lc = Some (ODict d)
        /\ h_subscript (heap s) (config s) ["ocr_settings"; "tesseract_config"]
           = Ok tesseract_config
        /\ h_getitem (heap s) (config s) "output_format" = Ok output_format
        /\ App.update_configuration w s
           = (Ok tt,
              with_heap s
                (<[lc := ODict (dict_merge d (App.new_config_entries (length (heap s))
                                                                     output_format))]>
                   (heap s ++ App.new_objects w (length (heap s))
                                              tesseract_config output_format)))
        /\ wf (with_heap s
                 (<[lc := ODict (dict_merge d (App.new_config_entries (length (heap s))
                                                                      output_format))]>
                    (heap s ++ App.new_objects w (length (heap s))
                                               tesseract_config output_format)))).
Proof.
  intros Hwf.
  destruct (h_subscript (heap s) (config s) ["ocr_settings"; "tesseract_config"])
    as [tesseract_config|e] eqn:Htc.
  2:{ left. exists e, (App.built_objects w (length (heap s))). split_and!; [by left| |].
      - by apply update_configuration_raise_tc.
      - apply wf_grown; [done|]. apply built_objects_ok. simpl. lia. }
  destruct (h_getitem (heap s) (config s) "output_format") as [output_format|e] eqn:Hof.
  2:{ left. exists e, (App.built_objects w (length (heap s))
                       ++ [App.ocr_settings_object w (length (heap s)) tesseract_config]).
      split_and!; [by right| |].
      - by apply update_configuration_raise_of.
      - apply wf_grown; [done|]. apply Forall_app. split.
        + apply built_objects_ok. rewrite length_app. simpl. lia.
        + apply Forall_cons_2; [|apply Forall_nil_2]. split; [compute_done|].
          repeat apply Forall_cons_2; try apply Forall_nil_2; simpl; try lia.
          destruct Hwf as (Hok & Hc & _).
          eapply val_ok_mono; [|exact (h_subscript_ok _ _ Hok _ _ _ Hc Htc)].
          lia. }
  right.
  assert (exists (lc : loc) d, config s = VRef lc /\ heap s !! lc = Some (ODict d))
    as (lc & d & Hc & Hd).
  { unfold h_getitem, deref in Hof. destruct (config s) as [| | | | |lc]; try done.
    destruct (heap s !! lc) as [[d|]|] eqn:E; try done. eauto. }
  exists lc, d, tesseract_config, output_format. split_and!; try done.
  - by apply update_configuration_run.
  - pose proof Hwf as (Hok & Hcfg & Hdata).
    assert (val_ok (length (heap s)) tesseract_config) as Htc'
      by exact (h_subscript_ok _ _ Hok _ _ _ Hcfg Htc).
    assert (val_ok (length (heap s)) output_format) as Hof'
      by exact (h_getitem_ok _ _ Hok _ _ _ Hcfg Hof).
    set (g := App.new_objects w (length (heap s)) tesseract_config output_format).
    assert (wf (with_heap s (heap s ++ g))) as Hwf'.
    { apply wf_grown; [done|]. apply new_objects_ok; [simpl; lia| |];
        (eapply val_ok_mono; [|done]); lia. }
    pose proof (update_config_wf (VRef (length (heap s) + 15))
                  (with_heap s (heap s ++ g)) lc d
                  (App.new_config_entries (length (heap s)) output_format) Hwf') as H.
    rewrite heap_with_heap, with_heap_with_heap in H. apply H; try done.
    + by apply lookup_app_l_Some.
    + simpl. rewrite lookup_app_r by lia.
      replace (length (heap s) + 15 - length (heap s)) with 15 by lia. reflexivity.
    + simpl. rewrite length_app. simpl. lia.
Qed.

Lemma lookup_insert_app_new (h g : list obj) (lc : loc) o k :
  lc < length h -> (<[lc := o]> (h ++ g)) !! (length h + k) = g !! k.
Proof.
  intros Hlc. rewrite list_lookup_insert_ne by lia. rewrite lookup_app_r by lia.
  f_equal. lia.
Qed.

Lemma lookup_insert_app_new0 (h g : list obj) (lc : loc) o :
  lc < length h -> (<[lc := o]> (h ++ g)) !! length h = g !! 0.
Proof.
  intros Hlc. rewrite <- (lookup_insert_app_new h g lc o 0) by done. f_equal. lia.
Qed.

Lemma lookup_insert_app_old (h g : list obj) (lc : loc) o (l : loc) :
  l < length h -> l <> lc -> (<[lc := o]> (h ++ g)) !! l = h !! l.
Proof.
  intros Hl Hne. rewrite list_lookup_insert_ne by done. by rewrite lookup_app_l.
Qed.

Lemma lookup_insert_app_eq (h g : list obj) (lc : loc) o :
  lc < length h -> (<[lc := o]> (h ++ g)) !! lc = Some o.
Proof. intros Hlc. apply list_lookup_insert_eq. rewrite length_app. lia. Qed.

Lemma h_subscript_cons h v k ks :
  h_subscript h v (k :: ks)
  = match h_getitem h v k with
    | Ok v' => h_subscript h v' ks
    | Raise e => Raise e
    end.
Proof. reflexivity. Qed.

Lemma h_subscript_nil h v : h_subscript h v [] = Ok v.
Proof. reflexivity. Qed.

Lemma update_configuration_inv w s s' :
  wf s -> App.update_configuration w s = (Ok tt, s') ->
  exists (lc : loc) d tesseract_config output_format,
    config s = VRef lc /\ heap s !! lc = Some (ODict d)
    /\ lc < length (heap s)
    /\ h_subscript (heap s) (config s) ["ocr_settings"; "tesseract_config"]
       = Ok tesseract_config
    /\ h_getitem (heap s) (config s) "output_format" = Ok output_format
    /\ s' = with_heap s
              (<[lc := ODict (dict_merge d (App.new_config_entries (length (heap s))
                                                                   output_format))]>
                 (heap s ++ App.new_objects w (length (heap s))
                                            tesseract_config output_format))
    /\ wf s'.
Proof.
  intros Hwf Hup.
  destruct (update_configuration_cases w s Hwf)
    as [(e & g & _ & Hr & _)|(lc & d & tc & fmt & Hc & Hd & Htc & Hof & Hr & Hwf')].
  - congruence.
  - rewrite Hr in Hup. injection Hup as <-.
    exists lc, d, tc, fmt. split_and!; try done. by apply lookup_lt_Some in Hd.
Qed.

Lemma update_configuration_shape w s s' :
  wf s -> App.update_configuration w s = (Ok tt, s') ->
  exists extraction_settings cats,
    h_getitem (heap s') (config s') "extraction_settings" = Ok extraction_settings
    /\ h_items (heap s') extraction_settings = Ok cats
    /\ Forall2 (fun (kv : string * val) (c : string * (bool * string)) =>
                  kv.1 = c.1
                  /\ exists lp : loc,
                       deref (heap s') kv.2
                       = Some (ODict [("enabled", VBool c.2.1); ("patterns", VRef lp)])
                       /\ heap s' !! lp = Some (OList (App.category_patterns c.2)))
               cats (App.categories w).
Proof.
  intros Hwf Hup.
  destruct (update_configuration_inv w s s' Hwf Hup)
    as (lc & d & tc & fmt & Hc & Hd & Hlc & Htc & Hof & -> & Hwf').
  set (n := length (heap s)).
  exists (VRef (n + 12)),
    [("equipment_tags", VRef (n + 1)); ("valves", VRef (n + 3));
     ("instruments", VRef (n + 5)); ("pipe_specifications", VRef (n + 7));
     ("pressure_ratings", VRef (n + 9)); ("material_specifications", VRef (n + 11))].
  split_and!.
  - unfold h_getitem, deref. cbn [heap config with_heap]. rewrite Hc.
    rewrite lookup_insert_app_eq by done.
    rewrite dict_merge_lookup by compute_done. reflexivity.
  - unfold h_items, deref. simpl. unfold n. by rewrite lookup_insert_app_new.
  - unfold App.categories, deref. simpl. unfold n.
    repeat apply Forall2_cons_2; try apply Forall2_nil_2; (split; [done|]); simpl.
    + exists (length (heap s)).
      split; [by rewrite lookup_insert_app_new|].
      by rewrite lookup_insert_app_new0.
    + exists (length (heap s) + 2). by rewrite !lookup_insert_app_new.
    + exists (length (heap s) + 4). by rewrite !lookup_insert_app_new.
    + exists (length (heap s) + 6). by rewrite !lookup_insert_app_new.
    + exists (length (heap s) + 8). by rewrite !lookup_insert_app_new.
    + exists (length (heap s) + 10). by rewrite !lookup_insert_app_new.
Qed.

Lemma shape_lookup {V C} (R : V -> C -> Prop) (cats : list (string * V))
    (cs : list (string * C)) c e :
  Forall2 (fun kv c => kv.1 = c.1 /\ R kv.2 c.2) cats cs ->
  NoDup cs.*1 -> (c, e) ∈ cs ->
  exists v, dict_lookup cats c = Some v /\ R v e.
Proof.
  induction 1 as [|[k v] [c' e'] cats cs [Hk HR] HF IH]; simpl in *.
  - by intros _ ?%elem_of_nil.
  - intros [Hc Hcs]%NoDup_cons [[= -> ->]|Hin]%elem_of_cons; subst.
    + exists v. by rewrite bool_decide_eq_true_2.
    + rewrite bool_decide_eq_false_2; [auto|].
      intros ->. apply Hc. apply list_elem_of_fmap. by exists (c, e).
Qed.

Lemma categories_NoDup w : NoDup (App.categories w).*1.
Proof. compute_done. Qed.

Lemma update_configuration_category w s s' c e :
  wf s -> App.update_configuration w s = (Ok tt, s') -> (c, e) ∈ App.categories w ->
  exists settings (lp : loc),
    h_subscript (heap s') (config s') ["extraction_settings"; c] = Ok settings
    /\ deref (heap s') settings
       = Some (ODict [("enabled", VBool e.1); ("patterns", VRef lp)])
    /\ heap s' !! lp = Some (OList (App.category_patterns e)).
Proof.
  intros Hwf Hup Hin.
  destruct (update_configuration_shape w s s' Hwf Hup) as (es & cats & Hes & Hcats & HF).
  destruct (shape_lookup
              (fun v (e : bool * string) =>
                 exists lp : loc,
                   deref (heap s') v
                   = Some (ODict [("enabled", VBool e.1); ("patterns", VRef lp)])
                   /\ heap s' !! lp = Some (OList (App.category_patterns e)))
              cats (App.categories w) c e HF (categories_NoDup w) Hin)
    as (settings & Hlook & lp & Hset & Hlp).
  exists settings, lp. split_and!; try done.
  rewrite h_subscript_cons, Hes. cbn beta iota. rewrite h_subscript_cons.
  unfold h_items in Hcats. unfold h_getitem.
  destruct (deref (heap s') es) as [[d|]|]; try done.
  injection Hcats as ->. by rewrite Hlook.
Qed.

Lemma h_subscript_snoc h ks k :
  forall v,
    h_subscript h v (ks ++ [k])
    = match h_subscript h v ks with
      | Ok v' => h_getitem h v' k
      | Raise e => Raise e
      end.
Proof.
  induction ks as [|k' ks IH]; intros v.
  - simpl app. rewrite h_subscript_cons, h_subscript_nil.
    by destruct (h_getitem h v k).
  - simpl app. rewrite !h_subscript_cons. destruct (h_getitem h v k'); [apply IH|done].
Qed.

Lemma Forall2_keys_eq {V C} (cats : list (string * V)) (cs : list (string * C)) :
  Forall2 (fun kv c => kv.1 = c.1) cats cs -> cats.*1 = cs.*1.
Proof.
  induction 1 as [|kv c cats cs Hk _ IH]; [done|].
  rewrite !fmap_cons. by rewrite Hk, IH.
Qed.

(** X22.  The Update Configuration button.  When the configuration has
    [ocr_settings.tesseract_config] and [output_format], the handler
    returns, and it changes the configuration dictionary and nothing else
    that existed.  Afterwards [extraction_settings] has exactly the six
    categories of the sidebar, in the order of the display, whatever
    categories it had before; each has its checkbox as [enabled] and as
    [patterns] the lines of its text area, or no pattern at all when it is
    not ticked; the dpi and the preprocessing flags are those of the
    widgets; [tesseract_config], [output_format] and every other
    top-level key are what they were. *)
Theorem update_button_sets_config (w : App.widgets) (s : state)
    (tesseract_config output_format : val) :
  wf s ->
  h_subscript (heap s) (config s) ["ocr_settings"; "tesseract_config"]
  = Ok tesseract_config ->
  h_getitem (heap s) (config s) "output_format" = Ok output_format ->
  exists s',
    App.update_configuration w s = (Ok tt, s')
    /\ wf s'
    /\ config s' = config s /\ extracted_data s' = extracted_data s
    /\ calls s' = calls s
    /\ (forall v, val_ok (length (heap s)) v -> v <> config s ->
                  deref (heap s') v = deref (heap s) v)
    /\ (exists extraction_settings cats,
          h_getitem (heap s') (config s') "extraction_settings" = Ok extraction_settings
          /\ h_items (heap s') extraction_settings = Ok cats
          /\ cats.*1 = (App.categories w).*1)
    /\ (forall c e,
          (c, e) ∈ App.categories w ->
          h_subscript (heap s') (config s') ["extraction_settings"; c; "enabled"]
          = Ok (VBool e.1)
          /\ exists patterns,
               h_subscript (heap s') (config s') ["extraction_settings"; c; "patterns"]
               = Ok patterns
               /\ deref (heap s') patterns = Some (OList (App.category_patterns e)))
    /\ h_subscript (heap s') (config s') ["ocr_settings"; "dpi"] = Ok (VInt (App.dpi w))
    /\ h_subscript (heap s') (config s') ["ocr_settings"; "preprocessing"; "denoise"]
       = Ok (VBool (App.denoise w))
    /\ h_subscript (heap s') (config s')
         ["ocr_settings"; "preprocessing"; "enhance_contrast"]
       = Ok (VBool (App.enhance_contrast w))
    /\ h_subscript (heap s') (config s') ["ocr_settings"; "preprocessing"; "sharpen"]
       = Ok (VBool (App.sharpen w))
    /\ h_subscript (heap s') (config s') ["ocr_settings"; "tesseract_config"]
       = Ok tesseract_config
    /\ h_getitem (heap s') (config s') "output_format" = Ok output_format
    /\ (forall k,
          k ∉ ["extraction_settings"; "ocr_settings"; "output_format"] ->
          h_getitem (heap s') (config s') k = h_getitem (heap s) (config s) k).
Proof.
  intros Hwf Htc Hof.
  destruct (update_configuration_cases w s Hwf)
    as [(e & g & [He|[Hok He]] & _)
       |(lc & d & tc & fmt & Hc & Hd & Htc' & Hof' & Hr & Hwf')]; try congruence.
  rewrite Htc in Htc'. rewrite Hof in Hof'. simplify_eq.
  eexists. split; [exact Hr|].
  pose proof (lookup_lt_Some _ _ _ Hd) as Hlc.
  cbn [heap config extracted_data calls with_heap].
  set (hf := <[lc := ODict (dict_merge d (App.new_config_entries (length (heap s)) fmt))]>
               (heap s ++ App.new_objects w (length (heap s)) tc fmt)) in *.
  assert (forall k,
            h_getitem hf (VRef lc) k
            = match dict_lookup (App.new_config_entries (length (heap s)) fmt) k with
              | Some v => Ok v
              | None => h_getitem (heap s) (VRef lc) k
              end) as Hget.
  { intros k. unfold h_getitem, deref, hf. rewrite lookup_insert_app_eq by done.
    rewrite dict_merge_lookup by compute_done. rewrite Hd.
    by destruct (dict_lookup (App.new_config_entries _ _) k). }
  assert (forall k key,
            h_getitem hf (VRef (length (heap s) + k)) key
            = h_getitem (App.new_objects w (length (heap s)) tc fmt) (VRef k) key)
    as Hnew.
  { intros k key. unfold h_getitem, deref, hf. by rewrite lookup_insert_app_new. }
  split_and!; try done.
  - intros [| | | | |l] Hv Hne; try done. simpl in *.
    apply lookup_insert_app_old; [done|]. rewrite Hc in Hne. congruence.
  - destruct (update_configuration_shape w s _ Hwf Hr) as (es & cats & Hes & Hcats & HF).
    exists es, cats. split_and!; try done.
    apply Forall2_keys_eq. eapply Forall2_impl; [exact HF|]. by intros ? ? [? _].
  - intros c e Hin.
    destruct (update_configuration_category w s _ c e Hwf Hr Hin)
      as (settings & lp & Hset & Hdict & Hlp).
    split.
    + rewrite (h_subscript_snoc _ ["extraction_settings"; c] "enabled").
      cbn [heap config with_heap] in Hset. fold hf in Hset. rewrite Hset.
      unfold h_getitem. cbn [heap with_heap] in Hdict. fold hf in Hdict.
      by rewrite Hdict.
    + exists (VRef lp). split; [|done].
      rewrite (h_subscript_snoc _ ["extraction_settings"; c] "patterns").
      cbn [heap config with_heap] in Hset. fold hf in Hset. rewrite Hset.
      unfold h_getitem. cbn [heap with_heap] in Hdict. fold hf in Hdict.
      by rewrite Hdict.
  - rewrite Hc, h_subscript_cons, Hget. simpl. by rewrite h_subscript_cons, Hnew.
  - rewrite Hc, h_subscript_cons, Hget. simpl. rewrite h_subscript_cons, Hnew. simpl.
    by rewrite h_subscript_cons, Hnew.
  - rewrite Hc, h_subscript_cons, Hget. simpl. rewrite h_subscript_cons, Hnew. simpl.
    by rewrite h_subscript_cons, Hnew.
  - rewrite Hc, h_subscript_cons, Hget. simpl. rewrite h_subscript_cons, Hnew. simpl.
    by rewrite h_subscript_cons, Hnew.
  - rewrite Hc, h_subscript_cons, Hget. simpl. by rewrite h_subscript_cons, Hnew.
  - by rewrite Hc, Hget.
  - intros k Hk. rewrite Hc, Hget.
    by rewrite (proj2 (dict_lookup_None (App.new_config_entries (length (heap s)) fmt) k)).
Qed.

(** X23.  When the configuration has no [ocr_settings.tesseract_config]
    or no [output_format], Update raises the error of that read before it
    touches the configuration: every object that existed is as it was, and
    the dictionaries made so far are left behind unused. *)
Theorem update_button_errors (w : App.widgets) (s : state) (e : exn) :
  wf s ->
  h_subscript (heap s) (config s) ["ocr_settings"; "tesseract_config"] = Raise e
  \/ is_ok (h_subscript (heap s) (config s) ["ocr_settings"; "tesseract_config"])
     /\ h_getitem (heap s) (config s) "output_format" = Raise e ->
  exists s',
    App.update_configuration w s = (Raise e, s')
    /\ wf s'
    /\ config s' = config s /\ extracted_data s' = extracted_data s
    /\ calls s' = calls s
    /\ agree_below (length (heap s)) (heap s) (heap s').
Proof.
  intros Hwf Herr.
  destruct (update_configuration_cases w s Hwf)
    as [(e' & g & He' & Hr & Hwf')
       |(lc & d & tc & fmt & Hc & Hd & Htc & Hof & _)].
  - assert (e' = e) as ->.
    { destruct Herr as [He|[Hok He]], He' as [He'|[Hok' He']]; try congruence.
      - by rewrite He in Hok'.
      - by rewrite He' in Hok. }
    eexists. split; [exact Hr|]. split_and!; try done. apply agree_below_app.
  - destruct Herr as [He|[_ He]]; congruence.
Qed.

Lemma str_split_piece (p rest : string) :
  App.newline ∉ list_ascii_of_string p ->
  App.str_split App.newline (p +:+ String App.newline rest)
  = p :: App.str_split App.newline rest.
Proof.
  induction p as [|c p IH]; simpl; intros Hp.
  - done.
  - apply not_elem_of_cons in Hp as [Hc Hp].
    destruct (Ascii.eqb c App.newline) eqn:E.
    + apply Ascii.eqb_eq in E. by subst.
    + by rewrite (IH Hp).
Qed.

Lemma str_split_single (p : string) :
  App.newline ∉ list_ascii_of_string p -> App.str_split App.newline p = [p].
Proof.
  induction p as [|c p IH]; simpl; intros Hp.
  - done.
  - apply not_elem_of_cons in Hp as [Hc Hp].
    destruct (Ascii.eqb c App.newline) eqn:E.
    + apply Ascii.eqb_eq in E. by subst.
    + by rewrite (IH Hp).
Qed.

Lemma str_split_join (ps : list string) :
  ps <> [] ->
  Forall (fun p => App.newline ∉ list_ascii_of_string p) ps ->
  App.str_split App.newline (join (String App.newline "") ps) = ps.
Proof.
  intros Hne Hps. induction Hps as [|p ps Hp Hps IH]; [done|].
  unfold join in *. destruct ps as [|p' ps].
  - simpl. by apply str_split_single.
  - change (String.concat (String App.newline "") (p :: p' :: ps))
      with (p +:+ String App.newline (String.concat (String App.newline "") (p' :: ps))).
    rewrite str_split_piece by done. by rewrite IH.
Qed.

Lemma join_str_split (t : string) :
  join (String App.newline "") (App.str_split App.newline t) = t.
Proof.
  unfold join. induction t as [|c t IH]; simpl; [done|].
  destruct (Ascii.eqb c App.newline) eqn:E.
  - apply Ascii.eqb_eq in E. subst c.
    destruct (App.str_split App.newline t) as [|p ps] eqn:Es.
    + simpl in *. by subst.
    + change (String.concat (String App.newline "") ("" :: p :: ps))
        with (String App.newline (String.concat (String App.newline "") (p :: ps))).
      by rewrite IH.
  - destruct (App.str_split App.newline t) as [|p ps] eqn:Es.
    + simpl in *. by subst.
    + destruct ps as [|p' ps]; simpl in *; by subst.
Qed.

(** X24.  Text area and pattern list.  What the sidebar shows for a
    category is its patterns joined by newlines, and Update takes the
    lines of the text area.  So a list of patterns that is shown and not
    edited comes back as it was if it is not empty and no pattern holds a
    newline, and an empty list comes back as the list with the empty
    pattern; and what Update has stored is shown again as it was typed. *)
Theorem pattern_lines_round_trip :
  (forall ps,
     Forall (fun p => App.newline ∉ list_ascii_of_string p) ps ->
     App.category_patterns (true, join (String App.newline "") ps)
     = VStr <$> match ps with [] => [""] | _ => ps end)
  /\ (forall t ps,
        App.category_patterns (true, t) = VStr <$> ps ->
        join (String App.newline "") ps = t).
Proof.
  split.
  - intros ps Hps. unfold App.category_patterns. simpl. destruct ps as [|p ps]; [done|].
    by rewrite str_split_join.
  - intros t ps Hps. unfold App.category_patterns in Hps. simpl in Hps.
    assert (Inj (=) (=) VStr) as HI by (by intros ? ? [= ->]).
    apply (inj (fmap VStr)) in Hps. subst. apply join_str_split.
Qed.







Lemma scan_category_raise text (r : loc) d category settings s e s' :
  heap s !! r = Some (ODict d) ->
  heap_ok (heap s) ->
  val_ok (length (heap s)) settings ->
  scan_category B text (VRef r) category settings s = (Raise e, s') ->
  s' = s \/ s' = with_heap s (heap s ++ [OList []]).
Proof.
  intros Hr Hok Hs. unfold scan_category.
  autorewrite with run.
  destruct (h_dict_get (heap s) settings "enabled" (VBool true)) as [enabled|e0] eqn:Een;
    [|intros [= <- <-]; by left].
  autorewrite with run.
  destruct (h_truthy (heap s) enabled); [|done].
  autorewrite with run.
  assert (Hag : agree_below (length (heap s)) (heap s) (heap s ++ [OList []]))
    by apply agree_below_app.
  rewrite (h_dict_get_agree _ _ _ Hag) by done.
  assert (exists sd, deref (heap s) settings = Some (ODict sd)) as [sd Hsd].
  { unfold h_dict_get in Een. destruct (deref (heap s) settings) as [[|]|]; eauto; done. }
  unfold h_dict_get. rewrite Hsd.
  assert (exists pv, match dict_lookup sd "patterns" with
                     | Some x => Ok x
                     | None => Ok (VRef (length (heap s)))
                     end = Ok pv) as (pv & ->).
  { destruct (dict_lookup sd "patterns") as [v|]; eauto. }
  rewrite bind_run, extract_patterns_spec, heap_with_heap.
  destruct (h_iter (heap s ++ [OList []]) pv) as [pats|e1];
    [|intros [= <- <-]; by right].
  destruct (all_matches B pats text []) as [matches|e1];
    [|intros [= <- <-]; by right].
  autorewrite with run.
  assert (h_len ((heap s ++ [OList []]) ++ [OList (list_set matches)])
            (VRef (length (heap s ++ [OList []])))
          = Ok (Z.of_nat (length (list_set matches)))) as ->.
  { simpl. by rewrite list_lookup_middle. }
  autorewrite with run.
  rewrite (setitem_run _ d); [done|].
  rewrite heap_with_heap, <- !app_assoc, lookup_app_l; [done|].
  by eapply lookup_lt_Some.
Qed.

Lemma for_each_raise_split {A} (xs : list A) (body : A -> M unit) :
  forall s e s',
    for_each xs body s = (Raise e, s') ->
    exists pre x post s1,
      xs = pre ++ x :: post
      /\ for_each pre body s = (Ok tt, s1)
      /\ body x s1 = (Raise e, s').
Proof.
  induction xs as [|x xs IH]; intros s e s'; simpl; [done|].
  rewrite bind_run. destruct (body x s) as [[[]|e0] s0] eqn:Eb.
  - intros H. destruct (IH _ _ _ H) as (pre & y & post & s1 & -> & Hpre & Hy).
    exists (x :: pre), y, post, s1. split_and!; try done.
    simpl. by rewrite bind_run, Eb.
  - intros [= <- <-]. by exists [], x, xs, s.
Qed.

Lemma closed_in_empty n h : closed_in n n h.
Proof. intros l o Hl. lia. Qed.

Lemma closed_in_app_leaf n h o :
  n <= length h -> closed_in n (length h) h -> children o = [] ->
  closed_in n (length (h ++ [o])) (h ++ [o]).
Proof.
  intros Hn Hc Ho l o' Hl Hlo. rewrite length_app in *. simpl in *.
  destruct (decide (l < length h)) as [Hlt|Hge].
  - rewrite lookup_app_l in Hlo by done.
    eapply Forall_impl; [apply (Hc l o'); [lia|done]|].
    intros [] ?; simpl in *; try done. lia.
  - assert (l = length h) as -> by lia.
    rewrite list_lookup_middle in Hlo by done. simplify_eq. rewrite Ho. constructor.
Qed.

Lemma scan_pdf_raise_wf pdf_path s e s' :
  wf s -> scan_pdf B pdf_path s = (Raise e, s') ->
  wf s' /\ config s' = config s /\ extracted_data s' = extracted_data s
  /\ agree_below (length (heap s)) (heap s) (heap s')
  /\ length (heap s) <= length (heap s')
  /\ closed_in (length (heap s)) (length (heap s')) (heap s').
Proof.
  intros Hwf. pose proof Hwf as (Hok & Hcfg & Hdata). unfold scan_pdf.
  destruct (os_path_exists B pdf_path); simpl.
  2: { intros [= <- <-]. split_and!; try done. apply closed_in_empty. }
  destruct (acquired_run B pdf_path s) as [cs Hacq].
  rewrite bind_run, Hacq. simpl.
  set (texts := acquired B pdf_path s). set (text := join " " texts).
  autorewrite with run. cbn [heap config logged].
  destruct (h_getitem (heap s) (config s) "extraction_settings") as [es|e0] eqn:Ees.
  2: { intros [= <- <-]. split_and!; try done. apply closed_in_empty. }
  assert (Hes : val_ok (length (heap s)) es) by by eapply (h_getitem_ok _ _ Hok (config s)).
  autorewrite with run. cbn [heap config logged with_heap].
  pose proof (agree_below_app (heap s) [ODict []]) as Hag0.
  rewrite (h_items_agree _ _ _ Hag0) by done.
  assert (Hok0 : heap_ok (heap s ++ [ODict []])).
  { apply heap_ok_app; [done|]. split; [apply NoDup_nil_2|constructor]. }
  assert (Hcl0 : closed_in (length (heap s)) (length (heap s ++ [ODict []]))
                           (heap s ++ [ODict []])).
  { apply closed_in_app_leaf; [done|apply closed_in_empty|done]. }
  destruct (h_items (heap s) es) as [categories|e0] eqn:Ecs.
  2: { intros [= <- <-]. cbn [heap config extracted_data with_heap logged].
       split_and!; try done.
       - split_and!; cbn [heap config extracted_data with_heap logged]; try done;
           (eapply val_ok_mono; [|done]); rewrite length_app; lia.
       - rewrite length_app. lia. }
  rewrite bind_run.
  set (s1 := with_heap (logged s cs) (heap s ++ [ODict []])).
  assert (Hcats : Forall (fun cs => val_ok (length (heap s)) cs.2) categories).
  { pose proof (h_items_ok _ _ Hok es categories Hes Ecs) as [_ Hvals].
    rewrite Forall_fmap in Hvals. done. }
  destruct (for_each categories
              (fun cs => scan_category B text (VRef (length (heap s))) cs.1 cs.2) s1)
    as [[[]|e0] s2] eqn:Eloop.
  { autorewrite with run. unfold set_extracted_data. done. }
  intros [= <- <-].
  destruct (for_each_raise_split _ _ _ _ _ Eloop)
    as (pre & [c st] & post & s1' & -> & Hpre & Hst).
  apply Forall_app in Hcats as [Hcpre Hcst]. apply Forall_cons in Hcst as [Hcst _].
  destruct (scan_loop_spec B text (length (heap s)) (length (heap s)) pre s1 [])
    as (h' & Hloop & Hag & Hlen); try done.
  { unfold s1; simpl. rewrite length_app. lia. }
  { unfold s1; simpl. eapply closed_below_agree; [apply Hag0|done]. }
  { exists []. split; [|constructor]. unfold s1; simpl. by apply list_lookup_middle. }
  change (heap s1) with (heap s ++ [ODict []]) in *.
  rewrite length_app in Hlen. simpl in Hlen.
  destruct (scan_results B (heap s ++ [ODict []]) text pre []) as [results|e1];
    [|congruence].
  destruct Hloop as (Hrun & (d & Hd & _) & Hok' & Hnew).
  rewrite Hrun in Hpre. injection Hpre as <-.
  assert (Hag1 : agree_below (length (heap s)) (heap s) h')
    by by eapply agree_below_trans.
  simpl in Hst.
  apply (scan_category_raise _ _ d) in Hst; cbn [heap with_heap]; try done.
  2: { eapply val_ok_mono; [|done]. lia. }
  destruct Hst as [->| ->]; cbn [heap config extracted_data with_heap logged s1].
  - split_and!; try done; [|lia].
    split_and!; cbn [heap config extracted_data with_heap logged]; try done;
      (eapply val_ok_mono; [|done]); lia.
  - split_and!; try done.
    + split_and!; cbn [heap config extracted_data with_heap logged].
      * apply heap_ok_app; [done|]. constructor.
      * eapply val_ok_mono; [|done]. rewrite length_app. lia.
      * eapply val_ok_mono; [|done]. rewrite length_app. lia.
    + eapply agree_below_trans; [done|].
      eapply agree_below_weaken; [|apply agree_below_app]. lia.
    + rewrite length_app. lia.
    + apply closed_in_app_leaf; [lia|done|done].
Qed.
End Application.

(** ** The session of the application *)

Section Session.

Context (B : backend).

Lemma record_kept_grow a n s1 s s' :
  record_kept a n s1 s ->
  config s' = config s -> extracted_data s' = extracted_data s ->
  agree_below (length (heap s)) (heap s) (heap s') ->
  length (heap s) <= length (heap s') ->
  closed_in (length (heap s)) (length (heap s')) (heap s') ->
  record_kept a n s1 s'.
Proof.
  intros (Hag & Hn & Hsealed & Hcfg & Hdata) Hc Hd Hb Hlen Hnew.
  split_and!.
  - intros l Hl. rewrite Hb by lia. by apply Hag.
  - lia.
  - intros l o Hl Hlo. destruct (decide (l < length (heap s))) as [Hlt|Hge].
    + rewrite Hb in Hlo by done. by apply (Hsealed l o).
    + assert (Hlr : length (heap s) <= l < length (heap s')).
      { split; [lia|]. by eapply lookup_lt_Some. }
      eapply Forall_impl; [apply (Hnew l o Hlr Hlo)|].
      intros [] ?; simpl in *; try done. lia.
  - by rewrite Hc.
  - by rewrite Hd.
Qed.

Lemma record_kept_read a n s1 s r :
  record_kept a n s1 s -> closed_in a n (heap s1) -> val_in a n r ->
  read_record (heap s) r = read_record (heap s1) r.
Proof.
  intros (Hag & _) Hcl Hr. by apply (read_record_frame a n (heap s1) (heap s)).
Qed.

Lemma leaves_values (vs : list val) : leaves (LList (LVal <$> vs)) = vs.
Proof.
  induction vs as [|v vs IH]; [done|].
  change (leaves (LList (LVal <$> v :: vs))) with (v :: leaves (LList (LVal <$> vs))).
  by rewrite IH.
Qed.

Lemma leaves_dict_cons k e kvs :
  leaves (LDict ((k, e) :: kvs)) = leaves e ++ leaves (LDict kvs).
Proof. reflexivity. Qed.

Lemma leaves_category_settings a n enabled patterns :
  Forall (val_out a n) (leaves (App.category_settings enabled patterns)).
Proof.
  unfold App.category_settings.
  assert ((if enabled
           then (fun p => LVal (VStr p)) <$> App.str_split App.newline patterns
           else [])
          = LVal <$> (if enabled then VStr <$> App.str_split App.newline patterns else []))
    as ->.
  { destruct enabled; [|done]. by rewrite <- list_fmap_compose. }
  set (vs := if enabled then _ else _).
  change (leaves (LDict [("enabled", LVal (VBool enabled));
                         ("patterns", LList (LVal <$> vs))]))
    with ([VBool enabled] ++ leaves (LList (LVal <$> vs)) ++ []).
  rewrite leaves_values, app_nil_r. apply Forall_cons_2; [done|].
  unfold vs. destruct enabled; [|constructor]. apply Forall_fmap, Forall_true. done.
Qed.

Lemma keeps_record_update_configuration a n s1 w :
  keeps_record a n s1 (App.update_configuration w) (fun _ => True).
Proof.
  unfold App.update_configuration.
  eapply keeps_record_bind; [apply keeps_record_self_config|]. intros cfg Hcfg.
  eapply keeps_record_bind.
  { apply keeps_record_build. rewrite !leaves_dict_cons.
    do 6 (apply Forall_app; split; [apply leaves_category_settings|]).
    constructor. }
  intros es Hes.
  eapply keeps_record_bind.
  { apply keeps_record_build. simpl. by repeat constructor. }
  intros pre Hpre.
  eapply keeps_record_bind; [by apply keeps_record_subscript|]. intros tc Htc.
  eapply keeps_record_bind.
  { apply keeps_record_alloc. simpl. by repeat constructor. }
  intros ocr Hocr.
  eapply keeps_record_bind; [by apply keeps_record_getitem|]. intros fmt Hfmt.
  eapply keeps_record_bind.
  { apply keeps_record_alloc. simpl. by repeat constructor. }
  intros new Hnew. by apply keeps_record_update_config.
Qed.

Lemma update_configuration_wf w s : wf s -> wf (App.update_configuration w s).2.
Proof.
  intros Hwf.
  destruct (update_configuration_cases w s Hwf)
    as [(e & g & _ & -> & Hwf')|(lc & d & tc & fmt & _ & _ & _ & _ & -> & Hwf')]; done.
Qed.

Lemma update_configuration_empty_data w s :
  wf s ->
  deref (heap s) (extracted_data s) = Some (ODict []) ->
  extracted_data s <> config s ->
  deref (heap (App.update_configuration w s).2)
        (extracted_data (App.update_configuration w s).2) = Some (ODict [])
  /\ extracted_data (App.update_configuration w s).2
     <> config (App.update_configuration w s).2.
Proof.
  intros Hwf Hd Hne.
  destruct (extracted_data s) as [| | | | |l] eqn:El; try done. simpl in Hd.
  pose proof (lookup_lt_Some _ _ _ Hd) as Hl.
  destruct (update_configuration_cases w s Hwf)
    as [(e & g & _ & -> & _)|(lc & d & tc & fmt & Hc & Hlc & _ & _ & -> & _)];
    cbn [snd heap config extracted_data with_heap]; rewrite El; (split; [|done]); simpl.
  - by rewrite lookup_app_l.
  - rewrite lookup_insert_app_old; [done|done|]. rewrite Hc in Hne. congruence.
Qed.

Lemma record_keys_NoDup h data record :
  heap_ok h -> val_ok (length h) data -> read_record h data = Some record ->
  NoDup (record_extraction_results record).*1.
Proof.
  intros Hok Hdata Hrec.
  destruct (read_record_inv _ _ _ Hrec) as (l & res & d & _ & _ & Eres & Hres & Hd2 & _).
  rewrite (Forall2_keys d _ (read_entry h) Hd2).
  assert (val_ok (length h) res) as Hresok by exact (h_getitem_ok _ _ Hok _ _ _ Hdata Eres).
  by destruct (deref_ok _ _ _ _ Hok Hresok Hres) as [Hnd _].
Qed.

Lemma get_summary_kept a n s1 s pdf_path text_content found :
  wf s -> record_kept a n s1 s -> closed_in a n (heap s1) ->
  val_in a n (extracted_data s1) ->
  read_record (heap s1) (extracted_data s1)
  = Some (expected_record pdf_path text_content found) ->
  wf (get_summary s).2 /\ record_kept a n s1 (get_summary s).2.
Proof.
  intros Hwf Hkept Hcl Hin Hrec. pose proof Hwf as (Hok & Hcfg & Hdata).
  pose proof Hkept as (_ & _ & _ & _ & Hd).
  assert (read_record (heap s) (extracted_data s)
          = Some (expected_record pdf_path text_content found)) as Hrec'.
  { rewrite Hd. by rewrite (record_kept_read a n s1 s). }
  rewrite (get_summary_run s _ Hok Hrec'). cbn [snd].
  set (o := ODict _).
  assert (Hch : Forall (fun v => forall l, v <> VRef l) (children o)).
  { unfold o. simpl. rewrite <- !list_fmap_compose. apply Forall_fmap, Forall_true.
    by intros [c its] l. }
  split.
  - apply (wf_grown s [o]); [done|]. apply Forall_cons_2; [|constructor]. split.
    + unfold o. rewrite <- list_fmap_compose.
      change (fst ∘ (fun e : string * (val * list val) => (e.1, e.2.1)))
        with (fst : string * (val * list val) -> string).
      by eapply record_keys_NoDup.
    + eapply Forall_impl; [exact Hch|]. intros [] Hv; simpl; try done. by destruct (Hv l).
  - eapply record_kept_grow; try done; cbn [heap with_heap].
    + apply agree_below_app.
    + rewrite length_app. lia.
    + intros l o' Hl Hlo. rewrite length_app in Hl. simpl in Hl.
      assert (l = length (heap s)) as -> by lia.
      rewrite list_lookup_middle in Hlo by done. simplify_eq.
      eapply Forall_impl; [exact Hch|]. intros [] Hv; simpl; try done. by destruct (Hv l).
Qed.

Lemma export_to_json_state output_path s :
  exists cs, (export_to_json B output_path s).2 = logged s cs.
Proof.
  unfold export_to_json. autorewrite with run.
  destruct (negb (h_truthy (heap s) (extracted_data s))).
  { exists []. by rewrite logged_nil. }
  destruct (open_write B output_path).
  - autorewrite with run. by eexists [_].
  - exists []. by rewrite logged_nil.
Qed.

Lemma session_inv_step ss e : App.session_inv ss -> App.session_inv (App.handle B ss e).
Proof.
  destruct ss as [s res]. intros [Hwf Hres]. simpl in *.
  destruct e as [w|tmp_file_path| | |]; simpl.
  - (* Update Configuration *)
    split; [by apply update_configuration_wf|]. simpl.
    destruct res as [r|].
    + destruct Hres as (a & n & s1 & p & texts & found & Hkept & Hrest).
      exists a, n, s1, p, texts, found. split; [|done].
      by apply (keeps_record_update_configuration a n s1 w s).
    + destruct Hres as [Hd Hne]. by apply update_configuration_empty_data.
  - (* Scan PDF *)
    unfold App.scan_button. simpl.
    destruct (scan_pdf B tmp_file_path s) as [[r|x] s'] eqn:Escan.
    + destruct (scan_pdf_ok B tmp_file_path s r s' Hwf Escan)
        as (found & _ & _ & Hd & Hrec & Hwf' & _ & _ & Hlen & (l & -> & Hl) & Hcl).
      split; [done|]. simpl.
      exists (length (heap s)), (length (heap s')), s', tmp_file_path,
        (acquired B tmp_file_path s), found.
      split_and!; try done.
      * by eapply record_kept_after_scan.
      * destruct Hwf' as (_ & _ & Hr). by rewrite Hd in Hr.
    + destruct (scan_pdf_raise_wf B tmp_file_path s x s' Hwf Escan)
        as (Hwf' & Hc & Hd & Hag & Hlen & Hcl).
      split; [done|]. simpl. destruct res as [r|].
      * destruct Hres as (a & n & s1 & p & texts & found & Hkept & Hrest).
        exists a, n, s1, p, texts, found. split; [|done].
        by eapply record_kept_grow.
      * destruct Hres as [He Hne]. rewrite Hd, Hc. split; [|done].
        rewrite <- He. eapply deref_agree; [done|]. by destruct Hwf as (_ & _ & ?).
  - (* the summary *)
    destruct res as [r|]; simpl; [|done].
    destruct Hres as (a & n & s1 & p & texts & found & Hkept & Hcl & Hin & <- & Hrec).
    destruct (get_summary_kept a n s1 s p texts found) as [Hwf' Hkept']; try done.
    split; [done|]. simpl.
    exists a, n, s1, p, texts, found. by split_and!.
  - (* export to CSV *)
    destruct res as [r|]; simpl; [|done].
    destruct Hres as (a & n & s1 & p & texts & found & Hkept & Hcl & Hin & <- & Hrec).
    assert (read_record (heap s) (extracted_data s)
            = Some (expected_record p texts found)) as Hrec'.
    { pose proof Hkept as (_ & _ & _ & _ & Hd). rewrite Hd.
      by rewrite (record_kept_read a n s1 s). }
    unfold App.on_scanner. cbn [App.scanner App.results].
    rewrite (export_to_csv_run B _ s _ Hrec').
    destruct (open_write B "extracted_data.csv"); simpl.
    + split; [done|]. exists a, n, s1, p, texts, found. by split_and!.
    + split; [done|]. exists a, n, s1, p, texts, found. by split_and!.
  - (* export to JSON *)
    destruct res as [r|]; simpl; [|done].
    unfold App.on_scanner. cbn [App.scanner App.results].
    destruct (export_to_json_state "extracted_data.json" s) as [cs ->].
    split; [done|]. simpl. exact Hres.
Qed.

Lemma session_inv_run es :
  forall ss, App.session_inv ss -> App.session_inv (App.run B es ss).
Proof.
  unfold App.run. induction es as [|e es IH]; intros ss Hss; simpl; [done|].
  apply IH. by apply session_inv_step.
Qed.

(** The session that [PIDScanner(config_path)] starts is fresh. *)
Lemma init_fresh config_path s0 s :
  heap_ok (heap s0) ->
  (forall doc, json_file B config_path = JsonDocument doc ->
               Forall (val_ok (length (heap s0))) (leaves doc)) ->
  init B config_path s0 = (Ok tt, s) ->
  App.fresh {| App.scanner := s; App.results := None |}.
Proof.
  intros Hok Hl. unfold init, load_config.
  destruct (json_file B config_path) as [| | |doc]; [done..|].
  destruct (build_ok doc s0 Hok (Hl doc eq_refl)) as (v & h' & Hrun & Hok' & Hv & Hlen & Hag).
  rewrite bind_run, Hrun. unfold set_config, set_extracted_data.
  rewrite !bind_run, alloc_run. simpl. intros [= <-]. split_and!; simpl.
  - split_and!; simpl.
    + apply heap_ok_app; [done|]. split; [apply NoDup_nil_2|constructor].
    + eapply val_ok_mono; [|done]. rewrite length_app. lia.
    + rewrite length_app. simpl. lia.
  - done.
  - by apply list_lookup_middle.
  - intros <-. simpl in Hv. lia.
Qed.

Lemma fresh_session_inv ss : App.fresh ss -> App.session_inv ss.
Proof. intros (Hwf & Hres & Hd & Hne). split; [done|]. by rewrite Hres. Qed.

Lemma handle_keeps a n s1 ss e r pdf_path text_content found :
  wf (App.scanner ss) -> App.results ss = Some r ->
  record_kept a n s1 (App.scanner ss) -> closed_in a n (heap s1) ->
  val_in a n r -> extracted_data s1 = r ->
  read_record (heap s1) r = Some (expected_record pdf_path text_content found) ->
  (forall p r' s', e = App.ScanPDF p -> scan_pdf B p (App.scanner ss) <> (Ok r', s')) ->
  App.results (App.handle B ss e) = Some r
  /\ record_kept a n s1 (App.scanner (App.handle B ss e)).
Proof.
  destruct ss as [s res]. simpl. intros Hwf -> Hkept Hcl Hin <- Hrec Hscan.
  destruct e as [w|tmp_file_path| | |]; simpl.
  - split; [done|]. by apply (keeps_record_update_configuration a n s1 w s).
  - unfold App.scan_button. simpl.
    destruct (scan_pdf B tmp_file_path s) as [[r|x] s'] eqn:Escan.
    { by destruct (Hscan tmp_file_path r s'). }
    destruct (scan_pdf_raise_wf B tmp_file_path s x s' Hwf Escan)
      as (Hwf' & Hc & Hd & Hag & Hlen & Hcl').
    split; [done|]. by eapply record_kept_grow.
  - split; [done|]. by destruct (get_summary_kept a n s1 s pdf_path text_content found).
  - split; [done|].
    assert (read_record (heap s) (extracted_data s)
            = Some (expected_record pdf_path text_content found)) as Hrec'.
    { pose proof Hkept as (_ & _ & _ & _ & Hd). rewrite Hd.
      by rewrite (record_kept_read a n s1 s). }
    rewrite (export_to_csv_run B _ s _ Hrec').
    by destruct (open_write B "extracted_data.csv").
  - split; [done|].
    by destruct (export_to_json_state "extracted_data.json" s) as [cs ->].
Qed.

(** X26.  The session.  From a fresh session, after any sequence of
    Update, Scan, summary and export events, returning or raising: while
    the session has no [results], [extracted_data] is still the empty
    dictionary; once it has, [results] is the very object
    [extracted_data] refers to and reads as the record of a scan, so the
    two export buttons never raise ValueError. *)
Theorem session_results_are_scanner_data (es : list App.event) (ss0 : App.session) :
  App.fresh ss0 ->
  match App.results (App.run B es ss0) with
  | None =>
      deref (heap (App.scanner (App.run B es ss0)))
            (extracted_data (App.scanner (App.run B es ss0)))
      = Some (ODict [])
  | Some r =>
      extracted_data (App.scanner (App.run B es ss0)) = r
      /\ (exists pdf_path text_content found,
            read_record (heap (App.scanner (App.run B es ss0))) r
            = Some (expected_record pdf_path text_content found))
      /\ (export_to_csv B "extracted_data.csv" (App.scanner (App.run B es ss0))).1
         <> Raise ValueError
      /\ (export_to_json B "extracted_data.json" (App.scanner (App.run B es ss0))).1
         <> Raise ValueError
  end.
Proof.
  intros Hfresh.
  pose proof (session_inv_run es ss0 (fresh_session_inv ss0 Hfresh)) as [Hwf Hres].
  destruct (App.results (App.run B es ss0)) as [r|]; [|by destruct Hres].
  destruct Hres as (a & n & s1 & p & texts & found & Hkept & Hcl & Hin & Hd & Hrec).
  pose proof Hkept as (_ & _ & _ & _ & Hd').
  assert (read_record (heap (App.scanner (App.run B es ss0))) r
          = Some (expected_record p texts found)) as Hrec'.
  { by rewrite (record_kept_read a n s1 _ r Hkept Hcl Hin). }
  assert (h_truthy (heap (App.scanner (App.run B es ss0)))
                   (extracted_data (App.scanner (App.run B es ss0))) = true) as Ht.
  { rewrite Hd', Hd. by destruct (read_record_inv _ _ _ Hrec')
      as (? & ? & ? & ? & ? & ? & ? & ? & ?). }
  split_and!.
  - congruence.
  - by exists p, texts, found.
  - by apply export_to_csv_raises.
  - by apply export_to_json_raises.
Qed.

(** X27.  The record of the session changes only by a scan that
    returns.  Every other event (an Update, a scan that raises, the
    summary, an export) leaves [results] as it is, [extracted_data]
    referring to it, and the record reading as before; a scan that returns
    puts an object there that is not the one before. *)
Theorem session_record_changes_only_by_scan (es : list App.event) (ss0 : App.session)
    (e : App.event) :
  App.fresh ss0 ->
  (exists tmp_file_path r s',
     e = App.ScanPDF tmp_file_path
     /\ scan_pdf B tmp_file_path (App.scanner (App.run B es ss0)) = (Ok r, s')
     /\ App.handle B (App.run B es ss0) e = {| App.scanner := s'; App.results := Some r |}
     /\ App.results (App.run B es ss0) <> Some r)
  \/ (App.results (App.handle B (App.run B es ss0) e) = App.results (App.run B es ss0)
      /\ forall r,
           App.results (App.run B es ss0) = Some r ->
           extracted_data (App.scanner (App.handle B (App.run B es ss0) e)) = r
           /\ read_record (heap (App.scanner (App.handle B (App.run B es ss0) e))) r
              = read_record (heap (App.scanner (App.run B es ss0))) r).
Proof.
  intros Hfresh.
  pose proof (session_inv_run es ss0 (fresh_session_inv ss0 Hfresh)) as [Hwf Hres].
  set (ss := App.run B es ss0) in *.
  assert ((exists tmp r s', e = App.ScanPDF tmp
                            /\ scan_pdf B tmp (App.scanner ss) = (Ok r, s'))
          \/ (forall p r' s', e = App.ScanPDF p ->
                              scan_pdf B p (App.scanner ss) <> (Ok r', s')))
    as [(tmp & r & s' & -> & Escan)|Hno].
  { destruct e as [w|tmp| | |]; try (right; intros; discriminate).
    destruct (scan_pdf B tmp (App.scanner ss)) as [[r|x] s'] eqn:E.
    - left. by exists tmp, r, s'.
    - right. intros p r' s'' [= <-]. congruence. }
  - left. exists tmp, r, s'. split_and!; try done.
    + simpl. unfold App.scan_button. by rewrite Escan.
    + destruct (scan_pdf_ok B tmp _ r s' Hwf Escan)
        as (_ & _ & _ & _ & _ & _ & _ & _ & _ & (l & -> & Hl) & _).
      intros Heq. rewrite Heq in Hres.
      destruct Hres as (a & n & s1 & _ & _ & _ & (_ & Hn & _) & _ & Hin & _).
      simpl in Hin. lia.
  - right. destruct (App.results ss) as [r|] eqn:Er.
    + destruct Hres as (a & n & s1 & p & texts & found & Hkept & Hcl & Hin & Hd & Hrec).
      destruct (handle_keeps a n s1 ss e r p texts found) as [Hr' Hkept']; try done.
      split; [done|]. intros ? [= <-]. split.
      * destruct Hkept' as (_ & _ & _ & _ & ->). done.
      * rewrite (record_kept_read a n s1 _ r Hkept' Hcl Hin).
        by rewrite (record_kept_read a n s1 _ r Hkept Hcl Hin).
    + split; [|done]. destruct ss as [s res]. simpl in *. subst res.
      destruct e as [w|tmp| | |]; simpl; try done.
      unfold App.scan_button. simpl.
      destruct (scan_pdf B tmp s) as [[r|x] s'] eqn:E; [|done].
      by destruct (Hno tmp r s').
Qed.

End Session.

(** ** The debug page *)

Section DebugPage.

Context (B : backend).

Lemma category_items_ready h text : 
  forall (categories : list (string * val)),
    Forall (fun cs => exists its, category_items B h text cs.2 = Ok its) categories ->
    forall results, exists results', scan_results B h text categories results = Ok results'.
Proof.
  induction 1 as [|[c st] cats [its Hits] _ IH]; intros results; simpl.
  - by exists results.
  - simpl in Hits. rewrite Hits. destruct its; apply IH.
Qed.

Lemma pattern_test_step text st s s' :
  (enabled ← getitem st "enabled";
   t ← truthy enabled;
   if t then
     patterns ← getitem st "patterns";
     matches ← extract_patterns B text patterns;
     _ ← py_len matches;
     _ ← Debug.slice_to matches 5;
     ret tt
   else ret tt) s = (Ok tt, s') ->
  (exists its, category_items B (heap s) text st = Ok its)
  /\ exists g, s' = with_heap s (heap s ++ g)
               /\ Forall (fun o => forall n, obj_ok n o) g.
Proof.
  rewrite bind_run, getitem_run.
  destruct (h_getitem (heap s) st "enabled") as [enabled|e] eqn:Een; [|done].
  rewrite bind_run, truthy_run. cbn beta iota.
  assert (exists d, deref (heap s) st = Some (ODict d)
                    /\ dict_lookup d "enabled" = Some enabled) as (d & Hd & Hen).
  { unfold h_getitem in Een. destruct (deref (heap s) st) as [[d|]|]; try done.
    exists d. split; [done|]. by destruct (dict_lookup d "enabled"); simplify_eq. }
  unfold category_items, h_dict_get, settings_patterns. rewrite Hd, Hen.
  destruct (h_truthy (heap s) enabled).
  2: { intros [= <-]. split; [by eexists|]. exists []. by rewrite app_nil_r, with_heap_id. }
  rewrite bind_run, getitem_run. unfold h_getitem. rewrite Hd.
  destruct (dict_lookup d "patterns") as [pv|]; [|done].
  rewrite bind_run, extract_patterns_spec.
  destruct (h_iter (heap s) pv) as [pats|e]; [|done].
  destruct (all_matches B pats text []) as [matches|e]; [|done].
  rewrite bind_run, py_len_run. cbn [heap with_heap]. simpl h_len.
  rewrite list_lookup_middle by done. rewrite bind_run.
  unfold Debug.slice_to. cbn [heap with_heap]. rewrite list_lookup_middle by done.
  rewrite alloc_run. cbn beta iota. rewrite ret_run. intros [= <-].
  split; [by eexists|].
  exists [OList (list_set matches); OList (take 5 (list_set matches))].
  split.
  - rewrite with_heap_with_heap. cbn [heap with_heap]. by rewrite <- app_assoc.
  - repeat apply Forall_cons_2; try apply Forall_nil_2; intros n; simpl.
    + apply list_set_ok.
    + apply Forall_take, list_set_ok.
Qed.

Lemma heap_ok_grown h g :
  heap_ok h -> Forall (fun o => forall n, obj_ok n o) g -> heap_ok (h ++ g).
Proof.
  intros Hh Hg. apply heap_ok_app_list; [done|].
  eapply Forall_impl; [exact Hg|]. by intros o Ho.
Qed.

Lemma pattern_test_loop text (n0 : nat) (categories : list (string * val)) :
  forall s s',
    heap_ok (heap s) -> n0 <= length (heap s) -> closed_below n0 (heap s) ->
    Forall (fun cs => val_ok n0 cs.2) categories ->
    for_each categories
      (fun cs =>
         enabled ← getitem cs.2 "enabled";
         t ← truthy enabled;
         if t then
           patterns ← getitem cs.2 "patterns";
           matches ← extract_patterns B text patterns;
           _ ← py_len matches;
           _ ← Debug.slice_to matches 5;
           ret tt
         else ret tt) s = (Ok tt, s') ->
    Forall (fun cs => exists its, category_items B (heap s) text cs.2 = Ok its) categories
    /\ exists g, s' = with_heap s (heap s ++ g)
                 /\ Forall (fun o => forall n, obj_ok n o) g.
Proof.
  induction categories as [|[c st] cats IH]; intros s s' Hok Hn Hcl Hcats; simpl.
  - intros [= <-]. split; [constructor|]. exists []. by rewrite app_nil_r, with_heap_id.
  - apply Forall_cons in Hcats as [Hst Hcats]. simpl in Hst.
    rewrite bind_run.
    match goal with
    | |- context [match ?m s with _ => _ end] => destruct (m s) as [[[]|e] s1] eqn:Estep
    end; [|done].
    destruct (pattern_test_step text st s s1 Estep) as (Hits & g & -> & Hg).
    intros Hloop.
    assert (Hag : agree_below n0 (heap s) (heap s ++ g)).
    { eapply agree_below_weaken; [|apply agree_below_app]. done. }
    destruct (IH (with_heap s (heap s ++ g)) s') as (Hall & g' & -> & Hg'); try done.
    + by apply heap_ok_grown.
    + cbn [heap with_heap]. rewrite length_app. lia.
    + by eapply closed_below_agree.
    + split.
      * apply Forall_cons_2; [done|].
        eapply Forall_impl; [apply Forall_and; split; [exact Hall|exact Hcats]|].
        intros [c' st'] [[its Hits'] Hst']. exists its. simpl in *.
        by rewrite <- (category_items_agree B n0 (heap s) (heap s ++ g)).
      * exists (g ++ g'). split.
        -- rewrite with_heap_with_heap. cbn [heap with_heap]. by rewrite app_assoc.
        -- by apply Forall_app.
Qed.

(** X28.  The pattern test of the debug page.  When the test gets
    through, it has changed nothing that existed (it only made lists), and
    the full scan that follows returns the record that the configuration
    describes for the text that was tested. *)
Theorem pattern_test_then_scan (pdf_path : string) (s s1 : state) :
  wf s -> os_path_exists B pdf_path = true ->
  Debug.pattern_test B (join " " (acquired B pdf_path s)) s = (Ok tt, s1) ->
  config s1 = config s /\ extracted_data s1 = extracted_data s
  /\ calls s1 = calls s
  /\ agree_below (length (heap s)) (heap s) (heap s1)
  /\ exists results r s2,
       scan_outcome B (heap s) (config s) (join " " (acquired B pdf_path s)) = Ok results
       /\ scan_pdf B pdf_path s1 = (Ok r, s2)
       /\ read_record (heap s2) r
          = Some (expected_record pdf_path (acquired B pdf_path s) results).
Proof.
  intros Hwf Hex. pose proof Hwf as (Hok & Hcfg & Hdata).
  set (text := join " " (acquired B pdf_path s)).
  unfold Debug.pattern_test. rewrite bind_run, self_config_run, bind_run, getitem_run.
  destruct (h_getitem (heap s) (config s) "extraction_settings") as [es|e] eqn:Ees; [|done].
  rewrite bind_run, items_run.
  destruct (h_items (heap s) es) as [cats|e] eqn:Ecats; [|done].
  assert (Hes : val_ok (length (heap s)) es) by exact (h_getitem_ok _ _ Hok _ _ _ Hcfg Ees).
  assert (Hcats : Forall (fun cs => val_ok (length (heap s)) cs.2) cats).
  { pose proof (h_items_ok _ _ Hok es cats Hes Ecats) as [_ Hvals].
    by rewrite Forall_fmap in Hvals. }
  intros Hloop.
  destruct (pattern_test_loop text (length (heap s)) cats s s1) as (Hall & g & -> & Hg);
    try done.
  cbn [heap config extracted_data calls with_heap].
  assert (Hag : agree_below (length (heap s)) (heap s) (heap s ++ g))
    by apply agree_below_app.
  split_and!; try done.
  destruct (category_items_ready (heap s) text cats Hall []) as [results Hres].
  assert (Hout : scan_outcome B (heap s) (config s) text = Ok results).
  { unfold scan_outcome. by rewrite Ees, Ecats. }
  assert (Hwf1 : wf (with_heap s (heap s ++ g))).
  { apply wf_grown; [done|]. eapply Forall_impl; [exact Hg|]. by intros o Ho. }
  destruct (scan_pdf_spec B pdf_path _ Hwf1 Hex) as (o & s2 & Hscan & _ & _ & _ & _ & Hmatch).
  assert (Hreads : reads_agree s (with_heap s (heap s ++ g))).
  { by apply (reads_agree_below (length (heap s))). }
  assert (Hacq : acquired B pdf_path (with_heap s (heap s ++ g)) = acquired B pdf_path s).
  { unfold acquired.
    destruct (extract_text_from_pdf_reader B pdf_path s _ Hreads) as (a & cs & -> & ->).
    done. }
  rewrite Hacq in Hmatch. fold text in Hmatch.
  assert (scan_outcome B (heap s ++ g) (config s) text = Ok results) as Hout1.
  { unfold scan_outcome.
    rewrite (h_getitem_agree _ _ _ Hag) by done. rewrite Ees.
    rewrite (h_items_agree _ _ _ Hag) by done. rewrite Ecats.
    by rewrite (scan_results_agree B _ _ _ _ _ _ Hag Hok Hcats). }
  cbn [heap config with_heap] in Hmatch. rewrite Hout1 in Hmatch.
  destruct Hmatch as (r & -> & _ & _ & Hrec & _).
  exists results, (VRef r), s2. by split_and!.
Qed.

End DebugPage.

(** ** The theorems at work on concrete documents *)

Lemma literal_compiles p :
  World.depth p 0 = Some 0 -> compiles World.pid_world (VStr p).
Proof.
  intros Hp. exists p. split; [done|]. intros text. simpl.
  unfold World.literal_findall. rewrite Hp. by destruct (bool_decide (p = "")).
Qed.

Lemma items_deduplicated_witness :
  wf World.scanner
  /\ scan_pdf World.pid_world "pid.pdf" World.scanner = (Ok (VRef 16), scanned)
  /\ exists record,
       read_record (heap scanned) (VRef 16) = Some record
       /\ (forall category settings enabled,
             h_subscript (heap World.scanner) (config World.scanner)
               ["extraction_settings"; category] = Ok settings ->
             h_dict_get (heap World.scanner) settings "enabled" (VBool true)
             = Ok enabled ->
             h_truthy (heap World.scanner) enabled = true ->
             exists entry, (category, entry) ∈ record_extraction_results record)
       /\ forall category count its,
            (category, (count, its)) ∈ record_extraction_results record ->
            NoDup its
            /\ count = VInt (Z.of_nat (length its))
            /\ exists settings pats,
                 h_subscript (heap World.scanner) (config World.scanner)
                   ["extraction_settings"; category] = Ok settings
                 /\ settings_patterns (heap World.scanner) settings = Ok pats
                 /\ forall v,
                      v ∈ its <->
                      exists pattern found m,
                        VStr pattern ∈ pats
                        /\ re_findall World.pid_world pattern
                             (join " " (acquired World.pid_world "pid.pdf" World.scanner))
                           = Some found
                        /\ m ∈ found /\ v = val_of_match m.
Proof.
  split; [apply wf_check; compute_done|].
  split; [vm_compute; reflexivity|].
  apply (items_deduplicated World.pid_world "pid.pdf" World.scanner scanned (VRef 16)).
  - apply wf_check; compute_done.
  - vm_compute; reflexivity.
Defined.

Lemma scan_not_found_iff_witness :
  wf World.scanner
  /\ scan_pdf World.pid_world "missing.pdf" World.scanner
     = (Raise FileNotFoundError, World.scanner)
  /\ exists r s' results,
       scan_pdf World.pid_world "pid.pdf" World.scanner = (Ok r, s')
       /\ extracted_data s' = r
       /\ read_record (heap s') r
          = Some (expected_record "pid.pdf"
                    (acquired World.pid_world "pid.pdf" World.scanner) results)
       /\ wf s'.
Proof.
  assert (Hwf : wf World.scanner) by (apply wf_check; compute_done).
  split; [exact Hwf|].
  destruct (scan_not_found_iff World.pid_world "missing.pdf" World.scanner Hwf)
    as (Hmissing & _ & _).
  destruct (scan_not_found_iff World.pid_world "pid.pdf" World.scanner Hwf)
    as (_ & _ & Hfound).
  split; [by apply Hmissing|]. apply Hfound; [reflexivity|].
  exists (VRef 4), [("equipment_tags", VRef 1); ("valves", VRef 3)].
  split_and!; [reflexivity|reflexivity|].
  repeat constructor; simpl.
  - eexists. split; [reflexivity|]. intros _. simpl. eexists. split; [reflexivity|].
    repeat constructor; by apply literal_compiles.
  - eexists. split; [reflexivity|]. intros _. simpl. eexists. split; [reflexivity|].
    repeat constructor; by apply literal_compiles.
Defined.

Lemma returned (p : outcome unit * state) : p.1 = Ok tt -> p = (Ok tt, p.2).
Proof. destruct p as [[[]|] ?]; intros ?; by simplify_eq/=. Qed.

Lemma blank_wf : wf World.blank.
Proof. apply wf_check; compute_done. Qed.

(** The scanner of [World.scanner], made by the constructor and then
    reconfigured, still raises ValueError on both exports; after the scan
    of the drawing neither export does. *)
Lemma export_needs_scan_witness :
  wf World.blank
  /\ init config_world "config.json" World.blank = (Ok tt, World.scanner)
  /\ embedded reconfigure World.scanner
  /\ export_to_csv config_world "out.csv" (run_calls reconfigure World.scanner)
     = (Raise ValueError, run_calls reconfigure World.scanner)
  /\ export_to_json config_world "out.csv" (run_calls reconfigure World.scanner)
     = (Raise ValueError, run_calls reconfigure World.scanner)
  /\ wf World.scanner
  /\ scan_pdf World.pid_world "pid.pdf" World.scanner = (Ok (VRef 16), scanned)
  /\ (export_to_csv World.pid_world "out.csv" scanned).1 <> Raise ValueError
  /\ (export_to_json World.pid_world "out.csv" scanned).1 <> Raise ValueError.
Proof.
  assert (Hinit : init config_world "config.json" World.blank = (Ok tt, World.scanner))
    by (apply returned; vm_compute; reflexivity).
  assert (Hemb : embedded reconfigure World.scanner)
    by (vm_compute; repeat split; discriminate).
  assert (Hwf : wf World.scanner) by (apply wf_check; compute_done).
  assert (Hscan : scan_pdf World.pid_world "pid.pdf" World.scanner
                  = (Ok (VRef 16), scanned)) by (vm_compute; reflexivity).
  destruct (export_needs_scan config_world "out.csv") as (_ & Hfresh & _).
  destruct (export_needs_scan World.pid_world "out.csv") as (_ & _ & Hscanned).
  destruct (Hfresh "config.json" World.blank World.scanner blank_wf) as (l & _ & Hcs).
  { intros doc [= <-]. compute_done. }
  { exact Hinit. }
  destruct (Hcs reconfigure) as (_ & Hcsv & Hjson).
  { repeat constructor. }
  { exact Hemb. }
  destruct (Hscanned "pid.pdf" World.scanner (VRef 16) scanned Hwf Hscan)
    as (Hcsv' & Hjson').
  split_and!; [apply blank_wf|exact Hinit|exact Hemb|exact Hcsv|exact Hjson|exact Hwf
              |exact Hscan|exact Hcsv'|exact Hjson'].
Defined.

(** C4, as the specification states it, fails: before any scan, with the
    dictionary of [extracted_data] handed to [update_config] as the
    extraction settings, [add_custom_pattern] writes its new category into
    that dictionary; [export_to_json] then returns and writes it out, and
    [export_to_csv] raises KeyError rather than ValueError. *)
Lemma export_before_scan_writes :
  init config_world "config.json" World.blank = (Ok tt, World.scanner)
  /\ (run_call share_data_call World.scanner).1 = Ok tt
  /\ (run_call (AddCustomPattern "x" "y") (run_call share_data_call World.scanner).2).1
     = Ok tt
  /\ calls (run_calls share_data World.scanner) = []
  /\ extracted_data (run_calls share_data World.scanner) = extracted_data World.scanner
  /\ deref (heap (run_calls share_data World.scanner)) (extracted_data World.scanner)
     = Some (ODict [("x", VRef 11)])
  /\ export_to_json config_world "out.json" (run_calls share_data World.scanner)
     = (Ok tt, logged (run_calls share_data World.scanner)
                 [JsonDump "out.json" (extracted_data World.scanner)])
  /\ export_to_csv config_world "out.csv" (run_calls share_data World.scanner)
     = (Raise KeyError, run_calls share_data World.scanner).
Proof. split_and!; vm_compute; reflexivity. Qed.



Lemma rescan_same_results_witness :
  wf World.scanner
  /\ scan_pdf World.pid_world "pid.pdf" World.scanner = (Ok (VRef 16), scanned)
  /\ exists r2 s2 record,
       scan_pdf World.pid_world "pid.pdf" scanned = (Ok r2, s2)
       /\ read_record (heap scanned) (VRef 16) = Some record
       /\ read_record (heap s2) r2 = Some record.
Proof.
  split; [apply wf_check; compute_done|].
  split; [vm_compute; reflexivity|].
  apply (rescan_same_results World.pid_world "pid.pdf" World.scanner scanned (VRef 16)).
  - apply wf_check; compute_done.
  - vm_compute; reflexivity.
Defined.

Lemma preview_ellipsis_witness :
  wf World.scanner
  /\ scan_pdf World.long_world "long.pdf" World.scanner
     = (Ok (VRef 16), (scan_pdf World.long_world "long.pdf" World.scanner).2)
  /\ exists record preview,
       read_record (heap (scan_pdf World.long_world "long.pdf" World.scanner).2)
         (VRef 16) = Some record
       /\ record_raw_text_preview record = VStr preview
       /\ (len (join " " (acquired World.long_world "long.pdf" World.scanner)) <= 500 ->
           preview = join " " (acquired World.long_world "long.pdf" World.scanner))
       /\ (500 < len (join " " (acquired World.long_world "long.pdf" World.scanner)) ->
           preview
           = prefix_of 500 (join " " (acquired World.long_world "long.pdf" World.scanner))
             +:+ "..."
           /\ len preview = 503
           /\ prefix_of 500 preview
              = prefix_of 500
                  (join " " (acquired World.long_world "long.pdf" World.scanner))).
Proof.
  split; [apply wf_check; compute_done|].
  split; [vm_compute; reflexivity|].
  apply (preview_ellipsis World.long_world "long.pdf" World.scanner).
  - apply wf_check; compute_done.
  - vm_compute; reflexivity.
Defined.

(** C7, as the specification states it, fails: for a combined text of 501
    characters the stored preview has 503 characters, the first 500 of the
    text and three dots. *)
Lemma preview_longer_than_500 :
  len (join " " (acquired World.long_world "long.pdf" World.scanner)) = 501
  /\ h_getitem (heap (scan_pdf World.long_world "long.pdf" World.scanner).2)
       (VRef 16) "raw_text_preview"
     = Ok (VStr (prefix_of 500
                   (join " " (acquired World.long_world "long.pdf" World.scanner))
                 +:+ "..."))
  /\ len (prefix_of 500 (join " " (acquired World.long_world "long.pdf" World.scanner))
          +:+ "...") = 503.
Proof. split_and!; vm_compute; reflexivity. Qed.

Lemma config_calls_keep_record_witness :
  wf World.scanner
  /\ scan_pdf World.pid_world "pid.pdf" World.scanner = (Ok (VRef 16), scanned)
  /\ Forall (foreign (length (heap World.scanner)) (length (heap scanned))) reconfigure
  /\ embedded reconfigure scanned
  /\ extracted_data (run_calls reconfigure scanned) = VRef 16
  /\ is_Some (read_record (heap scanned) (VRef 16))
  /\ read_record (heap (run_calls reconfigure scanned)) (VRef 16)
     = read_record (heap scanned) (VRef 16)
  /\ agree_in (length (heap World.scanner)) (length (heap scanned)) (heap scanned)
       (heap (run_calls reconfigure scanned)).
Proof.
  assert (Hcs : Forall (foreign (length (heap World.scanner)) (length (heap scanned)))
                  reconfigure) by (repeat constructor).
  assert (Hemb : embedded reconfigure scanned)
    by (vm_compute; repeat split; discriminate).
  split; [apply wf_check; compute_done|].
  split; [vm_compute; reflexivity|].
  split; [exact Hcs|]. split; [exact Hemb|].
  apply (config_calls_keep_record World.pid_world "pid.pdf" World.scanner scanned
           (VRef 16) reconfigure).
  - apply wf_check; compute_done.
  - vm_compute; reflexivity.
  - exact Hcs.
  - exact Hemb.
Defined.

(** [update_config] with a sequence of pairs, as [dict.update] takes it: a
    list of two-element lists sets its keys; a two-letter string is a pair
    of its letters; the pairs before a faulty element stay set; a number
    is no sequence, and a list is no key. *)
Lemma update_config_pairs :
  (exists s,
     run_call (UpdateConfig (LList [LList [LVal (VStr "output_format"); LVal (VStr "csv")];
                                    LVal (VStr "ab")])) World.scanner = (Ok tt, s)
     /\ h_getitem (heap s) (config s) "output_format" = Ok (VStr "csv")
     /\ h_getitem (heap s) (config s) "a" = Ok (VStr "b"))
  /\ (exists s,
        run_call (UpdateConfig (LList [LList [LVal (VStr "output_format"); LVal (VStr "csv")];
                                       LVal (VStr "abc")])) World.scanner
        = (Raise ValueError, s)
        /\ h_getitem (heap s) (config s) "output_format" = Ok (VStr "csv"))
  /\ (run_call (UpdateConfig (LList [LVal (VInt 3)])) World.scanner).1 = Raise TypeError
  /\ (run_call (UpdateConfig (LVal (VInt 3))) World.scanner).1 = Raise TypeError
  /\ (run_call (UpdateConfig (LList [LList [LList []; LVal (VInt 1)]])) World.scanner).1
     = Raise TypeError
  /\ run_call (UpdateConfig (LList [])) World.scanner
     = (Ok tt, (build (LList []) World.scanner).2).
Proof.
  split_and!; try (vm_compute; reflexivity);
    eexists; split_and!; vm_compute; reflexivity.
Qed.

(** C8, as the specification states it, fails: handed to [update_config]
    as the extraction settings, the results of the scan are the dictionary
    that [add_custom_pattern] then writes its new category to.  The stored
    record has a third category, pumps, that no scan found, with neither
    a count nor items. *)
Lemma handed_back_results_change :
  scan_pdf World.pid_world "pid.pdf" World.scanner = (Ok (VRef 16), scanned)
  /\ h_getitem (heap scanned) (VRef 16) "extraction_results" = Ok (VRef 9)
  /\ h_iter (heap scanned) (VRef 9) = Ok [VStr "equipment_tags"; VStr "valves"]
  /\ ~ foreign (length (heap World.scanner)) (length (heap scanned)) hand_back_results
  /\ (run_call hand_back_results scanned).1 = Ok tt
  /\ (run_call (AddCustomPattern "pumps" "P-2") (run_call hand_back_results scanned).2).1
     = Ok tt
  /\ extracted_data (run_calls hand_back scanned) = VRef 16
  /\ h_getitem (heap (run_calls hand_back scanned)) (VRef 16) "extraction_results"
     = Ok (VRef 9)
  /\ h_iter (heap (run_calls hand_back scanned)) (VRef 9)
     = Ok [VStr "equipment_tags"; VStr "valves"; VStr "pumps"]
  /\ h_subscript (heap (run_calls hand_back scanned)) (VRef 16)
       ["extraction_results"; "pumps"; "count"] = Raise KeyError
  /\ read_record (heap (run_calls hand_back scanned)) (VRef 16)
     <> read_record (heap scanned) (VRef 16).
Proof.
  split_and!; try (vm_compute; reflexivity).
  - vm_compute. intros H. apply Forall_inv in H. lia.
  - vm_compute. discriminate.
Qed.


Lemma omitted_keys_witness :
  wf (World.scanner_with World.bare_json)
  /\ (exists r s',
        scan_pdf World.pid_world "pid.pdf" (World.scanner_with World.bare_json)
        = (Ok r, s'))
  /\ exists record,
       read_record
         (heap (scan_pdf World.pid_world "pid.pdf"
                  (World.scanner_with World.bare_json)).2) (VRef 8) = Some record
       /\ (dict_lookup (@nil (string * val)) "enabled" = None ->
           exists entry, ("valves", entry) ∈ record_extraction_results record)
       /\ (dict_lookup (@nil (string * val)) "patterns" = None ->
           h_truthy (heap (World.scanner_with World.bare_json))
             (default (VBool true) (dict_lookup (@nil (string * val)) "enabled")) = true ->
           ("valves", (VInt 0, [])) ∈ record_extraction_results record).
Proof.
  assert (Hwf : wf (World.scanner_with World.bare_json)) by (apply wf_check; compute_done).
  destruct (omitted_keys World.pid_world "pid.pdf" _ Hwf) as [Hruns Hentry].
  split; [exact Hwf|]. split.
  - apply Hruns; [reflexivity|].
    exists (VRef 1), [("valves", VRef 0)]. split_and!; [reflexivity|reflexivity|].
    repeat constructor. by exists [].
  - apply (Hentry (VRef 8) _ "valves" (VRef 0) []); [|reflexivity|reflexivity].
    vm_compute; reflexivity.
Defined.

(** ** The further theorems at work *)

Lemma dpi_only_wf : wf dpi_only.
Proof. apply wf_check; compute_done. Qed.

Lemma scanned_wf : wf scanned.
Proof. apply wf_check; compute_done. Qed.

(** The first page of [half_pdf] is kept although the second page fails,
    and the third page is never read. *)
Lemma text_layer_failure_keeps_pages_witness :
  pdfplumber_open half_world "half.pdf"
  = Some ([Some (Some "P-101 FEED PUMP AND HV-202 ISOLATION VALVE ON LINE 6-A1")]
          ++ None :: [Some (Some "PAGE THREE")])
  /\ extract_text_from_pdf half_world "half.pdf" World.scanner
     = (if (50 <? len (strip (join " "
              (omap nonempty
                 [Some "P-101 FEED PUMP AND HV-202 ISOLATION VALVE ON LINE 6-A1"]))))%nat
        then (Ok (omap nonempty
                    [Some "P-101 FEED PUMP AND HV-202 ISOLATION VALVE ON LINE 6-A1"]),
              logged World.scanner [PdfplumberOpen "half.pdf"])
        else ocr_fallback half_world "half.pdf" []
               (logged World.scanner [PdfplumberOpen "half.pdf"])).
Proof.
  split; [reflexivity|].
  apply (text_layer_failure_keeps_pages half_world "half.pdf" World.scanner
           [Some (Some "P-101 FEED PUMP AND HV-202 ISOLATION VALVE ON LINE 6-A1")]
           [Some (Some "PAGE THREE")] None
           [Some "P-101 FEED PUMP AND HV-202 ISOLATION VALVE ON LINE 6-A1"]).
  - reflexivity.
  - by repeat constructor.
  - reflexivity.
Defined.

(** The second page image of [torn_pdf] cannot be recognized: the text of
    the first page is returned, the third page is lost. *)
Lemma ocr_failure_ends_fallback_witness :
  convert_from_path torn_world "torn.pdf" (VInt 300)
  = Some ([Some "P-101 FEED PUMP"] ++ None :: [Some "HV-202 VALVE"])
  /\ (recognize torn_world None World.scanner).1 = Raise LibraryError
  /\ exists cs,
       ocr_fallback torn_world "torn.pdf" [] World.scanner
       = (Ok (filter nonblank ["P-101 FEED PUMP"]), logged World.scanner cs)
       /\ length (filter (fun c => is_ocr_call c = true) cs) <= 2.
Proof.
  split; [reflexivity|]. split; [reflexivity|].
  apply (ocr_failure_ends_fallback torn_world "torn.pdf" World.scanner (VInt 300)
           [Some "P-101 FEED PUMP"] [Some "HV-202 VALVE"] None ["P-101 FEED PUMP"]
           LibraryError).
  - reflexivity.
  - reflexivity.
  - by repeat constructor.
  - reflexivity.
Defined.

(** After [update_config({'ocr_settings': {'dpi': 150}})] the
    configuration has no [tesseract_config] any more, and the drawing of
    [World.pid_world], which has no text layer, yields no text. *)
Lemma ocr_needs_settings_witness :
  ~ is_ok (h_subscript (heap dpi_only) (config dpi_only)
             ["ocr_settings"; "tesseract_config"])
  /\ exists text_content cs,
       extract_text_from_pdf World.pid_world "pid.pdf" dpi_only
       = (Ok text_content, logged dpi_only cs)
       /\ Forall (fun c => is_ocr_call c = false) cs
       /\ (text_content = []
           \/ text_content = layer_texts World.pid_world "pid.pdf"
              /\ 50 < len (strip (join " " text_content))).
Proof.
  assert (E : h_subscript (heap dpi_only) (config dpi_only)
                 ["ocr_settings"; "tesseract_config"] = Raise KeyError)
    by (vm_compute; reflexivity).
  assert (H : ~ is_ok (h_subscript (heap dpi_only) (config dpi_only)
                         ["ocr_settings"; "tesseract_config"])).
  { rewrite E. intros []. }
  split; [exact H|].
  apply (ocr_needs_settings World.pid_world "pid.pdf" dpi_only). by right.
Defined.

Lemma preprocess_image_steps_witness :
  preprocessing_flag World.scanner "denoise" = Ok true
  /\ preprocessing_flag World.scanner "enhance_contrast" = Ok true
  /\ preprocessing_flag World.scanner "sharpen" = Ok false
  /\ exists o,
       preprocess_image World.pid_world (Some "P-101") World.scanner
       = (o, World.scanner)
       /\ (forall img,
             o = Ok img
             <-> preprocessed World.pid_world true true false (Some "P-101") = Some img)
       /\ (true = false -> true = false -> false = false -> o = Ok (Some "P-101")).
Proof.
  split; [reflexivity|]. split; [reflexivity|]. split; [reflexivity|].
  apply (preprocess_image_steps World.pid_world (Some "P-101") World.scanner
           true true false); reflexivity.
Defined.

(** In [gray_world], where every OpenCV call fails, a page image with two
    dimensions is still recognized. *)
Lemma page_recognition_witness :
  shape_len gray_world (np_array gray_world (Some "HV-202 VALVE")) <> 3
  /\ recognize gray_world (Some "HV-202 VALVE") World.scanner
     = (Ok "HV-202 VALVE", logged World.scanner [ImageToString (VStr "--psm 6")])
  /\ (shape_len World.pid_world (np_array World.pid_world (Some "P-101")) = 3 ->
      forall denoise enhance_contrast sharpen,
        preprocessing_flag World.scanner "denoise" = Ok denoise ->
        preprocessing_flag World.scanner "enhance_contrast" = Ok enhance_contrast ->
        preprocessing_flag World.scanner "sharpen" = Ok sharpen ->
        forall text,
          (recognize World.pid_world (Some "P-101") World.scanner).1 = Ok text
          <-> exists img,
                preprocessed World.pid_world denoise enhance_contrast sharpen
                  (np_array World.pid_world (Some "P-101")) = Some img
                /\ image_to_string World.pid_world img (VStr "--psm 6") = Some text).
Proof.
  assert (Hgray : shape_len gray_world (np_array gray_world (Some "HV-202 VALVE")) <> 3)
    by (simpl; lia).
  split; [exact Hgray|]. split.
  - apply (page_recognition gray_world (Some "HV-202 VALVE") World.scanner
             (VStr "--psm 6")); [reflexivity|exact Hgray].
  - apply (page_recognition World.pid_world (Some "P-101") World.scanner
             (VStr "--psm 6")). reflexivity.
Defined.

Lemma no_pages_iff_no_text_witness :
  wf World.scanner
  /\ scan_pdf World.pid_world "pid.pdf" World.scanner = (Ok (VRef 16), scanned)
  /\ exists text_content cs record,
       extract_text_from_pdf World.pid_world "pid.pdf" World.scanner
       = (Ok text_content, logged World.scanner cs)
       /\ Forall (fun text => text <> "") text_content
       /\ read_record (heap scanned) (VRef 16) = Some record
       /\ record_total_pages record = VInt (Z.of_nat (length text_content))
       /\ (record_total_pages record = VInt 0
           <-> record_raw_text_preview record = VStr "").
Proof.
  split; [apply scanner_wf|]. split; [vm_compute; reflexivity|].
  apply (no_pages_iff_no_text World.pid_world "pid.pdf" World.scanner scanned (VRef 16)).
  - apply scanner_wf.
  - vm_compute; reflexivity.
Defined.

(** The patterns of the list at 0 are among those of the list at 9. *)
Lemma extract_patterns_set_of_patterns_witness :
  h_iter (heap more_patterns) (VRef 0) = Ok [VStr "P-101"; VStr "p-101"]
  /\ h_iter (heap more_patterns) (VRef 9) = Ok [VStr "P-101"; VStr "HV-202"; VStr "p-101"]
  /\ exists r1 s1 items1 items2,
       extract_patterns World.pid_world "P-101 FEED PUMP HV-202" (VRef 0) more_patterns
       = (Ok r1, s1)
       /\ deref (heap s1) r1 = Some (OList items1)
       /\ deref (heap (extract_patterns World.pid_world "P-101 FEED PUMP HV-202"
                         (VRef 9) more_patterns).2) (VRef 10)
          = Some (OList items2)
       /\ NoDup items1 /\ NoDup items2
       /\ items1 ⊆ items2
       /\ ((forall x, x ∈ [VStr "P-101"; VStr "HV-202"; VStr "p-101"]
                      -> x ∈ [VStr "P-101"; VStr "p-101"])
           -> items1 ≡ₚ items2).
Proof.
  split; [reflexivity|]. split; [reflexivity|].
  apply (extract_patterns_set_of_patterns World.pid_world "P-101 FEED PUMP HV-202"
           more_patterns (VRef 0) (VRef 9)
           [VStr "P-101"; VStr "p-101"] [VStr "P-101"; VStr "HV-202"; VStr "p-101"]).
  - reflexivity.
  - reflexivity.
  - intros x Hx. apply elem_of_cons in Hx as [->|Hx]; [by left|].
    apply list_elem_of_singleton in Hx as ->. by do 2 right; left.
  - vm_compute; reflexivity.
Defined.

(** Of the three categories of [partly_json], the record has the two that
    are not switched off. *)
Lemma record_keys_are_enabled_categories_witness :
  wf (World.scanner_with partly_json)
  /\ exists record extraction_settings categories,
       read_record
         (heap (scan_pdf World.pid_world "pid.pdf" (World.scanner_with partly_json)).2)
         (VRef 16) = Some record
       /\ h_getitem (heap (World.scanner_with partly_json))
            (config (World.scanner_with partly_json)) "extraction_settings"
          = Ok extraction_settings
       /\ h_items (heap (World.scanner_with partly_json)) extraction_settings
          = Ok categories
       /\ (record_extraction_results record).*1
          = (filter (fun cs => category_enabled (heap (World.scanner_with partly_json))
                                 cs.2 = true) categories).*1.
Proof.
  assert (Hwf : wf (World.scanner_with partly_json)) by (apply wf_check; compute_done).
  split; [exact Hwf|].
  apply (record_keys_are_enabled_categories World.pid_world "pid.pdf"
           (World.scanner_with partly_json) _ (VRef 16) Hwf).
  vm_compute; reflexivity.
Defined.

(** A second scan, of a file that is not there, leaves the record of the
    first. *)
Lemma scan_keeps_earlier_objects_witness :
  wf scanned
  /\ scan_pdf World.pid_world "missing.pdf" scanned = (Raise FileNotFoundError, scanned)
  /\ config scanned = config scanned
  /\ agree_below (length (heap scanned)) (heap scanned) (heap scanned)
  /\ (forall v, val_ok (length (heap scanned)) v ->
                read_record (heap scanned) v = read_record (heap scanned) v)
  /\ extracted_data scanned = extracted_data scanned
  /\ (FileNotFoundError = FileNotFoundError -> scanned = scanned).
Proof.
  split; [apply scanned_wf|]. split; [reflexivity|].
  apply (scan_keeps_earlier_objects World.pid_world "missing.pdf" scanned scanned
           (Raise FileNotFoundError)).
  - apply scanned_wf.
  - reflexivity.
Defined.


Lemma csv_has_one_row_per_item_witness :
  export_to_csv World.pid_world "out.csv" scanned
  = (Ok tt,
     logged scanned
       [ToCsv "out.csv"
          [("equipment_tags", VStr "P-101", VStr "pid.pdf");
           ("valves", VStr "HV-202", VStr "pid.pdf")]]).
Proof.
  apply (csv_has_one_row_per_item World.pid_world "out.csv" scanned
           (expected_record "pid.pdf" ["P-101 FEED PUMP HV-202 ISOLATION VALVE"]
              [("equipment_tags", [VStr "P-101"]); ("valves", [VStr "HV-202"])])).
  vm_compute; reflexivity.
Defined.

(** The one entry that [filter_results("valves", 1)] returns is the object
    at 15, the record's own entry for the valves. *)
Lemma filter_results_shares_entries_witness :
  exists results d,
    h_getitem (heap scanned) (extracted_data scanned) "extraction_results" = Ok results
    /\ deref (heap scanned) results = Some (ODict d)
    /\ filter_results (Some "valves") 1 scanned
       = (Ok (VRef (length (heap scanned))),
          with_heap scanned
            (heap scanned
             ++ [ODict (filter (fun cd => keeps (heap scanned) (Some "valves") 1 cd = true)
                               d)])).
Proof.
  apply (filter_results_shares_entries (Some "valves") 1 scanned
           (expected_record "pid.pdf" ["P-101 FEED PUMP HV-202 ISOLATION VALVE"]
              [("equipment_tags", [VStr "P-101"]); ("valves", [VStr "HV-202"])])).
  - destruct scanned_wf as [Hok _]. exact Hok.
  - vm_compute; reflexivity.
  - repeat constructor; simpl; eauto.
Defined.

(** The scan of [torn_pdf] finds a pump and no valve. *)
Lemma default_filter_keeps_nonempty_witness :
  wf World.scanner
  /\ exists record f s2 kept,
       read_record (heap (scan_pdf torn_world "torn.pdf" World.scanner).2) (VRef 16)
       = Some record
       /\ filter_results None 1 (scan_pdf torn_world "torn.pdf" World.scanner).2
          = (Ok f, s2)
       /\ read_results (heap s2) f = Some kept
       /\ kept = filter (fun e => e.2.2 <> []) (record_extraction_results record).
Proof.
  split; [apply scanner_wf|].
  apply (default_filter_keeps_nonempty torn_world "torn.pdf" World.scanner _ (VRef 16)
           scanner_wf).
  vm_compute; reflexivity.
Defined.

Lemma with_new_ocr_wf : wf with_new_ocr.
Proof. apply wf_check; compute_done. Qed.

Lemma with_new_config_wf : wf with_new_config.
Proof. apply wf_check; compute_done. Qed.

(** The new OCR settings at 10 hold the dpi only: after the update the
    configuration has no [tesseract_config] and no preprocessing flags any
    more. *)
Lemma update_config_is_shallow_witness :
  wf with_new_ocr
  /\ deref (heap with_new_ocr) (VRef 10) = Some (ODict [("ocr_settings", VRef 9)])
  /\ exists s',
       update_config (VRef 10) with_new_ocr = (Ok tt, s')
       /\ config s' = config with_new_ocr
       /\ extracted_data s' = extracted_data with_new_ocr
       /\ length (heap s') = length (heap with_new_ocr)
       /\ (forall v, v <> config with_new_ocr ->
                     deref (heap s') v = deref (heap with_new_ocr) v)
       /\ (forall k,
             h_getitem (heap s') (config s') k
             = match dict_lookup [("ocr_settings", VRef 9)] k with
               | Some v => Ok v
               | None => h_getitem (heap with_new_ocr) (config with_new_ocr) k
               end)
       /\ (forall k ks,
             is_Some (dict_lookup [("ocr_settings", VRef 9)] k) ->
             h_subscript (heap s') (config s') (k :: ks)
             = h_subscript (heap s') (VRef 10) (k :: ks))
       /\ wf s'.
Proof.
  split; [apply with_new_ocr_wf|]. split; [reflexivity|].
  apply (update_config_is_shallow (VRef 10) with_new_ocr
           [("extraction_settings", VRef 4); ("ocr_settings", VRef 6);
            ("output_format", VStr "json")]
           [("ocr_settings", VRef 9)]).
  - apply with_new_ocr_wf.
  - reflexivity.
  - reflexivity.
Defined.

(** The new extraction settings at 12 have the one category instruments:
    the next scan finds FEED and has no entry for the old categories. *)
Lemma update_config_takes_effect_witness :
  wf with_new_config
  /\ is_ok (h_getitem (heap with_new_config) (VRef 12) "extraction_settings")
  /\ exists results extraction_settings categories,
       read_record
         (heap (scan_pdf World.pid_world "pid.pdf"
                  (update_config (VRef 12) with_new_config).2).2) (VRef 17)
       = Some (expected_record "pid.pdf"
                 (acquired World.pid_world "pid.pdf"
                    (update_config (VRef 12) with_new_config).2) results)
       /\ scan_outcome World.pid_world
            (heap (update_config (VRef 12) with_new_config).2) (VRef 12)
            (join " " (acquired World.pid_world "pid.pdf"
                         (update_config (VRef 12) with_new_config).2))
          = Ok results
       /\ h_getitem (heap (update_config (VRef 12) with_new_config).2) (VRef 12)
            "extraction_settings" = Ok extraction_settings
       /\ h_items (heap (update_config (VRef 12) with_new_config).2) extraction_settings
          = Ok categories
       /\ results.*1
          = (filter (fun cs => category_enabled
                                 (heap (update_config (VRef 12) with_new_config).2)
                                 cs.2 = true) categories).*1.
Proof.
  assert (E : h_getitem (heap with_new_config) (VRef 12) "extraction_settings"
              = Ok (VRef 11)) by reflexivity.
  split; [apply with_new_config_wf|]. split; [by rewrite E|].
  apply (update_config_takes_effect World.pid_world (VRef 12) "pid.pdf" with_new_config).
  - apply with_new_config_wf.
  - by rewrite E.
  - vm_compute; reflexivity.
  - vm_compute; reflexivity.
Defined.

Lemma add_custom_pattern_creates_category_witness :
  add_custom_pattern "pumps" "PUMP" World.scanner
  = (Ok tt,
     with_heap World.scanner
       (<[4 := ODict ([("equipment_tags", VRef 1); ("valves", VRef 3)]
                      ++ [("pumps", VRef (S (length (heap World.scanner))))])]>
          (heap World.scanner)
        ++ [OList [VStr "PUMP"];
            ODict [("enabled", VBool true);
                   ("patterns", VRef (length (heap World.scanner)))]])).
Proof.
  apply (add_custom_pattern_creates_category "pumps" "PUMP" World.scanner 4
           [("equipment_tags", VRef 1); ("valves", VRef 3)]).
  - apply scanner_wf.
  - reflexivity.
  - reflexivity.
  - reflexivity.
Defined.

Lemma add_custom_pattern_appends_witness :
  add_custom_pattern "valves" "VALVE" World.scanner
  = (Ok tt,
     with_heap World.scanner
       (<[2 := OList ([VStr "HV-202"] ++ [VStr "VALVE"])]> (heap World.scanner))).
Proof.
  apply (add_custom_pattern_appends "valves" "VALVE" World.scanner 2 [VStr "HV-202"]).
  - reflexivity.
  - reflexivity.
Defined.

(** The only category of [World.bare_json] has no patterns: a scan reads it
    as a category without patterns, [add_custom_pattern] raises KeyError. *)
Lemma add_custom_pattern_errors_witness :
  add_custom_pattern "valves" "HV-1" (World.scanner_with World.bare_json)
  = (Raise KeyError, World.scanner_with World.bare_json).
Proof.
  destruct (add_custom_pattern_errors "valves" "HV-1" (World.scanner_with World.bare_json))
    as (_ & Hpatterns & _).
  apply (Hpatterns (VRef 0) KeyError); reflexivity.
Defined.

(** The new category pumps with the pattern PUMP: the next scan of the
    drawing finds PUMP. *)
Lemma added_pattern_is_scanned_witness :
  wf World.scanner
  /\ ~ is_ok (h_subscript (heap World.scanner) (config World.scanner)
                ["extraction_settings"; "pumps"])
  /\ exists record,
       read_record
         (heap (scan_pdf World.pid_world "pid.pdf"
                  (add_custom_pattern "pumps" "PUMP" World.scanner).2).2) (VRef 21)
       = Some record
       /\ (forall count its,
             ("pumps", (count, its)) ∈ record_extraction_results record ->
             exists found,
               re_findall World.pid_world "PUMP"
                 (join " " (acquired World.pid_world "pid.pdf"
                              (add_custom_pattern "pumps" "PUMP" World.scanner).2))
               = Some found
               /\ forall m, m ∈ found -> val_of_match m ∈ its)
       /\ (~ is_ok (h_subscript (heap World.scanner) (config World.scanner)
                      ["extraction_settings"; "pumps"]) ->
           exists found,
             re_findall World.pid_world "PUMP"
               (join " " (acquired World.pid_world "pid.pdf"
                            (add_custom_pattern "pumps" "PUMP" World.scanner).2))
             = Some found
             /\ ("pumps", (VInt (Z.of_nat (length (list_set found))), list_set found))
                ∈ record_extraction_results record).
Proof.
  assert (E : h_subscript (heap World.scanner) (config World.scanner)
                ["extraction_settings"; "pumps"] = Raise KeyError) by reflexivity.
  split; [apply scanner_wf|]. split; [rewrite E; intros []|].
  apply (added_pattern_is_scanned World.pid_world "pumps" "PUMP" "pid.pdf" World.scanner
           (add_custom_pattern "pumps" "PUMP" World.scanner).2).
  - apply scanner_wf.
  - vm_compute; reflexivity.
  - vm_compute; reflexivity.
Defined.

Lemma init_gives_fresh_scanner_witness :
  wf World.blank
  /\ init config_world "missing.json" World.blank
     = (Raise FileNotFoundError, World.blank)
  /\ init config_world "locked.json" World.blank = (Raise OSError, World.blank)
  /\ init config_world "notes.txt" World.blank = (Raise ValueError, World.blank)
  /\ exists s,
       init config_world "config.json" World.blank = (Ok tt, s)
       /\ wf s
       /\ calls s = calls World.blank
       /\ agree_below (length (heap World.blank)) (heap World.blank) (heap s)
       /\ deref (heap s) (extracted_data s) = Some (ODict [])
       /\ exists summary s',
            get_summary s = (Ok summary, s')
            /\ deref (heap s') summary = Some (ODict []).
Proof.
  split; [apply blank_wf|]. split_and!.
  - apply (init_gives_fresh_scanner config_world "missing.json" World.blank blank_wf).
  - apply (init_gives_fresh_scanner config_world "locked.json" World.blank blank_wf).
  - apply (init_gives_fresh_scanner config_world "notes.txt" World.blank blank_wf).
  - apply (init_gives_fresh_scanner config_world "config.json" World.blank blank_wf).
    repeat constructor.
Defined.

Lemma first_session_fresh : App.fresh first_session.
Proof.
  apply (init_fresh (World.world [] [("config.json", JsonDocument World.config_json)])
           "config.json" World.blank).
  - intros l o Hl. simpl in Hl. lia.
  - intros doc [= <-]. compute_done.
  - apply returned. vm_compute. reflexivity.
Qed.

(** Update with the sidebar of the example: the configuration then has
    the six categories of the display, whatever it had before. *)
Lemma update_button_sets_config_witness :
  wf World.scanner
  /\ h_subscript (heap World.scanner) (config World.scanner)
       ["ocr_settings"; "tesseract_config"] = Ok (VStr "--psm 6")
  /\ h_getitem (heap World.scanner) (config World.scanner) "output_format"
     = Ok (VStr "json")
  /\ exists s',
       App.update_configuration sidebar World.scanner = (Ok tt, s')
       /\ wf s'
       /\ config s' = config World.scanner
       /\ extracted_data s' = extracted_data World.scanner
       /\ calls s' = calls World.scanner
       /\ (forall v, val_ok (length (heap World.scanner)) v -> v <> config World.scanner ->
                     deref (heap s') v = deref (heap World.scanner) v)
       /\ (exists extraction_settings cats,
             h_getitem (heap s') (config s') "extraction_settings"
             = Ok extraction_settings
             /\ h_items (heap s') extraction_settings = Ok cats
             /\ cats.*1 = (App.categories sidebar).*1)
       /\ (forall c e,
             (c, e) ∈ App.categories sidebar ->
             h_subscript (heap s') (config s') ["extraction_settings"; c; "enabled"]
             = Ok (VBool e.1)
             /\ exists patterns,
                  h_subscript (heap s') (config s')
                    ["extraction_settings"; c; "patterns"] = Ok patterns
                  /\ deref (heap s') patterns = Some (OList (App.category_patterns e)))
       /\ h_subscript (heap s') (config s') ["ocr_settings"; "dpi"]
          = Ok (VInt (App.dpi sidebar))
       /\ h_subscript (heap s') (config s') ["ocr_settings"; "preprocessing"; "denoise"]
          = Ok (VBool (App.denoise sidebar))
       /\ h_subscript (heap s') (config s')
            ["ocr_settings"; "preprocessing"; "enhance_contrast"]
          = Ok (VBool (App.enhance_contrast sidebar))
       /\ h_subscript (heap s') (config s') ["ocr_settings"; "preprocessing"; "sharpen"]
          = Ok (VBool (App.sharpen sidebar))
       /\ h_subscript (heap s') (config s') ["ocr_settings"; "tesseract_config"]
          = Ok (VStr "--psm 6")
       /\ h_getitem (heap s') (config s') "output_format" = Ok (VStr "json")
       /\ (forall k,
             k ∉ ["extraction_settings"; "ocr_settings"; "output_format"] ->
             h_getitem (heap s') (config s') k
             = h_getitem (heap World.scanner) (config World.scanner) k).
Proof.
  split; [apply scanner_wf|]. split; [reflexivity|]. split; [reflexivity|].
  apply (update_button_sets_config sidebar World.scanner (VStr "--psm 6") (VStr "json")).
  - apply scanner_wf.
  - reflexivity.
  - reflexivity.
Defined.

(** After [update_config({'ocr_settings': {'dpi': 150}})] the configuration
    has no [tesseract_config]: Update raises KeyError and the configuration
    stays as it is. *)
Lemma update_button_errors_witness :
  wf dpi_only
  /\ h_subscript (heap dpi_only) (config dpi_only) ["ocr_settings"; "tesseract_config"]
     = Raise KeyError
  /\ exists s',
       App.update_configuration sidebar dpi_only = (Raise KeyError, s')
       /\ wf s'
       /\ config s' = config dpi_only /\ extracted_data s' = extracted_data dpi_only
       /\ calls s' = calls dpi_only
       /\ agree_below (length (heap dpi_only)) (heap dpi_only) (heap s').
Proof.
  assert (h_subscript (heap dpi_only) (config dpi_only)
            ["ocr_settings"; "tesseract_config"] = Raise KeyError) as E
    by (vm_compute; reflexivity).
  split; [apply dpi_only_wf|]. split; [exact E|].
  apply (update_button_errors sidebar dpi_only KeyError).
  - apply dpi_only_wf.
  - left. exact E.
Defined.

(** The two patterns of the valves come back from the text area as they
    are; a category without patterns comes back with the empty pattern. *)
Lemma pattern_lines_round_trip_witness :
  App.category_patterns (true, join (String App.newline "") ["HV-202"; "XV-1"])
  = [VStr "HV-202"; VStr "XV-1"]
  /\ App.category_patterns (true, join (String App.newline "") []) = [VStr ""]
  /\ join (String App.newline "") ["P-101"; "FEED"] = App.equipment_patterns sidebar.
Proof.
  split_and!.
  - apply (proj1 pattern_lines_round_trip ["HV-202"; "XV-1"]).
    repeat constructor; compute_done.
  - apply (proj1 pattern_lines_round_trip []). constructor.
  - apply (proj2 pattern_lines_round_trip (App.equipment_patterns sidebar)
             ["P-101"; "FEED"]).
    reflexivity.
Defined.


(** At the end of the afternoon the session still shows the record of the
    one scan that returned, and the export does not raise ValueError. *)
Lemma session_results_are_scanner_data_witness :
  App.fresh first_session
  /\ match App.results (App.run World.pid_world clicks first_session) with
     | None =>
         deref (heap (App.scanner (App.run World.pid_world clicks first_session)))
               (extracted_data (App.scanner (App.run World.pid_world clicks first_session)))
         = Some (ODict [])
     | Some r =>
         extracted_data (App.scanner (App.run World.pid_world clicks first_session)) = r
         /\ (exists pdf_path text_content found,
               read_record
                 (heap (App.scanner (App.run World.pid_world clicks first_session))) r
               = Some (expected_record pdf_path text_content found))
         /\ (export_to_csv World.pid_world "extracted_data.csv"
               (App.scanner (App.run World.pid_world clicks first_session))).1
            <> Raise ValueError
         /\ (export_to_json World.pid_world "extracted_data.json"
               (App.scanner (App.run World.pid_world clicks first_session))).1
            <> Raise ValueError
     end.
Proof.
  split; [apply first_session_fresh|].
  apply (session_results_are_scanner_data World.pid_world clicks first_session).
  apply first_session_fresh.
Defined.

(** The scan that fails on the mistyped pattern leaves the results of the
    session, and what they read, as they were. *)
Lemma session_record_changes_only_by_scan_witness :
  App.fresh first_session
  /\ ((exists tmp_file_path r s',
         App.ScanPDF "pid.pdf" = App.ScanPDF tmp_file_path
         /\ scan_pdf World.pid_world tmp_file_path
              (App.scanner (App.run World.pid_world (take 4 clicks) first_session))
            = (Ok r, s')
         /\ App.handle World.pid_world
              (App.run World.pid_world (take 4 clicks) first_session)
              (App.ScanPDF "pid.pdf")
            = {| App.scanner := s'; App.results := Some r |}
         /\ App.results (App.run World.pid_world (take 4 clicks) first_session)
            <> Some r)
      \/ (App.results
            (App.handle World.pid_world
               (App.run World.pid_world (take 4 clicks) first_session)
               (App.ScanPDF "pid.pdf"))
          = App.results (App.run World.pid_world (take 4 clicks) first_session)
          /\ forall r,
               App.results (App.run World.pid_world (take 4 clicks) first_session)
               = Some r ->
               extracted_data
                 (App.scanner
                    (App.handle World.pid_world
                       (App.run World.pid_world (take 4 clicks) first_session)
                       (App.ScanPDF "pid.pdf"))) = r
               /\ read_record
                    (heap (App.scanner
                             (App.handle World.pid_world
                                (App.run World.pid_world (take 4 clicks) first_session)
                                (App.ScanPDF "pid.pdf")))) r
                  = read_record
                      (heap (App.scanner
                               (App.run World.pid_world (take 4 clicks) first_session)))
                      r)).
Proof.
  split; [apply first_session_fresh|].
  apply (session_record_changes_only_by_scan World.pid_world (take 4 clicks)
           first_session (App.ScanPDF "pid.pdf")).
  apply first_session_fresh.
Defined.

(** What the afternoon comes to: the scan after the first Update returns
    and its record stays in the session; the scan after the mistyped
    pattern raises [re.error]. *)
Lemma afternoon :
  (scan_pdf World.pid_world "pid.pdf"
     (App.scanner (App.run World.pid_world (take 1 clicks) first_session))).1
  = Ok (VRef 32)
  /\ (scan_pdf World.pid_world "pid.pdf"
        (App.scanner (App.run World.pid_world (take 4 clicks) first_session))).1
     = Raise ReError
  /\ App.results (App.run World.pid_world clicks first_session) = Some (VRef 32)
  /\ (record_extraction_results <$>
        read_record (heap (App.scanner (App.run World.pid_world clicks first_session)))
                    (VRef 32))
     = Some [("equipment_tags", (VInt 2, [VStr "FEED"; VStr "P-101"]));
             ("instruments", (VInt 1, [VStr ""]))].
Proof. vm_compute. done. Qed.

(** The pattern test gets through on the drawing, and so does the scan
    that follows. *)
Lemma pattern_test_then_scan_witness :
  wf World.scanner
  /\ os_path_exists World.pid_world "pid.pdf" = true
  /\ config tested = config World.scanner
  /\ extracted_data tested = extracted_data World.scanner
  /\ calls tested = calls World.scanner
  /\ agree_below (length (heap World.scanner)) (heap World.scanner) (heap tested)
  /\ exists results r s2,
       scan_outcome World.pid_world (heap World.scanner) (config World.scanner)
         (join " " (acquired World.pid_world "pid.pdf" World.scanner)) = Ok results
       /\ scan_pdf World.pid_world "pid.pdf" tested = (Ok r, s2)
       /\ read_record (heap s2) r
          = Some (expected_record "pid.pdf"
                    (acquired World.pid_world "pid.pdf" World.scanner) results).
Proof.
  split; [apply scanner_wf|]. split; [reflexivity|].
  apply (pattern_test_then_scan World.pid_world "pid.pdf" World.scanner tested).
  - apply scanner_wf.
  - reflexivity.
  - apply returned. vm_compute. reflexivity.
Defined.

(** The pattern test is stricter than the scan: on a category that leaves
    [enabled] out it raises KeyError, where the scan takes the category
    as enabled and returns. *)
Lemma pattern_test_is_stricter :
  (Debug.pattern_test World.pid_world
     (join " " (acquired World.pid_world "pid.pdf" (World.scanner_with World.bare_json)))
     (World.scanner_with World.bare_json)).1
  = Raise KeyError
  /\ exists r,
       (scan_pdf World.pid_world "pid.pdf" (World.scanner_with World.bare_json)).1 = Ok r.
Proof. split; [by vm_compute|]. eexists. vm_compute. reflexivity. Qed.
